(* ===== verification/_CoqProject ===== *)
-Q . S2P
Prelude.v
GoText.v
GoTime.v
GoJSON.v
JSONProofs.v
GoHTTP.v
GoURL.v
GoConv.v
GoNet.v
GoCrypto.v
AccessControl.v
Config.v
Crypto.v
StoreTypes.v
Hub.v
Wire.v
Database.v
Migrations.v
StoreCore.v
Deliveries.v
Worker.v
Attachments.v
Backfills.v
Archive.v
CommandQueue.v
SyncRuns.v
Commands.v
Queries.v
Admin.v
Schema.v
StoreFrame.v
AdminProofs.v
ArchiveProofs.v
CommandProofs.v
SyncProofs.v
OutboxProofs.v
DeliveryProofs.v
MessageProofs.v
WorkerProofs.v
BackfillProofs.v
SchemaProofs.v
WorkerSystem.v
World.v
StoreInstance.v
APIInput.v
AdminAPI.v
APIBody.v
Monitor.v
APIProofs.v
Session.v
Service.v
Gateway.v
ServiceInv.v
ServiceProofs.v
ServiceSpec.v
GatewayProofs.v
GatewayHistory.v
ProcessStart.v
APISpec.v
Protocol.v
StoreProperties.v
Scenario.v
AdminScenario.v
Witnesses.v
AdminWitnesses.v
RunWitnesses.v
SystemWitnesses.v
Findings.v
