(* ===== verification/Prelude.v ===== *)
(** * The PushSDK gateway, modelled and verified

    The program is a Go service that face-recognition terminals talk to over the
    PushSDK protocol.  A terminal authenticates (AuthInfo, Login), then keeps a
    rolling challenge: every response carries the next challenge and the next
    request must prove knowledge of it.  Through that session it uploads events,
    fetches ISAPI commands and returns their results.  Everything durable is in
    PostgreSQL; two workers forward attendance events and their pictures to an HTTP
    receiver with signed requests; administrators sign in to a web API, queue commands,
    archive reconciliations and backfills, and watch a monitor.

    ** How the parts interact

    [cmd/gateway] loads the configuration, migrates the database, reconciles it with the
    configuration, restores the sessions and puts two front ends behind one mux: [httpapi]
    for browsers and [pushsdk] for terminals.  [pushsdk.Service] calls the store through
    the interface [serviceStore]; both publish committed activities to [monitor.Hub].
    [store] runs one PostgreSQL transaction per exported method and calls [accesscontrol]
    to read the payload of an event or of a retained-event page.  [delivery.Worker] claims
    and settles rows of a delivery queue through the interface [Queue], which events and
    pictures implement.  [config] gives the terminals.

    ** The files

    Go itself.  [Prelude] (this file): byte strings, 64-bit integers, results, the
    state and error monad [M] of the service, the transaction monad [Tx] of the
    store, weakest preconditions [wp] and the shared tactics and hints.  [GoText]
    (strings, hex, Base64, itoa, character classes of regular expressions), [GoTime]
    (civil dates, RFC 3339), [GoJSON] (UTF-8, the json scanner, struct decoding with
    case folding and unknown fields, encoding) with [JSONProofs] (what is printed parses
    back), [GoHTTP] (query strings, media types,
    requests and responses), [GoURL] (net/url), [GoConv] (strconv, durations with
    their binary64 arithmetic), [GoNet] (host and port, addresses and prefixes, cookies,
    the patterns of [http.ServeMux]), [GoCrypto] (hash, PBKDF2 and AES as parameters
    with their laws; CBC; a toy instance).

    The code under src/internal and src/cmd:
    - [AccessControl]: accesscontrol/events.go, retained.go, attachments.go;
    - [Config]: config/config.go; [Crypto]: pushsdk/crypto.go; [Wire]: pushsdk/events.go
      and commands.go; [Hub]: monitor/hub.go;
    - [StoreTypes]: activity/event.go and the records that cross the store interface;
    - [Database]: the tables of db/schema.sql as finite maps, and transactions
      ([run] is Begin .. Commit: an error leaves the database as it was); [Schema]: every
      clause of db/schema.sql as a predicate on such a database, and a history as a list of
      the 27 writing methods of the store with their arguments, clocks and random bytes;
    - [Migrations]: [Migrate] of store/store.go with the registry of applied scripts;
    - [StoreCore], [Archive], [Admin], [Queries]: the rest of store/store.go (activities,
      terminal states and sessions; event batches, projections and payloads; the
      administrator and browser sessions; overview, archive pages and lists, with the
      lists of the two delivery files);
    - [CommandQueue], [Commands]: store/isapi_commands.go, and from
      access_event_sync.go the start and the reading of a run;
    - [SyncRuns]: the rest of store/access_event_sync.go;
    - [Deliveries]: store/event_deliveries.go; [Attachments]: store/event_attachments.go;
      [Backfills]: store/event_backfills.go; [Worker]: delivery/worker.go;
    - [World]: the interface [ServiceStore] with its laws [ServiceStoreLaws], the
      process state (database, session registry, heap of sessions, metrics,
      publications) and the primitive effects; [Session]: pushsdk/session.go;
      [Service]: pushsdk/service.go.  A session is a heap cell and the registry maps
      a serial to its location, because handlers keep pointers to replaced sessions;
    - [APIInput], [AdminAPI]: httpapi/server.go, delivery.go and attachments.go (what a
      request is parsed to; the 27 routes and their handlers); [APIBody]: the JSON text of
      every answer, from the struct tags; [Monitor]: the connection of handleMonitor, from
      its subscription over the recorded history to the loop of its socket;
    - [Gateway], [ProcessStart]: cmd/gateway/main.go (start-up, the mux and the security
      headers; [main] and [run] with the pool, the migration, the listener, the signal
      and the shutdown).

    Proofs.  [StoreFrame] (what a transaction leaves alone and reports), [AdminProofs],
    [ArchiveProofs], [CommandProofs], [SyncProofs], [OutboxProofs], [DeliveryProofs],
    [BackfillProofs]: the store.  [SchemaProofs]: every method of the store keeps every
    clause of the schema.  [MessageProofs]: the messages the workers send, as a
    receiver decodes them, and its receipts.  [WorkerProofs]: the loop of the worker against
    an interface of its queue ([Settling], [SettlingLaws]) that both queues implement.
    [WorkerSystem]: any number of workers, each step of theirs interleaved with the others and
    with the rest of the gateway; the loop of Worker.v is one of its schedules.
    [StoreInstance]: the store implements [ServiceStoreLaws].  [ServiceInv] (the invariant [inv] and the local view [At] of one
    terminal), [ServiceProofs] (each handler, on every branch and with every database call
    allowed to fail), [ServiceSpec] (the transition system [step]: requests, maintenance
    ticks, restarts, failed starts, calm changes beside the service; [reachable]).
    [APIProofs]: every handler of the API is calm, which is what the service tolerates;
    [GatewayProofs]: the whole gateway as a transition system, its refinement and its
    start; [GatewayHistory]: whatever it does to the database is a history of the store;
    [APISpec]: sessions, sign-in and commands of the API.  [Protocol] and
    [StoreProperties] state properties of the service and of the store.  [Scenario] and
    [AdminScenario] are concrete runs, [Witnesses], [AdminWitnesses], [RunWitnesses] and
    [SystemWitnesses] apply the properties to them, and [Findings] shows behaviours the
    documentation does not promise.

    ** What the theorems show

    - Sessions of terminals (C1-C8, C10, C15): a challenge is in the database before a
      terminal sees it, whatever fails; while the reply of every commit arrives, memory and
      checkpoints agree (C2) and a restart resumes every authenticated session and its
      challenge (C3); a request is served only with the current proof, an unproven one
      changes nothing (C5, every action but AuthInfo and Login, which carry no proof), a
      replay is refused in every later state as long as the random source does not repeat
      the challenge (C6); Login needs the configured credentials; Logout revokes; terminals
      do not affect each other.
    - Service (C9, C11, C14, C16): every request is answered, with any replies of the
      database and a random source that yields usable bytes; publications are committed;
      an acknowledged event is archived as it was sent, or was archived before (C14); the
      concrete store satisfies the interface all this is proved against.
    - Gateway (C12, C17): with the administration, both workers and starts on the same
      process and database, every reachable state is one of the protocol service; a process
      that listens has a valid configuration, a migrated database, the invariant, and
      exactly the configured administrator and terminals.
    - Administration (C13, C18, C25, C39): nothing without a session; a session for whoever
      signs in, which lasts exactly until it expires (C39); commands the API accepts fit the
      database.
    - Database (C27): the schema.  The model of a method refuses what its statements check
      against a request (a CHECK on values of the request, a missing terminal or
      administrator); C27 shows that the other clauses (lifecycle CHECKs, keys, references)
      hold after every history, so that leaving them out of the methods loses nothing.  The
      UNIQUE clause of the pages of a run needs the invariant [paging_ok] beside the schema.
    - Store (C19-C23, C26, C28, C36): commands move only forward, are handed out once,
      oldest first, a claim changing nothing else but what is overdue (C20), with final
      results; each page of a retained-event run is accounted for; an interrupted migration
      resumes to the same database; archive pages lose and repeat nothing as long as no live
      and retained event tie, in whatever order each query reads its rows (C36).
    - Delivery (C29-C32, C34, C35, C40): receipts are accepted exactly (C30); delivered means
      acknowledged for the very message in the very attempt, and no attempt is sent twice,
      with workers and administration interleaved (C31); a batch queues exactly
      the deliveries of its eligible new events; backfills queue what was previewed, once;
      with a receiver that stores what it can read, everything due is settled within the
      ticks the backlog needs, events (C29) and pictures (C32, with the message of the
      archived event): delivered, or failed when its key or its destination is missing.
      Their hypotheses [event_ready] and [picture_ready] ask for messages that decode, with
      identifiers whose receipt fits the 4096 bytes the worker reads.
    - Formats (C24, C33, C37): messages survive the wire, encryption is undone, parsed
      batches are well formed.
    - Monitor (C38): a browser that keeps up sees the history and then every publication.

    Lemmas beside the claims show, among others, that a lease that ran out cannot settle
    anything any more, that maintenance never logs out, that the
    gauge covers the online sessions, the closed form of the retry delay, that answers of
    the API are JSON documents, that a signed-out token stays refused, that the projection backfill ends, exact padding, uniform tokens, and the registry of a
    migrated database.

    ** Choices and bounds

    - Integers are [Z]; where a width matters (JSON numbers, INTEGER columns,
      durations) the range check is written out.  Times are nanoseconds since the
      zero time; PostgreSQL keeps microseconds ([to_micros]).
    - A handler runs under the lock of its terminal, and the session mutex is only
      taken under it, so a request is one step of the system; the steps of different
      terminals interleave in any order.  A store method is one transaction; a list and
      its count are read from one state.
    - [env_fault] makes any database call fail before it commits, [env_lost] makes it commit
      and then return an error, the reply of the commit being lost; the workers have
      [we_fault] and [we_lost].  [replies_arrive] says that no reply is lost; the theorems
      that need it say so.  A migration has the faults only: one that loses the reply of a
      commit leaves the database of one that ends or fails right after it.  [env_now], [env_rand]
      and the context of each transaction are arbitrary; clocks need not be monotone.
    - Every identity column has a sequence of its own, which gives any number it has not
      passed ([cx_gap]: a transaction that rolls back leaves a gap).
    - The pages of the archive order rows that tie in any way, each query in its own
      ([cx_plan], [order_by_plan_onto]).  Elsewhere the order of a query is total or rows
      come in one fixed order; rows another transaction has locked (SKIP LOCKED) are not
      modelled.
    - A publication reaches all monitors in one step ([Hub.Publish]).  The hub publishes
      under a read lock, so two publications may reach two monitors in different orders; no
      theorem compares monitors, and one monitor sees every interleaving.
    - Messages built with %v or %w keep the directive; no theorem reads them.  Where Go
      ranges over a map, the first error in an arbitrary order is the model's first error
      in its own.
    - Fuel: [randomAlphaNumeric] gets 64 reads for 64 characters, enough when each read
      has one usable byte ([random_token_arrives]); the projection backfill takes any fuel
      above the number of stale events ([backfill_terminates]), and the start gives it two
      more than there are events.  Parsers recurse on their input or on its length.
    - Parameters: the primitives of [CryptoLib] with their length and inversion laws;
      [Bcrypt] with its contract; [Postgres] (what a migration script does), [GoParsers]
      (MIME headers, multipart, XML, JPEG), [HTTPClient] and the WebSocket handshake
      without laws.

    ** Not modelled

    Not modelled: the bytes of static files and the metrics text (an answer names the file
    or the metrics), the WebSocket frames below the messages, log output, and the
    scheduling of goroutines inside a step; the web application, nginx and scripts are not
    Go.  Numbers of the fields of an activity stay integers when they come back from the
    database, where encoding/json reads them as float64, which is exact up to 2^53.
    Every function of the Go code is modelled; what is left out are imports, package
    clauses and the settings of the HTTP client ([New] of worker.go), which are
    part of the parameter [HTTPClient].  Of the tables, the columns created_at and updated_at
    that nothing reads are left out, and indexes, which only speed up queries. *)

From Stdlib Require Import ZArith Lia Ascii String.
From stdpp Require Import base gmap strings list option relations numbers.

#[global] Set Default Goal Selector "!".

(** ** Go values

    A Go [string] is [String.string]; a Go [[]byte] is a list of 8-bit
    characters; a Go [int] is a [Z] kept in the 64-bit signed range where the
    code can leave it; a [time.Time] is the number of nanoseconds since the zero
    time, so that [IsZero] is equality with [0]. *)
Abbreviation bytes := (list ascii) (only parsing).
Abbreviation time := Z (only parsing).
Abbreviation duration := Z (only parsing).

Declare Scope go_scope.
Delimit Scope go_scope with go.
Open Scope go_scope.

(** The conversions [[]byte(s)] and [string(b)]. *)
Definition bytes_of (s : string) : bytes := list_ascii_of_string s.
Definition string_of (b : bytes) : string := string_of_list_ascii b.

(** The unsigned value of a byte and the conversion [byte(n)], which wraps. *)
Definition byte_val (b : ascii) : Z := Z.of_N (N_of_ascii b).
Definition byte_of (n : Z) : ascii := ascii_of_N (Z.to_N (n mod 256)).

(** [len] of a slice or string, as a Go [int]. *)
Definition zlen {A} (l : list A) : Z := Z.of_nat (length l).
Definition slen (s : string) : Z := Z.of_nat (String.length s).

(** [int64] wrap-around and range. *)
Definition wrap64 (n : Z) : Z := ((n + 2 ^ 63) mod 2 ^ 64 - 2 ^ 63)%Z.
Definition in_int64 (n : Z) : bool := ((- 2 ^ 63 <=? n) && (n <=? 2 ^ 63 - 1))%Z.

(** [time.Second] and [time.Minute] in nanoseconds. *)
Definition second : duration := 1000000000%Z.
Definition minute : duration := 60000000000%Z.

(** ** Results: the value or the error of a Go call *)
Inductive result (E A : Type) : Type :=
| Ok (a : A)
| Err (e : E).
Arguments Ok {E A} _.
Arguments Err {E A} _.

#[global] Instance result_ret {E} : MRet (result E) := fun A a => Ok a.
#[global] Instance result_bind {E} : MBind (result E) := fun A B k r =>
  match r with Ok a => k a | Err e => Err e end.

Definition is_ok {E A} (r : result E A) : bool :=
  match r with Ok _ => true | Err _ => false end.

Definition ok_or {E A} (o : option A) (e : E) : result E A :=
  match o with Some a => Ok a | None => Err e end.

(** A range loop that threads an accumulator and returns at the first error. *)
Fixpoint foldR {E A B} (f : B -> A -> result E B) (l : list A) (acc : B) : result E B :=
  match l with
  | [] => Ok acc
  | x :: l' => acc' ← f acc x; foldR f l' acc'
  end.

(** ** Stateful code: the state survives an error, as in Go *)
Definition M (E W A : Type) : Type := W -> result E A * W.

#[global] Instance M_ret {E W} : MRet (M E W) := fun A a w => (Ok a, w).
#[global] Instance M_bind {E W} : MBind (M E W) := fun A B k m w =>
  match m w with
  | (Ok a, w') => k a w'
  | (Err e, w') => (Err e, w')
  end.

Definition fail {E W A} (e : E) : M E W A := fun w => (Err e, w).
Definition get_w {E W} : M E W W := fun w => (Ok w, w).
Definition gets {E W A} (f : W -> A) : M E W A := fun w => (Ok (f w), w).
Definition modify {E W} (f : W -> W) : M E W unit := fun w => (Ok tt, f w).
Definition lift {E W A} (r : result E A) : M E W A := fun w => (r, w).

(** [if err := m(); err != nil { ... }]: runs [m] and hands its error over as a value. *)
Definition try_ {E W A} (m : M E W A) : M E W (result E A) :=
  fun w => let '(r, w') := m w in (Ok r, w').

(** A range loop whose body has effects; it stops at the first error. *)
Fixpoint forM {E W A B} (f : B -> A -> M E W B) (l : list A) (acc : B) : M E W B :=
  match l with
  | [] => mret acc
  | x :: l' => acc' ← f acc x; forM f l' acc'
  end.

Fixpoint for_each {E W A} (f : A -> M E W unit) (l : list A) : M E W unit :=
  match l with
  | [] => mret tt
  | x :: l' => f x;; for_each f l'
  end.

(** ** Transactional code: an error rolls the state back *)
Definition Tx (E C S A : Type) : Type := C -> S -> result E (A * S).

#[global] Instance Tx_ret {E C S} : MRet (Tx E C S) := fun A a _ s => Ok (a, s).
#[global] Instance Tx_bind {E C S} : MBind (Tx E C S) := fun A B k m c s =>
  match m c s with
  | Ok (a, s') => k a c s'
  | Err e => Err e
  end.

Definition tx_fail {E C S A} (e : E) : Tx E C S A := fun _ _ => Err e.
Definition tx_ctx {E C S A} (f : C -> A) : Tx E C S A := fun c s => Ok (f c, s).
Definition tx_gets {E C S A} (f : S -> A) : Tx E C S A := fun _ s => Ok (f s, s).
Definition tx_modify {E C S} (f : S -> S) : Tx E C S unit := fun _ s => Ok (tt, f s).
Definition tx_lift {E C S A} (r : result E A) : Tx E C S A :=
  fun _ s => match r with Ok a => Ok (a, s) | Err e => Err e end.

Fixpoint tx_for {E C S A B} (f : B -> A -> Tx E C S B) (l : list A) (acc : B) : Tx E C S B :=
  match l with
  | [] => mret acc
  | x :: l' => acc' ← f acc x; tx_for f l' acc'
  end.

(** ** Weakest preconditions of the stateful monad

    [wp m Q w]: running [m] from [w] ends in a result and a state that satisfy
    [Q].  [M] is total, so this is partial and total correctness at once. *)
Definition wp {E W A} (m : M E W A) (Q : result E A -> W -> Prop) (w : W) : Prop :=
  Q (m w).1 (m w).2.

Section wp_rules.
Context {E W : Type}.

Lemma wp_intro {A} (m : M E W A) Q w r w' : m w = (r, w') -> Q r w' -> wp m Q w.
Proof. intros Heq HQ. unfold wp. by rewrite Heq. Qed.

Lemma wp_elim {A} (m : M E W A) Q w r w' : wp m Q w -> m w = (r, w') -> Q r w'.
Proof. unfold wp. intros HQ Heq. by rewrite Heq in HQ. Qed.

Lemma wp_mono {A} (m : M E W A) (P Q : result E A -> W -> Prop) w :
  wp m P w -> (forall r w', P r w' -> Q r w') -> wp m Q w.
Proof. unfold wp. eauto. Qed.

Lemma wp_and {A} (m : M E W A) (P Q : result E A -> W -> Prop) w :
  wp m P w -> wp m Q w -> wp m (fun r w' => P r w' /\ Q r w') w.
Proof. unfold wp. eauto. Qed.

Lemma wp_ret {A} (a : A) (Q : result E A -> W -> Prop) w : Q (Ok a) w -> wp (mret a) Q w.
Proof. done. Qed.

Lemma wp_fail {A} (e : E) (Q : result E A -> W -> Prop) w : Q (Err e) w -> wp (fail e) Q w.
Proof. done. Qed.

Lemma wp_lift {A} (r : result E A) (Q : result E A -> W -> Prop) w : Q r w -> wp (lift r) Q w.
Proof. done. Qed.

Lemma wp_gets {A} (f : W -> A) (Q : result E A -> W -> Prop) w :
  Q (Ok (f w)) w -> wp (gets f) Q w.
Proof. done. Qed.

Lemma wp_modify f (Q : result E unit -> W -> Prop) w : Q (Ok tt) (f w) -> wp (modify f) Q w.
Proof. done. Qed.

Lemma wp_bind {A B} (m : M E W A) (k : A -> M E W B) Q w :
  wp m (fun r w' => match r with Ok a => wp (k a) Q w' | Err e => Q (Err e) w' end) w ->
  wp (m ≫= k) Q w.
Proof. unfold wp, mbind, M_bind. by destruct (m w) as [[a|e] w'']. Qed.

Lemma wp_try {A} (m : M E W A) (Q : result E (result E A) -> W -> Prop) w :
  wp m (fun r w' => Q (Ok r) w') w -> wp (try_ m) Q w.
Proof. unfold wp, try_. by destruct (m w). Qed.

(** The loop rule: an invariant on the accumulator and the state. *)
Lemma wp_forM {A B} (f : B -> A -> M E W B) (I : B -> W -> Prop)
    (Q : result E B -> W -> Prop) l acc w :
  I acc w ->
  (forall acc x w, x ∈ l -> I acc w ->
     wp (f acc x) (fun r w' => match r with Ok a => I a w' | Err e => Q (Err e) w' end) w) ->
  (forall acc w, I acc w -> Q (Ok acc) w) ->
  wp (forM f l acc) Q w.
Proof.
  intros HI Hstep Hend. revert acc w HI.
  induction l as [|x l IH]; intros acc w HI; simpl; [by apply Hend|].
  apply wp_bind. eapply wp_mono; [apply Hstep; [set_solver|exact HI]|].
  intros [a|e] w'; [|done]. intros HI'. apply IH; [|done].
  intros; apply Hstep; [set_solver|done].
Qed.

Lemma wp_for_each {A} (f : A -> M E W unit) (I : W -> Prop)
    (Q : result E unit -> W -> Prop) l w :
  I w ->
  (forall x w, x ∈ l -> I w ->
     wp (f x) (fun r w' => match r with Ok _ => I w' | Err e => Q (Err e) w' end) w) ->
  (forall w, I w -> Q (Ok tt) w) ->
  wp (for_each f l) Q w.
Proof.
  intros HI Hstep Hend. revert w HI.
  induction l as [|x l IH]; intros w HI; simpl; [by apply Hend|].
  apply wp_bind. eapply wp_mono; [apply Hstep; [set_solver|exact HI]|].
  intros [a|e] w'; [|done]. intros HI'. apply IH; [|done].
  intros; apply Hstep; [set_solver|done].
Qed.
End wp_rules.

(** Inversion of a run that succeeded. *)
Section runs.
Context {E W : Type}.

Lemma bind_Ok {A B} (m : M E W A) (k : A -> M E W B) w b w' :
  (m ≫= k) w = (Ok b, w') -> exists a w1, m w = (Ok a, w1) /\ k a w1 = (Ok b, w').
Proof. unfold mbind, M_bind. destruct (m w) as [[a|e] w1]; [|done]. eauto. Qed.

Lemma try_Ok {A} (m : M E W A) w r w' : try_ m w = (Ok r, w') -> m w = (r, w').
Proof. unfold try_. destruct (m w). by intros [= -> ->]. Qed.

Lemma lift_Ok {A} (r : result E A) (w : W) a w' : lift r w = (Ok a, w') -> r = Ok a /\ w' = w.
Proof. by intros [= -> ->]. Qed.

Lemma run_wp {A} (m : M E W A) w : m w = ((m w).1, (m w).2).
Proof. by destruct (m w). Qed.
End runs.

(** The same for transactions. *)
Section tx_runs.
Context {E C S : Type}.

Lemma tx_bind_Ok {A B} (m : Tx E C S A) (k : A -> Tx E C S B) c s b s' :
  (m ≫= k) c s = Ok (b, s') -> exists a s1, m c s = Ok (a, s1) /\ k a c s1 = Ok (b, s').
Proof. unfold mbind, Tx_bind. destruct (m c s) as [[a s1]|e]; [|done]. eauto. Qed.

Lemma tx_bind_step {A B} (m : Tx E C S A) (k : A -> Tx E C S B) c s a s' :
  m c s = Ok (a, s') -> (m ≫= k) c s = k a c s'.
Proof. unfold mbind, Tx_bind. by intros ->. Qed.

(** The loop rule: an invariant on the elements done, the accumulator and the state. *)
Lemma tx_for_inv {A B} (f : B -> A -> Tx E C S B) (I : list A -> B -> S -> Prop) l c s acc b s' :
  I [] acc s ->
  (forall d x acc acc' s s', I d acc s -> f acc x c s = Ok (acc', s') -> I (d ++ [x]) acc' s') ->
  tx_for f l acc c s = Ok (b, s') -> I l b s'.
Proof.
  intros HI Hstep. cut (forall d acc s, I d acc s -> tx_for f l acc c s = Ok (b, s') -> I (d ++ l) b s').
  { intros H. by apply (H [] acc s). }
  clear HI acc s. induction l as [|x l IH]; intros d acc s HI; simpl.
  - intros [= -> ->]. by rewrite app_nil_r.
  - intros (acc' & s1 & E1 & E2)%tx_bind_Ok.
    specialize (IH (d ++ [x]) acc' s1). rewrite <- app_assoc in IH. eauto.
Qed.
End tx_runs.

(** Steps through the structural rules of [wp]; stops at the operations of the model. *)
Ltac wp_step :=
  lazymatch goal with
  | |- wp (mbind _ _) _ _ => apply wp_bind
  | |- wp (mret _) _ _ => apply wp_ret
  | |- wp (fail _) _ _ => apply wp_fail
  | |- wp (lift _) _ _ => apply wp_lift
  | |- wp (gets _) _ _ => apply wp_gets
  | |- wp (modify _) _ _ => apply wp_modify
  | |- wp (try_ _) _ _ => apply wp_try
  | |- wp (if ?b then _ else _) _ _ => destruct b eqn:?
  | |- wp (match ?o with _ => _ end) _ _ => destruct o eqn:?
  end; cbn beta iota.
Ltac wp_steps := repeat wp_step.

(** ** Hint databases of the development *)
Create HintDb gateway.

(** ** Shared lemmas on bytes and strings *)
Lemma bytes_of_string_of b : bytes_of (string_of b) = b.
Proof. apply list_ascii_of_string_of_list_ascii. Qed.

Lemma string_of_bytes_of s : string_of (bytes_of s) = s.
Proof. apply string_of_list_ascii_of_string. Qed.

Lemma length_bytes_of s : length (bytes_of s) = String.length s.
Proof. induction s; simpl; auto. Qed.

Lemma slen_string_of b : slen (string_of b) = zlen b.
Proof. unfold slen, zlen. by rewrite <- length_bytes_of, bytes_of_string_of. Qed.

Lemma bytes_of_inj s t : bytes_of s = bytes_of t -> s = t.
Proof. intros H. rewrite <- (string_of_bytes_of s), <- (string_of_bytes_of t). by rewrite H. Qed.

Lemma string_of_inj a b : string_of a = string_of b -> a = b.
Proof. intros H. rewrite <- (bytes_of_string_of a), <- (bytes_of_string_of b). by rewrite H. Qed.

Lemma bytes_of_app s t : bytes_of (s +:+ t) = bytes_of s ++ bytes_of t.
Proof. unfold bytes_of. induction s; simpl; [done|]. by f_equal. Qed.

Lemma byte_val_range b : (0 <= byte_val b < 256)%Z.
Proof.
  unfold byte_val. assert (N_of_ascii b < 256)%N; [|lia].
  apply N_ascii_bounded.
Qed.

Lemma byte_val_of n : byte_val (byte_of n) = (n mod 256)%Z.
Proof.
  unfold byte_val, byte_of. pose proof (Z.mod_pos_bound n 256 eq_refl).
  rewrite N_ascii_embedding; lia.
Qed.

Lemma byte_of_val b : byte_of (byte_val b) = b.
Proof.
  unfold byte_of. pose proof (byte_val_range b).
  rewrite Z.mod_small by lia. unfold byte_val. rewrite N2Z.id. apply ascii_N_embedding.
Qed.

Lemma byte_val_inj a b : byte_val a = byte_val b -> a = b.
Proof. intros H. by rewrite <- (byte_of_val a), <- (byte_of_val b), H. Qed.

Lemma wrap64_small n : (- 2 ^ 63 <= n < 2 ^ 63)%Z -> wrap64 n = n.
Proof. intros H. unfold wrap64. rewrite Z.mod_small; lia. Qed.

Lemma zlen_nonneg {A} (l : list A) : (0 <= zlen l)%Z.
Proof. unfold zlen. lia. Qed.

Lemma zlen_app {A} (l k : list A) : zlen (l ++ k) = (zlen l + zlen k)%Z.
Proof. unfold zlen. rewrite length_app. lia. Qed.

Lemma foldR_app {E A B} (f : B -> A -> result E B) l k acc :
  foldR f (l ++ k) acc = (acc' ← foldR f l acc; foldR f k acc').
Proof. revert acc. induction l as [|x l IH]; intros acc; simpl; [done|]. destruct (f acc x); simpl; auto. Qed.

(** The loop rule of [foldR]: an invariant kept by every successful iteration. *)
Lemma foldR_inv {E A B} (f : B -> A -> result E B) (I : list A -> B -> Prop) l acc r :
  I [] acc ->
  (forall done x acc acc', I done acc -> f acc x = Ok acc' -> I (done ++ [x]) acc') ->
  foldR f l acc = Ok r -> I l r.
Proof.
  intros H0 Hstep. cut (forall d acc, I d acc -> foldR f l acc = Ok r -> I (d ++ l) r).
  { intros H Hf. by apply (H [] acc). }
  clear H0 acc. induction l as [|x l IH]; intros d acc HI Hf; simpl in Hf.
  - rewrite app_nil_r. congruence.
  - destruct (f acc x) as [acc'|] eqn:Hx; simpl in Hf; [|done].
    specialize (IH (d ++ [x]) acc'). rewrite <- app_assoc in IH. eauto.
Qed.

#[export] Hint Rewrite bytes_of_string_of string_of_bytes_of bytes_of_app byte_val_of byte_of_val : gateway.
