(* ===== verification/GoText.v ===== *)
(** The text functions of the Go standard library the gateway calls:
    character classes of its anchored regular expressions, [strings.Split],
    [strconv]/[fmt] decimal integers, [encoding/hex] and the standard padded
    [encoding/base64], with their round trips. *)

From Stdlib Require Import ZArith Lia Ascii String.
From stdpp Require Import base strings list pretty.
From S2P Require Import Prelude.

Local Open Scope Z_scope.

(** ** Character classes *)
Definition char_in (lo hi : Z) (c : ascii) : bool := (lo <=? byte_val c) && (byte_val c <=? hi).
Definition is_digit (c : ascii) : bool := char_in 48 57 c.
Definition is_upper (c : ascii) : bool := char_in 65 90 c.
Definition is_lower (c : ascii) : bool := char_in 97 122 c.
Definition is_alnum (c : ascii) : bool := is_digit c || is_upper c || is_lower c.
Definition is_lower_hex (c : ascii) : bool := is_digit c || char_in 97 102 c.
Definition is_hex (c : ascii) : bool := is_lower_hex c || char_in 65 70 c.

(** [^[class]{lo,hi}$]: every byte in the class, and the length within bounds. *)
Definition class_between (p : ascii -> bool) (lo hi : nat) (s : string) : bool :=
  let l := bytes_of s in
  (lo <=? length l)%nat && (length l <=? hi)%nat && forallb p l.
Definition class_exactly (p : ascii -> bool) (n : nat) (s : string) : bool :=
  class_between p n n s.

(** ** [strings.Split] with a one-byte separator *)
Fixpoint split_bytes (sep : ascii) (cur : bytes) (l : bytes) : list bytes :=
  match l with
  | [] => [reverse cur]
  | c :: l' => if bool_decide (c = sep) then reverse cur :: split_bytes sep [] l'
               else split_bytes sep (c :: cur) l'
  end.
Definition strings_Split (s : string) (sep : ascii) : list string :=
  string_of <$> split_bytes sep [] (bytes_of s).

(** [strings.Join] with a one-byte separator. *)
Fixpoint join_bytes (sep : ascii) (ls : list bytes) : bytes :=
  match ls with
  | [] => []
  | [l] => l
  | l :: ls' => l ++ sep :: join_bytes sep ls'
  end.

(** [strconv.Itoa] and [fmt.Sprintf("%d", n)]. *)
Definition itoa (n : Z) : string := pretty n.

(** ** encoding/hex *)
Definition hex_digit (v : Z) : ascii := byte_of (if v <? 10 then 48 + v else 87 + v).

Definition hex_value (c : ascii) : option Z :=
  let v := byte_val c in
  if is_digit c then Some (v - 48)
  else if char_in 97 102 c then Some (v - 87)
  else if char_in 65 70 c then Some (v - 55)
  else None.

Definition hex_byte (b : ascii) : bytes :=
  [hex_digit (byte_val b / 16); hex_digit (byte_val b mod 16)].

Definition hex_encode (b : bytes) : bytes := b ≫= hex_byte.
Definition hex_EncodeToString (b : bytes) : string := string_of (hex_encode b).

Fixpoint hex_decode (l : bytes) : option bytes :=
  match l with
  | [] => Some []
  | [_] => None
  | h :: lo :: l' =>
      x ← hex_value h; y ← hex_value lo; rest ← hex_decode l';
      Some (byte_of (16 * x + y) :: rest)
  end.
Definition hex_DecodeString (s : string) : option bytes := hex_decode (bytes_of s).

(** [strings.HasSuffix] *)
Definition has_suffix (s suffix : string) : bool :=
  bool_decide (drop (length (bytes_of s) - length (bytes_of suffix)) (bytes_of s) = bytes_of suffix).

(** ** encoding/base64, [StdEncoding] *)
Definition b64_alphabet : bytes :=
  Eval cbv in bytes_of "ABCDEFGHIJKLMNOPQRSTUVWXYZabcdefghijklmnopqrstuvwxyz0123456789+/".

Definition b64_char (v : Z) : ascii := nth (Z.to_nat v) b64_alphabet "A"%char.

Definition b64_value (c : ascii) : option Z :=
  let v := byte_val c in
  if is_upper c then Some (v - 65)
  else if is_lower c then Some (v - 71)
  else if is_digit c then Some (v + 4)
  else if v =? 43 then Some 62
  else if v =? 47 then Some 63
  else None.

Definition b64_pad : ascii := "="%char.

Fixpoint b64_encode (l : bytes) : bytes :=
  match l with
  | [] => []
  | [a] =>
      let n := byte_val a * 65536 in
      [b64_char (n / 262144); b64_char (n / 4096 mod 64); b64_pad; b64_pad]
  | [a; b] =>
      let n := byte_val a * 65536 + byte_val b * 256 in
      [b64_char (n / 262144); b64_char (n / 4096 mod 64); b64_char (n / 64 mod 64); b64_pad]
  | a :: b :: c :: l' =>
      let n := byte_val a * 65536 + byte_val b * 256 + byte_val c in
      [b64_char (n / 262144); b64_char (n / 4096 mod 64);
       b64_char (n / 64 mod 64); b64_char (n mod 64)] ++ b64_encode l'
  end.

(** The decoder reads groups of four characters; padding is allowed only in the
    last group, and the unused bits before it are not checked. *)
Fixpoint b64_groups (l : bytes) : option bytes :=
  match l with
  | [] => Some []
  | a :: b :: c :: d :: l' =>
      x ← b64_value a; y ← b64_value b;
      if bool_decide (c = b64_pad) then
        if bool_decide (d = b64_pad) && bool_decide (l' = []) then
          Some [byte_of ((x * 262144 + y * 4096) / 65536)]
        else None
      else
        z ← b64_value c;
        if bool_decide (d = b64_pad) then
          if bool_decide (l' = []) then
            let n := x * 262144 + y * 4096 + z * 64 in
            Some [byte_of (n / 65536); byte_of (n / 256)]
          else None
        else
          w ← b64_value d; rest ← b64_groups l';
          let n := x * 262144 + y * 4096 + z * 64 + w in
          Some (byte_of (n / 65536) :: byte_of (n / 256) :: byte_of n :: rest)
  | _ => None
  end.

Definition is_newline (c : ascii) : bool := (byte_val c =? 10) || (byte_val c =? 13).

(** [DecodeString] skips carriage returns and line feeds anywhere. *)
Definition b64_DecodeString (s : string) : option bytes :=
  b64_groups (List.filter (fun c => negb (is_newline c)) (bytes_of s)).
Definition b64_EncodeToString (b : bytes) : string := string_of (b64_encode b).

(** [length(text)] of PostgreSQL: characters of a UTF-8 text, each a byte that continues none. *)
Definition continues (c : ascii) : bool := char_in 128 191 c.
Definition text_length (s : string) : Z :=
  Z.of_nat (length (List.filter (fun c => negb (continues c)) (bytes_of s))).

(** ** Facts *)

(** ASCII has as many characters as bytes. *)
Definition is_ascii (c : ascii) : bool := char_in 0 127 c.
Lemma text_length_ascii s : Forall (fun c => is_ascii c = true) (bytes_of s) -> text_length s = slen s.
Proof.
  intros Hs. unfold text_length, slen. rewrite <- length_bytes_of. f_equal. f_equal.
  induction Hs as [|c l Hc Hs IH]; simpl; [done|]. assert (continues c = false) as ->; [|simpl; by rewrite IH].
  unfold continues, is_ascii, char_in in *. apply andb_true_iff in Hc as [_ Hc%Z.leb_le].
  apply andb_false_iff. left. apply Z.leb_gt. lia.
Qed.
Lemma lower_hex_ascii c : is_lower_hex c = true -> is_ascii c = true.
Proof.
  unfold is_lower_hex, is_digit, is_ascii, char_in. rewrite orb_true_iff, !andb_true_iff, !Z.leb_le. lia.
Qed.

(** Every byte, for case analysis by computation. *)
Definition all_bytes : list ascii := Eval vm_compute in byte_of ∘ Z.of_nat <$> seq 0 256.

Lemma all_bytes_complete c : In c all_bytes.
Proof.
  change all_bytes with (byte_of ∘ Z.of_nat <$> seq 0 256).
  apply list_elem_of_In, list_elem_of_fmap. exists (Z.to_nat (byte_val c)).
  pose proof (byte_val_range c). split.
  - simpl. rewrite Z2Nat.id by lia. by rewrite byte_of_val.
  - apply elem_of_seq. lia.
Qed.

(** A boolean fact about bytes holds when it holds of the 256 of them. *)
Lemma byte_cases (p : ascii -> bool) : forallb p all_bytes = true -> forall c, p c = true.
Proof. intros H c. rewrite forallb_forall in H. apply H, all_bytes_complete. Qed.

(** The same for the values below [n]. *)
Lemma value_cases (n : nat) (p : Z -> bool) :
  forallb p (Z.of_nat <$> seq 0 n) = true -> forall v, 0 <= v < Z.of_nat n -> p v = true.
Proof.
  intros H v Hv. rewrite forallb_forall in H. apply H.
  apply list_elem_of_In, list_elem_of_fmap. exists (Z.to_nat v).
  split; [lia|]. apply elem_of_seq. lia.
Qed.

Lemma class_between_spec p lo hi s :
  class_between p lo hi s = true <->
  (lo <= length (bytes_of s) <= hi)%nat /\ Forall (fun c => p c = true) (bytes_of s).
Proof.
  unfold class_between. rewrite !andb_true_iff, !Nat.leb_le, forallb_forall, Forall_forall.
  setoid_rewrite list_elem_of_In. tauto.
Qed.

Lemma class_exactly_spec p n s :
  class_exactly p n s = true <->
  length (bytes_of s) = n /\ Forall (fun c => p c = true) (bytes_of s).
Proof. unfold class_exactly. rewrite class_between_spec. intuition lia. Qed.

(** Induction two elements at a time. *)
Lemma list_ind2 {A} (P : list A -> Prop) :
  P [] -> (forall x, P [x]) -> (forall x y l, P l -> P (x :: y :: l)) -> forall l, P l.
Proof.
  intros H0 H1 H2 l. cut (P l /\ forall x, P (x :: l)); [tauto|].
  induction l as [|y l [IH IH']]; auto.
Qed.

(** *** Splitting and joining *)
Lemma split_bytes_cur sep cur l :
  exists h t, split_bytes sep cur l = (reverse cur ++ h) :: t /\ split_bytes sep [] l = h :: t.
Proof.
  revert cur. induction l as [|c l IH]; intros cur; simpl.
  - exists [], []. by rewrite app_nil_r.
  - case_bool_decide.
    + eexists [], _. by rewrite app_nil_r.
    + destruct (IH (c :: cur)) as (h & t & H1 & H2).
      destruct (IH [c]) as (h' & t' & H1' & H2'). rewrite H2 in H2'. simplify_eq.
      exists (c :: h'), t'. rewrite H1, H1'. rewrite !reverse_cons.
      rewrite <- app_assoc. done.
Qed.

(** Splitting a text into the pieces it was joined from. *)
Lemma split_bytes_piece sep cur l r :
  sep ∉ l -> split_bytes sep cur (l ++ sep :: r) = (reverse cur ++ l) :: split_bytes sep [] r.
Proof.
  revert cur. induction l as [|c l IH]; intros cur Hl; simpl.
  - by rewrite bool_decide_true, app_nil_r.
  - apply not_elem_of_cons in Hl as [Hc Hl]. rewrite bool_decide_false, IH by auto.
    by rewrite reverse_cons, <- app_assoc.
Qed.

Lemma split_bytes_last sep cur l : sep ∉ l -> split_bytes sep cur l = [reverse cur ++ l].
Proof.
  revert cur. induction l as [|c l IH]; intros cur Hl; simpl; [by rewrite app_nil_r|].
  apply not_elem_of_cons in Hl as [Hc Hl]. rewrite bool_decide_false, IH by auto. by rewrite reverse_cons, <- app_assoc.
Qed.

Lemma split_bytes_join sep l : join_bytes sep (split_bytes sep [] l) = l.
Proof.
  induction l as [|c l IH]; simpl; [done|]. case_bool_decide as Hc.
  - subst c. destruct (split_bytes sep [] l) as [|h t] eqn:E.
    { by destruct (split_bytes_cur sep [] l) as (? & ? & ? & ?); congruence. }
    simpl. by rewrite <- IH.
  - destruct (split_bytes_cur sep [c] l) as (h & t & H1 & H2).
    rewrite H1. rewrite H2 in IH. simpl in *. destruct t; by rewrite <- IH.
Qed.

(** *** Hexadecimal *)
Lemma hex_value_digit v : 0 <= v < 16 -> hex_value (hex_digit v) = Some v.
Proof.
  intros Hv.
  cut (bool_decide (hex_value (hex_digit v) = Some v) = true); [apply bool_decide_eq_true|].
  revert v Hv. change 16 with (Z.of_nat 16). apply value_cases. by vm_compute.
Qed.

Lemma hex_digit_lower v : 0 <= v < 16 -> is_lower_hex (hex_digit v) = true.
Proof. revert v. change 16 with (Z.of_nat 16). apply value_cases. by vm_compute. Qed.

Lemma hex_encode_cons b l : hex_encode (b :: l) = hex_byte b ++ hex_encode l.
Proof. done. Qed.

Lemma hex_byte_range b : 0 <= byte_val b / 16 < 16 /\ 0 <= byte_val b mod 16 < 16.
Proof. pose proof (byte_val_range b). Z.to_euclidean_division_equations. lia. Qed.

Lemma hex_decode_encode l : hex_decode (hex_encode l) = Some l.
Proof.
  induction l as [|b l IH]; [done|]. rewrite hex_encode_cons. simpl.
  destruct (hex_byte_range b). rewrite !hex_value_digit by done. simpl. rewrite IH. simpl.
  f_equal. f_equal. rewrite <- (byte_of_val b) at 3. f_equal.
  pose proof (Z.div_mod (byte_val b) 16). lia.
Qed.

Lemma length_hex_encode l : length (hex_encode l) = (2 * length l)%nat.
Proof. induction l; [done|]. rewrite hex_encode_cons, length_app, IHl. simpl. lia. Qed.

Lemma length_hex_decode l b : hex_decode l = Some b -> length l = (2 * length b)%nat.
Proof.
  revert b. induction l as [|c|c d l IH] using list_ind2; intros b Hb; simplify_eq/=; [done|].
  destruct (hex_value c), (hex_value d), (hex_decode l) as [r|]; simplify_eq/=.
  rewrite (IH r); [lia|done].
Qed.

Lemma hex_encode_lower l : Forall (fun c => is_lower_hex c = true) (hex_encode l).
Proof.
  induction l as [|b l IH]; [constructor|]. rewrite hex_encode_cons.
  destruct (hex_byte_range b). repeat constructor; auto using hex_digit_lower.
Qed.

Lemma hex_encode_inj a b : hex_encode a = hex_encode b -> a = b.
Proof.
  intros H. apply (f_equal hex_decode) in H. rewrite !hex_decode_encode in H. by simplify_eq.
Qed.

Lemma hex_EncodeToString_inj a b : hex_EncodeToString a = hex_EncodeToString b -> a = b.
Proof. intros H. by apply hex_encode_inj, string_of_inj. Qed.

Lemma hex_EncodeToString_class l n :
  length l = n -> class_exactly is_lower_hex (2 * n) (hex_EncodeToString l) = true.
Proof.
  intros <-. apply class_exactly_spec. unfold hex_EncodeToString.
  rewrite bytes_of_string_of, length_hex_encode. auto using hex_encode_lower.
Qed.

(** *** Base64 *)
Lemma b64_value_char v : 0 <= v < 64 -> b64_value (b64_char v) = Some v.
Proof.
  intros Hv.
  cut (bool_decide (b64_value (b64_char v) = Some v) = true); [apply bool_decide_eq_true|].
  revert v Hv. change 64 with (Z.of_nat 64). apply value_cases. by vm_compute.
Qed.

Lemma b64_char_not_special v :
  0 <= v < 64 -> b64_char v <> b64_pad /\ is_newline (b64_char v) = false.
Proof.
  intros Hv.
  cut (negb (bool_decide (b64_char v = b64_pad)) && negb (is_newline (b64_char v)) = true).
  { rewrite andb_true_iff, !negb_true_iff, bool_decide_eq_false. tauto. }
  revert v Hv. change 64 with (Z.of_nat 64). apply value_cases. by vm_compute.
Qed.

Ltac b64_digits :=
  repeat match goal with
  | |- context [b64_value (b64_char ?v)] =>
      rewrite (b64_value_char v) by (Z.to_euclidean_division_equations; lia)
  | |- context [bool_decide (b64_char ?v = b64_pad)] =>
      rewrite (bool_decide_eq_false_2 (b64_char v = b64_pad))
        by (apply b64_char_not_special; Z.to_euclidean_division_equations; lia)
  end.

Lemma byte_of_eq n b : n mod 256 = byte_val b -> byte_of n = b.
Proof. intros H. apply byte_val_inj. by rewrite byte_val_of. Qed.

Ltac b64_byte := apply byte_of_eq; Z.to_euclidean_division_equations; lia.

Lemma list_ind3 {A} (P : list A -> Prop) :
  P [] -> (forall a, P [a]) -> (forall a b, P [a; b]) ->
  (forall a b c l, P l -> P (a :: b :: c :: l)) -> forall l, P l.
Proof.
  intros H0 H1 H2 H3 l.
  assert (P l /\ (forall a, P (a :: l)) /\ (forall a b, P (a :: b :: l))) as [? _]; [|done].
  induction l as [|x l (IH0 & IH1 & IH2)]; [auto|]. eauto.
Qed.

Lemma b64_groups_encode l : b64_groups (b64_encode l) = Some l.
Proof.
  induction l as [|a|a b|a b c l IH] using list_ind3; [done| | |];
    pose proof (byte_val_range a); try pose proof (byte_val_range b);
    try pose proof (byte_val_range c); simpl.
  - b64_digits. simpl. f_equal. f_equal. b64_byte.
  - b64_digits. simpl. b64_digits. simpl. f_equal.
    f_equal; [|f_equal]; b64_byte.
  - b64_digits. simpl. b64_digits. simpl. rewrite IH. simpl. f_equal.
    f_equal; [|f_equal; [|f_equal]]; b64_byte.
Qed.

Lemma b64_encode_no_newline l : Forall (fun c => is_newline c = false) (b64_encode l).
Proof.
  induction l as [|a|a b|a b c l IH] using list_ind3; [constructor| | |];
    pose proof (byte_val_range a); try pose proof (byte_val_range b);
    try pose proof (byte_val_range c); cbn [b64_encode]; repeat constructor; try done;
    apply b64_char_not_special; Z.to_euclidean_division_equations; lia.
Qed.

Lemma b64_char_in v : In (b64_char v) b64_alphabet.
Proof. unfold b64_char. destruct (nth_in_or_default (Z.to_nat v) b64_alphabet "A"%char) as [?| ->]; [done|by left]. Qed.

Lemma b64_encode_chars l : Forall (fun c => c = b64_pad \/ In c b64_alphabet) (b64_encode l).
Proof.
  induction l as [|a|a b|a b c l IH] using list_ind3; cbn [b64_encode];
    repeat (apply Forall_cons_2; [first [right; apply b64_char_in | left; reflexivity]|]); auto.
Qed.

Lemma filter_all {A} (p : A -> bool) l : Forall (fun c => p c = true) l -> List.filter p l = l.
Proof. induction 1 as [|c l Hc _ IH]; simpl; [done|]. by rewrite Hc, IH. Qed.

Lemma b64_roundtrip b : b64_DecodeString (b64_EncodeToString b) = Some b.
Proof.
  unfold b64_DecodeString, b64_EncodeToString. rewrite bytes_of_string_of, filter_all.
  - apply b64_groups_encode.
  - eapply Forall_impl; [apply b64_encode_no_newline|]. simpl. intros c ->. done.
Qed.

Lemma length_b64_encode_nil b : b64_EncodeToString b = "" -> b = [].
Proof. destruct b as [|? [|? [|? ?]]]; done. Qed.

(** *** Splitting a text that does not contain the separator *)
Lemma split_bytes_none sep cur l : sep ∉ l -> split_bytes sep cur l = [reverse cur ++ l].
Proof.
  revert cur. induction l as [|c l IH]; intros cur Hn; simpl; [by rewrite app_nil_r|].
  apply not_elem_of_cons in Hn as [Hc Hl]. rewrite bool_decide_eq_false_2 by congruence.
  rewrite IH by done. by rewrite reverse_cons, <- app_assoc.
Qed.

(** *** Decimal integers contain only digits and a sign *)
Lemma pretty_N_go_chars x s :
  Forall (fun c => is_digit c = true) (bytes_of s) ->
  Forall (fun c => is_digit c = true) (bytes_of (pretty_N_go x s)).
Proof.
  revert s. induction (N.lt_wf_0 x) as [x _ IH]; intros s Hs.
  assert (x = 0 \/ 0 < x)%N as [->|?] by lia; [done|].
  rewrite pretty_N_go_step by done. apply IH; [by apply N.div_lt|].
  change (bytes_of (String ?c ?s)) with (c :: bytes_of s). constructor; [|done].
  unfold pretty_N_char. by repeat case_match.
Qed.

Lemma itoa_chars n : Forall (fun c => is_digit c || (byte_val c =? 45) = true) (bytes_of (itoa n)).
Proof.
  assert (forall p, Forall (fun c => is_digit c = true) (bytes_of (pretty (N.pos p)))) as Hp.
  { intros p. unfold pretty, pretty_N. case_decide; [done|]. apply pretty_N_go_chars. constructor. }
  unfold itoa, pretty, pretty_Z. destruct n as [|p|p].
  - by repeat constructor.
  - eapply Forall_impl; [apply Hp|]. simpl. intros ? ->. done.
  - rewrite bytes_of_app. apply Forall_app. split; [by repeat constructor|].
    eapply Forall_impl; [apply Hp|]. simpl. intros ? ->. done.
Qed.

Lemma itoa_inj a b : itoa a = itoa b -> a = b.
Proof. apply pretty_Z_inj. Qed.
