(* ===== verification/GoTime.v ===== *)
(** The part of package time the gateway uses: instants with a zone offset, and
    the RFC 3339 layout of [time.Parse], [Format] and [MarshalJSON]. *)

From Stdlib Require Import ZArith Lia Ascii String.
From stdpp Require Import base strings list option.
From S2P Require Import Prelude GoText.

Local Open Scope string_scope.
Local Open Scope Z_scope.

(** A [time.Time]: nanoseconds since the zero time, and the offset of its
    location from UTC in seconds. *)
Record Time := mkTime { t_ns : time; t_offset : Z }.

(** ** The Gregorian calendar *)
Definition is_leap (y : Z) : bool :=
  (y mod 4 =? 0) && (negb (y mod 100 =? 0) || (y mod 400 =? 0)).

Definition days_in (m y : Z) : Z :=
  if m =? 2 then (if is_leap y then 29 else 28)
  else if (m =? 4) || (m =? 6) || (m =? 9) || (m =? 11) then 30 else 31.

(** Days from 1 March of year 0 to a date: years start in March, so that the
    leap day is the last one, and repeat every 400 years. *)
Definition day_of_year (m d : Z) : Z := (153 * (if m <=? 2 then m + 9 else m - 3) + 2) / 5 + d - 1.
Definition day_of_era (yoe doy : Z) : Z := yoe * 365 + yoe / 4 - yoe / 100 + doy.
Definition march_days (y m d : Z) : Z :=
  let y' := if m <=? 2 then y - 1 else y in
  (y' / 400) * 146097 + day_of_era (y' mod 400) (day_of_year m d).

(** 306 days separate 1 March of year 0 and 1 January of year 1. *)
Definition days_from_civil (y m d : Z) : Z := march_days y m d - 306.

(** The date of a day of the 400-year era: year of the era, month, day. *)
Definition era_date (doe : Z) : Z * Z * Z :=
  let yoe := (doe - doe / 1460 + doe / 36524 - doe / 146096) / 365 in
  let doy := doe - (365 * yoe + yoe / 4 - yoe / 100) in
  let mp := (5 * doy + 2) / 153 in
  (yoe, if mp <? 10 then mp + 3 else mp - 9, doy - (153 * mp + 2) / 5 + 1).

Definition civil_from_days (n : Z) : Z * Z * Z :=
  let z := n + 306 in
  let '(yoe, m, d) := era_date (z mod 146097) in
  ((z / 146097) * 400 + yoe + (if m <=? 2 then 1 else 0), m, d).

(** [time.Date(y, m, d, h, mi, s, ns, zone)] for components in range. *)
Definition time_Date (y m d h mi s ns offset : Z) : Time :=
  mkTime ((((days_from_civil y m d * 24 + h) * 60 + mi) * 60 + s - offset) * second + ns) offset.

(** The components of a time in its own zone. *)
Record civil := mkCivil {
  c_year : Z; c_month : Z; c_day : Z; c_hour : Z; c_minute : Z; c_second : Z; c_nano : Z
}.
Definition civil_of (t : Time) : civil :=
  let local := t_ns t + t_offset t * second in
  let secs := local / second in
  let '(y, m, d) := civil_from_days (secs / 86400) in
  mkCivil y m d (secs mod 86400 / 3600) (secs mod 3600 / 60) (secs mod 60) (local mod second).

(** ** Formatting *)

(** [appendInt(b, n, width)] for [n >= 0]. *)
Fixpoint digits_of (width : nat) (n : Z) : bytes :=
  match width with
  | O => []
  | S w => (digits_of w (n / 10) ++ [byte_of (48 + n mod 10)])%list
  end.

(** [appendInt(b, year, 4)]: years before 0 and after 9999 take more room. *)
Definition year_text (y : Z) : bytes :=
  if (0 <=? y) && (y <=? 9999) then digits_of 4 y
  else let digits := bytes_of (itoa (Z.abs y)) in
       ((if y <? 0 then ["-"%char] else []) ++ replicate (4 - length digits) "0"%char ++ digits)%list.

Definition zone_text (offset : Z) : bytes :=
  if offset =? 0 then ["Z"%char]
  else let zone := Z.quot offset 60 in
       let a := Z.abs zone in
       ((if offset <? 0 then "-"%char else "+"%char) ::
        digits_of 2 (a / 60) ++ ":"%char :: digits_of 2 (a mod 60))%list.

Definition date_time_text (c : civil) : bytes :=
  (year_text (c_year c) ++ "-"%char :: digits_of 2 (c_month c) ++ "-"%char :: digits_of 2 (c_day c)
   ++ "T"%char :: digits_of 2 (c_hour c) ++ ":"%char :: digits_of 2 (c_minute c)
   ++ ":"%char :: digits_of 2 (c_second c))%list.

(** [t.Format(time.RFC3339)] *)
Definition Format_RFC3339 (t : Time) : string :=
  string_of (date_time_text (civil_of t) ++ zone_text (t_offset t)).

Fixpoint trim_zeros (l : bytes) : bytes :=
  match l with
  | [] => []
  | c :: l' => match trim_zeros l' with
               | [] => if byte_val c =? 48 then [] else [c]
               | r => c :: r
               end
  end.

(** [t.Format(time.RFC3339Nano)], which [MarshalJSON] writes. *)
Definition Format_RFC3339Nano (t : Time) : string :=
  let frac := trim_zeros (digits_of 9 (c_nano (civil_of t))) in
  string_of (date_time_text (civil_of t)
             ++ (match frac with [] => [] | _ => "."%char :: frac end) ++ zone_text (t_offset t)).

(** Whether [MarshalJSON] succeeds: a year of four digits and a zone hour up to 23. *)
Definition MarshalJSON_ok (t : Time) : bool :=
  let y := c_year (civil_of t) in
  (0 <=? y) && (y <=? 9999) && (Z.abs (Z.quot (t_offset t) 60) / 60 <? 24).

(** [t.Unix()]: seconds since 1970. *)
Definition Unix (t : time) : Z := t / second - 62135596800.

(** ** Parsing *)
Definition digit (c : ascii) : option Z := if is_digit c then Some (byte_val c - 48) else None.

(** [getnum(s, true)]: exactly two digits. *)
Definition two_digits (l : bytes) : option (Z * bytes) :=
  match l with
  | a :: b :: l' => x ← digit a; y ← digit b; Some (10 * x + y, l')
  | _ => None
  end.

(** [getnum(s, false)]: one digit, or two. *)
Definition one_or_two_digits (l : bytes) : option (Z * bytes) :=
  match l with
  | a :: l' =>
      x ← digit a;
      match l' with
      | b :: l'' => match digit b with Some y => Some (10 * x + y, l'') | None => Some (x, l') end
      | [] => Some (x, l')
      end
  | [] => None
  end.

Definition four_digits (l : bytes) : option (Z * bytes) :=
  '(h, l1) ← two_digits l; '(w, l2) ← two_digits l1; Some (100 * h + w, l2).

Definition lit (c : ascii) (l : bytes) : option bytes :=
  match l with x :: l' => if bool_decide (x = c) then Some l' else None | [] => None end.

Fixpoint span_digits (l : bytes) : bytes * bytes :=
  match l with
  | c :: l' => if is_digit c then let '(a, b) := span_digits l' in (c :: a, b) else ([], l)
  | [] => ([], [])
  end.

(** [parseNanoseconds] of a digit string: at most nine digits count. *)
Definition nanos (digits : bytes) : Z :=
  foldl (fun n c => 10 * n + (byte_val c - 48)) 0 (take 9 (digits ++ replicate 9 "0"%char)).

(** A fraction may follow the seconds although the layout has none. *)
Definition fraction_opt (l : bytes) : Z * bytes :=
  match l with
  | p :: d :: _ =>
      if (bool_decide (p = "."%char) || bool_decide (p = ","%char)) && is_digit d
      then let '(ds, rest) := span_digits (tl l) in (nanos ds, rest)
      else (0, l)
  | _ => (0, l)
  end.

Definition in_range (lo hi n : Z) : option unit := if (lo <=? n) && (n <=? hi) then Some tt else None.

(** [Z07:00] *)
Definition zone_opt (l : bytes) : option (Z * bytes) :=
  match l with
  | c :: l' =>
      if bool_decide (c = "Z"%char) then Some (0, l')
      else
        '(h, l1) ← two_digits l'; l2 ← lit ":"%char l1; '(m, l3) ← two_digits l2;
        in_range 0 24 h;; in_range 0 60 m;;
        if bool_decide (c = "+"%char) then Some ((h * 60 + m) * 60, l3)
        else if bool_decide (c = "-"%char) then Some (- ((h * 60 + m) * 60), l3)
        else None
  | [] => None
  end.

(** [time.Parse(time.RFC3339, value)] *)
Definition Parse_RFC3339 (value : string) : option Time :=
  '(year, l) ← four_digits (bytes_of value); l ← lit "-"%char l;
  '(month, l) ← two_digits l; in_range 1 12 month;; l ← lit "-"%char l;
  '(day, l) ← two_digits l; l ← lit "T"%char l;
  '(hour, l) ← one_or_two_digits l; in_range 0 23 hour;; l ← lit ":"%char l;
  '(minute, l) ← two_digits l; in_range 0 59 minute;; l ← lit ":"%char l;
  '(sec, l) ← two_digits l; in_range 0 59 sec;;
  let '(ns, l) := fraction_opt l in
  '(offset, l) ← zone_opt l;
  in_range 1 (days_in month year) day;;
  match l with
  | [] => Some (time_Date year month day hour minute sec ns offset)
  | _ => None
  end.

(** ** The calendar is a bijection, and RFC 3339 text round-trips *)
Fixpoint all_from (k : nat) (z : Z) (p : Z -> bool) : bool :=
  match k with O => true | S k' => p z && all_from k' (z + 1) p end.

Lemma all_from_spec k z p :
  all_from k z p = true -> forall x, z <= x < z + Z.of_nat k -> p x = true.
Proof.
  revert z. induction k as [|k IH]; intros z Hall x Hx; [lia|]. simpl in Hall.
  apply andb_true_iff in Hall as [Hz Hall]. destruct (decide (x = z)) as [->|]; [done|].
  apply (IH (z + 1) Hall). lia.
Qed.

(** The year a date of the era belongs to, in 0..400. *)
Definition era_year (yoe m : Z) : Z := yoe + (if m <=? 2 then 1 else 0).

Definition era_ok (doe : Z) : bool :=
  let '(yoe, m, d) := era_date doe in
  (0 <=? yoe) && (yoe <? 400) && (1 <=? m) && (m <=? 12) && (1 <=? d) && (d <=? days_in m (era_year yoe m))
  && (day_of_era yoe (day_of_year m d) =? doe).

Lemma era_date_ok doe : 0 <= doe < 146097 -> era_ok doe = true.
Proof.
  intros Hd. apply (all_from_spec (Z.to_nat 146097) 0); [|lia].
  vm_cast_no_check (eq_refl true).
Qed.

Lemma is_leap_era y k : is_leap (y + k * 400) = is_leap y.
Proof.
  unfold is_leap. rewrite Z_mod_plus_full.
  replace (y + k * 400) with (y + (k * 100) * 4) at 1 by lia. rewrite Z_mod_plus_full.
  replace (y + k * 400) with (y + (k * 4) * 100) by lia. by rewrite Z_mod_plus_full.
Qed.

Lemma days_in_era m y k : days_in m (y + k * 400) = days_in m y.
Proof. unfold days_in. by rewrite is_leap_era. Qed.

(** The date of a day is a date, and is the date of that day. *)
Lemma civil_from_days_spec n y m d :
  civil_from_days n = (y, m, d) ->
  1 <= m <= 12 /\ 1 <= d <= days_in m y /\ days_from_civil y m d = n.
Proof.
  unfold civil_from_days. pose proof (Z.mod_pos_bound (n + 306) 146097 eq_refl) as Hb.
  pose proof (era_date_ok _ Hb) as Hok. unfold era_ok in Hok.
  destruct (era_date _) as [[yoe m'] d'] eqn:He. intros [= <- <- <-].
  rewrite !andb_true_iff, !Z.leb_le, Z.ltb_lt, Z.eqb_eq in Hok.
  destruct Hok as [[[[[[Hy0 Hy1] Hm0] Hm1] Hd0] Hd1] Hdoe].
  split; [lia|]. unfold era_year in Hd1. split.
  - split; [done|]. rewrite <- (days_in_era _ _ ((n + 306) / 146097)) in Hd1.
    match goal with H : _ <= days_in _ ?a |- _ <= days_in _ ?b => by replace b with a by lia end.
  - unfold days_from_civil, march_days.
    set (q := (n + 306) / 146097) in *.
    replace (if m' <=? 2 then q * 400 + yoe + (if m' <=? 2 then 1 else 0) - 1
             else q * 400 + yoe + (if m' <=? 2 then 1 else 0)) with (yoe + q * 400)
      by (destruct (m' <=? 2); lia).
    rewrite Z_div_plus_full, Z_mod_plus_full, (Z.div_small yoe), (Z.mod_small yoe), Hdoe by lia.
    pose proof (Z.div_mod (n + 306) 146097). lia.
Qed.

Lemma civil_of_Date t :
  let c := civil_of t in
  time_Date (c_year c) (c_month c) (c_day c) (c_hour c) (c_minute c) (c_second c) (c_nano c) (t_offset t) = t /\
  1 <= c_month c <= 12 /\ 1 <= c_day c <= days_in (c_month c) (c_year c) /\
  0 <= c_hour c <= 23 /\ 0 <= c_minute c <= 59 /\ 0 <= c_second c <= 59 /\ 0 <= c_nano c < second.
Proof.
  unfold civil_of. set (local := t_ns t + t_offset t * second). set (secs := local / second).
  destruct (civil_from_days _) as [[y m] d] eqn:Hc. apply civil_from_days_spec in Hc as (Hm & Hd & Hdays).
  simpl.
  assert (((secs / 86400 * 24 + secs mod 86400 / 3600) * 60 + secs mod 3600 / 60) * 60 + secs mod 60 = secs /\
          0 <= secs mod 86400 / 3600 <= 23 /\ 0 <= secs mod 3600 / 60 <= 59 /\ 0 <= secs mod 60 <= 59) as Hs
    by (Z.to_euclidean_division_equations; lia).
  destruct Hs as (Hsecs & Hh & Hmi & Hse).
  pose proof (Z.mod_pos_bound local second eq_refl) as Hns.
  split_and!; try done; try lia.
  unfold time_Date. rewrite Hdays, Hsecs. destruct t as [ns off]. simpl in *. f_equal.
  assert (local = second * (local / second) + local mod second) as Hl by (by apply Z.div_mod).
  fold secs in Hl. unfold local in *. unfold second in *. lia.
Qed.

Lemma digit_of n : 0 <= n < 10 -> digit (byte_of (48 + n)) = Some n.
Proof.
  intros Hn. unfold digit, is_digit, char_in. rewrite byte_val_of, Z.mod_small by lia.
  rewrite (proj2 (Z.leb_le 48 (48 + n))), (proj2 (Z.leb_le (48 + n) 57)) by lia. simpl. f_equal. lia.
Qed.

Lemma two_digits_of n l : 0 <= n < 100 -> two_digits (digits_of 2 n ++ l) = Some (n, l).
Proof.
  intros Hn. cbn [digits_of app two_digits].
  rewrite !digit_of by (apply Z.mod_pos_bound; lia).
  cbn [mbind option_bind]. do 2 f_equal. Z.to_euclidean_division_equations; lia.
Qed.

Lemma four_digits_of n l : 0 <= n < 10000 -> four_digits (digits_of 4 n ++ l) = Some (n, l).
Proof.
  intros Hn. unfold four_digits.
  assert (digits_of 4 n ++ l = digits_of 2 (n / 100) ++ digits_of 2 (n mod 100) ++ l)%list as ->.
  { cbn [digits_of app].
    replace (n / 10 / 10 / 10) with (n / 100 / 10) by (Z.to_euclidean_division_equations; lia).
    replace (n / 10 / 10) with (n / 100) by (Z.to_euclidean_division_equations; lia).
    replace (n mod 100 / 10 mod 10) with (n / 10 mod 10) by (Z.to_euclidean_division_equations; lia).
    by replace (n mod 100 mod 10) with (n mod 10) by (Z.to_euclidean_division_equations; lia). }
  rewrite two_digits_of by (Z.to_euclidean_division_equations; lia). cbn [mbind option_bind].
  rewrite two_digits_of by (Z.to_euclidean_division_equations; lia). cbn [mbind option_bind].
  do 2 f_equal. Z.to_euclidean_division_equations; lia.
Qed.

Lemma year_text_small y : 0 <= y < 10000 -> year_text y = digits_of 4 y.
Proof. intros Hy. unfold year_text. by rewrite (proj2 (Z.leb_le 0 y)), (proj2 (Z.leb_le y 9999)) by lia. Qed.

Lemma one_or_two_digits_of n l : 0 <= n < 100 -> one_or_two_digits (digits_of 2 n ++ l) = Some (n, l).
Proof.
  intros Hn. cbn [digits_of app one_or_two_digits].
  rewrite !digit_of by (apply Z.mod_pos_bound; lia).
  cbn [mbind option_bind]. 
  do 2 f_equal. Z.to_euclidean_division_equations; lia.
Qed.

Lemma lit_cons c l : lit c (c :: l) = Some l.
Proof. unfold lit. by rewrite bool_decide_eq_true_2. Qed.

Lemma in_range_ok lo hi n : lo <= n <= hi -> in_range lo hi n = Some tt.
Proof. intros Hn. unfold in_range. by rewrite (proj2 (Z.leb_le lo n)), (proj2 (Z.leb_le n hi)) by lia. Qed.

(** Offsets are whole minutes, up to a day. *)
Definition zone_ok (offset : Z) : Prop := exists m, offset = 60 * m /\ -1440 <= m <= 1440.

Lemma zone_text_parse offset : zone_ok offset -> zone_opt (zone_text offset) = Some (offset, []).
Proof.
  intros (m & -> & Hm). unfold zone_text. destruct (60 * m =? 0) eqn:Hz; [by replace (60 * m) with 0 by lia|].
  replace (Z.quot (60 * m) 60) with m by (rewrite Z.mul_comm, Z.quot_mul; lia).
  assert (forall sign, bool_decide (sign = "Z"%char) = false ->
    zone_opt (sign :: digits_of 2 (Z.abs m / 60) ++ ":"%char :: digits_of 2 (Z.abs m mod 60))%list =
    if bool_decide (sign = "+"%char) then Some ((Z.abs m / 60 * 60 + Z.abs m mod 60) * 60, [])
    else if bool_decide (sign = "-"%char) then Some (- ((Z.abs m / 60 * 60 + Z.abs m mod 60) * 60), [])
    else None) as Hgen.
  { intros sign Hs. unfold zone_opt. rewrite Hs.
    rewrite two_digits_of by (Z.to_euclidean_division_equations; lia). cbn [mbind option_bind].
    rewrite lit_cons. cbn [mbind option_bind].
    rewrite <- (app_nil_r (digits_of 2 (Z.abs m mod 60))).
    rewrite two_digits_of by (Z.to_euclidean_division_equations; lia). cbn [mbind option_bind].
    rewrite !in_range_ok by (Z.to_euclidean_division_equations; lia). done. }
  destruct (60 * m <? 0) eqn:Hneg; rewrite Hgen by done; cbn; do 2 f_equal;
    Z.to_euclidean_division_equations; lia.
Qed.

(** [zone_opt] starts with a letter or a sign, so no fraction is read. *)
Lemma fraction_opt_zone offset : fraction_opt (zone_text offset) = (0, zone_text offset).
Proof.
  unfold zone_text. destruct (offset =? 0); [done|]. by destruct (offset <? 0).
Qed.

(** Reading a date and time of day leaves the fraction and the zone. *)
Lemma date_time_parse t tail :
  0 <= c_year (civil_of t) < 10000 ->
  Parse_RFC3339 (string_of (date_time_text (civil_of t) ++ tail)) =
  let '(ns, l) := fraction_opt tail in
  '(offset, l) ← zone_opt l;
  match l with
  | [] => let c := civil_of t in
          Some (time_Date (c_year c) (c_month c) (c_day c) (c_hour c) (c_minute c) (c_second c) ns offset)
  | _ => None
  end.
Proof.
  intros Hy. destruct (civil_of_Date t) as (_ & Hm & Hd & Hh & Hmi & Hs & _).
  assert (days_in (c_month (civil_of t)) (c_year (civil_of t)) <= 31) as H31 by (unfold days_in; repeat case_match; lia).
  unfold Parse_RFC3339. rewrite bytes_of_string_of. unfold date_time_text.
  rewrite year_text_small by lia. repeat (rewrite <- app_assoc; cbn [app]).
  rewrite four_digits_of by lia. cbn [mbind option_bind]. rewrite lit_cons. cbn [mbind option_bind].
  rewrite two_digits_of by lia. cbn [mbind option_bind]. rewrite in_range_ok by lia. cbn [mbind option_bind].
  rewrite lit_cons. cbn [mbind option_bind].
  rewrite two_digits_of by lia. cbn [mbind option_bind]. rewrite lit_cons. cbn [mbind option_bind].
  rewrite one_or_two_digits_of by lia. cbn [mbind option_bind]. rewrite in_range_ok by lia. cbn [mbind option_bind].
  rewrite lit_cons. cbn [mbind option_bind].
  rewrite two_digits_of by lia. cbn [mbind option_bind]. rewrite in_range_ok by lia. cbn [mbind option_bind].
  rewrite lit_cons. cbn [mbind option_bind].
  rewrite two_digits_of by lia. cbn [mbind option_bind]. rewrite in_range_ok by lia. cbn [mbind option_bind].
  destruct (fraction_opt tail) as [ns l]. destruct (zone_opt l) as [[offset l']|]; cbn [mbind option_bind];
    by rewrite in_range_ok by lia.
Qed.

(** Times survive their text form: a time with whole seconds, a year of four digits
    and a zone offset in whole minutes is read back from its RFC 3339 form as it was,
    instant and offset. *)
Theorem rfc3339_roundtrip t :
  t_ns t mod second = 0 -> zone_ok (t_offset t) -> 0 <= c_year (civil_of t) < 10000 ->
  Parse_RFC3339 (Format_RFC3339 t) = Some t.
Proof.
  intros Hns Hz Hy. destruct (civil_of_Date t) as (Hdate & _).
  assert (c_nano (civil_of t) = 0) as Hnano.
  { unfold civil_of. destruct (civil_from_days _) as [[? ?] ?]. simpl. by rewrite Z_mod_plus_full. }
  unfold Format_RFC3339. rewrite date_time_parse by done. rewrite fraction_opt_zone, zone_text_parse by done.
  cbn [mbind option_bind]. rewrite Hnano in Hdate. by rewrite Hdate.
Qed.

(** *** The fraction of a second *)
Lemma digits_of_length w n : length (digits_of w n) = w.
Proof. revert n. induction w as [|w IH]; intros n; [done|]. cbn [digits_of]. rewrite length_app, IH. simpl. lia. Qed.

Lemma digits_of_digits w n : Forall (fun c => is_digit c = true) (digits_of w n).
Proof.
  revert n. induction w as [|w IH]; intros n; cbn [digits_of]; [constructor|]. apply Forall_app. split; [done|].
  constructor; [|constructor]. pose proof (digit_of (n mod 10) (Z.mod_pos_bound n 10 eq_refl)) as H.
  unfold digit in H. by destruct (is_digit _).
Qed.

Lemma digits_of_value w n : 0 <= n < 10 ^ Z.of_nat w ->
  foldl (fun n c => 10 * n + (byte_val c - 48)) 0 (digits_of w n) = n.
Proof.
  revert n. induction w as [|w IH]; intros n Hn; [simpl in *; lia|]. cbn [digits_of].
  rewrite Nat2Z.inj_succ, Z.pow_succ_r in Hn by lia. rewrite foldl_app. cbn [foldl].
  rewrite IH by (Z.to_euclidean_division_equations; lia). pose proof (Z.mod_pos_bound n 10 eq_refl).
  rewrite byte_val_of, Z.mod_small by lia. pose proof (Z.div_mod n 10). lia.
Qed.

Lemma trim_zeros_padded l : (trim_zeros l ++ replicate (length l - length (trim_zeros l)) "0"%char)%list = l.
Proof.
  induction l as [|c l IH]; [done|]. cbn [trim_zeros]. destruct (trim_zeros l) as [|d r] eqn:E.
  - rewrite Nat.sub_0_r in IH. simpl in IH. destruct (Z.eqb_spec (byte_val c) 48) as [Hc|_].
    + simpl. rewrite IH. f_equal. rewrite <- (byte_of_val c), Hc. done.
    + simpl. by rewrite Nat.sub_0_r, IH.
  - change (length (c :: l) - length (c :: d :: r))%nat with (length l - length (d :: r))%nat.
    rewrite <- app_comm_cons. by rewrite IH.
Qed.

Lemma trim_zeros_nanos n : 0 <= n < second -> nanos (trim_zeros (digits_of 9 n)) = n.
Proof.
  intros Hn. pose proof (trim_zeros_padded (digits_of 9 n)) as Hp. rewrite digits_of_length in Hp.
  set (l := trim_zeros _) in *. unfold nanos.
  assert (Hl : (length l <= 9)%nat).
  { pose proof (f_equal length Hp) as H. rewrite length_app, digits_of_length in H. lia. }
  assert (take 9 (l ++ replicate 9 "0"%char)%list = digits_of 9 n) as ->; [|by apply digits_of_value].
  rewrite <- Hp. replace (replicate 9 "0"%char) with (replicate (9 - length l) "0"%char ++ replicate (length l) "0"%char)%list
    by (rewrite <- replicate_add; f_equal; lia).
  rewrite app_assoc, take_app_length'; [done|]. rewrite length_app, length_replicate. lia.
Qed.

Lemma span_digits_app ds rest :
  Forall (fun c => is_digit c = true) ds -> (forall c l, rest = c :: l -> is_digit c = false) ->
  span_digits (ds ++ rest)%list = (ds, rest).
Proof.
  intros Hd Hr. induction Hd as [|c ds Hc _ IH]; cbn [app span_digits].
  - destruct rest as [|c l]; [done|]. cbn [span_digits]. by rewrite (Hr c l).
  - by rewrite Hc, IH.
Qed.

Lemma zone_text_starts offset c l : zone_text offset = c :: l -> is_digit c = false.
Proof.
  unfold zone_text. destruct (offset =? 0); [by intros [= <- <-]|]. by destruct (offset <? 0); intros [= <- <-].
Qed.

Lemma fraction_opt_nanos n offset : 0 <= n < second ->
  let frac := trim_zeros (digits_of 9 n) in
  fraction_opt ((match frac with [] => [] | _ => "."%char :: frac end) ++ zone_text offset)%list = (n, zone_text offset).
Proof.
  intros Hn frac. pose proof (trim_zeros_nanos n Hn) as Hv.
  assert (Hd : Forall (fun c => is_digit c = true) frac).
  { pose proof (digits_of_digits 9 n) as H. rewrite <- (trim_zeros_padded (digits_of 9 n)) in H. apply Forall_app in H as [H _]. exact H. }
  fold frac in Hv. clearbody frac. destruct frac as [|d frac].
  { cbn [app]. rewrite fraction_opt_zone. by rewrite <- Hv. }
  cbn [app fraction_opt]. inversion Hd as [|? ? Hd1 _]; subst. rewrite Hd1. cbn [orb andb bool_decide tl].
  change (d :: frac ++ zone_text offset)%list with ((d :: frac) ++ zone_text offset)%list.
  by rewrite span_digits_app by (done || apply zone_text_starts).
Qed.

(** A time whose year and zone [MarshalJSON] can print is read back from its text, to the nanosecond. *)
Lemma rfc3339nano_roundtrip t :
  zone_ok (t_offset t) -> 0 <= c_year (civil_of t) < 10000 -> Parse_RFC3339 (Format_RFC3339Nano t) = Some t.
Proof.
  intros Hz Hy. destruct (civil_of_Date t) as (Hdate & _ & _ & _ & _ & _ & Hn). unfold Format_RFC3339Nano.
  rewrite date_time_parse, fraction_opt_nanos, zone_text_parse by done. cbn [mbind option_bind]. by rewrite Hdate.
Qed.
