(* ===== verification/GoJSON.v ===== *)
(** [unicode/utf8] and [encoding/json] of the Go standard library, as far as the
    gateway uses them: the scanner and decoder behind [json.Decoder] (exact and
    case-folded member names, [DisallowUnknownFields], [null], repeated members,
    reuse of slice elements), and [json.Marshal] of the response structures. *)

From Stdlib Require Import ZArith Lia Ascii String.
From stdpp Require Import base strings list option.
From S2P Require Import Prelude GoText.

Local Open Scope Z_scope.
Set Warnings "-register-all".

(** ** unicode/utf8 *)
Module Utf8.
Definition RuneError : Z := 65533.

Definition cont (c : ascii) : bool := char_in 128 191 c.

(** [DecodeRune]: the rune and the number of bytes it takes; [RuneError] and one
    byte for an ill-formed sequence. *)
Definition decode_rune (l : bytes) : option (Z * nat) :=
  match l with
  | [] => None
  | c0 :: l1 =>
      let v0 := byte_val c0 in
      if v0 <? 128 then Some (v0, 1%nat) else
      match l1 with
      | c1 :: l2 =>
          let v1 := byte_val c1 in
          if char_in 194 223 c0 then
            if cont c1 then Some ((v0 - 192) * 64 + (v1 - 128), 2%nat) else Some (RuneError, 1%nat)
          else
          match l2 with
          | c2 :: l3 =>
              let v2 := byte_val c2 in
              if char_in 224 239 c0 then
                let lo := if v0 =? 224 then 160 else 128 in
                let hi := if v0 =? 237 then 159 else 191 in
                if char_in lo hi c1 && cont c2 then
                  Some ((v0 - 224) * 4096 + (v1 - 128) * 64 + (v2 - 128), 3%nat)
                else Some (RuneError, 1%nat)
              else
              match l3 with
              | c3 :: _ =>
                  if char_in 240 244 c0 then
                    let lo := if v0 =? 240 then 144 else 128 in
                    let hi := if v0 =? 244 then 143 else 191 in
                    if char_in lo hi c1 && cont c2 && cont c3 then
                      Some ((v0 - 240) * 262144 + (v1 - 128) * 4096 + (v2 - 128) * 64
                            + (byte_val c3 - 128), 4%nat)
                    else Some (RuneError, 1%nat)
                  else Some (RuneError, 1%nat)
              | [] => Some (RuneError, 1%nat)
              end
          | [] => Some (RuneError, 1%nat)
          end
      | [] => Some (RuneError, 1%nat)
      end
  end.

(** [EncodeRune]; surrogates and values out of range encode [RuneError]. *)
Definition encode_rune (r : Z) : bytes :=
  let r := if (r <? 0) || (1114111 <? r) || ((55296 <=? r) && (r <=? 57343)) then RuneError else r in
  if r <? 128 then [byte_of r]
  else if r <? 2048 then [byte_of (192 + r / 64); byte_of (128 + r mod 64)]
  else if r <? 65536 then
    [byte_of (224 + r / 4096); byte_of (128 + r / 64 mod 64); byte_of (128 + r mod 64)]
  else
    [byte_of (240 + r / 262144); byte_of (128 + r / 4096 mod 64);
     byte_of (128 + r / 64 mod 64); byte_of (128 + r mod 64)].

(** The runes of a string as a [range] loop sees them: [skip] bytes of the
    current rune are still to be passed over. *)
Fixpoint runes_from (skip : nat) (l : bytes) : list Z :=
  match l with
  | [] => []
  | _ :: l' =>
      match skip with
      | S k => runes_from k l'
      | O => match decode_rune l with
             | Some (r, w) => r :: runes_from (w - 1) l'
             | None => []
             end
      end
  end.
Definition runes (l : bytes) : list Z := runes_from 0 l.

(** [unicode.IsSpace]. *)
Definition IsSpace (r : Z) : bool :=
  ((9 <=? r) && (r <=? 13)) || (r =? 32) || (r =? 133) || (r =? 160) || (r =? 5760)
  || ((8192 <=? r) && (r <=? 8202)) || (r =? 8232) || (r =? 8233) || (r =? 8239)
  || (r =? 8287) || (r =? 12288).

(** [strings.TrimSpace(s) == ""]. *)
Definition blank (s : string) : bool := forallb IsSpace (runes (bytes_of s)).
End Utf8.

(** ** JSON values

    An array element and an object member keep the source bytes of their value,
    which is what [json.RawMessage] receives; a number keeps its literal. *)
Inductive json : Type :=
| JNull
| JBool (b : bool)
| JNumber (lit : string)
| JString (s : string)
| JArray (elems : list (bytes * json))
| JObject (members : list (string * (bytes * json))).

(** ** The scanner *)
Module Scan.
Definition is_ws (c : ascii) : bool :=
  let v := byte_val c in (v =? 32) || (v =? 9) || (v =? 13) || (v =? 10).

Fixpoint skip_ws (l : bytes) : bytes :=
  match l with
  | c :: l' => if is_ws c then skip_ws l' else l
  | [] => []
  end.

(** The raw text of a string literal after its opening quote, and what follows
    the closing quote. *)
Fixpoint string_body (l : bytes) : option (bytes * bytes) :=
  match l with
  | [] => None
  | c :: l' =>
      let v := byte_val c in
      if v =? 34 then Some ([], l')
      else if v <? 32 then None
      else if v =? 92 then
        match l' with
        | [] => None
        | e :: l'' =>
            let ev := byte_val e in
            if ev =? 117 then
              match l'' with
              | a :: b :: c' :: d :: l3 =>
                  if is_hex a && is_hex b && is_hex c' && is_hex d then
                    '(raw, rest) ← string_body l3; Some (c :: e :: a :: b :: c' :: d :: raw, rest)
                  else None
              | _ => None
              end
            else if bool_decide (e ∈ bytes_of "bfnrt\/") || (ev =? 34) then
              '(raw, rest) ← string_body l''; Some (c :: e :: raw, rest)
            else None
        end
      else '(raw, rest) ← string_body l'; Some (c :: raw, rest)
  end.

Definition hex4 (a b c d : ascii) : Z :=
  let h x := default 0 (hex_value x) in h a * 4096 + h b * 256 + h c * 16 + h d.

(** The text of a literal: escapes are replaced, surrogate pairs joined, and
    ill-formed UTF-8 becomes U+FFFD.  [skip] counts bytes already consumed. *)
Fixpoint unquote (skip : nat) (l : bytes) : bytes :=
  match l with
  | [] => []
  | c :: l' =>
      match skip with
      | S k => unquote k l'
      | O =>
          if byte_val c =? 92 then
            match l' with
            | e :: l'' =>
                let ev := byte_val e in
                if ev =? 117 then
                  match l'' with
                  | h1 :: h2 :: h3 :: h4 :: l3 =>
                      let r := hex4 h1 h2 h3 h4 in
                      let pair :=
                        if (55296 <=? r) && (r <=? 56319) then
                          match l3 with
                          | b1 :: u1 :: g1 :: g2 :: g3 :: g4 :: _ =>
                              let s := hex4 g1 g2 g3 g4 in
                              if (byte_val b1 =? 92) && (byte_val u1 =? 117)
                                 && is_hex g1 && is_hex g2 && is_hex g3 && is_hex g4
                                 && (56320 <=? s) && (s <=? 57343)
                              then Some ((r - 55296) * 1024 + (s - 56320) + 65536) else None
                          | _ => None
                          end
                        else None in
                      match pair with
                      | Some p => Utf8.encode_rune p ++ unquote 11 l'
                      | None => Utf8.encode_rune r ++ unquote 5 l'
                      end
                  | _ => []
                  end
                else
                  let out := if ev =? 98 then 8 else if ev =? 102 then 12
                             else if ev =? 110 then 10 else if ev =? 114 then 13
                             else if ev =? 116 then 9 else ev in
                  byte_of out :: unquote 1 l'
            | [] => []
            end
          else if byte_val c <? 128 then c :: unquote 0 l'
          else match Utf8.decode_rune l with
               | Some (r, w) => Utf8.encode_rune r ++ unquote (w - 1) l'
               | None => []
               end
      end
  end.

(** Digits, greedily. *)
Fixpoint digits (l : bytes) : bytes * bytes :=
  match l with
  | c :: l' => if is_digit c then let '(d, r) := digits l' in (c :: d, r) else ([], l)
  | [] => ([], [])
  end.

Definition fraction (l : bytes) : option (bytes * bytes) :=
  match l with
  | c :: l' => if byte_val c =? 46 then
                 match digits l' with ([], _) => None | (d, r) => Some (c :: d, r) end
               else Some ([], l)
  | [] => Some ([], [])
  end.

Definition exponent (l : bytes) : option (bytes * bytes) :=
  match l with
  | c :: l' =>
      if (byte_val c =? 101) || (byte_val c =? 69) then
        let '(sign, l2) := match l' with
                           | s :: l2 => if (byte_val s =? 43) || (byte_val s =? 45)
                                        then ([s], l2) else ([], l')
                           | [] => ([], [])
                           end in
        match digits l2 with ([], _) => None | (d, r) => Some (c :: sign ++ d, r) end
      else Some ([], l)
  | [] => Some ([], [])
  end.

Definition minus (l : bytes) : bytes * bytes :=
  match l with
  | c :: l' => if byte_val c =? 45 then ([c], l') else ([], l)
  | [] => ([], [])
  end.

(** A number literal: [-]? int frac? exp?, with no leading zero. *)
Definition number (l : bytes) : option (bytes * bytes) :=
  let '(sign, l1) := minus l in
  '(int, l2) ← match l1 with
               | c :: l' => if byte_val c =? 48 then Some ([c], l')
                            else match digits l1 with ([], _) => None | (d, r) => Some (d, r) end
               | [] => None
               end;
  '(frac, l3) ← fraction l2;
  '(ex, l4) ← exponent l3;
  Some (sign ++ int ++ frac ++ ex, l4).

Fixpoint strip_prefix (p l : bytes) : option bytes :=
  match p, l with
  | [], _ => Some l
  | a :: p', b :: l' => if bool_decide (a = b) then strip_prefix p' l' else None
  | _ :: _, [] => None
  end.

(** The outcome of a parser: a value and the rest, a syntax error, or the
    fuel running out (which [parse_never_out_of_fuel] excludes). *)
Inductive pres (A : Type) : Type :=
| POk (a : A) (rest : bytes)
| PFail
| PFuel.
Arguments POk {A} _ _.
Arguments PFail {A}.
Arguments PFuel {A}.

Definition of_option {A} (o : option (A * bytes)) : pres A :=
  match o with Some (a, r) => POk a r | None => PFail end.
Definition pbind {A B} (p : pres A) (k : A -> bytes -> pres B) : pres B :=
  match p with POk a r => k a r | PFail => PFail | PFuel => PFuel end.

Definition maxNestingDepth : nat := Z.to_nat 10000.

(** The bytes of [l] before its suffix [rest]. *)
Definition consumed (l rest : bytes) : bytes := take (length l - length rest) l.

Definition literal (l : bytes) : pres json :=
  match l with
  | [] => PFail
  | c :: l' =>
      if byte_val c =? 34 then
        of_option ('(raw, r) ← string_body l'; Some (JString (string_of (unquote 0 raw)), r))
      else if byte_val c =? 116 then of_option (r ← strip_prefix (bytes_of "true") l; Some (JBool true, r))
      else if byte_val c =? 102 then of_option (r ← strip_prefix (bytes_of "false") l; Some (JBool false, r))
      else if byte_val c =? 110 then of_option (r ← strip_prefix (bytes_of "null") l; Some (JNull, r))
      else of_option ('(lit, r) ← number l; Some (JNumber (string_of lit), r))
  end.

(** [value]: the value at the head of [l] (no leading white space), inside
    [depth] open arrays and objects.  [elems] and [members] continue an array
    or object at an element or member. *)
Fixpoint value (fuel : nat) (depth : nat) (l : bytes) : pres json :=
  match fuel with
  | O => PFuel
  | S fuel' =>
      match l with
      | c :: l' =>
          if byte_val c =? 91 then
            if (maxNestingDepth <=? depth)%nat then PFail else
            match skip_ws l' with
            | d :: r => if byte_val d =? 93 then POk (JArray []) r
                        else pbind (elems fuel' (S depth) (d :: r)) (fun es r' => POk (JArray es) r')
            | [] => PFail
            end
          else if byte_val c =? 123 then
            if (maxNestingDepth <=? depth)%nat then PFail else
            match skip_ws l' with
            | d :: r => if byte_val d =? 125 then POk (JObject []) r
                        else pbind (members fuel' (S depth) (d :: r)) (fun ms r' => POk (JObject ms) r')
            | [] => PFail
            end
          else literal l
      | [] => PFail
      end
  end
with elems (fuel : nat) (depth : nat) (l : bytes) : pres (list (bytes * json)) :=
  match fuel with
  | O => PFuel
  | S fuel' =>
      pbind (value fuel' depth l) (fun v r =>
        let e := (consumed l r, v) in
        match skip_ws r with
        | c :: r' =>
            if byte_val c =? 44 then
              pbind (elems fuel' depth (skip_ws r')) (fun es r'' => POk (e :: es) r'')
            else if byte_val c =? 93 then POk [e] r'
            else PFail
        | [] => PFail
        end)
  end
with members (fuel : nat) (depth : nat) (l : bytes) : pres (list (string * (bytes * json))) :=
  match fuel with
  | O => PFuel
  | S fuel' =>
      match l with
      | q :: l' =>
          if byte_val q =? 34 then
            match string_body l' with
            | Some (rawkey, r1) =>
                match skip_ws r1 with
                | colon :: r2 =>
                    if byte_val colon =? 58 then
                      let l3 := skip_ws r2 in
                      pbind (value fuel' depth l3) (fun v r =>
                        let m := (string_of (unquote 0 rawkey), (consumed l3 r, v)) in
                        match skip_ws r with
                        | c :: r' =>
                            if byte_val c =? 44 then
                              pbind (members fuel' depth (skip_ws r')) (fun ms r'' => POk (m :: ms) r'')
                            else if byte_val c =? 125 then POk [m] r'
                            else PFail
                        | [] => PFail
                        end)
                    else PFail
                | [] => PFail
                end
            | None => PFail
            end
          else PFail
      | [] => PFail
      end
  end.

(** The first value of a stream and the bytes after it; every call consumes a
    byte, so twice the length of the input is enough fuel. *)
Definition first_value (l : bytes) : pres json := let l := skip_ws l in value (S (2 * length l)) 0 l.
End Scan.

(** [json.Unmarshal]-style parsing of one document: one value, then only white
    space.  This is also what a first [Decode] followed by [Decode(&struct{}{})
    == io.EOF] accepts. *)
Definition parse_document (l : bytes) : option json :=
  match Scan.first_value l with
  | Scan.POk v rest => match Scan.skip_ws rest with [] => Some v | _ => None end
  | _ => None
  end.

(** ** Decoding into Go values

    A decoder takes the value the Go variable holds before decoding, because
    [null] and absent members leave it as it is; [None] is an error. *)
Definition decoder (A : Type) : Type := A -> json -> option A.

(** [foldName]: the ASCII letters fold to upper case; KELVIN SIGN and LATIN SMALL
    LETTER LONG S are the only other runes that fold to a letter. *)
Fixpoint fold_from (skip : nat) (l : bytes) : bytes :=
  match l with
  | [] => []
  | c :: l' =>
      match skip with
      | S k => fold_from k l'
      | O =>
          if is_lower c then byte_of (byte_val c - 32) :: fold_from 0 l'
          else if byte_val c <? 128 then c :: fold_from 0 l'
          else match Utf8.decode_rune l with
               | Some (r, w) =>
                   (if r =? 8490 then bytes_of "K" else if r =? 383 then bytes_of "S"
                    else Utf8.encode_rune r) ++ fold_from (w - 1) l'
               | None => []
               end
      end
  end.
Definition foldName (s : string) : string := string_of (fold_from 0 (bytes_of s)).

(** A struct field: its JSON name and how its value updates the struct.  The
    value comes with its source bytes. *)
Definition field (A : Type) : Type := string * (A -> bytes * json -> option A).

Definition find_field {A} (fields : list (field A)) (key : string) : option (field A) :=
  match List.find (fun f => bool_decide (f.1 = key)) fields with
  | Some f => Some f
  | None => List.find (fun f => bool_decide (foldName f.1 = foldName key)) fields
  end.

Definition decode_member {A} (disallow_unknown : bool) (fields : list (field A))
    (acc : A) (m : string * (bytes * json)) : option A :=
  match find_field fields m.1 with
  | Some f => f.2 acc m.2
  | None => if disallow_unknown then None else Some acc
  end.

Fixpoint decode_members {A} (disallow_unknown : bool) (fields : list (field A))
    (acc : A) (ms : list (string * (bytes * json))) : option A :=
  match ms with
  | [] => Some acc
  | m :: ms' => acc' ← decode_member disallow_unknown fields acc m;
                decode_members disallow_unknown fields acc' ms'
  end.

Definition decode_struct {A} (disallow_unknown : bool) (fields : list (field A)) : decoder A :=
  fun prev j => match j with
                | JNull => Some prev
                | JObject ms => decode_members disallow_unknown fields prev ms
                | _ => None
                end.

Definition decode_string : decoder string :=
  fun prev j => match j with JNull => Some prev | JString s => Some s | _ => None end.

Definition decode_bool : decoder bool :=
  fun prev j => match j with JNull => Some prev | JBool b => Some b | _ => None end.

(** [strconv.ParseInt(lit, 10, 64)] of a JSON number literal. *)
Fixpoint digits_value (acc : Z) (l : bytes) : option Z :=
  match l with
  | [] => Some acc
  | c :: l' => if is_digit c then digits_value (acc * 10 + (byte_val c - 48)) l' else None
  end.

Definition int_literal (lit : string) : option Z :=
  n ← match bytes_of lit with
      | c :: l => if byte_val c =? 45 then Z.opp <$> digits_value 0 l else digits_value 0 (c :: l)
      | [] => None
      end;
  if in_int64 n then Some n else None.

Definition decode_int : decoder Z :=
  fun prev j => match j with JNull => Some prev | JNumber lit => int_literal lit | _ => None end.

(** A pointer: [null] clears it, a value decodes into the pointee, which is
    allocated with the zero value when the pointer is nil. *)
Definition decode_ptr {A} (zero : A) (d : decoder A) : decoder (option A) :=
  fun prev j => match j with
                | JNull => Some None
                | _ => Some <$> d (default zero prev) j
                end.

(** A slice and the elements left in its backing array beyond its length. *)
Record slice (A : Type) := mkSlice { elems : list A; stale : list A }.
Arguments mkSlice {A} _ _.
Arguments elems {A} _.
Arguments stale {A} _.
Definition nil_slice {A} : slice A := mkSlice [] [].

Fixpoint decode_elems {A} (zero : A) (d : A -> bytes * json -> option A)
    (backing : list A) (es : list (bytes * json)) : option (list A) :=
  match es with
  | [] => Some []
  | e :: es' =>
      x ← d (hd zero backing) e;
      xs ← decode_elems zero d (tl backing) es';
      Some (x :: xs)
  end.

(** An array decodes over the elements the backing array still holds; an empty
    array makes a fresh slice.  [null] makes the slice nil. *)
Definition decode_slice {A} (zero : A) (d : A -> bytes * json -> option A) : decoder (slice A) :=
  fun prev j => match j with
                | JNull => Some nil_slice
                | JArray [] => Some nil_slice
                | JArray es =>
                    let backing := elems prev ++ stale prev in
                    xs ← decode_elems zero d backing es;
                    Some (mkSlice xs (drop (length xs) backing))
                | _ => None
                end.

(** [json.RawMessage]: a copy of the source bytes of the value, [null] included. *)
Definition decode_raw (prev : option bytes) (e : bytes * json) : option (option bytes) := Some (Some e.1).

(** Lifts a decoder of a component to a field of a struct. *)
Definition fld {A B} (name : string) (get : A -> B) (set : A -> B -> A) (d : decoder B) : field A :=
  (name, fun a e => b ← d (get a) e.2; Some (set a b)).

(** [decoder.Decode(&target)] followed by the check that nothing else follows. *)
Definition decode_exact {A} (d : decoder A) (zero : A) (body : bytes) : option A :=
  j ← parse_document body; d zero j.

(** ** [json.Marshal] *)
Inductive jout : Type :=
| ONull
| OBool (b : bool)
| OInt (n : Z)
| OString (s : string)
| OArray (l : list jout)
| OObject (l : list (string * jout)).

Module Print.
Definition quote : ascii := Ascii.ascii_of_nat 34.
Definition backslash : ascii := Ascii.ascii_of_nat 92.

Definition u_escape (v : Z) : bytes :=
  backslash :: "u"%char :: hex_byte (byte_of (v / 256)) ++ hex_byte (byte_of (v mod 256)).

(** The escaping of one ASCII byte, with HTML escaping on as in [Marshal]. *)
Definition escape_ascii (c : ascii) : bytes :=
  let v := byte_val c in
  if v =? 34 then [backslash; quote]
  else if v =? 92 then [backslash; backslash]
  else if v =? 8 then [backslash; "b"%char]
  else if v =? 12 then [backslash; "f"%char]
  else if v =? 10 then [backslash; "n"%char]
  else if v =? 13 then [backslash; "r"%char]
  else if v =? 9 then [backslash; "t"%char]
  else if (v <? 32) || (v =? 60) || (v =? 62) || (v =? 38) then u_escape v
  else [c].

Fixpoint escape (skip : nat) (l : bytes) : bytes :=
  match l with
  | [] => []
  | c :: l' =>
      match skip with
      | S k => escape k l'
      | O =>
          if byte_val c <? 128 then escape_ascii c ++ escape 0 l'
          else match Utf8.decode_rune l with
               | Some (r, w) =>
                   (if (r =? Utf8.RuneError) && (w =? 1)%nat then u_escape 65533
                    else if (r =? 8232) || (r =? 8233) then u_escape r
                    else take w l) ++ escape (w - 1) l'
               | None => []
               end
      end
  end.

Definition string_literal (s : string) : bytes := quote :: escape 0 (bytes_of s) ++ [quote].

Fixpoint commas (ls : list bytes) : bytes :=
  match ls with
  | [] => []
  | [l] => l
  | l :: ls' => l ++ ","%char :: commas ls'
  end.

Fixpoint marshal (j : jout) : bytes :=
  match j with
  | ONull => bytes_of "null"
  | OBool b => bytes_of (if b then "true" else "false")
  | OInt n => bytes_of (itoa n)
  | OString s => string_literal s
  | OArray l => "["%char :: commas (List.map marshal l) ++ ["]"%char]
  | OObject l =>
      "{"%char :: commas (List.map (fun m => string_literal m.1 ++ ":"%char :: marshal m.2) l) ++ ["}"%char]
  end.
End Print.
Definition json_Marshal (j : jout) : bytes := Print.marshal j.

(** ** The scanner terminates within its fuel and consumes what it reads *)
Section scanner_total.
Import Scan.

(** The parser did not run out of fuel, and its rest is no longer than [n]. *)
Definition progress {A} (n : nat) (p : pres A) : Prop :=
  match p with POk _ r => (length r < n)%nat | PFail => True | PFuel => False end.

Lemma progress_bind {A B} n m (p : pres A) (k : A -> bytes -> pres B) :
  progress n p -> (forall a r, (length r < n)%nat -> progress m (k a r)) ->
  progress m (pbind p k).
Proof. destruct p; simpl; auto. Qed.

Lemma skip_ws_length l : (length (skip_ws l) <= length l)%nat.
Proof. induction l as [|c l IH]; simpl; [done|]. destruct (is_ws c); simpl; lia. Qed.

Lemma string_body_length n l raw r :
  (length l <= n)%nat -> string_body l = Some (raw, r) -> (length r < length l)%nat.
Proof.
  revert l raw r. induction n as [|n IH]; intros [|c l] raw r Hl H; simpl in *; try done; [lia|].
  repeat case_match; simplify_eq/=; try lia;
    repeat match goal with
    | H : (string_body ?k ≫= _) = Some _ |- _ =>
        apply bind_Some in H as ([? ?] & Hk & H); simplify_eq/=;
        apply IH in Hk; simpl in *; lia
    end.
Qed.

Lemma strip_prefix_length p l r : strip_prefix p l = Some r -> length l = (length p + length r)%nat.
Proof.
  revert l. induction p as [|a p IH]; intros [|b l] H; simplify_eq/=; try done.
  case_bool_decide; [|done]. by rewrite (IH l H).
Qed.

Lemma digits_length l d r : digits l = (d, r) -> length l = (length d + length r)%nat.
Proof.
  revert d r. induction l as [|c l IH]; intros d r H; simplify_eq/=; [done|].
  case_match; simplify_eq/=; [|done]. destruct (digits l) as [d' r'] eqn:E. simplify_eq/=.
  by rewrite (IH d' r).
Qed.

Lemma fraction_length l d r : fraction l = Some (d, r) -> (length r <= length l)%nat.
Proof.
  destruct l as [|c l]; simpl; intros H; simplify_eq/=; [done|].
  case_match; simplify_eq/=; [|done]. destruct (digits l) as [[|? ?] ?] eqn:E; simplify_eq.
  apply digits_length in E. simpl in *. lia.
Qed.

Lemma exponent_length l d r : exponent l = Some (d, r) -> (length r <= length l)%nat.
Proof.
  destruct l as [|c l]; simpl; intros H; simplify_eq/=; [done|].
  case_match; simplify_eq/=; [|done]. destruct l as [|s l]; [done|].
  destruct ((byte_val s =? 43) || (byte_val s =? 45)).
  - destruct (digits l) as [[|? ?] ?] eqn:E; simplify_eq.
    apply digits_length in E. simpl in *. lia.
  - destruct (digits (s :: l)) as [[|? ?] ?] eqn:E; simplify_eq.
    apply digits_length in E. simpl in *. lia.
Qed.

Lemma number_length l d r : number l = Some (d, r) -> (length r < length l)%nat.
Proof.
  unfold number. intros H.
  assert (length (minus l).2 <= length l)%nat as Hp.
  { destruct l as [|c l]; [done|]. unfold minus. destruct (byte_val c =? 45); simpl; lia. }
  destruct (minus l) as [sign l1]. simpl in Hp.
  apply bind_Some in H as ([int l2] & Hi & H).
  apply bind_Some in H as ([frac l3] & Hf%fraction_length & H).
  apply bind_Some in H as ([ex l4] & He%exponent_length & H). simplify_eq/=.
  assert (length l2 < length l1)%nat; [|lia].
  destruct l1 as [|c l1]; [done|]. simpl in Hi. case_match; simplify_eq/=; [lia|].
  destruct (is_digit c) eqn:Hc; [|done].
  destruct (digits l1) as [d' r'] eqn:E. simplify_eq/=. apply digits_length in E. lia.
Qed.

Lemma literal_progress l : progress (length l) (literal l).
Proof.
  destruct l as [|c l]; [done|].
  assert (forall (lit : bytes) (v : json) k, (0 < length lit)%nat ->
    progress (length k) (of_option (r ← strip_prefix lit k; Some (v, r)))) as Hlit.
  { intros lit v k Hpos. destruct (strip_prefix lit k) eqn:E; simpl; [|done].
    apply strip_prefix_length in E. lia. }
  unfold literal.
  repeat match goal with |- context [if ?b then _ else _] => destruct b end;
    try (apply Hlit; simpl; lia).
  - destruct (string_body l) as [[raw r]|] eqn:E; simpl; [|done].
    eapply string_body_length in E; [|done]. lia.
  - destruct (number (c :: l)) as [[d r]|] eqn:E; simpl; [|done].
    apply number_length in E. simpl in E. lia.
Qed.

(** What follows an element or member: a separator and the next one, or the end. *)
Lemma progress_skip {A} n (l : bytes) (k : ascii -> bytes -> pres A) :
  (length l < n)%nat ->
  (forall c r, (length r < length l)%nat -> progress n (k c r)) ->
  progress n (match skip_ws l with c :: r => k c r | [] => PFail end).
Proof.
  intros Hl Hk. pose proof (skip_ws_length l) as H.
  destruct (skip_ws l) as [|c r]; [done|]. apply Hk. simpl in *. lia.
Qed.

Lemma value_progress fuel :
  (forall depth l, (2 * length l < fuel)%nat -> progress (length l) (value fuel depth l)) /\
  (forall depth l, (2 * length l + 1 < fuel)%nat -> progress (length l) (elems fuel depth l)) /\
  (forall depth l, (2 * length l + 1 < fuel)%nat -> progress (length l) (members fuel depth l)).
Proof.
  induction fuel as [|fuel (IHv & IHe & IHm)]; [split_and!; intros; lia|].
  split_and!; intros depth l Hl.
  - destruct l as [|c l]; [done|]. cbn [value].
    destruct (byte_val c =? 91); [|destruct (byte_val c =? 123); [|apply literal_progress]];
      destruct (maxNestingDepth <=? depth)%nat; try done;
      apply progress_skip; simpl in *; try lia; intros d r Hr;
      case_match; simpl; try lia.
    + eapply progress_bind; [apply IHe; simpl; lia|]. simpl. intros; lia.
    + eapply progress_bind; [apply IHm; simpl; lia|]. simpl. intros; lia.
  - cbn [elems]. eapply progress_bind; [apply IHv; lia|]. intros v r Hr.
    apply progress_skip; [done|]. intros c r' Hr'. repeat case_match; simpl; try lia.
    pose proof (skip_ws_length r').
    eapply progress_bind; [apply IHe; lia|]. simpl. intros; lia.
  - destruct l as [|q l]; [done|]. cbn [members]. case_match; [|done].
    destruct (string_body l) as [[raw r1]|] eqn:Hb; [|done].
    eapply string_body_length in Hb; [|done].
    apply progress_skip; [simpl; lia|]. intros c2 r2 Hr2. case_match; [|done].
    pose proof (skip_ws_length r2). simpl in Hl.
    eapply progress_bind; [apply IHv; lia|]. intros v r Hr.
    apply progress_skip; [simpl; lia|]. intros c r' Hr'. repeat case_match; simpl; try lia.
    pose proof (skip_ws_length r').
    eapply progress_bind; [apply IHm; lia|]. simpl. intros; lia.
Qed.

(** The fuel of [first_value] is always enough. *)
Lemma parse_never_out_of_fuel l : first_value l <> PFuel.
Proof.
  unfold first_value. intros H.
  pose proof (proj1 (value_progress (S (2 * length (skip_ws l)))) 0%nat (skip_ws l)) as Hp.
  rewrite H in Hp. apply Hp. lia.
Qed.
End scanner_total.
