(* ===== verification/JSONProofs.v ===== *)
(** What [json.Marshal] writes the scanner reads back: every value within the nesting
    limit is parsed to the very tree it was printed from, with ill-formed UTF-8 replaced
    by U+FFFD, whatever delimiter follows it. *)

From Stdlib Require Import ZArith Lia Ascii String.
From stdpp Require Import base strings list option pretty.
From S2P Require Import Prelude GoText GoJSON.

Local Open Scope Z_scope.

(** ** Runes *)

(** The bytes of a string with every ill-formed sequence replaced by U+FFFD. *)
Fixpoint clean (skip : nat) (l : bytes) : bytes :=
  match l with
  | [] => []
  | _ :: l' =>
      match skip with
      | S k => clean k l'
      | O => match Utf8.decode_rune l with
             | Some (r, w) => Utf8.encode_rune r ++ clean (w - 1) l'
             | None => []
             end
      end
  end.
Definition clean_text (s : string) : string := string_of (clean 0 (bytes_of s)).

Lemma escape_skip k l : Print.escape k l = Print.escape 0 (drop k l).
Proof. revert k. induction l as [|c l IH]; intros [|k]; try done. apply IH. Qed.
Lemma unquote_skip k l : Scan.unquote k l = Scan.unquote 0 (drop k l).
Proof. revert k. induction l as [|c l IH]; intros [|k]; try done. apply IH. Qed.
Lemma clean_skip k l : clean k l = clean 0 (drop k l).
Proof. revert k. induction l as [|c l IH]; intros [|k]; try done. apply IH. Qed.

(** A well-formed sequence of more than one byte. *)
Record wide (l : bytes) (r : Z) (w : nat) : Prop := {
  wide_width : (1 < w <= length l)%nat;
  wide_bytes : Utf8.encode_rune r = take w l;
  wide_high : Forall (fun c => 128 <= byte_val c) (take w l);
  wide_again : forall t, Utf8.decode_rune (take w l ++ t) = Some (r, w)
}.

Lemma char_in_spec lo hi c : char_in lo hi c = true <-> lo <= byte_val c <= hi.
Proof. unfold char_in. rewrite andb_true_iff, !Z.leb_le. done. Qed.

(** [encode_rune] of a rune that is neither a surrogate nor out of range, by its width. *)
Lemma encode_rune_valid r :
  0 <= r <= 1114111 -> ~ 55296 <= r <= 57343 ->
  Utf8.encode_rune r =
  if r <? 128 then [byte_of r]
  else if r <? 2048 then [byte_of (192 + r / 64); byte_of (128 + r mod 64)]
  else if r <? 65536 then [byte_of (224 + r / 4096); byte_of (128 + r / 64 mod 64); byte_of (128 + r mod 64)]
  else [byte_of (240 + r / 262144); byte_of (128 + r / 4096 mod 64); byte_of (128 + r / 64 mod 64);
        byte_of (128 + r mod 64)].
Proof.
  intros Hr Hs. unfold Utf8.encode_rune.
  assert ((r <? 0) || (1114111 <? r) || ((55296 <=? r) && (r <=? 57343)) = false) as ->; [|done].
  apply orb_false_iff. rewrite orb_false_iff, andb_false_iff, !Z.ltb_ge, !Z.leb_gt. lia.
Qed.

Lemma byte_of_value c n : n = byte_val c -> byte_of n = c.
Proof. intros ->. apply byte_of_val. Qed.
Ltac byte_list := repeat f_equal; apply byte_of_value.

Lemma wide_two c c1 l :
  char_in 194 223 c = true -> Utf8.cont c1 = true ->
  wide (c :: c1 :: l) ((byte_val c - 192) * 64 + (byte_val c1 - 128)) 2.
Proof.
  intros H0 H1. pose proof H0 as R0%char_in_spec. pose proof H1 as R1%char_in_spec. split.
  - simpl. lia.
  - cbn [take]. set (r := _ + _). assert (r mod 64 = byte_val c1 - 128 /\ r / 64 = byte_val c - 192) as [Em Ed]
      by (unfold r; Z.to_euclidean_division_equations; lia).
    rewrite encode_rune_valid by (unfold r; lia).
    rewrite (proj2 (Z.ltb_ge r 128)), (proj2 (Z.ltb_lt r 2048)) by (unfold r; lia). rewrite Em, Ed. byte_list; lia.
  - cbn [take]. repeat constructor; lia.
  - intros t. cbn [take app]. unfold Utf8.decode_rune.
    by rewrite (proj2 (Z.ltb_ge (byte_val c) 128)), H0, H1 by lia.
Qed.

Lemma wide_three c c1 c2 l :
  let lo := if byte_val c =? 224 then 160 else 128 in
  let hi := if byte_val c =? 237 then 159 else 191 in
  char_in 194 223 c = false -> char_in 224 239 c = true -> char_in lo hi c1 && Utf8.cont c2 = true ->
  wide (c :: c1 :: c2 :: l) ((byte_val c - 224) * 4096 + (byte_val c1 - 128) * 64 + (byte_val c2 - 128)) 3.
Proof.
  intros lo hi Hn H0 H12. pose proof H0 as R0%char_in_spec. pose proof H12 as H12'.
  apply andb_true_iff in H12' as [R1%char_in_spec R2%char_in_spec].
  assert (160 <= byte_val c1 \/ byte_val c <> 224) as Hlo by (unfold lo in R1; destruct (Z.eqb_spec (byte_val c) 224); lia).
  assert (byte_val c1 <= 159 \/ byte_val c <> 237) as Hhi by (unfold hi in R1; destruct (Z.eqb_spec (byte_val c) 237); lia).
  assert (128 <= byte_val c1 <= 191) as Rc1 by (unfold lo, hi in R1; repeat case_match; lia).
  split.
  - simpl. lia.
  - cbn [take]. set (r := _ + _).
    assert (r mod 64 = byte_val c2 - 128 /\ r / 64 mod 64 = byte_val c1 - 128 /\ r / 4096 = byte_val c - 224)
      as (E1 & E2 & E3) by (unfold r; Z.to_euclidean_division_equations; lia).
    rewrite encode_rune_valid by (unfold r; lia).
    rewrite (proj2 (Z.ltb_ge r 128)), (proj2 (Z.ltb_ge r 2048)), (proj2 (Z.ltb_lt r 65536)) by (unfold r; lia).
    rewrite E1, E2, E3. byte_list; lia.
  - cbn [take]. repeat constructor; lia.
  - intros t. cbn [take app]. unfold Utf8.decode_rune.
    rewrite (proj2 (Z.ltb_ge (byte_val c) 128)), Hn, H0 by lia. fold lo hi. by rewrite H12.
Qed.

Lemma wide_four c c1 c2 c3 l :
  let lo := if byte_val c =? 240 then 144 else 128 in
  let hi := if byte_val c =? 244 then 143 else 191 in
  char_in 194 223 c = false -> char_in 224 239 c = false -> char_in 240 244 c = true ->
  char_in lo hi c1 && Utf8.cont c2 && Utf8.cont c3 = true ->
  wide (c :: c1 :: c2 :: c3 :: l)
    ((byte_val c - 240) * 262144 + (byte_val c1 - 128) * 4096 + (byte_val c2 - 128) * 64 + (byte_val c3 - 128)) 4.
Proof.
  intros lo hi Hn Hn' H0 H123. pose proof H0 as R0%char_in_spec. pose proof H123 as H'.
  apply andb_true_iff in H' as [[R1%char_in_spec R2%char_in_spec]%andb_true_iff R3%char_in_spec].
  assert (144 <= byte_val c1 \/ byte_val c <> 240) as Hlo by (unfold lo in R1; destruct (Z.eqb_spec (byte_val c) 240); lia).
  assert (byte_val c1 <= 143 \/ byte_val c <> 244) as Hhi by (unfold hi in R1; destruct (Z.eqb_spec (byte_val c) 244); lia).
  assert (128 <= byte_val c1 <= 191) as Rc1 by (unfold lo, hi in R1; repeat case_match; lia).
  split.
  - simpl. lia.
  - cbn [take]. set (r := _ + _).
    assert (r mod 64 = byte_val c3 - 128 /\ r / 64 mod 64 = byte_val c2 - 128 /\ r / 4096 mod 64 = byte_val c1 - 128 /\
            r / 262144 = byte_val c - 240)
      as (E1 & E2 & E3 & E4) by (unfold r; Z.to_euclidean_division_equations; lia).
    rewrite encode_rune_valid by (unfold r; lia).
    rewrite (proj2 (Z.ltb_ge r 128)), (proj2 (Z.ltb_ge r 2048)), (proj2 (Z.ltb_ge r 65536)) by (unfold r; lia).
    rewrite E1, E2, E3, E4. byte_list; lia.
  - cbn [take]. repeat constructor; lia.
  - intros t. cbn [take app]. unfold Utf8.decode_rune.
    rewrite (proj2 (Z.ltb_ge (byte_val c) 128)), Hn, Hn', H0 by lia. fold lo hi. by rewrite H123.
Qed.

(** The head of a string is an ASCII byte, an ill-formed byte, or a wide rune. *)
Lemma decode_rune_cases c l :
  (byte_val c < 128 /\ Utf8.decode_rune (c :: l) = Some (byte_val c, 1%nat)) \/
  (128 <= byte_val c /\ Utf8.decode_rune (c :: l) = Some (Utf8.RuneError, 1%nat)) \/
  exists r w, Utf8.decode_rune (c :: l) = Some (r, w) /\ wide (c :: l) r w.
Proof.
  unfold Utf8.decode_rune at 1 2 3. destruct (Z.ltb_spec (byte_val c) 128) as [Hc|Hc]; [by left|right].
  destruct l as [|c1 l]; [by left|].
  destruct (char_in 194 223 c) eqn:H2.
  { destruct (Utf8.cont c1) eqn:H1; [right|by left]. eexists _, _. split; [done|]. by apply wide_two. }
  destruct l as [|c2 l]; [by left|]. destruct (char_in 224 239 c) eqn:H3.
  { destruct (_ && _) eqn:H1; [right|by left]. eexists _, _. split; [done|]. by apply wide_three. }
  destruct l as [|c3 l]; [by left|]. destruct (char_in 240 244 c) eqn:H4; [|by left].
  destruct (_ && _) eqn:H1; [right|by left]. eexists _, _. split; [done|]. by apply wide_four.
Qed.

(** Induction over the runes of a string. *)
Lemma rune_ind (P : bytes -> Prop) :
  P [] ->
  (forall c l, byte_val c < 128 -> P l -> P (c :: l)) ->
  (forall c l, 128 <= byte_val c -> Utf8.decode_rune (c :: l) = Some (Utf8.RuneError, 1%nat) -> P l -> P (c :: l)) ->
  (forall l r w, Utf8.decode_rune l = Some (r, w) -> wide l r w -> P (drop w l) -> P l) ->
  forall l, P l.
Proof.
  intros Hnil Hascii Hbad Hwide l. remember (length l) as n eqn:Hn. revert l Hn.
  induction (lt_wf n) as [n _ IH]. intros [|c l] ->; [done|].
  destruct (decode_rune_cases c l) as [[Hc _]|[[Hc Hd]|(r & w & Hd & Hw)]].
  - apply Hascii; [done|]. eapply IH; [|done]. simpl. lia.
  - apply Hbad; [done..|]. eapply IH; [|done]. simpl. lia.
  - eapply Hwide; [done..|]. eapply IH; [|done]. destruct Hw as [[Hw1 Hw2] _ _ _]. rewrite length_drop. lia.
Qed.

(** ** Strings *)

(** A piece of a literal: the scanner passes over it, and it stands for [out]. *)
Record piece (p out : bytes) : Prop := {
  piece_scan : forall t, Scan.string_body (p ++ t) = '(raw, r) ← Scan.string_body t; Some (p ++ raw, r);
  piece_text : forall t, Scan.unquote 0 (p ++ t) = out ++ Scan.unquote 0 t
}.

Lemma piece_nil : piece [] [].
Proof. split; intros t; simpl; [by destruct (Scan.string_body t) as [[]|]|done]. Qed.

Lemma piece_app p q a b : piece p a -> piece q b -> piece (p ++ q) (a ++ b).
Proof.
  intros [P1 P2] [Q1 Q2]. split; intros t; rewrite <- app_assoc.
  - rewrite P1, Q1. destruct (Scan.string_body t) as [[raw r]|]; simpl; [by rewrite <- app_assoc|done].
  - by rewrite P2, Q2, app_assoc.
Qed.

Lemma byte_is c n : byte_val c = n -> c = byte_of n.
Proof. intros <-. by rewrite byte_of_val. Qed.

Lemma hex_digit_hex v : 0 <= v < 16 -> is_hex (hex_digit v) = true.
Proof. intros Hv. unfold is_hex. by rewrite hex_digit_lower. Qed.

(** The escape of a byte by its number. *)
Lemma piece_u v : 0 <= v < 128 -> piece (Print.u_escape v) [byte_of v].
Proof.
  intros Hv. unfold Print.u_escape. rewrite Z.div_small, Z.mod_small by lia. unfold hex_byte.
  rewrite byte_val_of, byte_val_of, Z.mod_0_l, (Z.mod_small v 256) by lia.
  assert (0 <= v / 16 < 16 /\ 0 <= v mod 16 < 16) as [H1 H2] by (Z.to_euclidean_division_equations; lia).
  change (hex_digit (0 / 16)) with "0"%char. change (hex_digit (0 mod 16)) with "0"%char.
  pose proof (hex_digit_hex _ H1) as I1. pose proof (hex_digit_hex _ H2) as I2.
  pose proof (hex_value_digit _ H1) as V1. pose proof (hex_value_digit _ H2) as V2.
  set (a := hex_digit (v / 16)) in *. set (b := hex_digit (v mod 16)) in *.
  split; intros t; cbn [app].
  - cbn [Scan.string_body]. change (is_hex "0") with true. rewrite I1, I2. cbn [andb].
    change (byte_val Print.backslash) with 92. change (byte_val "u") with 117. cbn [Z.eqb Z.ltb Z.compare Pos.eqb Pos.compare Pos.compare_cont].
    by destruct (Scan.string_body t) as [[raw r]|].
  - cbn [Scan.unquote]. change (byte_val Print.backslash =? 92) with true. change (byte_val "u" =? 117) with true.
    cbv iota. assert (Scan.hex4 "0" "0" a b = v) as ->.
    { unfold Scan.hex4. rewrite V1, V2. change (hex_value "0") with (Some 0). simpl.
      Z.to_euclidean_division_equations; lia. }
    rewrite (proj2 (Z.leb_gt 55296 v)) by lia. cbn [andb].
    rewrite encode_rune_valid by lia. by rewrite (proj2 (Z.ltb_lt v 128)) by lia.
Qed.

Lemma piece_plain c : 32 <= byte_val c < 128 -> byte_val c <> 34 -> byte_val c <> 92 -> piece [c] [c].
Proof.
  intros Hc H34 H92. split; intros t; cbn [app Scan.string_body Scan.unquote].
  - rewrite (proj2 (Z.eqb_neq _ _) H34), (proj2 (Z.eqb_neq _ _) H92), (proj2 (Z.ltb_ge _ _)) by lia.
    by destruct (Scan.string_body t) as [[raw r]|].
  - by rewrite (proj2 (Z.eqb_neq _ _) H92), (proj2 (Z.ltb_lt _ _)) by lia.
Qed.

(** A backslash and a letter. *)
Lemma piece_short e out :
  byte_val e <> 117 -> bool_decide (e ∈ bytes_of "bfnrt\/") || (byte_val e =? 34) = true ->
  out = byte_of (if byte_val e =? 98 then 8 else if byte_val e =? 102 then 12 else if byte_val e =? 110 then 10
                 else if byte_val e =? 114 then 13 else if byte_val e =? 116 then 9 else byte_val e) ->
  piece [Print.backslash; e] [out].
Proof.
  intros Hu He ->. split; intros t; cbn [app Scan.string_body Scan.unquote];
    change (byte_val Print.backslash =? 34) with false; change (byte_val Print.backslash =? 92) with true;
    change (byte_val Print.backslash <? 32) with false; cbv iota; rewrite (proj2 (Z.eqb_neq _ _) Hu), ?He.
  - by destruct (Scan.string_body t) as [[raw r]|].
  - done.
Qed.

Lemma piece_ascii c : byte_val c < 128 -> piece (Print.escape_ascii c) [c].
Proof.
  intros Hc. pose proof (byte_val_range c). unfold Print.escape_ascii.
  repeat match goal with |- context [byte_val c =? ?n] =>
    destruct (Z.eqb_spec (byte_val c) n) as [->%byte_is|?]; [try (apply piece_short; vm_compute; congruence)|] end.
  all: cbn [orb]; rewrite ?orb_false_r, ?orb_true_r.
  all: try (apply piece_u; lia).
  destruct (Z.ltb_spec (byte_val c) 32); [|by apply piece_plain].
  pose proof (piece_u (byte_val c) ltac:(lia)) as Hp. by rewrite byte_of_val in Hp.
Qed.

Lemma piece_high p : Forall (fun c => 128 <= byte_val c) p ->
  forall t, Scan.string_body (p ++ t) = '(raw, r) ← Scan.string_body t; Some (p ++ raw, r).
Proof.
  induction 1 as [|c p Hc _ IH]; intros t; [apply piece_nil|]. cbn [app Scan.string_body].
  rewrite (proj2 (Z.eqb_neq (byte_val c) 34)), (proj2 (Z.ltb_ge (byte_val c) 32)), (proj2 (Z.eqb_neq (byte_val c) 92)) by lia.
  rewrite IH. by destruct (Scan.string_body t) as [[raw r]|].
Qed.

Lemma piece_wide l r w : wide l r w -> piece (take w l) (Utf8.encode_rune r).
Proof.
  intros [[Hw1 Hw2] Hb Hh Ha]. split; [by apply piece_high|]. intros t.
  specialize (Ha t). rewrite Hb in *. destruct l as [|c l]; [simpl in Hw2; lia|].
  destruct w as [|w]; [lia|]. cbn [take app] in *. cbn [Scan.unquote].
  inversion Hh as [|? ? Hc Hrest]; subst.
  rewrite (proj2 (Z.eqb_neq (byte_val c) 92)), (proj2 (Z.ltb_ge (byte_val c) 128)), Ha by lia.
  rewrite Hb. cbn [app]. f_equal. f_equal. rewrite unquote_skip. f_equal.
  rewrite drop_app_length'; [done|]. rewrite length_take. simpl in Hw2. lia.
Qed.

(** A printed string is one piece that stands for its clean text. *)
Lemma escape_piece l : piece (Print.escape 0 l) (clean 0 l).
Proof.
  induction l as [|c l Hc IH|c l Hc Hd IH|l r w Hd Hw IH] using rune_ind.
  - apply piece_nil.
  - cbn [Print.escape clean]. rewrite (proj2 (Z.ltb_lt _ _) Hc).
    assert (Utf8.decode_rune (c :: l) = Some (byte_val c, 1%nat)) as ->
      by (unfold Utf8.decode_rune; by rewrite (proj2 (Z.ltb_lt _ _) Hc)).
    cbn [Nat.sub]. apply piece_app; [|done].
    replace (Utf8.encode_rune (byte_val c)) with [c]; [by apply piece_ascii|].
    pose proof (byte_val_range c). rewrite encode_rune_valid by lia. rewrite (proj2 (Z.ltb_lt _ _) Hc).
    by rewrite byte_of_val.
  - cbn [Print.escape clean]. rewrite (proj2 (Z.ltb_ge _ _) Hc), Hd.
    apply piece_app; [|done]. split; intros t; reflexivity.
  - destruct l as [|c l]; [done|]. cbn [Print.escape clean]. pose proof Hw as [[Hw1 Hw2] Hb Hh _].
    assert (128 <= byte_val c) as Hc by (destruct w; [lia|]; by inversion Hh).
    rewrite (proj2 (Z.ltb_ge _ _) Hc), Hd. rewrite (escape_skip (w - 1)), (clean_skip (w - 1)).
    replace (drop (w - 1) l) with (drop w (c :: l)) by (destruct w; [lia|]; simpl; by rewrite Nat.sub_0_r).
    apply piece_app; [|done]. rewrite (proj2 (Nat.eqb_neq w 1)), andb_false_r by lia.
    destruct ((r =? 8232) || (r =? 8233)) eqn:Hr; [|by apply piece_wide].
    apply orb_true_iff in Hr as [->%Z.eqb_eq| ->%Z.eqb_eq]; split; intros t; reflexivity.
Qed.

Lemma string_literal_read s t :
  Scan.string_body (tl (Print.string_literal s) ++ t) = Some (Print.escape 0 (bytes_of s), t) /\
  string_of (Scan.unquote 0 (Print.escape 0 (bytes_of s))) = clean_text s.
Proof.
  unfold Print.string_literal. cbn [tl]. destruct (escape_piece (bytes_of s)) as [P1 P2]. split.
  - rewrite <- app_assoc. rewrite P1. simpl. by rewrite app_nil_r.
  - specialize (P2 []). rewrite !app_nil_r in P2. unfold clean_text. by rewrite P2.
Qed.

(** ** Numbers *)

(** What may follow a value. *)
Definition delimited (rest : bytes) : Prop :=
  match rest with
  | [] => True
  | c :: _ => byte_val c = 44 \/ byte_val c = 93 \/ byte_val c = 125 \/ Scan.is_ws c = true
  end.

Lemma delimited_number rest :
  delimited rest -> Scan.digits rest = ([], rest) /\ Scan.fraction rest = Some ([], rest) /\
                    Scan.exponent rest = Some ([], rest).
Proof.
  destruct rest as [|c rest]; [done|]. cbn [delimited]. intros Hd.
  assert (Hb : is_digit c = false /\ (byte_val c =? 46) = false /\ (byte_val c =? 101) || (byte_val c =? 69) = false).
  { unfold Scan.is_ws, is_digit, char_in in *. rewrite !orb_true_iff, !Z.eqb_eq in Hd.
    rewrite orb_false_iff, andb_false_iff, !Z.leb_gt, !Z.eqb_neq. lia. }
  destruct Hb as (H1 & H2 & H3). cbn [Scan.digits Scan.fraction Scan.exponent]. by rewrite H1, H2, H3.
Qed.

Lemma digits_app ds rest :
  Forall (fun c => is_digit c = true) ds -> Scan.digits rest = ([], rest) -> Scan.digits (ds ++ rest) = (ds, rest).
Proof. intros Hd Hr. induction Hd as [|c ds Hc _ IH]; [done|]. cbn [app Scan.digits]. by rewrite Hc, IH. Qed.

(** The decimal digits of a positive number: no leading zero, and its value. *)
Lemma pretty_N_go_digits x s :
  (0 < x)%N -> Forall (fun c => is_digit c = true) (bytes_of s) ->
  exists c l, bytes_of (pretty_N_go x s) = c :: l /\ byte_val c <> 48 /\
    Forall (fun c => is_digit c = true) (c :: l) /\
    digits_value 0 (c :: l) = digits_value (Z.of_N x) (bytes_of s).
Proof.
  revert s. induction (N.lt_wf_0 x) as [x _ IH]; intros s Hx Hs. rewrite pretty_N_go_step by done.
  set (d := pretty_N_char (x mod 10)).
  assert (Hd : is_digit d = true /\ byte_val d = 48 + Z.of_N (x mod 10)%N).
  { unfold d. assert (Hm : (x mod 10 < 10)%N) by (apply N.mod_lt; done). generalize (x mod 10)%N Hm. intros m.
    intros Hm'. assert (m = 0 \/ m = 1 \/ m = 2 \/ m = 3 \/ m = 4 \/ m = 5 \/ m = 6 \/ m = 7 \/ m = 8 \/ m = 9)%N as Hc by lia.
    repeat destruct Hc as [->|Hc]; [done..|]. by subst. }
  destruct Hd as [Hdig Hval]. pose proof (N.div_mod x 10) as Hdm.
  destruct (decide (x / 10 = 0)%N) as [Hq|Hq].
  - rewrite Hq. exists d, (bytes_of s). assert ((x mod 10)%N = x) as Hmod by lia. rewrite Hmod in Hval.
    split_and!; [done|lia|by constructor|]. cbn [digits_value]. rewrite Hdig. f_equal. lia.
  - destruct (IH (x / 10)%N ltac:(apply N.div_lt; lia) (String d s)) as (c & l & Hl & Hc & Hall & Hv);
      [by apply N.neq_0_lt_0|by constructor|].
    exists c, l. split_and!; [done..|]. rewrite Hv.
    change (bytes_of (String d s)) with (d :: bytes_of s). cbn [digits_value]. rewrite Hdig. f_equal. lia.
Qed.

Lemma pretty_pos_digits p :
  exists c l, bytes_of (pretty (N.pos p)) = c :: l /\ byte_val c <> 48 /\
    Forall (fun c => is_digit c = true) (c :: l) /\ digits_value 0 (c :: l) = Some (Z.pos p).
Proof.
  destruct (pretty_N_go_digits (N.pos p) "" ltac:(lia) ltac:(constructor)) as (c & l & Hl & Hc & Hall & Hv).
  exists c, l. by split_and!.
Qed.

Lemma number_app sign c l rest :
  (sign = [] \/ exists m, sign = [m] /\ byte_val m = 45) ->
  byte_val c <> 48 \/ l = [] -> Forall (fun c => is_digit c = true) (c :: l) -> delimited rest ->
  Scan.number (sign ++ (c :: l) ++ rest) = Some (sign ++ c :: l, rest).
Proof.
  intros Hsign Hc Hall Hrest. apply delimited_number in Hrest as (Hdig & Hf & He).
  assert (Hm : Scan.minus (sign ++ (c :: l) ++ rest) = (sign, (c :: l) ++ rest)).
  { destruct Hsign as [->|(m & -> & Hm)]; cbn [app Scan.minus]; [|by rewrite Hm].
    inversion Hall as [|? ? Hd _]; subst. apply char_in_spec in Hd. by rewrite (proj2 (Z.eqb_neq _ _)) by lia. }
  unfold Scan.number. rewrite Hm. cbn [app]. destruct (Z.eqb_spec (byte_val c) 48) as [H0|H0].
  - destruct Hc as [Hc| ->]; [done|]. cbn [app mbind option_bind]. rewrite Hf. cbn [mbind option_bind]. rewrite He.
    cbn [mbind option_bind]. by rewrite !app_nil_r.
  - change (c :: l ++ rest) with ((c :: l) ++ rest). rewrite (digits_app _ _ Hall Hdig). cbn [mbind option_bind]. rewrite Hf. cbn [mbind option_bind].
    rewrite He. cbn [mbind option_bind]. by rewrite !app_nil_r.
Qed.

(** The literal of an integer is scanned whole and read as that integer. *)
Lemma itoa_number n rest : delimited rest -> Scan.number (bytes_of (itoa n) ++ rest) = Some (bytes_of (itoa n), rest).
Proof.
  intros Hrest. unfold itoa. destruct n as [|p|p].
  - apply (number_app [] "0"%char []); [by left|by right|by repeat constructor|done].
  - change (pretty (Z.pos p)) with (pretty (N.pos p)).
    destruct (pretty_pos_digits p) as (c & l & -> & Hc & Hall & _). apply (number_app [] c l); [by left|by left|done..].
  - change (pretty (Z.neg p)) with (String.append "-" (pretty (N.pos p))). rewrite bytes_of_app.
    destruct (pretty_pos_digits p) as (c & l & -> & Hc & Hall & _).
    apply (number_app ["-"%char] c l); [right; by eexists|by left|done..].
Qed.

Lemma int_literal_itoa n : in_int64 n = true -> int_literal (itoa n) = Some n.
Proof.
  intros Hn. unfold int_literal.
  assert (Hv : match bytes_of (itoa n) with
          | c :: l => if byte_val c =? 45 then Z.opp <$> digits_value 0 l else digits_value 0 (c :: l)
          | [] => None end = Some n).
  { unfold itoa. destruct n as [|p|p]; [done| |].
    - change (pretty (Z.pos p)) with (pretty (N.pos p)).
      destruct (pretty_pos_digits p) as (c & l & -> & _ & Hall & Hv). inversion Hall as [|? ? Hd _]; subst.
      apply char_in_spec in Hd. by rewrite (proj2 (Z.eqb_neq _ _)) by lia.
    - change (pretty (Z.neg p)) with (String.append "-" (pretty (N.pos p))). rewrite bytes_of_app.
      destruct (pretty_pos_digits p) as (c & l & -> & _ & _ & Hv). cbn [app bytes_of list_ascii_of_string].
      change (byte_val "-" =? 45) with true. cbv iota. by rewrite Hv. }
  rewrite Hv. cbn [mbind option_bind]. by rewrite Hn.
Qed.

(** ** Values *)

(** The tree a printed value is read as; elements and members keep their source bytes. *)
Fixpoint as_read (j : jout) : json :=
  match j with
  | ONull => JNull
  | OBool b => JBool b
  | OInt n => JNumber (itoa n)
  | OString s => JString (clean_text s)
  | OArray l => JArray (List.map (fun x => (Print.marshal x, as_read x)) l)
  | OObject l => JObject (List.map (fun m => (clean_text m.1, (Print.marshal m.2, as_read m.2))) l)
  end.

Fixpoint height (j : jout) : nat :=
  match j with
  | OArray l => S (list_max (List.map height l))
  | OObject l => S (list_max (List.map (fun m => height m.2) l))
  | _ => 0
  end.

Section jout_induction.
Context (P : jout -> Prop).
Context (Hnull : P ONull) (Hbool : forall b, P (OBool b)) (Hint : forall n, P (OInt n)) (Hstring : forall s, P (OString s)).
Context (Harray : forall l, Forall P l -> P (OArray l)) (Hobject : forall l, Forall (fun m => P m.2) l -> P (OObject l)).

Fixpoint jout_nested_ind (j : jout) : P j :=
  match j with
  | ONull => Hnull
  | OBool b => Hbool b
  | OInt n => Hint n
  | OString s => Hstring s
  | OArray l => Harray l ((fix go l : Forall P l :=
      match l with [] => Forall_nil_2 _ | x :: l' => Forall_cons_2 _ _ _ (jout_nested_ind x) (go l') end) l)
  | OObject l => Hobject l ((fix go l : Forall (fun m => P m.2) l :=
      match l with [] => Forall_nil_2 _ | x :: l' => Forall_cons_2 _ _ _ (jout_nested_ind x.2) (go l') end) l)
  end.
End jout_induction.

(** The first byte of a printed value. *)
Definition starts_value (c : ascii) : bool :=
  bool_decide (c ∈ bytes_of "ntf[{-") || is_digit c || (byte_val c =? 34).

Lemma marshal_starts j : exists c l, Print.marshal j = c :: l /\ starts_value c = true.
Proof.
  destruct j as [|[]|n|s|l|l]; try (by eexists _, _).
  pose proof (itoa_chars n) as Hc. simpl. destruct (bytes_of (itoa n)) as [|c l] eqn:E.
  - destruct n; [done| |]; unfold itoa in E.
    + change (pretty (Z.pos p)) with (pretty (N.pos p)) in E. destruct (pretty_pos_digits p) as (c & l & Hl & _). by rewrite Hl in E.
    + change (pretty (Z.neg p)) with (String.append "-" (pretty (N.pos p))) in E. by rewrite bytes_of_app in E.
  - exists c, l. split; [done|]. inversion Hc as [|? ? H _]; subst. unfold starts_value.
    apply orb_true_iff in H as [->|Hm]; [by rewrite orb_true_r|].
    by apply Z.eqb_eq, byte_is in Hm as ->.
Qed.

Lemma starts_value_spec c :
  starts_value c = true -> Scan.is_ws c = false /\ (byte_val c =? 93) = false /\ (byte_val c =? 125) = false.
Proof.
  intros Hc.
  assert (Hall : implb (starts_value c) (negb (Scan.is_ws c) && negb (byte_val c =? 93) && negb (byte_val c =? 125)) = true).
  { apply (byte_cases (fun c => implb (starts_value c) (negb (Scan.is_ws c) && negb (byte_val c =? 93) && negb (byte_val c =? 125)))).
    by vm_compute. }
  rewrite Hc in Hall. simpl in Hall. rewrite !andb_true_iff, !negb_true_iff in Hall. tauto.
Qed.

Lemma skip_ws_start c l : starts_value c = true -> Scan.skip_ws (c :: l) = c :: l.
Proof. intros (H & _)%starts_value_spec. simpl. by rewrite H. Qed.

Lemma skip_ws_marshal j rest : Scan.skip_ws (Print.marshal j ++ rest) = Print.marshal j ++ rest.
Proof. destruct (marshal_starts j) as (c & l & -> & Hc). by apply skip_ws_start. Qed.

Lemma consumed_app l rest : Scan.consumed (l ++ rest) rest = l.
Proof.
  unfold Scan.consumed. rewrite length_app. replace (_ + _ - _)%nat with (length l) by lia. by rewrite take_app_length.
Qed.

(** The printed members of an object. *)
Definition member_text (m : string * jout) : bytes := Print.string_literal m.1 ++ ":"%char :: Print.marshal m.2.

(** A value is read whole, whatever delimiter follows. *)
Definition reads_back (j : jout) : Prop := forall fuel depth rest,
  (2 * length (Print.marshal j) < fuel)%nat -> (depth + height j <= Scan.maxNestingDepth)%nat -> delimited rest ->
  Scan.value fuel depth (Print.marshal j ++ rest) = Scan.POk (as_read j) rest.

Lemma literal_value fuel depth c l :
  (0 < fuel)%nat -> (byte_val c =? 91) = false -> (byte_val c =? 123) = false ->
  Scan.value fuel depth (c :: l) = Scan.literal (c :: l).
Proof. intros Hf H1 H2. destruct fuel; [lia|]. cbn [Scan.value]. by rewrite H1, H2. Qed.

Lemma reads_back_null : reads_back ONull.
Proof. intros fuel depth rest Hf _ _. simpl in Hf. simpl Print.marshal. cbn [app]. rewrite literal_value; [done|lia|done..]. Qed.

Lemma reads_back_bool b : reads_back (OBool b).
Proof.
  intros fuel depth rest Hf _ _. simpl Print.marshal in *.
  destruct b; cbn [app bytes_of list_ascii_of_string]; rewrite literal_value; [done|lia|done|done|done|lia|done..].
Qed.

Lemma reads_back_string s : reads_back (OString s).
Proof.
  intros fuel depth rest Hf _ _. simpl Print.marshal in *. destruct (string_literal_read s rest) as [H1 H2].
  unfold Print.string_literal in *. cbn [app tl] in *. rewrite literal_value; [|lia|done..].
  unfold Scan.literal. change (byte_val Print.quote =? 34) with true. cbv iota. rewrite H1. cbn [mbind option_bind Scan.of_option].
  simpl as_read. by rewrite H2.
Qed.

Lemma reads_back_int n : reads_back (OInt n).
Proof.
  intros fuel depth rest Hf _ Hrest. pose proof (itoa_number n rest Hrest) as Hn.
  destruct (marshal_starts (OInt n)) as (c & l & E & _). pose proof (itoa_chars n) as Hc.
  simpl Print.marshal in *. rewrite E in *. inversion Hc as [|? ? H1 _]; subst. cbn [app] in *.
  assert (Hb : (byte_val c =? 91) = false /\ (byte_val c =? 123) = false /\ (byte_val c =? 34) = false /\
               (byte_val c =? 116) = false /\ (byte_val c =? 102) = false /\ (byte_val c =? 110) = false).
  { rewrite !Z.eqb_neq. apply orb_true_iff in H1 as [H1%char_in_spec|H1%Z.eqb_eq]; lia. }
  destruct Hb as (B1 & B2 & B3 & B4 & B5 & B6). rewrite literal_value by (done || lia).
  unfold Scan.literal. rewrite B3, B4, B5, B6, Hn. cbn [mbind option_bind Scan.of_option]. rewrite <- E.
  by rewrite string_of_bytes_of.
Qed.

(** ** Arrays and objects *)

Lemma commas_cons (l : bytes) ls : ls <> [] -> Print.commas (l :: ls) = l ++ ","%char :: Print.commas ls.
Proof. by destruct ls. Qed.

Lemma list_max_cons_le n ns k : (list_max (n :: ns) <= k)%nat -> (n <= k)%nat /\ (list_max ns <= k)%nat.
Proof. change (list_max (n :: ns)) with (Nat.max n (list_max ns)). lia. Qed.

Lemma delimited_sep c t : bool_decide (c ∈ bytes_of ",]}") = true -> delimited (c :: t).
Proof.
  intros H%bool_decide_eq_true. simpl in H. rewrite !elem_of_cons, elem_of_nil in H.
  destruct H as [->|[->|[->|[]]]]; cbn; auto.
Qed.

Lemma skip_ws_close t : Scan.skip_ws ("]"%char :: t) = "]"%char :: t /\ Scan.skip_ws ("}"%char :: t) = "}"%char :: t /\
  Scan.skip_ws (","%char :: t) = ","%char :: t /\ Scan.skip_ws (":"%char :: t) = ":"%char :: t.
Proof. done. Qed.

Lemma elems_step fuel depth j t :
  Scan.value fuel depth (Print.marshal j ++ t) = Scan.POk (as_read j) t ->
  Scan.elems (S fuel) depth (Print.marshal j ++ t) =
  match Scan.skip_ws t with
  | c :: r' =>
      if byte_val c =? 44 then
        Scan.pbind (Scan.elems fuel depth (Scan.skip_ws r')) (fun es r'' => Scan.POk ((Print.marshal j, as_read j) :: es) r'')
      else if byte_val c =? 93 then Scan.POk [(Print.marshal j, as_read j)] r'
      else Scan.PFail
  | [] => Scan.PFail
  end.
Proof. intros H. cbn [Scan.elems]. rewrite H. cbn [Scan.pbind]. by rewrite consumed_app. Qed.

Lemma elems_read l : Forall reads_back l -> l <> [] -> forall fuel depth rest,
  (2 * length (Print.commas (List.map Print.marshal l)) + 1 < fuel)%nat ->
  (depth + list_max (List.map height l) <= Scan.maxNestingDepth)%nat ->
  Scan.elems fuel depth (Print.commas (List.map Print.marshal l) ++ "]"%char :: rest) =
  Scan.POk (List.map (fun x => (Print.marshal x, as_read x)) l) rest.
Proof.
  induction 1 as [|j l Hj Hl IH]; [done|]. intros _ fuel depth rest Hf Hd.
  assert (Hh : (height j <= Scan.maxNestingDepth - depth)%nat /\ (list_max (List.map height l) <= Scan.maxNestingDepth - depth)%nat).
  { apply list_max_cons_le. change (list_max (height j :: List.map height l)) with (list_max (List.map height (j :: l))). lia. }
  destruct Hh as [Hhj Hhl]. assert (Hdep : (depth <= Scan.maxNestingDepth)%nat) by lia. clear Hd.
  destruct fuel as [|fuel]; [lia|]. destruct l as [|j' l].
  - simpl List.map in *. cbn [Print.commas] in *.
    rewrite elems_step; [by rewrite (proj1 (skip_ws_close rest))|]. apply Hj; [lia|lia|by apply delimited_sep].
  - cbn [List.map] in Hf |- *. rewrite commas_cons in Hf |- * by done. rewrite length_app in Hf. cbn [length] in Hf.
    rewrite <- app_assoc, <- app_comm_cons. rewrite elems_step by (apply Hj; [lia|lia|by apply delimited_sep]).
    rewrite (proj1 (proj2 (proj2 (skip_ws_close _)))). change (byte_val ","%char =? 44) with true. cbv iota.
    assert (Hs : forall t, Scan.skip_ws (Print.commas (List.map Print.marshal (j' :: l)) ++ t) = Print.commas (List.map Print.marshal (j' :: l)) ++ t).
    { intros t. destruct l; cbn [List.map Print.commas]; rewrite <- ?app_assoc; apply skip_ws_marshal. }
    change (Print.marshal j' :: List.map Print.marshal l) with (List.map Print.marshal (j' :: l)) in *.
    rewrite Hs, IH; [done|done|lia|lia].
Qed.

Lemma member_text_skip m t : Scan.skip_ws (member_text m ++ t) = member_text m ++ t.
Proof. done. Qed.

Lemma members_step fuel depth (m : string * jout) t :
  Scan.value fuel depth (Print.marshal m.2 ++ t) = Scan.POk (as_read m.2) t ->
  Scan.members (S fuel) depth (member_text m ++ t) =
  match Scan.skip_ws t with
  | c :: r' =>
      if byte_val c =? 44 then
        Scan.pbind (Scan.members fuel depth (Scan.skip_ws r'))
          (fun ms r'' => Scan.POk ((clean_text m.1, (Print.marshal m.2, as_read m.2)) :: ms) r'')
      else if byte_val c =? 125 then Scan.POk [(clean_text m.1, (Print.marshal m.2, as_read m.2))] r'
      else Scan.PFail
  | [] => Scan.PFail
  end.
Proof.
  intros H. unfold member_text. rewrite <- app_assoc, <- app_comm_cons.
  destruct (string_literal_read m.1 (":"%char :: Print.marshal m.2 ++ t)) as [H1 H2].
  unfold Print.string_literal in *. cbn [tl] in H1. rewrite <- app_comm_cons. cbn [Scan.members].
  change (byte_val Print.quote =? 34) with true. cbv iota. rewrite H1.
  rewrite (proj2 (proj2 (proj2 (skip_ws_close _)))). change (byte_val ":"%char =? 58) with true. cbv iota zeta.
  rewrite skip_ws_marshal, H. cbn [Scan.pbind]. by rewrite consumed_app, H2.
Qed.

Lemma members_read l : Forall (fun m => reads_back m.2) l -> l <> [] -> forall fuel depth rest,
  (2 * length (Print.commas (List.map member_text l)) + 1 < fuel)%nat ->
  (depth + list_max (List.map (fun m => height m.2) l) <= Scan.maxNestingDepth)%nat ->
  Scan.members fuel depth (Print.commas (List.map member_text l) ++ "}"%char :: rest) =
  Scan.POk (List.map (fun m => (clean_text m.1, (Print.marshal m.2, as_read m.2))) l) rest.
Proof.
  induction 1 as [|j l Hj Hl IH]; [done|]. intros _ fuel depth rest Hf Hd.
  assert (Hh : (height j.2 <= Scan.maxNestingDepth - depth)%nat /\ (list_max (List.map (fun m => height m.2) l) <= Scan.maxNestingDepth - depth)%nat).
  { apply list_max_cons_le. change (list_max _) with (list_max (List.map (fun m => height m.2) (j :: l))). lia. }
  destruct Hh as [Hhj Hhl]. assert (Hdep : (depth <= Scan.maxNestingDepth)%nat) by lia. clear Hd.
  assert (Hlen : (length (Print.marshal j.2) < length (member_text j))%nat)
    by (unfold member_text; rewrite length_app; simpl; lia).
  destruct fuel as [|fuel]; [lia|]. destruct l as [|j' l].
  - simpl List.map in *. cbn [Print.commas] in *.
    rewrite members_step; [by rewrite (proj1 (proj2 (skip_ws_close rest)))|]. apply Hj; [lia|lia|by apply delimited_sep].
  - cbn [List.map] in Hf |- *. rewrite commas_cons in Hf |- * by done. rewrite length_app in Hf. cbn [length] in Hf.
    rewrite <- app_assoc, <- app_comm_cons. rewrite members_step by (apply Hj; [lia|lia|by apply delimited_sep]).
    rewrite (proj1 (proj2 (proj2 (skip_ws_close _)))). change (byte_val ","%char =? 44) with true. cbv iota.
    assert (Hs : forall t, Scan.skip_ws (Print.commas (List.map member_text (j' :: l)) ++ t) = Print.commas (List.map member_text (j' :: l)) ++ t).
    { intros t. destruct l; cbn [List.map Print.commas]; rewrite <- ?app_assoc; apply member_text_skip. }
    change (member_text j' :: List.map member_text l) with (List.map member_text (j' :: l)) in *.
    rewrite Hs, IH; [done|done|lia|lia].
Qed.

(** The first byte of the text between the brackets is not a closing one. *)
Lemma elems_open l rest : l <> [] -> exists c t,
  Scan.skip_ws (Print.commas (List.map Print.marshal l) ++ rest) = c :: t /\
  c :: t = Print.commas (List.map Print.marshal l) ++ rest /\ (byte_val c =? 93) = false.
Proof.
  destruct l as [|j l]; [done|]. intros _. destruct (marshal_starts j) as (c & t & E & Hc).
  pose proof (starts_value_spec c Hc) as (_ & H93 & _).
  destruct l; cbn [List.map Print.commas]; rewrite E; cbn [app]; rewrite skip_ws_start by done; eauto.
Qed.

Lemma reads_back_array l : Forall reads_back l -> reads_back (OArray l).
Proof.
  intros Hl fuel depth rest Hf Hd _. destruct fuel as [|fuel]; [lia|].
  change (Print.marshal (OArray l)) with ("["%char :: Print.commas (List.map Print.marshal l) ++ ["]"%char]) in *.
  cbn [height as_read] in *. rewrite <- app_comm_cons, <- app_assoc. cbn [app length] in *. rewrite length_app in Hf.
  cbn [Scan.value]. change (byte_val "["%char =? 91) with true. cbv iota.
  rewrite (proj2 (Nat.leb_gt _ _)) by lia. destruct l as [|j l]; [done|].
  destruct (elems_open (j :: l) ("]"%char :: rest)) as (c & t & -> & E & ->); [done|]. rewrite E.
  rewrite elems_read; [done|done|done|cbn [length] in Hf; lia|lia].
Qed.

Lemma reads_back_object l : Forall (fun m => reads_back m.2) l -> reads_back (OObject l).
Proof.
  intros Hl fuel depth rest Hf Hd _. destruct fuel as [|fuel]; [lia|].
  change (Print.marshal (OObject l)) with ("{"%char :: Print.commas (List.map member_text l) ++ ["}"%char]) in *.
  cbn [height as_read] in *. rewrite <- app_comm_cons, <- app_assoc. cbn [app length] in *. rewrite length_app in Hf.
  cbn [Scan.value]. change (byte_val "{"%char =? 91) with false. change (byte_val "{"%char =? 123) with true. cbv iota.
  rewrite (proj2 (Nat.leb_gt _ _)) by lia. destruct l as [|m l]; [done|].
  assert (Ho : exists t, Print.commas (List.map member_text (m :: l)) ++ "}"%char :: rest = Print.quote :: t /\
                         Scan.skip_ws (Print.quote :: t) = Print.quote :: t)
    by (destruct l; cbn [List.map Print.commas]; eexists; split; [done|done|done|done]).
  destruct Ho as (t & E & Hs). rewrite E, Hs. change (byte_val Print.quote =? 125) with false. cbv iota. rewrite <- E.
  rewrite members_read; [done|done|done|cbn [length] in Hf; lia|lia].
Qed.

Lemma marshal_read j : reads_back j.
Proof.
  induction j using jout_nested_ind;
    auto using reads_back_null, reads_back_bool, reads_back_int, reads_back_string, reads_back_array, reads_back_object.
Qed.

(** [json.Unmarshal] of what [json.Marshal] wrote. *)
Lemma marshal_parsed j : (height j <= Scan.maxNestingDepth)%nat -> parse_document (json_Marshal j) = Some (as_read j).
Proof.
  intros Hh. unfold parse_document, json_Marshal, Scan.first_value.
  pose proof (skip_ws_marshal j []) as Hs. rewrite app_nil_r in Hs. rewrite Hs.
  pose proof (marshal_read j (S (2 * length (Print.marshal j))) 0%nat []) as Hr. rewrite app_nil_r in Hr.
  rewrite Hr; [done|lia|done|done].
Qed.

(** ** Texts that are printed and read as they are *)

(** Every byte is ASCII. *)
Definition ascii_text (s : string) : Prop := Forall (fun c => byte_val c < 128) (bytes_of s).

Lemma clean_ascii l : Forall (fun c => byte_val c < 128) l -> clean 0 l = l.
Proof.
  induction 1 as [|c l Hc Hl IH]; [done|]. cbn [clean Utf8.decode_rune].
  rewrite (proj2 (Z.ltb_lt _ _)) by done. cbn [Nat.sub]. rewrite IH. unfold Utf8.encode_rune.
  pose proof (byte_val_range c).
  assert ((byte_val c <? 0) || (1114111 <? byte_val c) || ((55296 <=? byte_val c) && (byte_val c <=? 57343)) = false) as ->.
  { apply orb_false_iff. rewrite orb_false_iff, andb_false_iff, !Z.ltb_ge, !Z.leb_gt. lia. }
  rewrite (proj2 (Z.ltb_lt _ _)) by done. cbn [app]. by rewrite byte_of_val.
Qed.

Lemma clean_text_ascii s : ascii_text s -> clean_text s = s.
Proof. intros H. unfold clean_text. rewrite clean_ascii by done. apply string_of_bytes_of. Qed.

(** Cleaning is done once. *)
Lemma clean_app_rune r t :
  (r = Utf8.RuneError \/ exists l w, wide l r w) -> clean 0 (Utf8.encode_rune r ++ t) = Utf8.encode_rune r ++ clean 0 t.
Proof.
  intros [->|(l & w & Hw)]; [done|]. destruct Hw as [[Hw1 Hw2] Hb _ Hagain]. rewrite Hb in *.
  assert (Hlen : length (take w l) = w) by (rewrite length_take; lia).
  specialize (Hagain t). destruct (take w l) as [|c u] eqn:E; [simpl in Hlen; lia|].
  cbn [app clean] in *. rewrite Hagain, Hb, clean_skip. simpl in Hlen.
  replace (w - 1)%nat with (length u) by lia. by rewrite drop_app_length.
Qed.

Lemma clean_twice l : clean 0 (clean 0 l) = clean 0 l.
Proof.
  induction l as [|c l Hc IH|c l Hc Hd IH|l r w Hd Hw IH] using rune_ind; [done| | |].
  - assert (Ha : forall k, clean 0 (c :: k) = c :: clean 0 k).
    { intros k. cbn [clean Utf8.decode_rune]. rewrite (proj2 (Z.ltb_lt _ _) Hc). cbn [Nat.sub].
      pose proof (byte_val_range c). rewrite encode_rune_valid by lia. rewrite (proj2 (Z.ltb_lt _ _) Hc). by rewrite byte_of_val. }
    by rewrite !Ha, IH.
  - cbn [clean]. rewrite Hd. cbn [Nat.sub]. by rewrite clean_app_rune, IH by (by left).
  - destruct l as [|c l]; [done|]. cbn [clean]. rewrite Hd, (clean_skip (w - 1)).
    replace (drop (w - 1) l) with (drop w (c :: l)) by (destruct Hw as [[]]; destruct w; [lia|]; simpl; by rewrite Nat.sub_0_r).
    rewrite clean_app_rune, IH by (right; eauto). done.
Qed.

Lemma clean_text_twice s : clean_text (clean_text s) = clean_text s.
Proof. unfold clean_text. by rewrite bytes_of_string_of, clean_twice. Qed.

(** An escaped text is at most six times as long. *)
Lemma escape_length l : (length (Print.escape 0 l) <= 6 * length l)%nat.
Proof.
  induction l as [|c l Hc IH|c l Hc Hd IH|l r w Hd Hw IH] using rune_ind; [done| | |].
  - cbn [Print.escape]. rewrite (proj2 (Z.ltb_lt _ _) Hc), length_app.
    assert (length (Print.escape_ascii c) <= 6)%nat; [|simpl; lia].
    unfold Print.escape_ascii, Print.u_escape. repeat case_match; simpl; lia.
  - cbn [Print.escape]. rewrite (proj2 (Z.ltb_ge _ _) Hc), Hd. cbn [Nat.sub]. rewrite length_app. simpl. lia.
  - destruct l as [|c l]; [done|]. pose proof Hw as [[Hw1 Hw2] _ Hh _]. cbn [Print.escape].
    assert (128 <= byte_val c) as Hc by (destruct w; [lia|]; by inversion Hh).
    rewrite (proj2 (Z.ltb_ge _ _) Hc), Hd, escape_skip, length_app.
    replace (drop (w - 1) l) with (drop w (c :: l)) by (destruct w; [lia|]; simpl; by rewrite Nat.sub_0_r).
    rewrite length_drop in IH. assert (forall v, length (Print.u_escape v) = 6%nat) as Hu by done.
    repeat case_match; rewrite ?Hu, ?length_take; lia.
Qed.

(** A line written by [Encode]. *)
Lemma line_parsed j : (height j <= Scan.maxNestingDepth)%nat ->
  parse_document (json_Marshal j ++ [byte_of 10]) = Some (as_read j).
Proof.
  intros Hh. unfold parse_document, json_Marshal, Scan.first_value. rewrite skip_ws_marshal.
  rewrite marshal_read; [done|rewrite length_app; lia|done|]. right. by right; right.
Qed.
