(* ===== verification/GoHTTP.v ===== *)
(** The parts of [net/url], [mime] and [net/http] the gateway's handlers read:
    [URL.Query], [mime.ParseMediaType] and the request and response values. *)

From Stdlib Require Import ZArith Lia Ascii String.
From stdpp Require Import base gmap strings list option.
From S2P Require Import Prelude GoText GoJSON.

Local Open Scope Z_scope.

(** ** net/url *)
Module URL.
(** [strings.Cut] at the first occurrence of a byte. *)
Fixpoint cut (sep : ascii) (l : bytes) : bytes * bytes * bool :=
  match l with
  | [] => ([], [], false)
  | c :: l' => if bool_decide (c = sep) then ([], l', true)
               else let '(a, b, f) := cut sep l' in (c :: a, b, f)
  end.

(** [QueryUnescape]: [%XX] is a byte, [+] a space, a bad escape an error. *)
Fixpoint unescape (l : bytes) : option bytes :=
  match l with
  | [] => Some []
  | c :: l' =>
      if byte_val c =? 37 then
        match l' with
        | a :: b :: l'' => x ← hex_value a; y ← hex_value b; r ← unescape l'';
                           Some (byte_of (16 * x + y) :: r)
        | _ => None
        end
      else r ← unescape l'; Some ((if byte_val c =? 43 then " "%char else c) :: r)
  end.

Definition add_pair (m : gmap string (list string)) (seg : bytes) : gmap string (list string) :=
  if bool_decide (";"%char ∈ seg) || bool_decide (seg = []) then m else
  let '(k, v, _) := cut "="%char seg in
  match unescape k, unescape v with
  | Some k', Some v' =>
      let key := string_of k' in
      <[key := default [] (m !! key) ++ [string_of v']]> m
  | _, _ => m
  end.

(** [URL.Query()]: malformed pairs are dropped silently. *)
Definition Query (rawQuery : string) : gmap string (list string) :=
  foldl add_pair ∅ (split_bytes "&"%char [] (bytes_of rawQuery)).

Definition Get (m : gmap string (list string)) (key : string) : string :=
  match m !! key with Some (v :: _) => v | _ => "" end.
End URL.

(** ** mime.ParseMediaType *)
Module Mime.
Definition isTSpecial (c : ascii) : bool :=
  bool_decide (c ∈ bytes_of "()<>@,;:\/[]?=") || (byte_val c =? 34).
Definition isTokenChar (c : ascii) : bool :=
  (32 <? byte_val c) && (byte_val c <? 127) && negb (isTSpecial c).

Fixpoint consumeToken (l : bytes) : bytes * bytes :=
  match l with
  | c :: l' => if isTokenChar c then let '(t, r) := consumeToken l' in (c :: t, r) else ([], l)
  | [] => ([], [])
  end.

(** The runes of a string with their bytes. *)
Fixpoint segments (skip : nat) (l : bytes) : list (Z * bytes) :=
  match l with
  | [] => []
  | _ :: l' =>
      match skip with
      | S k => segments k l'
      | O => match Utf8.decode_rune l with
             | Some (r, w) => (r, take w l) :: segments (w - 1) l'
             | None => []
             end
      end
  end.

Fixpoint drop_spaces (l : list (Z * bytes)) : list (Z * bytes) :=
  match l with
  | s :: l' => if Utf8.IsSpace s.1 then drop_spaces l' else l
  | [] => []
  end.

Definition concat_segments (l : list (Z * bytes)) : bytes := l ≫= snd.
Definition trim_left (l : bytes) : bytes := concat_segments (drop_spaces (segments 0 l)).
Definition trim_space (l : bytes) : bytes :=
  concat_segments (reverse (drop_spaces (reverse (drop_spaces (segments 0 l))))).

(** [strings.ToLower]; U+0130 and U+212A are the runes outside ASCII that lower
    to an ASCII letter, and no other rune outside ASCII can be part of a token. *)
Definition lower_segment (s : Z * bytes) : bytes :=
  if (65 <=? s.1) && (s.1 <=? 90) then [byte_of (s.1 + 32)]
  else if s.1 =? 304 then bytes_of "i"
  else if s.1 =? 8490 then bytes_of "k"
  else s.2.
Definition to_lower (l : bytes) : bytes := segments 0 l ≫= lower_segment.

Definition valid_media_type (l : bytes) : bool :=
  match consumeToken l with
  | ([], _) => false
  | (_, []) => true
  | (_, c :: r) => (byte_val c =? 47) &&
                   match consumeToken r with
                   | ([], _) => false
                   | (_, rest) => bool_decide (rest = [])
                   end
  end.

(** A quoted string after its opening quote. *)
Fixpoint quoted (l : bytes) : option (bytes * bytes) :=
  match l with
  | [] => None
  | c :: l' =>
      if byte_val c =? 34 then Some ([], l')
      else
        let plain := if (byte_val c =? 13) || (byte_val c =? 10) then None
                     else '(v, r) ← quoted l'; Some (c :: v, r) in
        match l' with
        | e :: l'' => if (byte_val c =? 92) && isTSpecial e
                      then '(v, r) ← quoted l''; Some (e :: v, r) else plain
        | [] => plain
        end
  end.

Definition consumeValue (l : bytes) : option (bytes * bytes) :=
  match l with
  | [] => None
  | c :: l' => if byte_val c =? 34 then quoted l'
               else match consumeToken l with ([], _) => None | (t, r) => Some (t, r) end
  end.

(** One [; name = value] parameter, or [None] where Go reports no parameter. *)
Definition consumeMediaParam (l : bytes) : option (bytes * bytes * bytes) :=
  match trim_left l with
  | c :: r1 =>
      if byte_val c =? 59 then
        let '(name, r2) := consumeToken (trim_left r1) in
        if bool_decide (name = []) then None else
        match trim_left r2 with
        | eq :: r3 => if byte_val eq =? 61 then
                        '(v, r) ← consumeValue (trim_left r3); Some (to_lower name, v, r)
                      else None
        | [] => None
        end
      else None
  | [] => None
  end.

(** The parameter loop; a repeated name must repeat its value.  Each round
    consumes at least the semicolon, so the length of the text is enough fuel. *)
Fixpoint params (fuel : nat) (acc : gmap string string) (l : bytes) : option (gmap string string) :=
  match fuel with
  | O => Some acc
  | S fuel' =>
      match trim_left l with
      | [] => Some acc
      | l1 =>
          match consumeMediaParam l1 with
          | Some (name, v, rest) =>
              let key := string_of name in
              let value := string_of v in
              match acc !! key with
              | Some v' => if bool_decide (v' = value) then params fuel' acc rest else None
              | None => params fuel' (<[key := value]> acc) rest
              end
          | None => if bool_decide (trim_space l1 = [";"%char]) then Some acc else None
          end
      end
  end.

(** The media type and its parameters; [None] is an error.  The continuation
    syntax of RFC 2231 ([name*0=]) is kept under its literal parameter names. *)
Definition ParseMediaType (v : string) : option (string * gmap string string) :=
  let '(base, _, _) := URL.cut ";"%char (bytes_of v) in
  let mediatype := trim_space (to_lower base) in
  if valid_media_type mediatype then
    let rest := drop (length base) (bytes_of v) in
    ps ← params (S (length rest)) ∅ rest; Some (string_of mediatype, ps)
  else None.
End Mime.

(** ** Requests and responses *)
Record Request := {
  req_Path : string;
  req_Method : string;
  req_RawQuery : string;
  req_ContentType : string;       (* Header.Get("Content-Type") *)
  req_MyCustomAuth : string;      (* Header.Get("My-Custom-Auth") *)
  req_Body : bytes;               (* what can be read of the body *)
  req_Broken : bool               (* reading it ends in an error, not at its end *)
}.

Record Response := {
  resp_Status : Z;
  resp_ContentType : string;
  resp_MyCustomChallenge : string;  (* empty when the header is not set *)
  resp_Body : bytes
}.
