(* ===== verification/GoURL.v ===== *)
(** [net/url] of the Go standard library (Go 1.24): [Parse], [URL.String] and
    [URL.Hostname], which the delivery of attachments and the check of a destination
    use, with the escaping rules of the parts of a URL.

    Between brackets a host is taken as it is; later patch releases of Go also ask for
    an IPv6 address there. *)

From Stdlib Require Import ZArith Lia Ascii String.
From stdpp Require Import base gmap strings list option.
From S2P Require Import Prelude GoText GoHTTP.

Local Open Scope Z_scope.

Module NetURL.
Inductive encoding := encodePath | encodeHost | encodeZone | encodeUserPassword | encodeFragment.

Definition is_host (mode : encoding) : bool :=
  match mode with encodeHost | encodeZone => true | _ => false end.

Definition quote_char : ascii := Ascii.ascii_of_nat 34.

(** ** Escaping *)
Definition shouldEscape (c : ascii) (mode : encoding) : bool :=
  if is_alnum c then false
  else if is_host mode && (bool_decide (c ∈ bytes_of "!$&'()*+,;=:[]<>") || bool_decide (c = quote_char)) then false
  else if bool_decide (c ∈ bytes_of "-_.~") then false
  else if bool_decide (c ∈ bytes_of "$&+,/:;=?@") then
    match mode with
    | encodePath => bool_decide (c = "?"%char)
    | encodeUserPassword => bool_decide (c ∈ bytes_of "@/?:")
    | encodeFragment => false
    | _ => true
    end
  else match mode with
       | encodeFragment => negb (bool_decide (c ∈ bytes_of "!()*"))
       | _ => true
       end.

Definition upper_hex (v : Z) : ascii := byte_of (if v <? 10 then 48 + v else 55 + v).

Definition escape_byte (mode : encoding) (c : ascii) : bytes :=
  if shouldEscape c mode then ["%"%char; upper_hex (byte_val c / 16); upper_hex (byte_val c mod 16)] else [c].
Definition escape (mode : encoding) (l : bytes) : bytes := l ≫= escape_byte mode.

(** [%XX] is a byte; a host may only escape what is not ASCII, or the percent sign. *)
Fixpoint unescape (mode : encoding) (l : bytes) : option bytes :=
  match l with
  | [] => Some []
  | c :: l' =>
      if bool_decide (c = "%"%char) then
        match l' with
        | a :: b :: l'' =>
            x ← hex_value a; y ← hex_value b;
            let v := byte_of (16 * x + y) in
            let percent := bool_decide (a = "2"%char) && bool_decide (b = "5"%char) in
            let bad := match mode with
                       | encodeHost => (x <? 8) && negb percent
                       | encodeZone => negb percent && negb (bool_decide (v = " "%char)) && shouldEscape v encodeHost
                       | _ => false
                       end in
            if bad then None else r ← unescape mode l''; Some (v :: r)
        | _ => None
        end
      else if is_host mode && (byte_val c <? 128) && shouldEscape c mode then None
      else r ← unescape mode l'; Some (c :: r)
  end.

(** The bytes a raw path may have and still be used as it is. *)
Definition validEncoded (mode : encoding) (l : bytes) : bool :=
  forallb (fun c => bool_decide (c ∈ bytes_of "!$&'()*+,;=:@[]%") || negb (shouldEscape c mode)) l.

(** ** Parsing *)
Record URL := mkURL {
  Scheme : bytes;
  Opaque : bytes;
  User : option (bytes * option bytes);
  Host : bytes;
  Path : bytes;
  RawPath : bytes;
  OmitHost : bool;
  ForceQuery : bool;
  RawQuery : bytes;
  Fragment : bytes;
  RawFragment : bytes
}.

Definition lower (c : ascii) : ascii := if is_upper c then byte_of (byte_val c + 32) else c.

(** The text before the last occurrence of a byte, and the text from it on. *)
Definition cut_last (sep : ascii) (l : bytes) : option (bytes * bytes) :=
  match URL.cut sep (reverse l) with
  | (after, before, true) => Some (reverse before, reverse after)
  | _ => None
  end.

(** [getScheme]: what is before the first colon, if it is a scheme. *)
Fixpoint scheme_from (first : bool) (seen : bytes) (l : bytes) : option (bytes * bytes) + unit :=
  match l with
  | [] => inl None
  | c :: l' =>
      if is_upper c || is_lower c then scheme_from false (c :: seen) l'
      else if is_digit c || bool_decide (c ∈ bytes_of "+-.") then
        if first then inl None else scheme_from false (c :: seen) l'
      else if bool_decide (c = ":"%char) then
        if first then inr tt else inl (Some (reverse seen, l'))
      else inl None
  end.
Definition getScheme (l : bytes) : option (bytes * bytes) :=
  match scheme_from true [] l with
  | inl (Some (scheme, rest)) => Some (scheme, rest)
  | inl None => Some ([], l)
  | inr _ => None
  end.

Definition validOptionalPort (l : bytes) : bool :=
  match l with
  | [] => true
  | c :: l' => bool_decide (c = ":"%char) && forallb is_digit l'
  end.

Definition unescape_zone (inside after : bytes) : option bytes :=
  (* the zone starts at the first "%25" *)
  let fix at_zone (pre l : bytes) : bytes * bytes :=
    match l with
    | [] => (reverse pre, [])
    | c :: l' => if bool_decide (take 3 l = bytes_of "%25") then (reverse pre, l) else at_zone (c :: pre) l'
    end in
  let '(address, zone) := at_zone [] inside in
  a ← unescape encodeHost address; z ← unescape encodeZone zone; r ← unescape encodeHost after;
  Some (a ++ z ++ r).

Definition parseHost (host : bytes) : option bytes :=
  match host with
  | c :: _ =>
      if bool_decide (c = "["%char) then
        '(inside, port) ← cut_last "]"%char host;
        if validOptionalPort port then unescape_zone inside ("]"%char :: port) else None
      else match cut_last ":"%char host with
      | Some (_, port) => if forallb is_digit port then unescape encodeHost host else None
      | None => unescape encodeHost host
      end
  | [] => Some []
  end.

Definition validUserinfo (l : bytes) : bool :=
  forallb (fun c => is_alnum c || bool_decide (c ∈ bytes_of "-._:~!$&'()*+,;=%@")) l.

Definition parseAuthority (authority : bytes) : option (option (bytes * option bytes) * bytes) :=
  match cut_last "@"%char authority with
  | None => host ← parseHost authority; Some (None, host)
  | Some (userinfo, rest) =>
      host ← parseHost rest;
      if negb (validUserinfo userinfo) then None else
      let '(name, password, found) := URL.cut ":"%char userinfo in
      name' ← unescape encodeUserPassword name;
      if (found : bool) then password' ← unescape encodeUserPassword password; Some (Some (name', Some password'), host)
      else Some (Some (name', None), host)
  end.

(** [setPath]: the decoded path, and the raw one when the default encoding differs. *)
Definition setPath (p : bytes) : option (bytes * bytes) :=
  path ← unescape encodePath p;
  Some (path, if bool_decide (escape encodePath path = p) then [] else p).

Definition setFragment (f : bytes) : option (bytes * bytes) :=
  fragment ← unescape encodeFragment f;
  Some (fragment, if bool_decide (escape encodeFragment fragment = f) then [] else f).

Definition has_prefix (p l : bytes) : bool := bool_decide (take (length p) l = p).

(** [strings.Cut(rest, "?")], with a lone question mark at the end kept apart. *)
Definition cut_query (rest : bytes) : bytes * bool * bytes :=
  let '(before, after, found) := URL.cut "?"%char rest in
  if (found : bool) && bool_decide (after = []) then (before, true, []) else (before, false, after).

(** [parse(rawURL, viaRequest = false)] *)
Definition parse (raw : bytes) : option URL :=
  if existsb (fun c => (byte_val c <? 32) || (byte_val c =? 127)) raw then None
  else if bool_decide (raw = bytes_of "*") then Some (mkURL [] [] None [] raw [] false false [] [] [])
  else
  '(scheme, rest) ← getScheme raw;
  let scheme := lower <$> scheme in
  let '(rest, force, query) := cut_query rest in
  if negb (has_prefix (bytes_of "/") rest) && negb (bool_decide (scheme = [])) then
    Some (mkURL scheme rest None [] [] [] false force query [] [])
  else if negb (has_prefix (bytes_of "/") rest)
          && bool_decide (":"%char ∈ (URL.cut "/"%char rest).1.1) then None
  else if (negb (bool_decide (scheme = [])) || negb (has_prefix (bytes_of "///") rest))
          && has_prefix (bytes_of "//") rest then
    let '(authority, tail, found) := URL.cut "/"%char (drop 2 rest) in
    '(user, host) ← parseAuthority authority;
    '(path, rawpath) ← setPath (if (found : bool) then "/"%char :: tail else []);
    Some (mkURL scheme [] user host path rawpath false force query [] [])
  else
    '(path, rawpath) ← setPath rest;
    Some (mkURL scheme [] None [] path rawpath
            (negb (bool_decide (scheme = [])) && has_prefix (bytes_of "/") rest) force query [] []).

Definition with_fragment (u : URL) (f : bytes * bytes) : URL :=
  mkURL (Scheme u) (Opaque u) (User u) (Host u) (Path u) (RawPath u) (OmitHost u) (ForceQuery u) (RawQuery u) f.1 f.2.

Definition Parse (raw : string) : option URL :=
  let '(u, frag, _) := URL.cut "#"%char (bytes_of raw) in
  url ← parse u;
  if bool_decide (frag = []) then Some url else f ← setFragment frag; Some (with_fragment url f).

(** ** Printing *)
Definition EscapedPath (u : URL) : bytes :=
  if negb (bool_decide (RawPath u = [])) && validEncoded encodePath (RawPath u)
     && bool_decide (unescape encodePath (RawPath u) = Some (Path u)) then RawPath u
  else if bool_decide (Path u = bytes_of "*") then bytes_of "*"
  else escape encodePath (Path u).

Definition EscapedFragment (u : URL) : bytes :=
  if negb (bool_decide (RawFragment u = [])) && validEncoded encodeFragment (RawFragment u)
     && bool_decide (unescape encodeFragment (RawFragment u) = Some (Fragment u)) then RawFragment u
  else escape encodeFragment (Fragment u).

Definition user_text (user : option (bytes * option bytes)) : bytes :=
  match user with
  | None => []
  | Some (name, password) =>
      escape encodeUserPassword name
      ++ match password with Some p => ":"%char :: escape encodeUserPassword p | None => [] end ++ ["@"%char]
  end.

Definition authority_text (u : URL) : bytes :=
  if bool_decide (Scheme u = []) && bool_decide (Host u = []) && bool_decide (User u = None) then []
  else if OmitHost u && bool_decide (Host u = []) && bool_decide (User u = None) then []
  else (if negb (bool_decide (Host u = [])) || negb (bool_decide (Path u = [])) || negb (bool_decide (User u = None))
        then bytes_of "//" else [])
       ++ user_text (User u) ++ escape encodeHost (Host u).

Definition path_text (before : bytes) (u : URL) : bytes :=
  let path := EscapedPath u in
  let slash := match path with
               | c :: _ => if negb (bool_decide (c = "/"%char)) && negb (bool_decide (Host u = []))
                           then ["/"%char] else []
               | [] => []
               end in
  let dot := if bool_decide ((before ++ slash)%list = []) && bool_decide (":"%char ∈ (URL.cut "/"%char path).1.1)
             then bytes_of "./" else [] in
  slash ++ dot ++ path.

Definition String_ (u : URL) : string :=
  let scheme := if bool_decide (Scheme u = []) then [] else Scheme u ++ [":"%char] in
  let body := if negb (bool_decide (Opaque u = [])) then scheme ++ Opaque u
              else let before := scheme ++ authority_text u in before ++ path_text before u in
  string_of (body
    ++ (if ForceQuery u || negb (bool_decide (RawQuery u = [])) then "?"%char :: RawQuery u else [])
    ++ (if bool_decide (Fragment u = []) then [] else "#"%char :: EscapedFragment u)).

(** [Hostname]: the host without its port and brackets. *)
Definition Hostname (u : URL) : bytes :=
  let host := match cut_last ":"%char (Host u) with
              | Some (h, port) => if forallb is_digit port then h else Host u
              | None => Host u
              end in
  match host, list.last host with
  | c :: rest, Some e =>
      if bool_decide (c = "["%char) && bool_decide (e = "]"%char) then take (length rest - 1) rest else host
  | _, _ => host
  end.
End NetURL.
