(* ===== verification/GoConv.v ===== *)
(** [strconv], [time.ParseDuration] and the IEEE 754 arithmetic they use, as the
    configuration and the administration API read numbers, switches and durations. *)

From Stdlib Require Import ZArith Lia Ascii String SpecFloat.
From stdpp Require Import base gmap strings list option.
From S2P Require Import Prelude GoText GoJSON.

Local Open Scope string_scope.
Local Open Scope Z_scope.

(** ** strconv *)

(** The value of a text of at least one digit. *)
Definition digits_number (l : bytes) : option Z :=
  match l with [] => None | _ => digits_value 0 l end.

(** [strconv.ParseInt(s, 10, 64)], which [strconv.Atoi] also computes. *)
Definition ParseInt (s : string) : option Z :=
  n ← match bytes_of s with
      | c :: l => if byte_val c =? 45 then Z.opp <$> digits_number l
                  else if byte_val c =? 43 then digits_number l
                  else digits_number (c :: l)
      | [] => None
      end;
  if in_int64 n then Some n else None.

(** [strconv.ParseBool] *)
Definition ParseBool (s : string) : option bool :=
  if bool_decide (s ∈ ["1"; "t"; "T"; "true"; "TRUE"; "True"]) then Some true
  else if bool_decide (s ∈ ["0"; "f"; "F"; "false"; "FALSE"; "False"]) then Some false
  else None.

(** ** float64 *)
Definition float64 (n : Z) : spec_float := binary_normalize 53 1024 n 0 false.
Definition float_mul (x y : spec_float) : spec_float := SFmul 53 1024 x y.
Definition float_div (x y : spec_float) : spec_float := SFdiv 53 1024 x y.
Definition float_add (x y : spec_float) : spec_float := SFadd 53 1024 x y.

(** The conversion of a finite float to an integer drops its fraction. *)
Definition float_trunc (x : spec_float) : Z :=
  match x with
  | S754_finite s m e =>
      let v := if 0 <=? e then Z.pos m * 2 ^ e else Z.pos m / 2 ^ (- e) in
      if (s : bool) then - v else v
  | _ => 0
  end.

(** [int(d.Seconds())] *)
Definition whole_seconds (d : duration) : Z :=
  float_trunc (float_add (float64 (Z.quot d second)) (float_div (float64 (Z.rem d second)) (float64 1000000000))).

(** ** time.ParseDuration *)

(** [leadingInt]; [None] is an overflow. *)
Fixpoint leadingInt (x : Z) (l : bytes) : option (Z * bytes) :=
  match l with
  | c :: l' =>
      if is_digit c then
        if 2 ^ 63 / 10 <? x then None
        else let x' := x * 10 + (byte_val c - 48) in
             if 2 ^ 63 <? x' then None else leadingInt x' l'
      else Some (x, l)
  | [] => Some (x, [])
  end.

(** [leadingFraction]: the digits, their scale and the rest; digits that no longer
    fit are skipped. *)
Fixpoint leadingFraction (x scale : Z) (overflow : bool) (l : bytes) : Z * Z * bytes :=
  match l with
  | c :: l' =>
      if is_digit c then
        if overflow || ((2 ^ 63 - 1) / 10 <? x) then leadingFraction x scale true l'
        else let y := x * 10 + (byte_val c - 48) in
             if 2 ^ 63 <? y then leadingFraction x scale true l'
             else leadingFraction y (scale * 10) false l'
      else (x, scale, l)
  | [] => (x, scale, [])
  end.

Definition unit_of (u : string) : option Z :=
  if bool_decide (u = "ns") then Some 1
  else if bool_decide (u = "us") || bool_decide (u = "µs") || bool_decide (u = "μs") then Some 1000
  else if bool_decide (u = "ms") then Some 1000000
  else if bool_decide (u = "s") then Some second
  else if bool_decide (u = "m") then Some minute
  else if bool_decide (u = "h") then Some (60 * minute)
  else None.

Fixpoint span_unit (l : bytes) : bytes * bytes :=
  match l with
  | c :: l' => if (byte_val c =? 46) || is_digit c then ([], l)
               else let '(u, r) := span_unit l' in (c :: u, r)
  | [] => ([], [])
  end.

(** [v*unit + f*unit/scale], the fraction in floating point. *)
Definition unit_value (v f scale unit : Z) : option Z :=
  if 2 ^ 63 / unit <? v then None else
  let v := v * unit in
  if 0 <? f then
    let v := v + float_trunc (float_mul (float64 f) (float_div (float64 unit) (float64 scale))) in
    if 2 ^ 63 <? v then None else Some v
  else Some v.

(** One number with its unit. *)
Definition duration_term (l : bytes) : option (Z * bytes) :=
  match l with
  | c :: _ =>
      if (byte_val c =? 46) || is_digit c then
        '(v, l1) ← leadingInt 0 l;
        let pre := negb (length l =? length l1)%nat in
        let '(f, scale, l2, post) :=
          match l1 with
          | p :: l2 => if byte_val p =? 46 then
                         let '(f, scale, l3) := leadingFraction 0 1 false l2 in
                         (f, scale, l3, negb (length l2 =? length l3)%nat)
                       else (0, 1, l1, false)
          | [] => (0, 1, l1, false)
          end in
        if negb pre && negb post then None else
        let '(u, rest) := span_unit l2 in
        if bool_decide (u = []) then None else
        unit ← unit_of (string_of u);
        v' ← unit_value v f scale unit;
        Some (v', rest)
      else None
  | [] => None
  end.

(** The loop; every term consumes at least a digit, so the length is enough fuel.
    [d] is a uint64 and wraps. *)
Fixpoint duration_terms (fuel : nat) (d : Z) (l : bytes) : option Z :=
  match l, fuel with
  | [], _ => Some d
  | _, O => None
  | _, S fuel' =>
      '(v, rest) ← duration_term l;
      let d' := (d + v) mod 2 ^ 64 in
      if 2 ^ 63 <? d' then None else duration_terms fuel' d' rest
  end.

Definition ParseDuration (s : string) : option duration :=
  let '(neg, l) := match bytes_of s with
                   | c :: l => if byte_val c =? 45 then (true, l)
                               else if byte_val c =? 43 then (false, l) else (false, c :: l)
                   | [] => (false, [])
                   end in
  if bool_decide (l = bytes_of "0") then Some 0 else
  if bool_decide (l = []) then None else
  d ← duration_terms (length l) 0 l;
  if (neg : bool) then Some (wrap64 (- d))
  else if 2 ^ 63 - 1 <? d then None else Some d.

(** ** What the texts mean *)
Lemma ParseInt_range s n : ParseInt s = Some n -> in_int64 n = true.
Proof.
  unfold ParseInt. destruct (match bytes_of s with [] => None | _ => _ end) as [m|]; [|done].
  cbn [mbind option_bind]. destruct (in_int64 m) eqn:E; [|done]. by intros [= <-].
Qed.

Example durations :
  ParseDuration "12h" = Some 43200000000000 /\ ParseDuration "1h30m" = Some 5400000000000 /\
  ParseDuration "-1.5s" = Some (- 1500000000) /\ ParseDuration "0.1h" = Some 360000000000 /\
  ParseDuration "1" = None /\ ParseDuration "" = None /\ ParseDuration ".s" = None /\
  ParseDuration "9223372036854775808ns" = None /\
  ParseDuration "-9223372036854775808ns" = Some (- 9223372036854775808) /\
  whole_seconds 43200999999999 = 43200.
Proof. vm_compute. repeat split. Qed.
