(* ===== verification/GoNet.v ===== *)
(** [net], [net/netip] and [net/http] as the administration API uses them: addresses
    and prefixes, cookies, and the routing of [http.ServeMux]. *)

From Stdlib Require Import ZArith Lia Ascii String.
From stdpp Require Import base gmap strings list option.
From S2P Require Import Prelude GoText GoJSON GoHTTP GoURL GoConv.

Local Open Scope string_scope.
Local Open Scope Z_scope.

(** [net.SplitHostPort]; the port is not used. *)
Definition SplitHostPort (hostport : string) : option string :=
  let l := bytes_of hostport in
  '(before, port) ← NetURL.cut_last ":"%char l;
  match l with
  | c :: rest =>
      if bool_decide (c = "["%char) then
        let '(inside, after, found) := URL.cut "]"%char rest in
        if negb (found : bool) then None
        else if bool_decide (("["%char :: inside ++ ["]"%char])%list = before)
             then if bool_decide ("["%char ∈ rest) || bool_decide ("]"%char ∈ after) then None
                  else Some (string_of inside)
             else None
      else if bool_decide (":"%char ∈ before) || bool_decide ("["%char ∈ l) || bool_decide ("]"%char ∈ l)
           then None
           else Some (string_of before)
  | [] => None
  end.

(** ** net/netip *)
Module Netip.
(** An address: its length in bits, its value and its zone. *)
Record Addr := mkAddr { bitlen : Z; value : Z; zone : bytes }.

Definition from_bytes (l : list Z) : Z := foldl (fun acc b => acc * 256 + b) 0 l.

(** One decimal field: no leading zero, at most 255. *)
Definition octet (l : bytes) : option Z :=
  n ← digits_number l;
  if (n <=? 255) && (negb (bool_decide (head l = Some "0"%char)) || (length l =? 1)%nat) then Some n else None.

(** [parseIPv4Fields] *)
Definition parseIPv4Fields (l : bytes) : option (list Z) :=
  match split_bytes "."%char [] l with
  | [a; b; c; d] => a ← octet a; b ← octet b; c ← octet c; d ← octet d; Some [a; b; c; d]
  | _ => None
  end.

(** The hexadecimal digits in front, and what follows. *)
Fixpoint span_hex (l : bytes) : bytes * bytes :=
  match l with
  | c :: l' => if is_hex c then let '(h, r) := span_hex l' in (c :: h, r) else ([], l)
  | [] => ([], [])
  end.
Definition hex_number (l : bytes) : Z := foldl (fun acc c => acc * 16 + default 0 (hex_value c)) 0 l.

(** The loop of [parseIPv6]: the bytes read, where the ellipsis is, and the text left. *)
Fixpoint groups (fuel : nat) (ip : list Z) (ellipsis : option nat) (s : bytes)
    : option (list Z * option nat * bytes) :=
  match fuel with
  | O => Some (ip, ellipsis, s)
  | S fuel' =>
      let '(digits, rest) := span_hex s in
      if bool_decide (digits = []) || (4 <? length digits)%nat then None else
      let more := (ip ++ [hex_number digits / 256; hex_number digits mod 256])%list in
      match rest with
      | [] => Some (more, ellipsis, [])
      | c :: rest' =>
          if byte_val c =? 46 then
            if (bool_decide (ellipsis = None) && negb (length ip =? 12)%nat) || (12 <? length ip)%nat then None
            else fields ← parseIPv4Fields s; Some ((ip ++ fields)%list, ellipsis, [])
          else if negb (byte_val c =? 58) then None
          else match rest' with
               | [] => None
               | e :: rest'' =>
                   if byte_val e =? 58 then
                     if bool_decide (is_Some ellipsis) then None
                     else match rest'' with
                          | [] => Some (more, Some (length more), [])
                          | _ => groups fuel' more (Some (length more)) rest''
                          end
                   else groups fuel' more ellipsis rest'
               end
      end
  end.

(** The ellipsis stands for the bytes that are missing. *)
Definition expand (ip : list Z) (ellipsis : option nat) : option (list Z) :=
  if (length ip <? 16)%nat then
    e ← ellipsis; Some (take e ip ++ replicate (16 - length ip) 0 ++ drop e ip)%list
  else match ellipsis with None => Some ip | Some _ => None end.

Definition parseIPv6 (l : bytes) : option Addr :=
  let '(s, z, zoned) := URL.cut "%"%char l in
  if (zoned : bool) && bool_decide (z = []) then None else
  let leading := NetURL.has_prefix (bytes_of "::") s in
  let s' := if leading then drop 2 s else s in
  if leading && bool_decide (s' = []) then Some (mkAddr 128 0 z) else
  '(ip, ellipsis, rest) ← groups 8 [] (if leading then Some 0%nat else None) s';
  if negb (bool_decide (rest = [])) then None else
  full ← expand ip ellipsis;
  Some (mkAddr 128 (from_bytes full) z).

(** [ParseAddr]: the first of the three characters decides. *)
Definition ParseAddr (s : string) : option Addr :=
  let l := bytes_of s in
  match List.find (fun c => bool_decide (c = "."%char) || bool_decide (c = ":"%char) || bool_decide (c = "%"%char)) l with
  | Some c => if bool_decide (c = "."%char) then
                fields ← parseIPv4Fields l; Some (mkAddr 32 (from_bytes fields) [])
              else if bool_decide (c = ":"%char) then parseIPv6 l
              else None
  | None => None
  end.

Record Prefix := mkPrefix { addr : Addr; bits : Z }.

Definition ParsePrefix (s : string) : option Prefix :=
  '(before, after) ← NetURL.cut_last "/"%char (bytes_of s);
  ip ← ParseAddr (string_of before);
  if negb (bool_decide (zone ip = [])) then None else
  if (1 <? length after)%nat
     && match after with c :: _ => negb (char_in 49 57 c) | [] => false end then None else
  n ← ParseInt (string_of after);
  if (n <? 0) || (bitlen ip <? n) then None else Some (mkPrefix ip n).

Definition Contains (p : Prefix) (ip : Addr) : bool :=
  bool_decide (zone ip = []) && (bitlen (addr p) =? bitlen ip)
  && (Z.shiftr (Z.lxor (value ip) (value (addr p))) (bitlen ip - bits p) =? 0).

Example addresses :
  ParseAddr "10.0.0.7" = Some (mkAddr 32 167772167 []) /\ ParseAddr "10.00.0.7" = None /\
  ParseAddr "1.2.3" = None /\ ParseAddr "::1" = Some (mkAddr 128 1 []) /\
  ParseAddr "::ffff:1.2.3.4" = Some (mkAddr 128 281470698652420 []) /\
  ParseAddr "fe80::1%eth0" = Some (mkAddr 128 338288524927261089654018896841347694593 (bytes_of "eth0")) /\
  ParseAddr "1:2:3:4:5:6:7:8:9" = None /\ ParseAddr "1::2::3" = None /\ ParseAddr "1:2:3:4:5:6:7::8" = None /\
  ParseAddr "1:2:3:4:5:6:7::" = Some (mkAddr 128 5192455318486707404433266433261568 []) /\
  (p ← ParsePrefix "10.0.0.0/8"; ip ← ParseAddr "10.9.8.7"; Some (Contains p ip)) = Some true /\
  (p ← ParsePrefix "10.0.0.0/8"; ip ← ParseAddr "11.9.8.7"; Some (Contains p ip)) = Some false /\
  ParsePrefix "10.0.0.0/08" = None /\ ParsePrefix "10.0.0.0/33" = None.
Proof. vm_compute. repeat split. Qed.
End Netip.

(** ** Cookies *)
Module Cookies.
Definition is_space (c : ascii) : bool := (byte_val c =? 32) || (byte_val c =? 9) || (byte_val c =? 10) || (byte_val c =? 13).
Fixpoint trim_front (l : bytes) : bytes :=
  match l with c :: l' => if is_space c then trim_front l' else l | [] => [] end.
(** [textproto.TrimString] *)
Definition trim (l : bytes) : bytes := reverse (trim_front (reverse (trim_front l))).

Definition valid_value_byte (c : ascii) : bool :=
  (32 <=? byte_val c) && (byte_val c <? 127) && negb (byte_val c =? 34) && negb (byte_val c =? 59)
  && negb (byte_val c =? 92).

(** [parseCookieValue(raw, true)] *)
Definition parse_value (l : bytes) : option bytes :=
  let raw := match l, list.last l with
             | c :: (_ :: _) as rest, Some e =>
                 if (byte_val c =? 34) && (byte_val e =? 34) then take (length l - 2) (drop 1 l) else l
             | _, _ => l
             end in
  if forallb valid_value_byte raw then Some raw else None.

(** One part of a Cookie header, when it is a cookie called [name]. *)
Definition cookie_part (name : string) (part : bytes) : option bytes :=
  let part := trim part in
  if bool_decide (part = []) then None else
  let '(n, v, _) := URL.cut "="%char part in
  if bool_decide (string_of (trim n) = name) then parse_value v else None.

(** [request.Cookie(name)]: the first cookie of that name in the Cookie headers. *)
Definition Cookie (name : string) (headers : list string) : option string :=
  string_of <$> head (headers ≫= fun line => omap (cookie_part name) (split_bytes ";"%char [] (trim (bytes_of line)))).
End Cookies.

(** ** http.ServeMux *)
Module Mux.
Inductive segment := Lit (s : string) | Wild (name : string).

Record pattern := mkPattern {
  method : string;               (* empty: every method *)
  segments : list segment;
  multi : bool                   (* ends in a slash: matches every longer path *)
}.

Definition segment_of (s : string) : segment :=
  match bytes_of s, list.last (bytes_of s) with
  | c :: rest, Some e => if bool_decide (c = "{"%char) && bool_decide (e = "}"%char)
                         then Wild (string_of (take (length rest - 1) rest)) else Lit s
  | _, _ => Lit s
  end.

(** [parsePattern] for patterns without a host. *)
Definition path_pattern (method : string) (path : bytes) : pattern :=
  let parts := drop 1 (string_of <$> split_bytes "/"%char [] path) in
  if bool_decide (list.last parts = Some "") then mkPattern method (segment_of <$> take (length parts - 1) parts) true
  else mkPattern method (segment_of <$> parts) false.
Definition parsePattern (s : string) : pattern :=
  let '(a, b, spaced) := URL.cut " "%char (bytes_of s) in
  if (spaced : bool) then path_pattern (string_of a) b else path_pattern "" a.

(** [cleanPath] of an absolute path. *)
Definition clean_step (acc : list string) (s : string) : list string :=
  if bool_decide (s = "") || bool_decide (s = ".") then acc
  else if bool_decide (s = "..") then take (length acc - 1) acc
  else (acc ++ [s])%list.
Definition cleanPath (p : string) : string :=
  match bytes_of p with
  | [] => "/"
  | c :: _ as l =>
      let rooted := if bool_decide (c = "/"%char) then l else "/"%char :: l in
      let parts := foldl clean_step [] (string_of <$> split_bytes "/"%char [] rooted) in
      let clean := "/"%char :: join_bytes "/"%char (bytes_of <$> parts) in
      if bool_decide (list.last l = Some "/"%char) && negb (bool_decide (parts = []))
      then string_of (clean ++ ["/"%char])%list else string_of clean
  end.

(** [pathUnescape] *)
Definition pathUnescape (l : bytes) : string :=
  string_of (default l (NetURL.unescape NetURL.encodePath l)).

(** The segments [firstSegment] takes off a path; a trailing slash is a segment. *)
Fixpoint trailing_slash (l : list bytes) : list string :=
  match l with
  | [] => []
  | [s] => if bool_decide (s = []) then ["/"] else [pathUnescape s]
  | s :: l' => pathUnescape s :: trailing_slash l'
  end.
Definition path_segments (path : string) : list string :=
  trailing_slash (drop 1 (split_bytes "/"%char [] (bytes_of path))).

Section routing.
Context {H : Type}.

(** A node of the routing tree as the patterns below it, each with the segments
    that remain. *)
Record candidate := mkCandidate { c_rest : list segment; c_pattern : pattern; c_handler : H }.

Definition after_literal (s : string) (c : candidate) : option candidate :=
  match c_rest c with
  | Lit s' :: rest => if bool_decide (s' = s) then Some (mkCandidate rest (c_pattern c) (c_handler c)) else None
  | _ => None
  end.
Definition after_wildcard (c : candidate) : option candidate :=
  match c_rest c with
  | Wild _ :: rest => Some (mkCandidate rest (c_pattern c) (c_handler c))
  | _ => None
  end.
Definition ends (b : bool) (c : candidate) : bool :=
  match c_rest c with [] => Bool.eqb (multi (c_pattern c)) b | _ => false end.

(** [matchPath]: a literal first, then a single wildcard, then the patterns that end
    in a slash. *)
Fixpoint matchPath (cs : list candidate) (path : list string) (matches : list string)
    : option (candidate * list string) :=
  match path with
  | [] => (fun c => (c, matches)) <$> List.find (ends false) cs
  | seg :: rest =>
      match matchPath (omap (after_literal seg) cs) rest matches with
      | Some r => Some r
      | None =>
          match (if bool_decide (seg = "/") then None
                 else matchPath (omap after_wildcard cs) rest (matches ++ [seg])) with
          | Some r => Some r
          | None => (fun c => (c, matches)) <$> List.find (ends true) cs
          end
      end
  end.

Definition candidates (table : list (pattern * H)) (m : string) : list candidate :=
  omap (fun e : pattern * H => if bool_decide (method e.1 = m) then Some (mkCandidate (segments e.1) e.1 e.2) else None) table.

(** [matchMethodAndPath]: the method itself, GET for HEAD, then the patterns of
    every method. *)
Definition match_ (table : list (pattern * H)) (m : string) (path : list string) : option (candidate * list string) :=
  match matchPath (candidates table m) path [] with
  | Some r => Some r
  | None =>
      match (if bool_decide (m = "HEAD") then matchPath (candidates table "GET") path [] else None) with
      | Some r => Some r
      | None => matchPath (candidates table "") path []
      end
  end.

Definition ends_in_slash (path : string) : bool := bool_decide (list.last (bytes_of path) = Some "/"%char).

Definition exactMatch (r : option (candidate * list string)) (path : string) : bool :=
  match r with
  | None => false
  | Some (c, _) =>
      if negb (multi (c_pattern c)) then true
      else ends_in_slash path
           && (S (length (segments (c_pattern c))) =? length (List.filter (fun b => bool_decide (b = "/"%char)) (bytes_of path)))%nat
  end.

(** What the mux does with a request: a handler with the values of its wildcards, a
    redirect to another path, or no handler. *)
Inductive found :=
| FHandler (c : candidate) (values : list string)
| FRedirect (path : string)
| FNotFound.

(** [findHandler]; [escaped] is [URL.EscapedPath()] and [path] is [URL.Path]. *)
Definition findHandler (table : list (pattern * H)) (m escaped path : string) : found :=
  let connect := bool_decide (m = "CONNECT") in
  let p := if connect then escaped else cleanPath escaped in
  let r := match_ table m (path_segments p) in
  if negb (exactMatch r p) && negb (ends_in_slash p) && negb (bool_decide (p = ""))
     && exactMatch (match_ table m (path_segments (p +:+ "/"))) (p +:+ "/")
  then FRedirect (cleanPath path +:+ "/")
  else if negb (bool_decide (p = escaped)) then FRedirect p
  else match r with Some (c, values) => FHandler c values | None => FNotFound end.

(** [PathValue]: the wildcards of a pattern with the segments they matched. *)
Definition wildcards (p : pattern) : list string :=
  omap (fun s => match s with Wild n => Some n | Lit _ => None end) (segments p).
Definition PathValue (p : pattern) (values : list string) (name : string) : string :=
  match List.find (fun nv : string * string => bool_decide (nv.1 = name)) (zip (wildcards p) values) with
  | Some nv => nv.2
  | None => ""
  end.
End routing.
Arguments candidate : clear implicits.
Arguments found : clear implicits.

(** ** What a match means *)

(** A pattern matches a path: its literals stand where they are, a wildcard stands for
    one segment that is not the trailing slash, and a pattern that ends in a slash leaves
    a rest. *)
Fixpoint matches_path (segs : list segment) (m : bool) (path : list string) : Prop :=
  match segs, path with
  | [], [] => m = false
  | [], _ :: _ => m = true
  | Lit s :: segs', s' :: path' => s = s' /\ matches_path segs' m path'
  | Wild _ :: segs', s' :: path' => s' <> "/" /\ matches_path segs' m path'
  | _ :: _, [] => False
  end.

Lemma matchPath_sound {H} (cs : list (candidate H)) path matches c values :
  matchPath cs path matches = Some (c, values) ->
  exists c0, c0 ∈ cs /\ c_pattern c = c_pattern c0 /\ c_handler c = c_handler c0 /\
             matches_path (c_rest c0) (multi (c_pattern c0)) path.
Proof.
  revert cs matches. induction path as [|seg rest IH]; intros cs matches; simpl.
  { destruct (List.find (ends false) cs) as [c'|] eqn:E; [|done]. intros [= <- <-].
    apply List.find_some in E as [Hin He]. exists c'. split_and!; [by apply list_elem_of_In|done..|].
    unfold ends in He. destruct (c_rest c'); [|done]. simpl. by apply Bool.eqb_prop in He. }
  intros E. destruct (matchPath (omap (after_literal seg) cs) rest matches) as [[c1 v1]|] eqn:E1.
  { injection E as <- <-. apply IH in E1 as (c0 & (c2 & Hin & Hl)%list_elem_of_omap & Hp & Hh & Hm).
    exists c2. unfold after_literal in Hl. destruct (c_rest c2) as [|[s'|] rest2] eqn:Er; [done| |done].
    case_bool_decide as Hs; [|done]. injection Hl as <-. simpl in *. by subst. }
  destruct (if bool_decide (seg = "/") then None else _) as [[c1 v1]|] eqn:E2.
  { injection E as <- <-. case_bool_decide as Hs; [done|].
    apply IH in E2 as (c0 & (c2 & Hin & Hl)%list_elem_of_omap & Hp & Hh & Hm).
    exists c2. unfold after_wildcard in Hl. destruct (c_rest c2) as [|[|n] rest2] eqn:Er; [done..|].
    injection Hl as <-. simpl in *. by subst. }
  destruct (List.find (ends true) cs) as [c'|] eqn:E3; [|done]. injection E as <- <-.
  apply List.find_some in E3 as [Hin He]. exists c'. split_and!; [by apply list_elem_of_In|done..|].
  unfold ends in He. destruct (c_rest c'); [|done]. simpl. by apply Bool.eqb_prop in He.
Qed.

Lemma candidates_in {H} (table : list (pattern * H)) m c :
  c ∈ candidates table m -> (c_pattern c, c_handler c) ∈ table /\ method (c_pattern c) = m /\
                            c_rest c = segments (c_pattern c).
Proof.
  intros ([p h] & Hin & Hc)%list_elem_of_omap. simpl in Hc. case_bool_decide; [|done].
  by injection Hc as <-.
Qed.

(** The handler the mux runs is registered under a pattern that matches the path and
    the method. *)
Lemma match_sound {H} (table : list (pattern * H)) m path c values :
  match_ table m path = Some (c, values) ->
  (c_pattern c, c_handler c) ∈ table /\
  matches_path (segments (c_pattern c)) (multi (c_pattern c)) path /\
  (method (c_pattern c) = m \/ m = "HEAD" /\ method (c_pattern c) = "GET" \/ method (c_pattern c) = "").
Proof.
  assert (Haux : forall m', matchPath (candidates table m') path [] = Some (c, values) ->
    (c_pattern c, c_handler c) ∈ table /\
    matches_path (segments (c_pattern c)) (multi (c_pattern c)) path /\ method (c_pattern c) = m').
  { intros m' (c0 & (Hin & Hm & Hr)%candidates_in & -> & -> & Hp)%matchPath_sound. by rewrite Hr in Hp. }
  unfold match_. intros E.
  destruct (matchPath (candidates table m) path []) as [[c1 v1]|] eqn:E1.
  { injection E as -> ->. apply Haux in E1 as (?&?&?). auto. }
  destruct (if bool_decide (m = "HEAD") then _ else None) as [[c1 v1]|] eqn:E2.
  { injection E as -> ->. case_bool_decide; [|done]. apply Haux in E2 as (?&?&?). split_and!; [done..|]. right; left. done. }
  apply Haux in E as (?&?&?). auto.
Qed.
End Mux.
