(* ===== verification/GoCrypto.v ===== *)
(** The cryptographic libraries the gateway calls.  The primitives are an
    interface: [CryptoLib] lists the functions and [CryptoLaws] the documented
    facts the gateway relies on (output lengths, and that AES decryption undoes
    encryption).  Cipher-block chaining is defined here over the block cipher.
    [Toy] is an instance that satisfies the laws, for evaluating the model. *)

From Stdlib Require Import ZArith Lia Ascii String.
From stdpp Require Import base strings list.
From S2P Require Import Prelude GoText.

Local Open Scope Z_scope.

(** The digests [loginPasswordHash] can select for PBKDF2. *)
Inductive Digest := DigestSHA1 | DigestSHA256.

Class CryptoLib := {
  sha256_Sum256 : bytes -> bytes;
  (** [pbkdf2.Key(password, salt, iter, keyLen, h)] of golang.org/x/crypto. *)
  pbkdf2_Key : bytes -> bytes -> Z -> nat -> Digest -> bytes;
  (** One 16-byte block under a key, of [aes.NewCipher(key)]. *)
  aes_Encrypt : bytes -> bytes -> bytes;
  aes_Decrypt : bytes -> bytes -> bytes
}.

Definition aes_BlockSize : nat := 16.

(** [aes.NewCipher] accepts keys of 16, 24 or 32 bytes. *)
Definition aes_key_ok (key : bytes) : bool :=
  ((length key =? 16) || (length key =? 24) || (length key =? 32))%nat.

Class CryptoLaws `{CryptoLib} : Prop := {
  length_sha256 : forall m, length (sha256_Sum256 m) = 32%nat;
  length_pbkdf2 : forall p s i n d, length (pbkdf2_Key p s i n d) = n;
  length_aes_Encrypt : forall k b,
    aes_key_ok k = true -> length b = aes_BlockSize -> length (aes_Encrypt k b) = aes_BlockSize;
  aes_Decrypt_Encrypt : forall k b,
    aes_key_ok k = true -> length b = aes_BlockSize -> aes_Decrypt k (aes_Encrypt k b) = b
}.

(** ** crypto/cipher: CBC *)
Definition xor_byte (a b : ascii) : ascii := byte_of (Z.lxor (byte_val a) (byte_val b)).
Definition xor_bytes (a b : bytes) : bytes := zip_with xor_byte a b.

Section cbc.
Variable block : bytes -> bytes.

(** [CryptBlocks] of the encrypter: [n] blocks of [l], chained from [iv]. *)
Fixpoint cbc_encrypt (n : nat) (iv l : bytes) : bytes :=
  match n with
  | O => []
  | S n' => let c := block (xor_bytes iv (take aes_BlockSize l)) in
            c ++ cbc_encrypt n' c (drop aes_BlockSize l)
  end.

(** [CryptBlocks] of the decrypter. *)
Fixpoint cbc_decrypt (n : nat) (iv l : bytes) : bytes :=
  match n with
  | O => []
  | S n' => let c := take aes_BlockSize l in
            xor_bytes iv (block c) ++ cbc_decrypt n' c (drop aes_BlockSize l)
  end.
End cbc.

(** ** Facts *)
Lemma xor_byte_involutive a b : xor_byte a (xor_byte a b) = b.
Proof.
  cut (bool_decide (xor_byte a (xor_byte a b) = b) = true); [apply bool_decide_eq_true|].
  revert b. apply byte_cases. revert a. apply byte_cases. by vm_compute.
Qed.

Lemma xor_bytes_involutive a b :
  length a = length b -> xor_bytes a (xor_bytes a b) = b.
Proof.
  revert b. induction a as [|x a IH]; intros [|y b] Hl; simplify_eq/=; [done|].
  unfold xor_bytes in *. simpl. by rewrite xor_byte_involutive, IH.
Qed.

Lemma length_xor_bytes a b : length (xor_bytes a b) = (length a `min` length b)%nat.
Proof. apply length_zip_with. Qed.

Section cbc_facts.
Context (enc dec : bytes -> bytes).
Context (length_enc : forall b, length b = aes_BlockSize -> length (enc b) = aes_BlockSize).
Context (dec_enc : forall b, length b = aes_BlockSize -> dec (enc b) = b).

Lemma length_cbc_encrypt n iv l :
  length iv = aes_BlockSize -> length l = (n * aes_BlockSize)%nat ->
  length (cbc_encrypt enc n iv l) = length l.
Proof.
  revert iv l. induction n as [|n IH]; intros iv l Hiv Hl; [by rewrite Hl|].
  cbn [cbc_encrypt].
  assert (length (take aes_BlockSize l) = aes_BlockSize) as Ht by (rewrite length_take; lia).
  assert (length (enc (xor_bytes iv (take aes_BlockSize l))) = aes_BlockSize) as He
    by (apply length_enc; rewrite length_xor_bytes, Ht; lia).
  rewrite length_app, IH; [rewrite He, length_drop; lia|done|rewrite length_drop; lia].
Qed.

Lemma cbc_decrypt_encrypt n iv l :
  length iv = aes_BlockSize -> length l = (n * aes_BlockSize)%nat ->
  cbc_decrypt dec n iv (cbc_encrypt enc n iv l) = l.
Proof.
  revert iv l. induction n as [|n IH]; intros iv l Hiv Hl.
  { by destruct l. }
  cbn [cbc_encrypt cbc_decrypt].
  assert (length (take aes_BlockSize l) = aes_BlockSize) as Ht by (rewrite length_take; lia).
  set (c := enc (xor_bytes iv (take aes_BlockSize l))).
  assert (length (xor_bytes iv (take aes_BlockSize l)) = aes_BlockSize) as Hx
    by (rewrite length_xor_bytes, Ht; lia).
  assert (length c = aes_BlockSize) as Hc by (by apply length_enc).
  rewrite (take_app_length' c), (drop_app_length' c) by done.
  rewrite IH; [|done|rewrite length_drop; lia].
  unfold c. rewrite dec_enc by done. rewrite xor_bytes_involutive by lia.
  apply take_drop.
Qed.
End cbc_facts.

(** ** An instance that satisfies the laws *)
Module Toy.
Definition fit (n : nat) (l : bytes) : bytes := take n (l ++ replicate n "0"%char).

Lemma length_fit n l : length (fit n l) = n.
Proof. unfold fit. rewrite length_take, length_app, length_replicate. lia. Qed.

(** The low bytes of a weighted byte sum: short, and sensitive to every byte. *)
Fixpoint checksum (acc : Z) (l : bytes) : Z :=
  match l with [] => acc | c :: l' => checksum ((acc * 257 + byte_val c + 1) mod 2 ^ 61) l' end.
Definition digest (n : nat) (l : bytes) : bytes :=
  fit n (bytes_of (itoa (checksum 7 l))).

#[export] Instance toy_lib : CryptoLib := {
  sha256_Sum256 m := digest 32 m;
  pbkdf2_Key p s i n d :=
    digest n (match d with DigestSHA1 => p ++ s | DigestSHA256 => p ++ "/"%char :: s end);
  aes_Encrypt _ b := reverse b;
  aes_Decrypt _ b := reverse b
}.

#[export] Instance toy_laws : CryptoLaws.
Proof.
  split; simpl; intros; unfold digest; rewrite ?length_fit, ?length_reverse, ?reverse_involutive; done.
Qed.
End Toy.
