(* ===== verification/AccessControl.v ===== *)
(** internal/accesscontrol: the declared access-controller event and the
    retained-event pages and records of the terminal's archive.

    The multipart, XML and JPEG readers of the standard library are an interface
    ([GoParsers]); what the gateway does with their results is modelled. *)

From Stdlib Require Import ZArith Lia Ascii String.
From stdpp Require Import base gmap strings list option.
From S2P Require Import Prelude GoText GoTime GoJSON GoHTTP GoCrypto.

Local Open Scope string_scope.
Local Open Scope Z_scope.

(** ** Library readers *)

(** What follows the decoded element of an XML document. *)
Inductive xml_token := XmlCharData (text : bytes) | XmlOther.

Class GoParsers := {
  (** [textproto.Reader.ReadMIMEHeader]: the first value of each header, and the rest. *)
  textproto_ReadMIMEHeader : bytes -> option (gmap string string * bytes);
  (** [multipart.NewReader(rest, boundary)] read to its end: headers and data of
      the parts; [None] when a part or its data cannot be read. *)
  multipart_Parts : string -> bytes -> option (list (gmap string string * bytes));
  (** [xml.Decoder.Decode] of the root element: its name space and name, the text of
      its [localTime] element, and the tokens after it ([None] when one is malformed). *)
  xml_Decode_Time : bytes -> option (string * string * string * option (list xml_token));
  (** [jpeg.DecodeConfig] (width, height) and whether [jpeg.Decode] succeeds. *)
  jpeg_DecodeConfig : bytes -> option (Z * Z);
  jpeg_Decode : bytes -> bool
}.

(** ** Categories *)
Definition SchemaVersion : Z := 3.
Definition MajorAlarm : Z := 1.
Definition MajorException : Z := 2.
Definition MajorOperation : Z := 3.
Definition MajorEvent : Z := 5.

Definition SubtypeLabel (major subtype : Z) : option string :=
  if (major =? MajorEvent) && (subtype =? 75) then Some "Face Authentication Completed" else None.

Definition MajorEventTypeForCategory (category : string) : option Z :=
  if bool_decide (category = "alarm") then Some MajorAlarm
  else if bool_decide (category = "exception") then Some MajorException
  else if bool_decide (category = "operation") then Some MajorOperation
  else if bool_decide (category = "event") then Some MajorEvent
  else None.

Definition CategoryForMajorEventType (major : Z) : option string :=
  if major =? MajorAlarm then Some "alarm"
  else if major =? MajorException then Some "exception"
  else if major =? MajorOperation then Some "operation"
  else if major =? MajorEvent then Some "event"
  else None.

(** ** Projections *)
Record FaceRect := {
  fr_Height : option string;
  fr_Width : option string;
  fr_X : option string;
  fr_Y : option string
}.

Record Projection := {
  pj_MajorEventType : Z;
  pj_SubEventType : Z;
  pj_EventDescription : option string;
  pj_EventState : option string;
  pj_OccurredAt : option Time;
  pj_SourceMACAddress : option string;
  pj_ChannelID : option Z;
  pj_ActivePostCount : option Z;
  pj_ShortSerialNumber : option string;
  pj_DeviceName : option string;
  pj_EmployeeNumber : option string;
  pj_EmployeeName : option string;
  pj_CardNumber : option string;
  pj_CardReaderNumber : option Z;
  pj_DoorNumber : option Z;
  pj_EventSerialNumber : option Z;
  pj_FrontSerialNumber : option Z;
  pj_UserType : option string;
  pj_CurrentVerifyMode : option string;
  pj_CurrentEvent : option bool;
  pj_Mask : option string;
  pj_PicturesNumber : option Z;
  pj_PurePwdVerifyEnable : option bool;
  pj_FaceRect : option FaceRect;
  pj_SourceIPAddress : option string
}.

(** ** JSON numbers kept as text *)

(** [json.Number]: a number literal, or a string that is one. *)
Definition is_number_text (s : string) : bool :=
  match Scan.number (bytes_of s) with Some (_, []) => true | _ => false end.

Definition decode_number : decoder string :=
  fun prev j => match j with
                | JNull => Some prev
                | JNumber lit => Some lit
                | JString s => if is_number_text s then Some s else None
                | _ => None
                end.

Record faceRect := mk_faceRect {
  rf_Height : option string;
  rf_Width : option string;
  rf_X : option string;
  rf_Y : option string
}.
Definition zero_faceRect : faceRect := mk_faceRect None None None None.

Definition faceRect_fields : list (field faceRect) :=
  [ fld "height" rf_Height
      (fun r v => mk_faceRect v (rf_Width r) (rf_X r) (rf_Y r))
      (decode_ptr "" decode_number);
    fld "width" rf_Width
      (fun r v => mk_faceRect (rf_Height r) v (rf_X r) (rf_Y r))
      (decode_ptr "" decode_number);
    fld "x" rf_X
      (fun r v => mk_faceRect (rf_Height r) (rf_Width r) v (rf_Y r))
      (decode_ptr "" decode_number);
    fld "y" rf_Y
      (fun r v => mk_faceRect (rf_Height r) (rf_Width r) (rf_X r) v)
      (decode_ptr "" decode_number) ].

Record accessControllerEvent := mk_accessControllerEvent {
  ac_DeviceName : option string;
  ac_MajorEventType : option Z;
  ac_SubEventType : option Z;
  ac_CardNo : option string;
  ac_Name : option string;
  ac_EmployeeNoString : option string;
  ac_CardReaderNo : option Z;
  ac_DoorNo : option Z;
  ac_SerialNo : option Z;
  ac_FrontSerialNo : option Z;
  ac_UserType : option string;
  ac_CurrentVerifyMode : option string;
  ac_CurrentEvent : option bool;
  ac_Mask : option string;
  ac_PicturesNumber : option Z;
  ac_PurePwdVerifyEnable : option bool;
  ac_FaceRect : option faceRect
}.
Definition zero_accessControllerEvent : accessControllerEvent :=
  mk_accessControllerEvent None None None None None None None None None None None None None None None None None.

Definition accessControllerEvent_fields : list (field accessControllerEvent) :=
  [ fld "deviceName" ac_DeviceName
      (fun r v => mk_accessControllerEvent v (ac_MajorEventType r) (ac_SubEventType r) (ac_CardNo r)
        (ac_Name r) (ac_EmployeeNoString r) (ac_CardReaderNo r) (ac_DoorNo r) (ac_SerialNo r)
        (ac_FrontSerialNo r) (ac_UserType r) (ac_CurrentVerifyMode r) (ac_CurrentEvent r) (ac_Mask
        r) (ac_PicturesNumber r) (ac_PurePwdVerifyEnable r) (ac_FaceRect r))
      (decode_ptr "" decode_string);
    fld "majorEventType" ac_MajorEventType
      (fun r v => mk_accessControllerEvent (ac_DeviceName r) v (ac_SubEventType r) (ac_CardNo r)
        (ac_Name r) (ac_EmployeeNoString r) (ac_CardReaderNo r) (ac_DoorNo r) (ac_SerialNo r)
        (ac_FrontSerialNo r) (ac_UserType r) (ac_CurrentVerifyMode r) (ac_CurrentEvent r) (ac_Mask
        r) (ac_PicturesNumber r) (ac_PurePwdVerifyEnable r) (ac_FaceRect r))
      (decode_ptr 0 decode_int);
    fld "subEventType" ac_SubEventType
      (fun r v => mk_accessControllerEvent (ac_DeviceName r) (ac_MajorEventType r) v (ac_CardNo r)
        (ac_Name r) (ac_EmployeeNoString r) (ac_CardReaderNo r) (ac_DoorNo r) (ac_SerialNo r)
        (ac_FrontSerialNo r) (ac_UserType r) (ac_CurrentVerifyMode r) (ac_CurrentEvent r) (ac_Mask
        r) (ac_PicturesNumber r) (ac_PurePwdVerifyEnable r) (ac_FaceRect r))
      (decode_ptr 0 decode_int);
    fld "cardNo" ac_CardNo
      (fun r v => mk_accessControllerEvent (ac_DeviceName r) (ac_MajorEventType r) (ac_SubEventType
        r) v (ac_Name r) (ac_EmployeeNoString r) (ac_CardReaderNo r) (ac_DoorNo r) (ac_SerialNo r)
        (ac_FrontSerialNo r) (ac_UserType r) (ac_CurrentVerifyMode r) (ac_CurrentEvent r) (ac_Mask
        r) (ac_PicturesNumber r) (ac_PurePwdVerifyEnable r) (ac_FaceRect r))
      (decode_ptr "" decode_string);
    fld "name" ac_Name
      (fun r v => mk_accessControllerEvent (ac_DeviceName r) (ac_MajorEventType r) (ac_SubEventType
        r) (ac_CardNo r) v (ac_EmployeeNoString r) (ac_CardReaderNo r) (ac_DoorNo r) (ac_SerialNo r)
        (ac_FrontSerialNo r) (ac_UserType r) (ac_CurrentVerifyMode r) (ac_CurrentEvent r) (ac_Mask
        r) (ac_PicturesNumber r) (ac_PurePwdVerifyEnable r) (ac_FaceRect r))
      (decode_ptr "" decode_string);
    fld "employeeNoString" ac_EmployeeNoString
      (fun r v => mk_accessControllerEvent (ac_DeviceName r) (ac_MajorEventType r) (ac_SubEventType
        r) (ac_CardNo r) (ac_Name r) v (ac_CardReaderNo r) (ac_DoorNo r) (ac_SerialNo r)
        (ac_FrontSerialNo r) (ac_UserType r) (ac_CurrentVerifyMode r) (ac_CurrentEvent r) (ac_Mask
        r) (ac_PicturesNumber r) (ac_PurePwdVerifyEnable r) (ac_FaceRect r))
      (decode_ptr "" decode_string);
    fld "cardReaderNo" ac_CardReaderNo
      (fun r v => mk_accessControllerEvent (ac_DeviceName r) (ac_MajorEventType r) (ac_SubEventType
        r) (ac_CardNo r) (ac_Name r) (ac_EmployeeNoString r) v (ac_DoorNo r) (ac_SerialNo r)
        (ac_FrontSerialNo r) (ac_UserType r) (ac_CurrentVerifyMode r) (ac_CurrentEvent r) (ac_Mask
        r) (ac_PicturesNumber r) (ac_PurePwdVerifyEnable r) (ac_FaceRect r))
      (decode_ptr 0 decode_int);
    fld "doorNo" ac_DoorNo
      (fun r v => mk_accessControllerEvent (ac_DeviceName r) (ac_MajorEventType r) (ac_SubEventType
        r) (ac_CardNo r) (ac_Name r) (ac_EmployeeNoString r) (ac_CardReaderNo r) v (ac_SerialNo r)
        (ac_FrontSerialNo r) (ac_UserType r) (ac_CurrentVerifyMode r) (ac_CurrentEvent r) (ac_Mask
        r) (ac_PicturesNumber r) (ac_PurePwdVerifyEnable r) (ac_FaceRect r))
      (decode_ptr 0 decode_int);
    fld "serialNo" ac_SerialNo
      (fun r v => mk_accessControllerEvent (ac_DeviceName r) (ac_MajorEventType r) (ac_SubEventType
        r) (ac_CardNo r) (ac_Name r) (ac_EmployeeNoString r) (ac_CardReaderNo r) (ac_DoorNo r) v
        (ac_FrontSerialNo r) (ac_UserType r) (ac_CurrentVerifyMode r) (ac_CurrentEvent r) (ac_Mask
        r) (ac_PicturesNumber r) (ac_PurePwdVerifyEnable r) (ac_FaceRect r))
      (decode_ptr 0 decode_int);
    fld "frontSerialNo" ac_FrontSerialNo
      (fun r v => mk_accessControllerEvent (ac_DeviceName r) (ac_MajorEventType r) (ac_SubEventType
        r) (ac_CardNo r) (ac_Name r) (ac_EmployeeNoString r) (ac_CardReaderNo r) (ac_DoorNo r)
        (ac_SerialNo r) v (ac_UserType r) (ac_CurrentVerifyMode r) (ac_CurrentEvent r) (ac_Mask r)
        (ac_PicturesNumber r) (ac_PurePwdVerifyEnable r) (ac_FaceRect r))
      (decode_ptr 0 decode_int);
    fld "userType" ac_UserType
      (fun r v => mk_accessControllerEvent (ac_DeviceName r) (ac_MajorEventType r) (ac_SubEventType
        r) (ac_CardNo r) (ac_Name r) (ac_EmployeeNoString r) (ac_CardReaderNo r) (ac_DoorNo r)
        (ac_SerialNo r) (ac_FrontSerialNo r) v (ac_CurrentVerifyMode r) (ac_CurrentEvent r) (ac_Mask
        r) (ac_PicturesNumber r) (ac_PurePwdVerifyEnable r) (ac_FaceRect r))
      (decode_ptr "" decode_string);
    fld "currentVerifyMode" ac_CurrentVerifyMode
      (fun r v => mk_accessControllerEvent (ac_DeviceName r) (ac_MajorEventType r) (ac_SubEventType
        r) (ac_CardNo r) (ac_Name r) (ac_EmployeeNoString r) (ac_CardReaderNo r) (ac_DoorNo r)
        (ac_SerialNo r) (ac_FrontSerialNo r) (ac_UserType r) v (ac_CurrentEvent r) (ac_Mask r)
        (ac_PicturesNumber r) (ac_PurePwdVerifyEnable r) (ac_FaceRect r))
      (decode_ptr "" decode_string);
    fld "currentEvent" ac_CurrentEvent
      (fun r v => mk_accessControllerEvent (ac_DeviceName r) (ac_MajorEventType r) (ac_SubEventType
        r) (ac_CardNo r) (ac_Name r) (ac_EmployeeNoString r) (ac_CardReaderNo r) (ac_DoorNo r)
        (ac_SerialNo r) (ac_FrontSerialNo r) (ac_UserType r) (ac_CurrentVerifyMode r) v (ac_Mask r)
        (ac_PicturesNumber r) (ac_PurePwdVerifyEnable r) (ac_FaceRect r))
      (decode_ptr false decode_bool);
    fld "mask" ac_Mask
      (fun r v => mk_accessControllerEvent (ac_DeviceName r) (ac_MajorEventType r) (ac_SubEventType
        r) (ac_CardNo r) (ac_Name r) (ac_EmployeeNoString r) (ac_CardReaderNo r) (ac_DoorNo r)
        (ac_SerialNo r) (ac_FrontSerialNo r) (ac_UserType r) (ac_CurrentVerifyMode r)
        (ac_CurrentEvent r) v (ac_PicturesNumber r) (ac_PurePwdVerifyEnable r) (ac_FaceRect r))
      (decode_ptr "" decode_string);
    fld "picturesNumber" ac_PicturesNumber
      (fun r v => mk_accessControllerEvent (ac_DeviceName r) (ac_MajorEventType r) (ac_SubEventType
        r) (ac_CardNo r) (ac_Name r) (ac_EmployeeNoString r) (ac_CardReaderNo r) (ac_DoorNo r)
        (ac_SerialNo r) (ac_FrontSerialNo r) (ac_UserType r) (ac_CurrentVerifyMode r)
        (ac_CurrentEvent r) (ac_Mask r) v (ac_PurePwdVerifyEnable r) (ac_FaceRect r))
      (decode_ptr 0 decode_int);
    fld "purePwdVerifyEnable" ac_PurePwdVerifyEnable
      (fun r v => mk_accessControllerEvent (ac_DeviceName r) (ac_MajorEventType r) (ac_SubEventType
        r) (ac_CardNo r) (ac_Name r) (ac_EmployeeNoString r) (ac_CardReaderNo r) (ac_DoorNo r)
        (ac_SerialNo r) (ac_FrontSerialNo r) (ac_UserType r) (ac_CurrentVerifyMode r)
        (ac_CurrentEvent r) (ac_Mask r) (ac_PicturesNumber r) v (ac_FaceRect r))
      (decode_ptr false decode_bool);
    fld "FaceRect" ac_FaceRect
      (fun r v => mk_accessControllerEvent (ac_DeviceName r) (ac_MajorEventType r) (ac_SubEventType
        r) (ac_CardNo r) (ac_Name r) (ac_EmployeeNoString r) (ac_CardReaderNo r) (ac_DoorNo r)
        (ac_SerialNo r) (ac_FrontSerialNo r) (ac_UserType r) (ac_CurrentVerifyMode r)
        (ac_CurrentEvent r) (ac_Mask r) (ac_PicturesNumber r) (ac_PurePwdVerifyEnable r) v)
      (decode_ptr zero_faceRect (decode_struct false faceRect_fields)) ].

Record eventDocument := mk_eventDocument {
  ed_EventType : string;
  ed_EventDescription : option string;
  ed_EventState : option string;
  ed_DateTime : option string;
  ed_IPAddress : option string;
  ed_MACAddress : option string;
  ed_ChannelID : option Z;
  ed_ActivePostCount : option Z;
  ed_ShortSerialNumber : option string;
  ed_AccessControllerEvent : option accessControllerEvent
}.
Definition zero_eventDocument : eventDocument :=
  mk_eventDocument "" None None None None None None None None None.

Definition eventDocument_fields : list (field eventDocument) :=
  [ fld "eventType" ed_EventType
      (fun r v => mk_eventDocument v (ed_EventDescription r) (ed_EventState r) (ed_DateTime r)
        (ed_IPAddress r) (ed_MACAddress r) (ed_ChannelID r) (ed_ActivePostCount r)
        (ed_ShortSerialNumber r) (ed_AccessControllerEvent r))
      decode_string;
    fld "eventDescription" ed_EventDescription
      (fun r v => mk_eventDocument (ed_EventType r) v (ed_EventState r) (ed_DateTime r)
        (ed_IPAddress r) (ed_MACAddress r) (ed_ChannelID r) (ed_ActivePostCount r)
        (ed_ShortSerialNumber r) (ed_AccessControllerEvent r))
      (decode_ptr "" decode_string);
    fld "eventState" ed_EventState
      (fun r v => mk_eventDocument (ed_EventType r) (ed_EventDescription r) v (ed_DateTime r)
        (ed_IPAddress r) (ed_MACAddress r) (ed_ChannelID r) (ed_ActivePostCount r)
        (ed_ShortSerialNumber r) (ed_AccessControllerEvent r))
      (decode_ptr "" decode_string);
    fld "dateTime" ed_DateTime
      (fun r v => mk_eventDocument (ed_EventType r) (ed_EventDescription r) (ed_EventState r) v
        (ed_IPAddress r) (ed_MACAddress r) (ed_ChannelID r) (ed_ActivePostCount r)
        (ed_ShortSerialNumber r) (ed_AccessControllerEvent r))
      (decode_ptr "" decode_string);
    fld "ipAddress" ed_IPAddress
      (fun r v => mk_eventDocument (ed_EventType r) (ed_EventDescription r) (ed_EventState r)
        (ed_DateTime r) v (ed_MACAddress r) (ed_ChannelID r) (ed_ActivePostCount r)
        (ed_ShortSerialNumber r) (ed_AccessControllerEvent r))
      (decode_ptr "" decode_string);
    fld "macAddress" ed_MACAddress
      (fun r v => mk_eventDocument (ed_EventType r) (ed_EventDescription r) (ed_EventState r)
        (ed_DateTime r) (ed_IPAddress r) v (ed_ChannelID r) (ed_ActivePostCount r)
        (ed_ShortSerialNumber r) (ed_AccessControllerEvent r))
      (decode_ptr "" decode_string);
    fld "channelID" ed_ChannelID
      (fun r v => mk_eventDocument (ed_EventType r) (ed_EventDescription r) (ed_EventState r)
        (ed_DateTime r) (ed_IPAddress r) (ed_MACAddress r) v (ed_ActivePostCount r)
        (ed_ShortSerialNumber r) (ed_AccessControllerEvent r))
      (decode_ptr 0 decode_int);
    fld "activePostCount" ed_ActivePostCount
      (fun r v => mk_eventDocument (ed_EventType r) (ed_EventDescription r) (ed_EventState r)
        (ed_DateTime r) (ed_IPAddress r) (ed_MACAddress r) (ed_ChannelID r) v (ed_ShortSerialNumber
        r) (ed_AccessControllerEvent r))
      (decode_ptr 0 decode_int);
    fld "shortSerialNumber" ed_ShortSerialNumber
      (fun r v => mk_eventDocument (ed_EventType r) (ed_EventDescription r) (ed_EventState r)
        (ed_DateTime r) (ed_IPAddress r) (ed_MACAddress r) (ed_ChannelID r) (ed_ActivePostCount r) v
        (ed_AccessControllerEvent r))
      (decode_ptr "" decode_string);
    fld "AccessControllerEvent" ed_AccessControllerEvent
      (fun r v => mk_eventDocument (ed_EventType r) (ed_EventDescription r) (ed_EventState r)
        (ed_DateTime r) (ed_IPAddress r) (ed_MACAddress r) (ed_ChannelID r) (ed_ActivePostCount r)
        (ed_ShortSerialNumber r) v)
      (decode_ptr zero_accessControllerEvent
         (decode_struct false accessControllerEvent_fields)) ].

Definition projectFaceRect (source : option faceRect) : option FaceRect :=
  (fun r => {| fr_Height := rf_Height r; fr_Width := rf_Width r; fr_X := rf_X r; fr_Y := rf_Y r |}) <$> source.

(** ** Multipart payloads *)
Record multipartFormPart := {
  mp_name : string;
  mp_fileName : string;
  mp_contentID : string;
  mp_mediaType : string;
  mp_data : bytes
}.

Definition header_get (h : gmap string string) (key : string) : string := default "" (h !! key).

Section payloads.
Context `{GoParsers}.

Definition form_part (part : gmap string string * bytes) : option multipartFormPart :=
  '(disposition, parameters) ← Mime.ParseMediaType (header_get part.1 "Content-Disposition");
  if negb (bool_decide (disposition = "form-data")) || bool_decide (header_get parameters "name" = "")
  then None
  else
    '(mediaType, _) ← Mime.ParseMediaType (header_get part.1 "Content-Type");
    Some {| mp_name := header_get parameters "name";
            mp_fileName := header_get parameters "filename";
            mp_contentID := header_get part.1 "Content-Id";
            mp_mediaType := mediaType;
            mp_data := part.2 |}.

Definition multipartFormParts (payload : bytes) : option (list multipartFormPart) :=
  '(header, rest) ← textproto_ReadMIMEHeader payload;
  '(mediaType, parameters) ← Mime.ParseMediaType (header_get header "Content-Type");
  if negb (bool_decide (mediaType = "multipart/form-data"))
     || bool_decide (header_get parameters "boundary" = "")
  then None
  else parts ← multipart_Parts (header_get parameters "boundary") rest; mapM form_part parts.

(** The loop of [accessControllerEventPart]. A nil [eventPayload] is [None]; an
    empty data slice is not nil. *)
Fixpoint event_part (eventPayload : option bytes) (parts : list multipartFormPart) : option bytes :=
  match parts with
  | [] => eventPayload
  | part :: rest =>
      if negb (bool_decide (mp_name part = "AccessControllerEvent")) then event_part eventPayload rest
      else if negb (bool_decide (mp_mediaType part = "application/json"))
              || bool_decide (is_Some eventPayload) then None
      else event_part (Some (mp_data part)) rest
  end.

Definition accessControllerEventPart (payload : bytes) : option bytes :=
  parts ← multipartFormParts payload; event_part None parts.

(** ** [Extract] *)
Definition Extract (dataFormat payloadBase64 : string) : option Projection :=
  payload ← b64_DecodeString payloadBase64;
  payload ← (if bool_decide (dataFormat = "boundaryData") then accessControllerEventPart payload
             else if bool_decide (dataFormat = "jsonData") then Some payload
             else None);
  document ← decode_exact (decode_struct false eventDocument_fields) zero_eventDocument payload;
  if negb (bool_decide (ed_EventType document = "AccessControllerEvent")) then None else
  access ← ed_AccessControllerEvent document;
  major ← ac_MajorEventType access;
  subtype ← ac_SubEventType access;
  if (major <? 1) || (5 <? major) || (subtype <? 0) then None else
  occurredAt ← match ed_DateTime document with
               | None => Some None
               | Some value => Some <$> Parse_RFC3339 value
               end;
  Some {| pj_MajorEventType := major;
          pj_SubEventType := subtype;
          pj_EventDescription := ed_EventDescription document;
          pj_EventState := ed_EventState document;
          pj_OccurredAt := occurredAt;
          pj_SourceMACAddress := ed_MACAddress document;
          pj_ChannelID := ed_ChannelID document;
          pj_ActivePostCount := ed_ActivePostCount document;
          pj_ShortSerialNumber := ed_ShortSerialNumber document;
          pj_DeviceName := ac_DeviceName access;
          pj_EmployeeNumber := ac_EmployeeNoString access;
          pj_EmployeeName := ac_Name access;
          pj_CardNumber := ac_CardNo access;
          pj_CardReaderNumber := ac_CardReaderNo access;
          pj_DoorNumber := ac_DoorNo access;
          pj_EventSerialNumber := ac_SerialNo access;
          pj_FrontSerialNumber := ac_FrontSerialNo access;
          pj_UserType := ac_UserType access;
          pj_CurrentVerifyMode := ac_CurrentVerifyMode access;
          pj_CurrentEvent := ac_CurrentEvent access;
          pj_Mask := ac_Mask access;
          pj_PicturesNumber := ac_PicturesNumber access;
          pj_PurePwdVerifyEnable := ac_PurePwdVerifyEnable access;
          pj_FaceRect := projectFaceRect (ac_FaceRect access);
          pj_SourceIPAddress := ed_IPAddress document |}.
End payloads.

(** ** Pictures (events.go, attachments.go) *)
Record Picture := {
  pic_ContentType : string;
  pic_FileName : string;
  pic_ContentID : string;
  pic_DataBase64 : string
}.

(** The loop of [ExtractPicture]. *)
Fixpoint picture_part (picture : option Picture) (parts : list multipartFormPart) : option Picture :=
  match parts with
  | [] => picture
  | part :: rest =>
      if negb (bool_decide (mp_name part = "Picture")) then picture_part picture rest
      else if negb (bool_decide (mp_mediaType part = "image/jpeg")) || bool_decide (mp_fileName part = "")
              || bool_decide (is_Some (pic_FileName <$> picture)) then None
      else picture_part (Some {| pic_ContentType := mp_mediaType part; pic_FileName := mp_fileName part;
                                 pic_ContentID := mp_contentID part;
                                 pic_DataBase64 := b64_EncodeToString (mp_data part) |}) rest
  end.

Definition MaxPictureBytes : Z := 5 * 1024 * 1024.

Record Attachment := {
  at_ContentType : string;
  at_ByteSize : Z;
  at_SHA256 : string;
  at_DataBase64 : string
}.

(** The outcome of [DeliveryPicture]: attachment, availability and reason. *)
Definition picture_result : Type := option Attachment * string * option string.
Definition unavailable (reason : string) : picture_result := (None, "unavailable", Some reason).

(** The loop of [DeliveryPicture]: [inl] is a return, [inr] the value of [raw]
    ([None] when no part was found). *)
Fixpoint picture_raw (raw : option bytes) (parts : list multipartFormPart) : picture_result + option bytes :=
  match parts with
  | [] => inr raw
  | part :: rest =>
      if negb (bool_decide (mp_name part = "Picture")) then picture_raw raw rest
      else if bool_decide (is_Some raw) || negb (bool_decide (mp_mediaType part = "image/jpeg"))
              || bool_decide (mp_fileName part = "") then inl (unavailable "invalid_picture")
      else picture_raw (Some (mp_data part)) rest
  end.

Section pictures.
Context `{GoParsers} `{CryptoLib}.

Definition ExtractPicture (dataFormat payloadBase64 : string) : option Picture :=
  if negb (bool_decide (dataFormat = "boundaryData")) then None else
  payload ← b64_DecodeString payloadBase64;
  parts ← multipartFormParts payload;
  picture_part None parts.

(** [DeliveryPicture] once the part (if any) is known. *)
Definition classify_picture (count : option Z) (raw : option bytes) : picture_result :=
  match raw with
  | None =>
      if match count with Some n => 0 <? n | None => false end then unavailable "missing_picture"
      else (None, "not_provided", None)
  | Some data =>
      if match count with Some n => n =? 0 | None => false end then unavailable "invalid_picture"
      else if MaxPictureBytes <? zlen data then unavailable "picture_too_large"
      else match jpeg_DecodeConfig data with
      | None => unavailable "invalid_jpeg"
      | Some (width, height) =>
          if (width <=? 0) || (height <=? 0) || (40000000 <? width * height) then unavailable "invalid_jpeg"
          else if negb (jpeg_Decode data) then unavailable "invalid_jpeg"
          else (Some {| at_ContentType := "image/jpeg"; at_ByteSize := zlen data;
                        at_SHA256 := hex_EncodeToString (sha256_Sum256 data);
                        at_DataBase64 := b64_EncodeToString data |}, "available", None)
      end
  end.

Definition DeliveryPicture (format payload : string) : picture_result :=
  match Extract format payload with
  | None => unavailable "invalid_multipart"
  | Some projection =>
      let count := pj_PicturesNumber projection in
      if match count with Some n => (n <? 0) || (1 <? n) | None => false end
      then unavailable "unsupported_picture_count"
      else if bool_decide (format = "boundaryData") then
        match b64_DecodeString payload ≫= multipartFormParts with
        | None => unavailable "invalid_multipart"
        | Some parts =>
            match picture_raw None parts with
            | inl r => r
            | inr (Some []) => unavailable "invalid_picture"
            | inr raw => classify_picture count raw
            end
        end
      else classify_picture count None
  end.
End pictures.

(** ** The retained-event archive (retained.go) *)
Definition RetainedEventSearchURL : string := "/ISAPI/AccessControl/AcsEvent?format=json".
Definition RetainedEventPageSize : Z := 30.
Definition retainedHistoryStartYear : Z := 2000.

(** 1 January 2000 in the zone of the terminal. *)
Definition search_start (terminalNow : Time) : Time :=
  time_Date retainedHistoryStartYear 1 1 0 0 0 0 (t_offset terminalNow).

Definition NewRetainedEventSearchRequest (searchID : string) (position : Z) (terminalNow : Time)
    : result string bytes :=
  if bool_decide (searchID = "") || (64 <? slen searchID) then
    Err "retained event search ID must contain 1..64 bytes"
  else if (position <? 0) || (150000 <? position) then
    Err "retained event search position must be 0..150000"
  else if t_ns terminalNow =? 0 then Err "terminal time is required"
  else
    let start := search_start terminalNow in
    if negb (t_ns start <? t_ns terminalNow) then
      Err "terminal time precedes the supported retained-event range"
    else Ok (json_Marshal (OObject [("AcsEventCond", OObject
           [("searchID", OString searchID);
            ("searchResultPosition", OInt position);
            ("maxResults", OInt RetainedEventPageSize);
            ("major", OInt 0);
            ("minor", OInt 0);
            ("startTime", OString (Format_RFC3339 start));
            ("endTime", OString (Format_RFC3339 terminalNow));
            ("timeReverseOrder", OBool true)])])).

Definition time_namespace : string := "http://www.isapi.org/ver20/XMLSchema".

Definition blank_chardata (token : xml_token) : bool :=
  match token with
  | XmlCharData text => bool_decide (Mime.trim_space text = [])
  | XmlOther => false
  end.

Definition ParseTerminalTime `{GoParsers} (source : bytes) : result string Time :=
  match xml_Decode_Time source with
  | None => Err "decode System/time XML: %w"
  | Some (space, local, localTime, rest) =>
      if negb (bool_decide (space = time_namespace)) || negb (bool_decide (local = "Time")) then
        Err "System/time XML root is not the documented Time element"
      else match rest with
      | None => Err "read after System/time XML: %w"
      | Some tokens =>
          if negb (forallb blank_chardata tokens) then Err "System/time XML contains trailing content"
          else if bool_decide (localTime = "") then Err "System/time XML omits localTime"
          else ok_or (Parse_RFC3339 localTime) "parse terminal localTime: %w"
      end
  end.

Record RetainedEventPage := {
  rp_SearchID : string;
  rp_ResponseStatus : string;
  rp_NumOfMatches : Z;
  rp_TotalMatches : Z;
  rp_InfoList : list bytes
}.

Record acsEvent := mk_acsEvent {
  ae_SearchID : option string;
  ae_ResponseStatus : option string;
  ae_NumOfMatches : option Z;
  ae_TotalMatches : option Z;
  ae_InfoList : slice bytes
}.
Definition zero_acsEvent : acsEvent := mk_acsEvent None None None None nil_slice.

Definition acsEvent_fields : list (field acsEvent) :=
  [ fld "searchID" ae_SearchID
      (fun r v => mk_acsEvent v (ae_ResponseStatus r) (ae_NumOfMatches r) (ae_TotalMatches r)
        (ae_InfoList r))
      (decode_ptr "" decode_string);
    fld "responseStatusStrg" ae_ResponseStatus
      (fun r v => mk_acsEvent (ae_SearchID r) v (ae_NumOfMatches r) (ae_TotalMatches r) (ae_InfoList
        r))
      (decode_ptr "" decode_string);
    fld "numOfMatches" ae_NumOfMatches
      (fun r v => mk_acsEvent (ae_SearchID r) (ae_ResponseStatus r) v (ae_TotalMatches r)
        (ae_InfoList r))
      (decode_ptr 0 decode_int);
    fld "totalMatches" ae_TotalMatches
      (fun r v => mk_acsEvent (ae_SearchID r) (ae_ResponseStatus r) (ae_NumOfMatches r) v
        (ae_InfoList r))
      (decode_ptr 0 decode_int);
    fld "InfoList" ae_InfoList
      (fun r v => mk_acsEvent (ae_SearchID r) (ae_ResponseStatus r) (ae_NumOfMatches r)
        (ae_TotalMatches r) v)
      (decode_slice [] (fun _ e => Some e.1)) ].

(** The document has the one member; the state is the pointer [AcsEvent]. *)
Definition retainedEventPageDocument_fields : list (field (option acsEvent)) :=
  [ fld "AcsEvent" (fun d => d) (fun _ v => v) (decode_ptr zero_acsEvent (decode_struct false acsEvent_fields)) ].

Definition ParseRetainedEventPage (source : bytes) : result string RetainedEventPage :=
  match decode_exact (decode_struct false retainedEventPageDocument_fields) None source with
  | None => Err "decode AcsEvent result: %w"
  | Some document =>
      match document with
      | None => Err "AcsEvent result omits a required pagination field"
      | Some event =>
          match ae_SearchID event, ae_ResponseStatus event, ae_NumOfMatches event, ae_TotalMatches event with
          | Some searchID, Some status, Some num, Some total =>
              let infoList := elems (ae_InfoList event) in
              let page := {| rp_SearchID := searchID; rp_ResponseStatus := status; rp_NumOfMatches := num;
                             rp_TotalMatches := total; rp_InfoList := infoList |} in
              if bool_decide (searchID = "") || (64 <? slen searchID) then
                Err "AcsEvent result has an invalid searchID"
              else if (num <? 0) || (RetainedEventPageSize <? num) || (total <? 0) || (150000 <? total) then
                Err "AcsEvent result has an out-of-range pagination count"
              else if bool_decide (status = "MORE") || bool_decide (status = "OK") then
                if num =? zlen infoList then Ok page
                else Err "AcsEvent result numOfMatches does not equal InfoList length"
              else if bool_decide (status = "NO MATCH") then
                if negb (num =? 0) || negb (total =? 0) || negb (zlen infoList =? 0)
                then Err "AcsEvent NO MATCH result has records or a non-zero count"
                else Ok page
              else Err "AcsEvent result has unsupported responseStatusStrg %q"
          | _, _, _, _ => Err "AcsEvent result omits a required pagination field"
          end
      end
  end.

Record retainedRecord := mk_retainedRecord {
  rr_Major : option Z;
  rr_Minor : option Z;
  rr_Time : option string;
  rr_CardNo : option string;
  rr_Name : option string;
  rr_EmployeeNoString : option string;
  rr_CardReaderNo : option Z;
  rr_DoorNo : option Z;
  rr_SerialNo : option Z;
  rr_UserType : option string;
  rr_CurrentVerifyMode : option string;
  rr_Mask : option string;
  rr_FaceRect : option faceRect
}.
Definition zero_retainedRecord : retainedRecord :=
  mk_retainedRecord None None None None None None None None None None None None None.

Definition retainedRecord_fields : list (field retainedRecord) :=
  [ fld "major" rr_Major
      (fun r v => mk_retainedRecord v (rr_Minor r) (rr_Time r) (rr_CardNo r) (rr_Name r)
        (rr_EmployeeNoString r) (rr_CardReaderNo r) (rr_DoorNo r) (rr_SerialNo r) (rr_UserType r)
        (rr_CurrentVerifyMode r) (rr_Mask r) (rr_FaceRect r))
      (decode_ptr 0 decode_int);
    fld "minor" rr_Minor
      (fun r v => mk_retainedRecord (rr_Major r) v (rr_Time r) (rr_CardNo r) (rr_Name r)
        (rr_EmployeeNoString r) (rr_CardReaderNo r) (rr_DoorNo r) (rr_SerialNo r) (rr_UserType r)
        (rr_CurrentVerifyMode r) (rr_Mask r) (rr_FaceRect r))
      (decode_ptr 0 decode_int);
    fld "time" rr_Time
      (fun r v => mk_retainedRecord (rr_Major r) (rr_Minor r) v (rr_CardNo r) (rr_Name r)
        (rr_EmployeeNoString r) (rr_CardReaderNo r) (rr_DoorNo r) (rr_SerialNo r) (rr_UserType r)
        (rr_CurrentVerifyMode r) (rr_Mask r) (rr_FaceRect r))
      (decode_ptr "" decode_string);
    fld "cardNo" rr_CardNo
      (fun r v => mk_retainedRecord (rr_Major r) (rr_Minor r) (rr_Time r) v (rr_Name r)
        (rr_EmployeeNoString r) (rr_CardReaderNo r) (rr_DoorNo r) (rr_SerialNo r) (rr_UserType r)
        (rr_CurrentVerifyMode r) (rr_Mask r) (rr_FaceRect r))
      (decode_ptr "" decode_string);
    fld "name" rr_Name
      (fun r v => mk_retainedRecord (rr_Major r) (rr_Minor r) (rr_Time r) (rr_CardNo r) v
        (rr_EmployeeNoString r) (rr_CardReaderNo r) (rr_DoorNo r) (rr_SerialNo r) (rr_UserType r)
        (rr_CurrentVerifyMode r) (rr_Mask r) (rr_FaceRect r))
      (decode_ptr "" decode_string);
    fld "employeeNoString" rr_EmployeeNoString
      (fun r v => mk_retainedRecord (rr_Major r) (rr_Minor r) (rr_Time r) (rr_CardNo r) (rr_Name r)
        v (rr_CardReaderNo r) (rr_DoorNo r) (rr_SerialNo r) (rr_UserType r) (rr_CurrentVerifyMode r)
        (rr_Mask r) (rr_FaceRect r))
      (decode_ptr "" decode_string);
    fld "cardReaderNo" rr_CardReaderNo
      (fun r v => mk_retainedRecord (rr_Major r) (rr_Minor r) (rr_Time r) (rr_CardNo r) (rr_Name r)
        (rr_EmployeeNoString r) v (rr_DoorNo r) (rr_SerialNo r) (rr_UserType r)
        (rr_CurrentVerifyMode r) (rr_Mask r) (rr_FaceRect r))
      (decode_ptr 0 decode_int);
    fld "doorNo" rr_DoorNo
      (fun r v => mk_retainedRecord (rr_Major r) (rr_Minor r) (rr_Time r) (rr_CardNo r) (rr_Name r)
        (rr_EmployeeNoString r) (rr_CardReaderNo r) v (rr_SerialNo r) (rr_UserType r)
        (rr_CurrentVerifyMode r) (rr_Mask r) (rr_FaceRect r))
      (decode_ptr 0 decode_int);
    fld "serialNo" rr_SerialNo
      (fun r v => mk_retainedRecord (rr_Major r) (rr_Minor r) (rr_Time r) (rr_CardNo r) (rr_Name r)
        (rr_EmployeeNoString r) (rr_CardReaderNo r) (rr_DoorNo r) v (rr_UserType r)
        (rr_CurrentVerifyMode r) (rr_Mask r) (rr_FaceRect r))
      (decode_ptr 0 decode_int);
    fld "userType" rr_UserType
      (fun r v => mk_retainedRecord (rr_Major r) (rr_Minor r) (rr_Time r) (rr_CardNo r) (rr_Name r)
        (rr_EmployeeNoString r) (rr_CardReaderNo r) (rr_DoorNo r) (rr_SerialNo r) v
        (rr_CurrentVerifyMode r) (rr_Mask r) (rr_FaceRect r))
      (decode_ptr "" decode_string);
    fld "currentVerifyMode" rr_CurrentVerifyMode
      (fun r v => mk_retainedRecord (rr_Major r) (rr_Minor r) (rr_Time r) (rr_CardNo r) (rr_Name r)
        (rr_EmployeeNoString r) (rr_CardReaderNo r) (rr_DoorNo r) (rr_SerialNo r) (rr_UserType r) v
        (rr_Mask r) (rr_FaceRect r))
      (decode_ptr "" decode_string);
    fld "mask" rr_Mask
      (fun r v => mk_retainedRecord (rr_Major r) (rr_Minor r) (rr_Time r) (rr_CardNo r) (rr_Name r)
        (rr_EmployeeNoString r) (rr_CardReaderNo r) (rr_DoorNo r) (rr_SerialNo r) (rr_UserType r)
        (rr_CurrentVerifyMode r) v (rr_FaceRect r))
      (decode_ptr "" decode_string);
    fld "FaceRect" rr_FaceRect
      (fun r v => mk_retainedRecord (rr_Major r) (rr_Minor r) (rr_Time r) (rr_CardNo r) (rr_Name r)
        (rr_EmployeeNoString r) (rr_CardReaderNo r) (rr_DoorNo r) (rr_SerialNo r) (rr_UserType r)
        (rr_CurrentVerifyMode r) (rr_Mask r) v)
      (decode_ptr zero_faceRect (decode_struct false faceRect_fields)) ].

Definition ExtractRetainedEvent (source : bytes) : result string Projection :=
  match decode_exact (decode_struct false retainedRecord_fields) zero_retainedRecord source with
  | None => Err "decode retained AcsEvent record: %w"
  | Some record =>
      match rr_Major record, rr_Minor record, rr_Time record with
      | Some major, Some minor, Some time_ =>
          if (major <? 1) || (5 <? major) || (minor <? 0) then
            Err "retained AcsEvent record has invalid major or minor code"
          else match Parse_RFC3339 time_ with
          | None => Err "parse retained AcsEvent time: %w"
          | Some occurredAt =>
              Ok {| pj_MajorEventType := major;
                    pj_SubEventType := minor;
                    pj_EventDescription := None;
                    pj_EventState := None;
                    pj_OccurredAt := Some occurredAt;
                    pj_SourceMACAddress := None;
                    pj_ChannelID := None;
                    pj_ActivePostCount := None;
                    pj_ShortSerialNumber := None;
                    pj_DeviceName := None;
                    pj_EmployeeNumber := rr_EmployeeNoString record;
                    pj_EmployeeName := rr_Name record;
                    pj_CardNumber := rr_CardNo record;
                    pj_CardReaderNumber := rr_CardReaderNo record;
                    pj_DoorNumber := rr_DoorNo record;
                    pj_EventSerialNumber := rr_SerialNo record;
                    pj_FrontSerialNumber := None;
                    pj_UserType := rr_UserType record;
                    pj_CurrentVerifyMode := rr_CurrentVerifyMode record;
                    pj_CurrentEvent := None;
                    pj_Mask := rr_Mask record;
                    pj_PicturesNumber := None;
                    pj_PurePwdVerifyEnable := None;
                    pj_FaceRect := projectFaceRect (rr_FaceRect record);
                    pj_SourceIPAddress := None |}
          end
      | _, _, _ => Err "retained AcsEvent record omits major, minor, or time"
      end
  end.
