(* ===== verification/Config.v ===== *)
(** internal/config: loading and validating the configuration, and the
    configuration fingerprints that bind a stored session to a terminal. *)

From Stdlib Require Import ZArith Lia Ascii String.
From stdpp Require Import base gmap strings list option.
From S2P Require Import Prelude GoText GoJSON GoConv GoCrypto.

Local Open Scope string_scope.
Local Open Scope Z_scope.

Record Terminal := mkTerminal {
  SerialNumber : string;
  PushSDKSerial : string;
  Username : string;
  PasswordEnvironmentVariable : string;
  Password : string;
  LoginPasswordDigest : string;
  SecurityVersion : Z;
  CommandIntervalSeconds : Z;
  ErrorDelaySeconds : Z
}.

#[export] Instance Terminal_eq_dec : EqDecision Terminal.
Proof. solve_decision. Defined.

Definition zero_Terminal : Terminal := mkTerminal "" "" "" "" "" "" 0 0 0.

Record Config := {
  ListenAddress : string;
  DatabaseURL : string;
  TerminalsFile : string;
  AdminUsername : string;
  AdminPassword : string;
  CookieSecure : bool;
  SessionTTL : duration;
  WebDir : string;
  MigrationsDir : string;
  MetricsCIDRs : list string;
  Terminals : list Terminal;
  DeliverySigningKeys : gmap string string
}.

(** ** Loading the terminal inventory *)

(** The JSON members of [Terminal]; [Password] is tagged ["-"] and has none. *)
Definition Terminal_fields : list (field Terminal) :=
  [ fld "serialNumber" SerialNumber
      (fun t v => mkTerminal v (PushSDKSerial t) (Username t) (PasswordEnvironmentVariable t) (Password t)
                    (LoginPasswordDigest t) (SecurityVersion t) (CommandIntervalSeconds t) (ErrorDelaySeconds t))
      decode_string;
    fld "pushSdkSerial" PushSDKSerial
      (fun t v => mkTerminal (SerialNumber t) v (Username t) (PasswordEnvironmentVariable t) (Password t)
                    (LoginPasswordDigest t) (SecurityVersion t) (CommandIntervalSeconds t) (ErrorDelaySeconds t))
      decode_string;
    fld "username" Username
      (fun t v => mkTerminal (SerialNumber t) (PushSDKSerial t) v (PasswordEnvironmentVariable t) (Password t)
                    (LoginPasswordDigest t) (SecurityVersion t) (CommandIntervalSeconds t) (ErrorDelaySeconds t))
      decode_string;
    fld "passwordEnvironmentVariable" PasswordEnvironmentVariable
      (fun t v => mkTerminal (SerialNumber t) (PushSDKSerial t) (Username t) v (Password t)
                    (LoginPasswordDigest t) (SecurityVersion t) (CommandIntervalSeconds t) (ErrorDelaySeconds t))
      decode_string;
    fld "loginPasswordDigest" LoginPasswordDigest
      (fun t v => mkTerminal (SerialNumber t) (PushSDKSerial t) (Username t) (PasswordEnvironmentVariable t)
                    (Password t) v (SecurityVersion t) (CommandIntervalSeconds t) (ErrorDelaySeconds t))
      decode_string;
    fld "securityVersion" SecurityVersion
      (fun t v => mkTerminal (SerialNumber t) (PushSDKSerial t) (Username t) (PasswordEnvironmentVariable t)
                    (Password t) (LoginPasswordDigest t) v (CommandIntervalSeconds t) (ErrorDelaySeconds t))
      decode_int;
    fld "commandIntervalSeconds" CommandIntervalSeconds
      (fun t v => mkTerminal (SerialNumber t) (PushSDKSerial t) (Username t) (PasswordEnvironmentVariable t)
                    (Password t) (LoginPasswordDigest t) (SecurityVersion t) v (ErrorDelaySeconds t))
      decode_int;
    fld "errorDelaySeconds" ErrorDelaySeconds
      (fun t v => mkTerminal (SerialNumber t) (PushSDKSerial t) (Username t) (PasswordEnvironmentVariable t)
                    (Password t) (LoginPasswordDigest t) (SecurityVersion t) (CommandIntervalSeconds t) v)
      decode_int ].

Definition set_Password (t : Terminal) (p : string) : Terminal :=
  mkTerminal (SerialNumber t) (PushSDKSerial t) (Username t) (PasswordEnvironmentVariable t) p
    (LoginPasswordDigest t) (SecurityVersion t) (CommandIntervalSeconds t) (ErrorDelaySeconds t).

(** [loadTerminals]: [contents] is what reading the file gave ([None] for an
    error), [getenv] the process environment. *)
Definition loadTerminals (contents : option bytes) (getenv : string -> string)
    : result string (list Terminal) :=
  match contents with
  | None => Err "read GATEWAY_TERMINALS_FILE: %w"
  | Some body =>
      match decode_exact (decode_slice zero_Terminal
               (fun t e => decode_struct true Terminal_fields t e.2)) nil_slice body with
      | None => Err "decode terminals: %w"
      | Some s => Ok ((fun t => set_Password t (getenv (PasswordEnvironmentVariable t))) <$> elems s)
      end
  end.

(** ** Validation *)

(** [^[A-Z][A-Z0-9_]*$] *)
Definition environmentVariableName (s : string) : bool :=
  match bytes_of s with
  | c :: l => is_upper c && forallb (fun d => is_upper d || is_digit d || (byte_val d =? 95)) l
  | [] => false
  end.

(** [^[A-Za-z0-9_-]{1,64}$] *)
Definition signingKeyID (s : string) : bool :=
  class_between (fun c => is_alnum c || (byte_val c =? 95) || (byte_val c =? 45)) 1 64 s.

Definition required_settings (c : Config) : list (string * string) :=
  [ ("GATEWAY_LISTEN_ADDRESS", ListenAddress c); ("DATABASE_URL", DatabaseURL c);
    ("GATEWAY_TERMINALS_FILE", TerminalsFile c); ("ADMIN_USERNAME", AdminUsername c);
    ("ADMIN_PASSWORD", AdminPassword c); ("WEB_DIR", WebDir c);
    ("MIGRATIONS_DIR", MigrationsDir c) ].

Definition required_fields (t : Terminal) : list (string * string) :=
  [ ("serialNumber", SerialNumber t); ("pushSdkSerial", PushSDKSerial t); ("username", Username t);
    ("passwordEnvironmentVariable", PasswordEnvironmentVariable t);
    ("loginPasswordDigest", LoginPasswordDigest t) ].

(** The body of the loop over the terminals: [i] is the index and the two sets
    are [seenDevice] and [seenPush]. *)
Definition validate_terminal (seen : Z * (gset string * gset string)) (terminal : Terminal)
    : result string (Z * (gset string * gset string)) :=
  let '(i, (seenDevice, seenPush)) := seen in
  let prefix := "terminals[" +:+ itoa i +:+ "]" in
  match List.find (fun f => Utf8.blank f.2) (required_fields terminal) with
  | Some f => Err (prefix +:+ "." +:+ f.1 +:+ " is required")
  | None =>
  if bool_decide (SerialNumber terminal ∈ seenDevice) then
    Err (prefix +:+ ".serialNumber is duplicated")
  else if bool_decide (PushSDKSerial terminal ∈ seenPush) then
    Err (prefix +:+ ".pushSdkSerial is duplicated")
  else if negb (bool_decide (LoginPasswordDigest terminal = "sha1"))
          && negb (bool_decide (LoginPasswordDigest terminal = "sha256")) then
    Err (prefix +:+ ".loginPasswordDigest must be sha1 or sha256")
  else if negb (SecurityVersion terminal =? 3) && negb (SecurityVersion terminal =? 4) then
    Err (prefix +:+ ".securityVersion must be 3 or 4")
  else if (CommandIntervalSeconds terminal <? 1) || (300 <? CommandIntervalSeconds terminal) then
    Err (prefix +:+ ".commandIntervalSeconds must be 1..300")
  else if (ErrorDelaySeconds terminal <? 30) || (300 <? ErrorDelaySeconds terminal) then
    Err (prefix +:+ ".errorDelaySeconds must be 30..300")
  else if negb (environmentVariableName (PasswordEnvironmentVariable terminal)) then
    Err (prefix +:+ ".passwordEnvironmentVariable is invalid")
  else if (slen (Password terminal) <? 1) || (64 <? slen (Password terminal)) then
    Err ("environment variable " +:+ PasswordEnvironmentVariable terminal +:+ " for " +:+ prefix
         +:+ " must contain 1..64 characters")
  else Ok (i + 1, ({[SerialNumber terminal]} ∪ seenDevice, {[PushSDKSerial terminal]} ∪ seenPush))
  end.

Definition Validate (c : Config) : result string unit :=
  if negb (forallb (fun kv => signingKeyID kv.1 && class_exactly is_lower_hex 64 kv.2)
             (map_to_list (DeliverySigningKeys c))) then
    Err "DELIVERY_SIGNING_KEYS requires key IDs of 1..64 letters, digits, underscores or hyphens and 64 lowercase hexadecimal key values"
  else
  match List.find (fun s => Utf8.blank s.2) (required_settings c) with
  | Some s => Err (s.1 +:+ " is required")
  | None =>
  if SessionTTL c <=? 0 then Err "SESSION_TTL must be positive"
  else if bool_decide (MetricsCIDRs c = []) then Err "METRICS_ALLOW_CIDRS is required"
  else if bool_decide (Terminals c = []) then Err "at least one terminal is required"
  else _ ← foldR validate_terminal (Terminals c) (0, (∅, ∅)); Ok tt
  end.

(** ** Loading *)

(** The environment variables and the files of the process. *)
Record Process := { LookupEnv : string -> option string; ReadFile : string -> option bytes }.
Definition Getenv (p : Process) (name : string) : string := default "" (LookupEnv p name).

(** [json.Unmarshal] into a nil [map[string]string]: a [null] member is the empty
    string, the last of several members with one name counts. *)
Definition decode_string_map (j : json) : option (gmap string string) :=
  match j with
  | JObject members =>
      foldl (fun acc (m : string * (bytes * json)) =>
        keys ← acc; v ← decode_string "" m.2.2; Some (<[m.1 := v]> keys)) (Some ∅) members
  | _ => None
  end.

(** A variable that must be set and not empty. *)
Definition required_variable (p : Process) (name : string) : result string string :=
  match LookupEnv p name with
  | Some raw => if bool_decide (raw = "") then Err (name +:+ " is required") else Ok raw
  | None => Err (name +:+ " is required")
  end.

Definition Load (p : Process) : result string Config :=
  keys ← (let raw := Getenv p "DELIVERY_SIGNING_KEYS" in
          if bool_decide (raw = "") then Ok ∅ else
          ok_or (parse_document (bytes_of raw) ≫= decode_string_map)
            "DELIVERY_SIGNING_KEYS must be a JSON object of key IDs and signing keys");
  rawCookieSecure ← required_variable p "COOKIE_SECURE";
  cookieSecure ← ok_or (ParseBool rawCookieSecure) "COOKIE_SECURE: %w";
  rawSessionTTL ← required_variable p "SESSION_TTL";
  sessionTTL ← ok_or (ParseDuration rawSessionTTL) "SESSION_TTL: %w";
  rawMetricsCIDRs ← required_variable p "METRICS_ALLOW_CIDRS";
  let cidrs := strings_Split rawMetricsCIDRs ","%char in
  (if bool_decide ("" ∈ cidrs) then Err "METRICS_ALLOW_CIDRS contains an empty entry" else Ok tt);;
  terminals ← loadTerminals (ReadFile p (Getenv p "GATEWAY_TERMINALS_FILE")) (Getenv p);
  let c := {| ListenAddress := Getenv p "GATEWAY_LISTEN_ADDRESS";
              DatabaseURL := Getenv p "DATABASE_URL";
              TerminalsFile := Getenv p "GATEWAY_TERMINALS_FILE";
              AdminUsername := Getenv p "ADMIN_USERNAME";
              AdminPassword := Getenv p "ADMIN_PASSWORD";
              CookieSecure := cookieSecure;
              SessionTTL := sessionTTL;
              WebDir := Getenv p "WEB_DIR";
              MigrationsDir := Getenv p "MIGRATIONS_DIR";
              MetricsCIDRs := cidrs;
              Terminals := terminals;
              DeliverySigningKeys := keys |} in
  Validate c;;
  Ok c.

(** ** Lookups *)
Definition TerminalByPushSDKSerial (c : Config) (serial : string) : option Terminal :=
  List.find (fun t => bool_decide (PushSDKSerial t = serial)) (Terminals c).

Definition TerminalBySerialNumber (c : Config) (serial : string) : option Terminal :=
  List.find (fun t => bool_decide (SerialNumber t = serial)) (Terminals c).

(** ** Fingerprints *)
Definition nul : string := String (Ascii.ascii_of_nat 0) "".

Section fingerprints.
Context `{CryptoLib}.

Definition CredentialFingerprint (t : Terminal) : string :=
  hex_EncodeToString (take 8 (sha256_Sum256 (bytes_of (Username t +:+ nul +:+ Password t)))).

(** The text [SessionFingerprint] hashes. *)
Definition session_contract (t : Terminal) : string :=
  CredentialFingerprint t +:+ nul +:+ LoginPasswordDigest t +:+ nul +:+ itoa (SecurityVersion t)
  +:+ nul +:+ itoa (CommandIntervalSeconds t) +:+ nul +:+ itoa (ErrorDelaySeconds t)
  +:+ nul +:+ PushSDKSerial t.

Definition SessionFingerprint (t : Terminal) : string :=
  hex_EncodeToString (sha256_Sum256 (bytes_of (session_contract t))).
End fingerprints.

(** ** What validation guarantees *)
Record valid_terminal (t : Terminal) : Prop := {
  vt_serial : SerialNumber t <> "";
  vt_push : PushSDKSerial t <> "";
  vt_digest : LoginPasswordDigest t = "sha1" \/ LoginPasswordDigest t = "sha256";
  vt_security : SecurityVersion t = 3 \/ SecurityVersion t = 4;
  vt_interval : 1 <= CommandIntervalSeconds t <= 300;
  vt_delay : 30 <= ErrorDelaySeconds t <= 300;
  vt_password : 1 <= slen (Password t) <= 64
}.

Record valid_config (c : Config) : Prop := {
  vc_terminals : Forall valid_terminal (Terminals c);
  vc_serials : NoDup (SerialNumber <$> Terminals c);
  vc_push_serials : NoDup (PushSDKSerial <$> Terminals c);
  vc_administrator : AdminUsername c <> "" /\ AdminPassword c <> "";
  vc_ttl : 0 < SessionTTL c;
  vc_keys : map_Forall (fun id key => signingKeyID id = true /\ class_exactly is_lower_hex 64 key = true)
              (DeliverySigningKeys c)
}.

Lemma blank_empty : Utf8.blank "" = true.
Proof. done. Qed.

Lemma find_none_blank {A} (l : list (A * string)) :
  List.find (fun f => Utf8.blank f.2) l = None -> forall a s, In (a, s) l -> s <> "".
Proof. intros H a s Hin ->. apply (List.find_none _ _ H) in Hin. done. Qed.

Lemma validate_terminal_ok i sd sp t i' sd' sp' :
  validate_terminal (i, (sd, sp)) t = Ok (i', (sd', sp')) ->
  valid_terminal t /\ SerialNumber t ∉ sd /\ PushSDKSerial t ∉ sp /\
  sd' = {[SerialNumber t]} ∪ sd /\ sp' = {[PushSDKSerial t]} ∪ sp.
Proof.
  unfold validate_terminal. destruct (List.find _ _) eqn:Hf; [done|].
  pose proof (find_none_blank _ Hf) as Hb.
  repeat (case_match; [done|]). intros ?. simplify_eq.
  repeat match goal with H : bool_decide _ = false |- _ => apply bool_decide_eq_false in H end.
  split_and!; try done. split.
  - eapply Hb. simpl. eauto.
  - eapply Hb. simpl. eauto 10.
  - destruct (decide (LoginPasswordDigest t = "sha1")); [by left|].
    destruct (decide (LoginPasswordDigest t = "sha256")); [by right|].
    by rewrite !bool_decide_eq_false_2 in * by done.
  - lia.
  - lia.
  - lia.
  - lia.
Qed.

Lemma validate_terminals_ok l r :
  foldR validate_terminal l (0, (∅, ∅)) = Ok r ->
  Forall valid_terminal l /\ NoDup (SerialNumber <$> l) /\ NoDup (PushSDKSerial <$> l).
Proof.
  intros Hf.
  cut (Forall valid_terminal l /\ NoDup (SerialNumber <$> l) /\ NoDup (PushSDKSerial <$> l) /\
       (forall s, s ∈ r.2.1 <-> s ∈ SerialNumber <$> l) /\
       (forall s, s ∈ r.2.2 <-> s ∈ PushSDKSerial <$> l)); [tauto|].
  revert Hf. apply (foldR_inv _ (fun l r => Forall valid_terminal l /\ NoDup (SerialNumber <$> l) /\
    NoDup (PushSDKSerial <$> l) /\ (forall s, s ∈ r.2.1 <-> s ∈ SerialNumber <$> l) /\
    (forall s, s ∈ r.2.2 <-> s ∈ PushSDKSerial <$> l))).
  { split_and!; try constructor; set_solver. }
  clear l r. intros l t [i [sd sp]] [i' [sd' sp']] (Hall & Hs & Hp & Hsd & Hsp) Hok.
  apply validate_terminal_ok in Hok as (Hv & Hns & Hnp & -> & ->). simpl in *.
  rewrite !fmap_app. simpl. split_and!.
  - apply Forall_app. auto.
  - apply list.NoDup_app. split_and!; [done| |apply NoDup_singleton]. set_solver.
  - apply list.NoDup_app. split_and!; [done| |apply NoDup_singleton]. set_solver.
  - set_solver.
  - set_solver.
Qed.

Lemma validated_config c : Validate c = Ok tt -> valid_config c.
Proof.
  unfold Validate. destruct (negb (forallb _ _)) eqn:Hk; [done|].
  destruct (List.find _ _) eqn:Hs; [done|].
  pose proof (find_none_blank _ Hs) as Hb.
  destruct (SessionTTL c <=? 0) eqn:Ht; [done|]. repeat case_match; try done.
  destruct (foldR _ _ _) eqn:Hf; [|done]. intros _.
  apply validate_terminals_ok in Hf as (? & ? & ?). split; try done.
  - split; eapply Hb; simpl; eauto 10.
  - lia.
  - intros id key Hid. apply negb_false_iff in Hk. rewrite forallb_forall in Hk.
    specialize (Hk (id, key)). simpl in Hk. rewrite andb_true_iff in Hk. apply Hk.
    by apply list_elem_of_In, elem_of_map_to_list.
Qed.

Lemma loadTerminals_passwords contents getenv l t :
  loadTerminals contents getenv = Ok l -> t ∈ l -> Password t = getenv (PasswordEnvironmentVariable t).
Proof.
  unfold loadTerminals. repeat case_match; try done. intros [= <-] (t' & -> & _)%list_elem_of_fmap. done.
Qed.

(** A configuration that loads has distinct serial numbers and distinct PushSDK
    serials, every terminal a supported digest and security version, intervals in range
    and a password of 1 to 64 bytes that is the value of the variable it names, an
    administrator with a name and a password, a positive session lifetime, and signing
    keys of 64 lowercase hexadecimal digits. *)
Theorem loaded_config p c :
  Load p = Ok c ->
  valid_config c /\
  (forall t, t ∈ Terminals c -> LookupEnv p (PasswordEnvironmentVariable t) = Some (Password t)).
Proof.
  unfold Load, mbind, result_bind. intros E.
  repeat match type of E with
         | match ?r with Ok _ => _ | Err _ => _ end = _ => destruct r eqn:?; [|done]
         end.
  cbn zeta beta in *. injection E as <-. match goal with u : unit |- _ => destruct u end.
  match goal with Hv : Validate _ = Ok _ |- _ => apply validated_config in Hv as Hc end.
  split; [done|]. simpl. intros t Ht.
  match goal with Hl : loadTerminals _ _ = Ok _ |- _ => apply (loadTerminals_passwords _ _ _ _ Hl) in Ht as Hp end.
  destruct Hc as [Hall _ _ _ _ _]. simpl in Hall. rewrite list.Forall_forall in Hall.
  destruct (Hall t Ht) as [_ _ _ _ _ _ Hlen]. unfold Getenv in Hp.
  destruct (LookupEnv p _) as [v|] eqn:Ev; simpl in Hp; [by rewrite Hp|].
  rewrite Hp in Hlen. vm_compute in Hlen. by destruct Hlen.
Qed.

Lemma find_by_key {A} (key : A -> string) (l : list A) (x : A) :
  NoDup (key <$> l) -> x ∈ l -> List.find (fun t => bool_decide (key t = key x)) l = Some x.
Proof.
  induction l as [|y l IH]; [by intros _ ?%elem_of_nil|]. simpl.
  intros [Hn Hd]%list.NoDup_cons [->|Hx]%elem_of_cons; [by rewrite bool_decide_eq_true_2|].
  rewrite bool_decide_eq_false_2; [auto|]. intros Heq. apply Hn. rewrite Heq.
  by apply list_elem_of_fmap_2.
Qed.

Lemma TerminalByPushSDKSerial_Some c s t :
  TerminalByPushSDKSerial c s = Some t -> t ∈ Terminals c /\ PushSDKSerial t = s.
Proof.
  intros [H1 H2]%List.find_some. apply bool_decide_eq_true in H2.
  by rewrite list_elem_of_In.
Qed.

Lemma TerminalBySerialNumber_Some c s t :
  TerminalBySerialNumber c s = Some t -> t ∈ Terminals c /\ SerialNumber t = s.
Proof.
  intros [H1 H2]%List.find_some. apply bool_decide_eq_true in H2.
  by rewrite list_elem_of_In.
Qed.

Lemma TerminalByPushSDKSerial_found c t :
  valid_config c -> t ∈ Terminals c -> TerminalByPushSDKSerial c (PushSDKSerial t) = Some t.
Proof. intros []. by apply find_by_key. Qed.

Lemma TerminalBySerialNumber_found c t :
  valid_config c -> t ∈ Terminals c -> TerminalBySerialNumber c (SerialNumber t) = Some t.
Proof. intros []. by apply find_by_key. Qed.

Lemma NoDup_key_inj {A B} (f : A -> B) (l : list A) x y :
  NoDup (f <$> l) -> x ∈ l -> y ∈ l -> f x = f y -> x = y.
Proof.
  intros Hd [i Hi]%list_elem_of_lookup [j Hj]%list_elem_of_lookup Heq.
  assert (i = j) as ->; [|congruence].
  eapply (list.NoDup_lookup (f <$> l)); [done| |]; rewrite list_lookup_fmap.
  - by rewrite Hi.
  - rewrite Hj. simpl. by rewrite Heq.
Qed.

Lemma terminal_serial_inj c t t' :
  valid_config c -> t ∈ Terminals c -> t' ∈ Terminals c ->
  SerialNumber t = SerialNumber t' -> t = t'.
Proof. intros []. by apply NoDup_key_inj. Qed.

Lemma terminal_push_inj c t t' :
  valid_config c -> t ∈ Terminals c -> t' ∈ Terminals c ->
  PushSDKSerial t = PushSDKSerial t' -> t = t'.
Proof. intros []. by apply NoDup_key_inj. Qed.

Lemma valid_config_terminal c t : valid_config c -> t ∈ Terminals c -> valid_terminal t.
Proof. intros [Hall _ _ _ _ _]. rewrite list.Forall_forall in Hall. auto. Qed.

#[export] Hint Resolve valid_config_terminal : gateway.
