(* ===== verification/Crypto.v ===== *)
(** internal/pushsdk/crypto.go: random tokens, the login and per-request
    credentials, and the AES-CBC payload encryption with PKCS#7 padding. *)

From Stdlib Require Import ZArith Lia Ascii String.
From stdpp Require Import base strings list option.
From S2P Require Import Prelude GoText GoCrypto Config.

Local Open Scope string_scope.
Local Open Scope Z_scope.

(** ** Syntax classes *)
Definition hex32 (s : string) : bool := class_exactly is_hex 32 s.
Definition alphaNumeric64 (s : string) : bool := class_exactly is_alnum 64 s.
Definition lowerHex64 (s : string) : bool := class_exactly is_lower_hex 64 s.

(** ** Random tokens

    [rand.Reader] is a sequence of reads, numbered from 0 over the life of the
    process: read [i] fails, or yields as many bytes as were asked for. *)
Definition rand_source : Type := nat -> option (nat -> ascii).

Definition ReadFull (src : rand_source) (i n : nat) : option bytes :=
  (fun f => f <$> seq 0 n) <$> src i.

Definition alphabet : bytes :=
  bytes_of "0123456789ABCDEFGHIJKLMNOPQRSTUVWXYZabcdefghijklmnopqrstuvwxyz".
Definition limit : Z := 256 - 256 mod zlen alphabet.

(** The character a random byte selects; [None] when the byte is skipped. *)
Definition alphabet_char (random : ascii) : option ascii :=
  if limit <=? byte_val random then None
  else alphabet !! Z.to_nat (byte_val random mod zlen alphabet).

(** The inner loop: consumes [input] until [value] holds [length] characters. *)
Fixpoint take_chars (length : nat) (value input : bytes) : bytes :=
  match input with
  | [] => value
  | random :: input' =>
      match alphabet_char random with
      | None => take_chars length value input'
      | Some c =>
          let value' := (value ++ [c])%list in
          if (List.length value' =? length)%nat then value' else take_chars length value' input'
      end
  end.

(** The outcome of a loop that reads until it has enough: [RFuel] marks a run
    that has not ended after the given number of reads. *)
Inductive rand_result := RDone (s : string) | RFail | RFuel.

(** The outer loop from read [i]; it also returns the number of the next read. *)
Fixpoint random_loop (fuel : nat) (src : rand_source) (i length : nat) (value : bytes)
    : rand_result * nat :=
  if (length <=? List.length value)%nat then (RDone (string_of value), i)
  else match fuel with
  | O => (RFuel, i)
  | S fuel' =>
      match ReadFull src i 32 with
      | None => (RFail, S i)
      | Some input => random_loop fuel' src (S i) length (take_chars length value input)
      end
  end.

Definition randomAlphaNumeric (fuel : nat) (src : rand_source) (i length : nat) : rand_result * nat :=
  random_loop fuel src i length [].

Definition randomCustomChallenge (src : rand_source) (i : nat) : option string :=
  hex_EncodeToString <$> ReadFull src i 32.

(** ** Credentials and payload encryption *)
Record EncryptionParameters := {
  ep_SecurityVersion : Z;
  ep_IV : bytes;
  ep_Random : string
}.

(** [ParseEncryptionParameters]; errors are the messages of [fmt.Errorf]. *)
Definition ParseEncryptionParameters (security iv random : string) (expectedSecurity : Z)
    : result string EncryptionParameters :=
  if bool_decide (security = "") || bool_decide (iv = "") || bool_decide (random = "") then
    Err "security, iv, and random must all be present"
  else if negb (bool_decide (security = itoa expectedSecurity)) then
    Err "security version is not negotiated"
  else if negb (hex32 iv) then Err "iv must be exactly 32 hexadecimal characters"
  else if negb (zlen (bytes_of random) =? 16) then Err "random must be exactly 16 UTF-8 bytes"
  else match hex_DecodeString iv with
  | None => Err "decode iv: %w"
  | Some decoded =>
      Ok {| ep_SecurityVersion := expectedSecurity; ep_IV := decoded; ep_Random := random |}
  end.

Definition padPKCS7 (value : bytes) (size : nat) : bytes :=
  let padding := (size - length value mod size)%nat in
  (value ++ replicate padding (byte_of (Z.of_nat padding)))%list.

Definition unpadPKCS7 (value : bytes) : result string bytes :=
  if ((length value =? 0) || negb (length value mod aes_BlockSize =? 0))%nat then
    Err "invalid padded plaintext length"
  else
    let padding := Z.to_nat (byte_val (List.last value Ascii.zero)) in
    if ((padding <? 1) || (aes_BlockSize <? padding) || (length value <? padding))%nat then
      Err "invalid PKCS#7 padding"
    else if forallb (fun item => byte_val item =? Z.of_nat padding) (drop (length value - padding) value)
    then Ok (take (length value - padding) value)
    else Err "invalid PKCS#7 padding".

(** [hmac.Equal], which is [subtle.ConstantTimeCompare]: the lengths, then the
    accumulated differences of all bytes. *)
Definition xor_accumulate (left right : bytes) : Z :=
  foldl (fun v p => Z.lor v (Z.lxor (byte_val p.1) (byte_val p.2))) 0 (zip left right).
Definition constantTimeEqual (left right : string) : bool :=
  (zlen (bytes_of left) =? zlen (bytes_of right))
  && (xor_accumulate (bytes_of left) (bytes_of right) =? 0).

(** [None] is the panic on a digest that validation did not accept. *)
Definition loginPasswordHash (digest : string) : option Digest :=
  if bool_decide (digest = "sha1") then Some DigestSHA1
  else if bool_decide (digest = "sha256") then Some DigestSHA256
  else None.

Section credentials.
Context `{CryptoLib}.

Definition passwordHash (terminal : Terminal) (salt : string) : string :=
  hex_EncodeToString (sha256_Sum256 (bytes_of (Username terminal +:+ salt +:+ Password terminal))).

Definition expectedLoginPassword (terminal : Terminal) (salt challenge : string) (iterations : Z)
    : option string :=
  h ← loginPasswordHash (LoginPasswordDigest terminal);
  Some (hex_EncodeToString
    (pbkdf2_Key (bytes_of (passwordHash terminal salt +:+ challenge)) (bytes_of salt) iterations 64 h)).

Definition expectedCustomAuth (terminal : Terminal) (salt challenge : string) : string :=
  hex_EncodeToString (sha256_Sum256 (bytes_of (passwordHash terminal salt +:+ challenge))).

Definition deriveKey (terminal : Terminal) (salt : string) (iterations : Z)
    (params : EncryptionParameters) : bytes :=
  let keyLength := if ep_SecurityVersion params =? 4 then 32%nat else 16%nat in
  pbkdf2_Key (bytes_of (passwordHash terminal salt +:+ ep_Random params)) (bytes_of salt)
    iterations keyLength DigestSHA256.

Definition decrypt (terminal : Terminal) (salt : string) (iterations : Z)
    (params : EncryptionParameters) (encrypted : bytes) : result string bytes :=
  match b64_DecodeString (string_of encrypted) with
  | None => Err "request body must be base64 ciphertext: %w"
  | Some encoded =>
      let key := deriveKey terminal salt iterations params in
      if negb (aes_key_ok key) then Err "crypto/aes: invalid key size"
      else if ((length encoded =? 0) || negb (length encoded mod aes_BlockSize =? 0))%nat then
        Err "ciphertext has invalid AES-CBC length"
      else unpadPKCS7 (cbc_decrypt (aes_Decrypt key) (length encoded / aes_BlockSize)
                         (ep_IV params) encoded)
  end.

Definition encrypt (terminal : Terminal) (salt : string) (iterations : Z)
    (params : EncryptionParameters) (plain : bytes) : result string bytes :=
  let key := deriveKey terminal salt iterations params in
  if negb (aes_key_ok key) then Err "crypto/aes: invalid key size"
  else
    let padded := padPKCS7 plain aes_BlockSize in
    let ciphertext := cbc_encrypt (aes_Encrypt key) (length padded / aes_BlockSize)
                        (ep_IV params) padded in
    Ok (bytes_of (b64_EncodeToString ciphertext)).
End credentials.

(** ** Facts: PKCS#7 and encryption *)
Lemma length_padPKCS7 v :
  length (padPKCS7 v aes_BlockSize) = ((length v / aes_BlockSize + 1) * aes_BlockSize)%nat.
Proof.
  unfold padPKCS7. rewrite length_app, length_replicate.
  pose proof (Nat.div_mod_eq (length v) aes_BlockSize). unfold aes_BlockSize in *.
  pose proof (Nat.mod_upper_bound (length v) 16). lia.
Qed.

Lemma padding_bounds (v : bytes) :
  (1 <= aes_BlockSize - length v mod aes_BlockSize <= aes_BlockSize)%nat.
Proof. pose proof (Nat.mod_upper_bound (length v) aes_BlockSize). unfold aes_BlockSize in *. lia. Qed.

Lemma last_replicate_app {A} (l : list A) n x d : (0 < n)%nat -> List.last (l ++ replicate n x) d = x.
Proof.
  intros Hn. destruct n as [|n]; [lia|]. rewrite <- Nat.add_1_r, replicate_add, app_assoc. simpl.
  apply List.last_last.
Qed.

Lemma unpad_pad v : unpadPKCS7 (padPKCS7 v aes_BlockSize) = Ok v.
Proof.
  unfold unpadPKCS7. rewrite length_padPKCS7.
  rewrite Nat.Div0.mod_mul, Nat.eqb_refl.
  replace ((_ =? 0)%nat || negb true) with false
    by (symmetry; apply orb_false_iff; split; [apply Nat.eqb_neq; unfold aes_BlockSize; lia|done]).
  rewrite <- length_padPKCS7. unfold padPKCS7.
  pose proof (padding_bounds v) as Hb. set (p := (aes_BlockSize - length v mod aes_BlockSize)%nat) in *.
  assert (byte_val (byte_of (Z.of_nat p)) = Z.of_nat p) as Hval
    by (rewrite byte_val_of, Z.mod_small; unfold aes_BlockSize in *; lia).
  rewrite last_replicate_app, Hval, Nat2Z.id by lia. rewrite length_app, length_replicate.
  replace ((p <? 1) || (aes_BlockSize <? p) || (length v + p <? p))%nat with false
    by (symmetry; rewrite !orb_false_iff, !Nat.ltb_ge; lia).
  replace (length v + p - p)%nat with (length v) by lia.
  rewrite drop_app_length, take_app_length.
  rewrite (proj2 (forallb_forall _ _)); [done|].
  intros x Hx. apply Z.eqb_eq. rewrite <- Hval. f_equal. apply list_elem_of_In in Hx. by eapply elem_of_replicate_inv.
Qed.

(** Every value [unpadPKCS7] accepts is the padding of what it returns: no two
    padded forms are accepted for one plaintext. *)
Lemma pad_unpad v m : unpadPKCS7 v = Ok m -> padPKCS7 m aes_BlockSize = v.
Proof.
  unfold unpadPKCS7. case_match eqn:Hlen; [done|]. apply orb_false_iff in Hlen as [_ Hmod].
  apply negb_false_iff, Nat.eqb_eq in Hmod.
  set (p := Z.to_nat (byte_val (List.last v Ascii.zero))).
  case_match eqn:Hp; [done|]. case_match eqn:Hall; [|done]. intros [= <-].
  rewrite !orb_false_iff, !Nat.ltb_ge in Hp. destruct Hp as [[Hp1 Hp2] Hp3].
  assert (length (take (length v - p) v) = (length v - p)%nat) as Ht by (rewrite length_take; lia).
  assert ((length v - p) mod aes_BlockSize = (aes_BlockSize - p) mod aes_BlockSize)%nat as Hm.
  { apply Nat.Div0.div_exact in Hmod. set (q := (length v / aes_BlockSize)%nat) in *.
    assert (q <> O) by (intros Hq; rewrite Hq in Hmod; lia).
    replace (length v - p)%nat with (aes_BlockSize - p + (q - 1) * aes_BlockSize)%nat by (unfold aes_BlockSize in *; nia).
    apply Nat.Div0.mod_add. }
  unfold padPKCS7. rewrite Ht, Hm.
  replace (aes_BlockSize - (aes_BlockSize - p) mod aes_BlockSize)%nat with p
    by (rewrite Nat.mod_small; unfold aes_BlockSize in *; lia).
  etransitivity; [|apply (take_drop (length v - p) v)]. f_equal.
  rewrite forallb_forall in Hall. apply replicate_as_elem_of.
  split; [rewrite length_drop; lia|]. intros x Hx%list_elem_of_In%Hall. apply Z.eqb_eq in Hx.
  by rewrite <- Hx, byte_of_val.
Qed.

Section encryption_facts.
Context `{CryptoLaws}.

Lemma deriveKey_ok t salt it params : aes_key_ok (deriveKey t salt it params) = true.
Proof. unfold aes_key_ok, deriveKey. rewrite length_pbkdf2. by case_match. Qed.

(** C33: what the gateway encrypts for a terminal it can decrypt again, for every
    payload and every 16-byte initialization vector: key derivation, CBC, PKCS#7
    padding and Base64 invert each other. *)
Theorem payload_roundtrip t salt it params plain :
  length (ep_IV params) = aes_BlockSize ->
  exists body, encrypt t salt it params plain = Ok body /\ decrypt t salt it params body = Ok plain.
Proof.
  intros Hiv. unfold encrypt. rewrite deriveKey_ok. simpl. eexists. split; [done|].
  unfold decrypt. rewrite string_of_bytes_of, b64_roundtrip, deriveKey_ok. cbn [negb].
  set (key := deriveKey _ _ _ _). set (padded := padPKCS7 plain aes_BlockSize).
  pose proof (length_padPKCS7 plain) as Hlen. fold padded in Hlen.
  set (n := (length padded / aes_BlockSize)%nat).
  assert (length padded = (n * aes_BlockSize)%nat) as Hn.
  { unfold n. rewrite Hlen, Nat.div_mul; [done|unfold aes_BlockSize; lia]. }
  pose proof (deriveKey_ok t salt it params) as Hk. fold key in Hk.
  rewrite length_cbc_encrypt; [|by intros; apply length_aes_Encrypt|done|done].
  replace ((_ =? 0)%nat || _) with false; cycle 1.
  { symmetry. apply orb_false_iff. rewrite Hlen, Nat.Div0.mod_mul. split; [|done].
    apply Nat.eqb_neq. unfold aes_BlockSize. lia. }
  fold n. rewrite cbc_decrypt_encrypt; [apply unpad_pad| | |done|done].
  - by intros; apply length_aes_Encrypt.
  - by intros; apply aes_Decrypt_Encrypt.
Qed.
End encryption_facts.

(** The padding check is exact: a decrypted block sequence is accepted with message
    [m] exactly when it is the padding of [m]; no other trailer is tolerated. *)
Theorem padding_exact v m : unpadPKCS7 v = Ok m <-> v = padPKCS7 m aes_BlockSize.
Proof. split; [intros E; symmetry; by apply pad_unpad|intros ->; apply unpad_pad]. Qed.

Lemma ParseEncryptionParameters_spec security iv random v p :
  ParseEncryptionParameters security iv random v = Ok p ->
  security = itoa v /\ hex_DecodeString iv = Some (ep_IV p) /\ length (ep_IV p) = aes_BlockSize /\
  ep_Random p = random /\ String.length random = 16%nat /\ ep_SecurityVersion p = v.
Proof.
  unfold ParseEncryptionParameters. repeat case_match; try done. intros [= <-]. simpl.
  repeat match goal with
  | H : negb _ = false |- _ => apply negb_false_iff in H
  | H : bool_decide _ = true |- _ => apply bool_decide_eq_true in H
  end.
  split_and!; try done.
  - match goal with H : hex32 _ = true |- _ => apply class_exactly_spec in H as [Hl _] end.
    match goal with H : hex_DecodeString _ = Some _ |- _ => apply length_hex_decode in H end.
    rewrite length_bytes_of in *. unfold aes_BlockSize. lia.
  - rewrite <- length_bytes_of. unfold zlen in *. lia.
Qed.

(** ** Facts: random tokens *)

(** The bytes of [k] successive reads from read [i]. *)
Fixpoint reads (src : rand_source) (i k : nat) : option bytes :=
  match k with
  | O => Some []
  | S k' => b ← ReadFull src i 32; rest ← reads src (S i) k'; Some (b ++ rest)%list
  end.

Lemma alphabet_char_alnum b c : alphabet_char b = Some c -> is_alnum c = true.
Proof.
  revert b. cut (forall b, match alphabet_char b with Some c => is_alnum c | None => true end = true).
  { intros Hc b Hb. specialize (Hc b). by rewrite Hb in Hc. }
  apply byte_cases. by vm_compute.
Qed.

Lemma take_chars_spec length value input :
  (List.length value < length)%nat ->
  take_chars length value input = take length (value ++ omap alphabet_char input).
Proof.
  revert value. induction input as [|b input IH]; intros value Hv; simpl.
  { rewrite app_nil_r, take_ge; [done|lia]. }
  destruct (alphabet_char b) as [c|]; [|by apply IH].
  assert (value ++ c :: omap alphabet_char input = (value ++ [c]) ++ omap alphabet_char input)%list as Hcm
    by (by rewrite <- app_assoc).
  change (list_omap _ _ alphabet_char input) with (omap alphabet_char input). rewrite Hcm.
  destruct (_ =? _)%nat eqn:Heq.
  - apply Nat.eqb_eq in Heq. symmetry. by apply take_app_length'.
  - apply Nat.eqb_neq in Heq. apply IH. rewrite length_app in *. simpl in *. lia.
Qed.

(** Enough successful reads give the result: the first [length] accepted bytes. *)
Lemma random_loop_done fuel src i length value k input :
  (List.length value <= length)%nat -> (k <= fuel)%nat -> reads src i k = Some input ->
  (length <= List.length (value ++ omap alphabet_char input))%nat ->
  (random_loop fuel src i length value).1 =
  RDone (string_of (take length (value ++ omap alphabet_char input))).
Proof.
  revert fuel i value input. induction k as [|k IH]; intros fuel i value input Hv Hk Hr Hl; simplify_eq/=.
  - rewrite app_nil_r in *. rewrite take_ge by done.
    destruct fuel; simpl; by rewrite (proj2 (Nat.leb_le _ _)).
  - destruct fuel as [|fuel]; [lia|]. simpl.
    destruct (length <=? List.length value)%nat eqn:Hle.
    { apply Nat.leb_le in Hle. simpl. by rewrite take_app_le, take_ge by lia. }
    apply Nat.leb_gt in Hle. destruct (ReadFull src i 32) as [b|] eqn:Hb; simplify_eq/=.
    destruct (reads src (S i) k) as [rest|] eqn:Hrest; simplify_eq/=.
    rewrite omap_app, app_assoc in *. rewrite take_chars_spec by done.
    destruct (decide (List.length (value ++ omap alphabet_char b) <= length)%nat) as [Hs|Hs].
    + rewrite (take_ge (value ++ _)) by done. apply IH; [done|lia|done|done].
    + destruct fuel; simpl; rewrite length_take, (proj2 (Nat.leb_le _ _)) by lia; simpl;
        by rewrite (take_app_le (value ++ _)) by lia.
Qed.

(** Whatever the reads, a value it returns is alphanumeric and of the asked length. *)
Lemma random_loop_class fuel src i length value s :
  (List.length value <= length)%nat -> Forall (fun c => is_alnum c = true) value ->
  (random_loop fuel src i length value).1 = RDone s -> class_exactly is_alnum length s = true.
Proof.
  revert i value. induction fuel as [|fuel IH]; intros i value Hv Hc; simpl;
    destruct (length <=? List.length value)%nat eqn:Hle; simpl.
  1,3: intros [= <-]; apply class_exactly_spec; rewrite bytes_of_string_of;
       apply Nat.leb_le in Hle; split; [lia|done].
  { done. }
  destruct (ReadFull src i 32) as [b|]; [|done]. apply Nat.leb_gt in Hle.
  rewrite take_chars_spec by done. apply IH; [rewrite length_take; lia|].
  apply Forall_take, Forall_app. split; [done|].
  apply list.Forall_forall. intros c (b' & _ & Hb)%list_elem_of_omap. by eapply alphabet_char_alnum.
Qed.

Lemma randomAlphaNumeric_64 fuel src i s j :
  randomAlphaNumeric fuel src i 64 = (RDone s, j) -> alphaNumeric64 s = true.
Proof.
  intros Heq. apply (random_loop_class fuel src i 64 []); [simpl; lia|constructor|].
  unfold randomAlphaNumeric in Heq. by rewrite Heq.
Qed.

Lemma random_loop_fails fuel src i length value k :
  random_loop fuel src i length value = (RFail, k) -> exists j, src j = None.
Proof.
  revert i value. induction fuel as [|fuel IH]; intros i value; cbn [random_loop];
    destruct (length <=? List.length value)%nat; try done.
  unfold ReadFull. destruct (src i) as [f|] eqn:Hi; [|by eauto]. cbn [fmap option_fmap option_map]. apply IH.
Qed.

(** A source is productive when every successful read has an acceptable byte. *)
Definition productive (src : rand_source) : Prop :=
  forall i f, src i = Some f -> exists j, (j < 32)%nat /\ is_Some (alphabet_char (f j)).

Lemma productive_read src i b :
  productive src -> ReadFull src i 32 = Some b -> (1 <= length (omap alphabet_char b))%nat.
Proof.
  unfold ReadFull. intros Hp Hb. destruct (src i) as [f|] eqn:Hsrc; [|done].
  destruct (Hp i f Hsrc) as (j & Hj & [c Hc]). injection Hb as <-.
  assert (c ∈ omap alphabet_char (f <$> seq 0 32)) as Hin
    by (apply list_elem_of_omap; exists (f j); split; [apply list_elem_of_fmap_2, elem_of_seq; lia|done]).
  destruct (omap _ _) as [|? ?]; [by apply elem_of_nil in Hin|apply le_n_S; apply Nat.le_0_l].
Qed.

Lemma random_loop_terminates fuel src i length value :
  productive src -> (List.length value <= length)%nat -> (length <= List.length value + fuel)%nat ->
  (random_loop fuel src i length value).1 <> RFuel.
Proof.
  intros Hp. revert i value. induction fuel as [|fuel IH]; intros i value Hv Hf; cbn [random_loop];
    destruct (length <=? List.length value)%nat eqn:Hle; try done;
    apply Nat.leb_gt in Hle; [lia|].
  destruct (ReadFull src i 32) as [b|] eqn:Hb; [|done].
  pose proof (productive_read src i b Hp Hb).
  rewrite take_chars_spec by done. apply IH; rewrite length_take, length_app; lia.
Qed.

(** Every character of the alphabet is selected by exactly four byte values. *)
(** Tokens are not biased: of the 256 byte values, exactly four select each
    character of the alphabet. *)
Theorem alphabet_uniform c :
  c ∈ alphabet -> length (List.filter (fun b => bool_decide (alphabet_char b = Some c)) all_bytes) = 4%nat.
Proof.
  intros Hc. apply Nat.eqb_eq. revert c Hc. apply list.Forall_forall.
  assert (forallb (fun c => length (List.filter (fun b => bool_decide (alphabet_char b = Some c)) all_bytes) =? 4)%nat
            alphabet = true) as Hall by (by vm_compute).
  rewrite forallb_forall in Hall. apply list.Forall_forall. intros c Hc%list_elem_of_In. auto.
Qed.

(** A token is made of the random source alone and always arrives: with 64 reads
    allowed, each with at least one usable byte, the call does not run on; it fails
    only when a read fails, and a token it returns has 64 letters and digits. *)
Theorem random_token_arrives src i :
  productive src ->
  match (randomAlphaNumeric 64 src i 64).1 with
  | RDone s => alphaNumeric64 s = true
  | RFail => exists j, src j = None
  | RFuel => False
  end.
Proof.
  intros Hp. pose proof (random_loop_terminates 64 src i 64 [] Hp (Nat.le_0_l _) (Nat.le_refl _)) as Ht.
  unfold randomAlphaNumeric in *. destruct (random_loop 64 src i 64 []) as [[s| |] j] eqn:E; cbn [fst] in *; [| |done].
  - by eapply randomAlphaNumeric_64.
  - by eapply random_loop_fails.
Qed.

Lemma randomCustomChallenge_class src i s : randomCustomChallenge src i = Some s -> lowerHex64 s = true.
Proof.
  unfold randomCustomChallenge, ReadFull. destruct (src i); [|done]. intros [= <-].
  by apply (hex_EncodeToString_class _ 32).
Qed.

(** ** Facts: comparison and credentials *)
Lemma lor_zero a b : Z.lor a b = 0 <-> a = 0 /\ b = 0.
Proof. apply Z.lor_eq_0_iff. Qed.

Lemma xor_accumulate_zero left right :
  length left = length right -> (xor_accumulate left right = 0 <-> left = right).
Proof.
  unfold xor_accumulate. intros Hl.
  cut (forall v, foldl (fun v p => Z.lor v (Z.lxor (byte_val p.1) (byte_val p.2))) v (zip left right) = 0
       <-> v = 0 /\ left = right).
  { intros Hc. rewrite Hc. tauto. }
  revert right Hl. induction left as [|a left IH]; intros [|b right] Hl v; simplify_eq/=; [tauto|].
  rewrite IH, lor_zero, Z.lxor_eq_0_iff by done. split.
  - intros [[-> Hb] ->]. by rewrite (byte_val_inj _ _ Hb).
  - by intros [-> [= -> ->]].
Qed.

Lemma constantTimeEqual_eq left right : constantTimeEqual left right = bool_decide (left = right).
Proof.
  unfold constantTimeEqual. destruct (_ =? _) eqn:Hl; simpl.
  - apply Z.eqb_eq in Hl. unfold zlen in Hl.
    apply Bool.eq_true_iff_eq. rewrite Z.eqb_eq, bool_decide_eq_true, xor_accumulate_zero by lia.
    split; [apply bytes_of_inj|by intros ->].
  - symmetry. apply bool_decide_eq_false. intros ->. by rewrite Z.eqb_refl in Hl.
Qed.

(** The two messages [a] and [b] are not a collision of SHA-256. *)
Definition collision_free `{CryptoLib} (a b : string) : Prop :=
  sha256_Sum256 (bytes_of a) = sha256_Sum256 (bytes_of b) -> a = b.

Lemma length_append s t : String.length (s +:+ t) = (String.length s + String.length t)%nat.
Proof. by rewrite <- !length_bytes_of, bytes_of_app, length_app. Qed.

Lemma append_inj_r s t u : s +:+ t = s +:+ u -> t = u.
Proof. intros He. apply bytes_of_inj, (app_inv_head (bytes_of s)). by rewrite <- !bytes_of_app, He. Qed.

(** A [My-Custom-Auth] value answers one challenge only. *)
Lemma expectedCustomAuth_inj `{CryptoLib} t salt c c' :
  collision_free (passwordHash t salt +:+ c) (passwordHash t salt +:+ c') ->
  expectedCustomAuth t salt c = expectedCustomAuth t salt c' -> c = c'.
Proof.
  unfold expectedCustomAuth. intros Hcf He%hex_EncodeToString_inj%Hcf. by apply append_inj_r in He.
Qed.
