(* ===== verification/StoreTypes.v ===== *)
(** The values that cross the store's interface: gateway activity records
    (internal/activity) and the records of internal/store that the protocol
    service reads and writes. *)

From Stdlib Require Import ZArith Lia Ascii String.
From stdpp Require Import base gmap strings list option.
From S2P Require Import Prelude.

Local Open Scope string_scope.
Local Open Scope Z_scope.

(** ** internal/activity *)
Module activity.
Definition KindAdminISAPICommandQueued := "admin.isapi_command_queued".
Definition KindAdminAccessEventSyncQueued := "admin.access_event_sync_queued".
Definition KindAdminLogin := "admin.login".
Definition KindAdminLogout := "admin.logout".
Definition KindPushSDKAuthInfo := "pushsdk.auth_info".
Definition KindPushSDKLogin := "pushsdk.login".
Definition KindPushSDKLogout := "pushsdk.logout".
Definition KindPushSDKSessionResumed := "pushsdk.session_resumed".
Definition KindPushSDKSessionIdle := "pushsdk.session_idle".
Definition KindPushSDKSessionExpired := "pushsdk.session_expired".
Definition KindPushSDKRejected := "pushsdk.rejected".
Definition KindPushSDKCommandSent := "pushsdk.command_sent".
Definition KindPushSDKCommandCompleted := "pushsdk.command_completed".
Definition KindPushSDKCommandExpired := "pushsdk.command_expired".
Definition KindDeviceEventPersisted := "device.event_persisted".
Definition KindDeviceEventDuplicate := "device.event_duplicate".
Definition KindDeviceAccessEventSyncStarted := "device.access_event_sync_started".
Definition KindDeviceAccessEventSyncPageCaptured := "device.access_event_sync_page_captured".
Definition KindDeviceAccessEventSyncCompleted := "device.access_event_sync_completed".
Definition KindDeviceAccessEventSyncFailed := "device.access_event_sync_failed".

(** A value of the [map[string]any] of an event. *)
Inductive Value :=
| VString (s : string)
| VInt (n : Z)
| VBool (b : bool).

#[export] Instance Value_eq_dec : EqDecision Value.
Proof. solve_decision. Defined.

Record Event := mkEvent {
  ID : Z;
  At : time;
  Kind : string;
  Terminal : string;
  Message : string;
  Fields : gmap string Value
}.

#[export] Instance Event_eq_dec : EqDecision Event.
Proof. solve_decision. Defined.

(** The literal [activity.Event{Kind: .., Terminal: .., Message: .., Fields: ..}]. *)
Definition event (kind terminal message : string) (fields : gmap string Value) : Event :=
  mkEvent 0 0 kind terminal message fields.
End activity.

(** ** internal/store *)

(** The protocol state of one terminal as it is checkpointed. *)
Record PushSDKSession := mkPushSDKSession {
  ps_TerminalSerialNumber : string;
  ps_ConfigurationFingerprint : string;
  ps_PayloadMode : string;
  ps_Salt : string;
  ps_LoginChallenge : string;
  ps_NextChallenge : string;
  ps_Iterations : Z;
  ps_CreatedAt : time;
  ps_NextChallengeAt : option time;
  ps_Authenticated : bool
}.

#[export] Instance PushSDKSession_eq_dec : EqDecision PushSDKSession.
Proof. solve_decision. Defined.

(** PostgreSQL keeps microseconds: a stored instant loses what is below them. *)
Definition to_micros (t : time) : time := t / 1000 * 1000.

Definition checkpointed (s : PushSDKSession) : PushSDKSession :=
  mkPushSDKSession (ps_TerminalSerialNumber s) (ps_ConfigurationFingerprint s) (ps_PayloadMode s)
    (ps_Salt s) (ps_LoginChallenge s) (ps_NextChallenge s) (ps_Iterations s)
    (to_micros (ps_CreatedAt s)) (to_micros <$> ps_NextChallengeAt s) (ps_Authenticated s).

Record NewDeviceEvent := {
  nde_TerminalSerialNumber : string;
  nde_VendorEventID : string;
  nde_DataFormat : string;
  nde_PayloadBase64 : string
}.

Record DeviceEventPersistence := {
  dep_Inserted : bool;
  dep_Activity : activity.Event
}.

(** The request selected for a terminal's next CommandRequest response. *)
Record ISAPICommandDelivery := {
  icd_UUID : string;
  icd_Method : string;
  icd_URL : string;
  icd_DataFormat : string;
  icd_Data : bytes
}.

(** The data value supplied in a CommandResult item. *)
Record ISAPICommandResult := {
  icr_UUID : string;
  icr_DataFormat : option string;
  icr_DataBase64 : string
}.

(** Errors of the store: sentinel errors keep their identity for [errors.Is]. *)
Inductive store_error :=
| ErrDatabase                      (* a failed statement, connection or commit *)
| ErrNoRows                        (* pgx.ErrNoRows *)
| ErrSentinel (name : string)      (* an exported Err... variable *)
| ErrText (message : string).      (* errors.New / fmt.Errorf *)

#[export] Instance store_error_eq_dec : EqDecision store_error.
Proof. solve_decision. Defined.
