(* ===== verification/Hub.v ===== *)
(** internal/monitor/hub.go: the broadcast of committed activities to the browsers.

    A channel is a cell with a buffer of 64 payloads and a closed flag; the hub keeps
    the set of channels it sends to.  [step] interleaves publications, subscriptions,
    calls of the unsubscribe functions and receives in any order: the code takes the
    hub's lock around each of the first three. *)

From Stdlib Require Import ZArith Lia Ascii String.
From stdpp Require Import base gmap strings list option relations sorting.
From S2P Require Import Prelude GoText GoTime GoJSON StoreTypes.

Local Open Scope string_scope.
Local Open Scope Z_scope.

Module Hub.
(** ** Payloads *)
Definition value_json (v : activity.Value) : jout :=
  match v with
  | activity.VString s => OString s
  | activity.VInt n => OInt n
  | activity.VBool b => OBool b
  end.

#[export] Instance key_decision (a b : string * activity.Value) : Decision (String.leb a.1 b.1 = true).
Proof. apply bool_eq_dec. Defined.

(** [json.Marshal(event)]: the keys of the fields are sorted. *)
Definition event_json (zone : time -> Z) (e : activity.Event) : jout :=
  let fields := merge_sort (fun a b : string * activity.Value => String.leb a.1 b.1 = true)
                  (map_to_list (activity.Fields e)) in
  OObject ((if activity.ID e =? 0 then [] else [("id", OInt (activity.ID e))])
    ++ [("at", OString (Format_RFC3339Nano (mkTime (activity.At e) (zone (activity.At e)))));
        ("kind", OString (activity.Kind e))]
    ++ (if bool_decide (activity.Terminal e = "") then [] else [("terminal", OString (activity.Terminal e))])
    ++ [("message", OString (activity.Message e))]
    ++ (if bool_decide (fields = []) then []
        else [("fields", OObject ((fun f => (f.1, value_json f.2)) <$> fields))]))%list.

(** [json.Marshal] refuses an instant without RFC 3339 text. *)
Definition payload (zone : time -> Z) (e : activity.Event) : option bytes :=
  if MarshalJSON_ok (mkTime (activity.At e) (zone (activity.At e))) then Some (json_Marshal (event_json zone e)) else None.

(** ** State *)
Definition capacity : nat := 64.

Record Channel := mkChannel { ch_buffer : list bytes; ch_closed : bool }.

Record t := mkHub {
  clients : gset nat;              (* the keys of [Hub.clients] *)
  channels : gmap nat Channel;     (* every channel made so far *)
  used : gset nat                  (* the unsubscribe functions whose [once] has run *)
}.

Definition NewHub : t := mkHub ∅ ∅ ∅.

(** ** Operations *)

(** [select { case client <- payload: default: }]; a send on a closed channel panics. *)
Definition offer (p : bytes) (ch : Channel) : option Channel :=
  if ch_closed ch then None
  else if (length (ch_buffer ch) <? capacity)%nat then Some (mkChannel (ch_buffer ch ++ [p]) false)
  else Some ch.

(** Sends to one client after another; [None] is a panic. *)
Fixpoint offer_all (p : bytes) (l : list nat) (chs : gmap nat Channel) : option (gmap nat Channel) :=
  match l with
  | [] => Some chs
  | i :: l' => match chs !! i with
               | Some ch => ch' ← offer p ch; offer_all p l' (<[i := ch']> chs)
               | None => None
               end
  end.

Definition broadcast (p : bytes) (h : t) : option t :=
  chs ← offer_all p (elements (clients h)) (channels h);
  Some (mkHub (clients h) chs (used h)).

Definition Publish (zone : time -> Z) (e : activity.Event) (h : t) : option t :=
  match payload zone e with
  | None => Some h
  | Some p => broadcast p h
  end.

(** The new channel stands for its receive end and for its unsubscribe function. *)
Definition Subscribe (h : t) : nat * t :=
  let i := fresh (dom (channels h)) in
  (i, mkHub ({[i]} ∪ clients h) (<[i := mkChannel [] false]> (channels h)) (used h)).

Definition unsubscribe (i : nat) (h : t) : t :=
  if bool_decide (i ∈ used h) then h
  else mkHub (clients h ∖ {[i]}) (alter (fun ch => mkChannel (ch_buffer ch) true) i (channels h)) ({[i]} ∪ used h).

(** A receive that does not block: the oldest payload of the buffer. *)
Definition receive (i : nat) (h : t) : option (bytes * t) :=
  ch ← channels h !! i;
  match ch_buffer ch with
  | [] => None
  | p :: rest => Some (p, mkHub (clients h) (<[i := mkChannel rest (ch_closed ch)]> (channels h)) (used h))
  end.

(** ** Runs *)
Inductive op :=
| Published (p : bytes)
| Withheld                         (* [Publish] of an activity that has no JSON text *)
| Subscribed (i : nat)
| Unsubscribed (i : nat)
| Received (i : nat) (p : bytes).

Inductive step (zone : time -> Z) : t -> op -> t -> Prop :=
| step_publish e p h h' : payload zone e = Some p -> Publish zone e h = Some h' -> step zone h (Published p) h'
| step_withheld e h h' : payload zone e = None -> Publish zone e h = Some h' -> step zone h Withheld h'
| step_subscribe i h h' : Subscribe h = (i, h') -> step zone h (Subscribed i) h'
| step_unsubscribe i h : is_Some (channels h !! i) -> step zone h (Unsubscribed i) (unsubscribe i h)
| step_receive i p h h' : receive i h = Some (p, h') -> step zone h (Received i p) h'.

Inductive steps (zone : time -> Z) : t -> list op -> t -> Prop :=
| steps_nil h : steps zone h [] h
| steps_cons h o h1 ops h2 : step zone h o h1 -> steps zone h1 ops h2 -> steps zone h (o :: ops) h2.

(** What was published, and what a subscriber took, in the order of the run. *)
Definition published (ops : list op) : list bytes := omap (fun o => match o with Published p => Some p | _ => None end) ops.
Definition taken (i : nat) (ops : list op) : list bytes :=
  omap (fun o => match o with Received j p => if bool_decide (j = i) then Some p else None | _ => None end) ops.

(** ** The hub never sends on a closed channel *)
Definition wf (h : t) : Prop :=
  (forall i, i ∈ clients h -> exists ch, channels h !! i = Some ch /\ ch_closed ch = false) /\
  (forall i ch, channels h !! i = Some ch -> (length (ch_buffer ch) <= capacity)%nat) /\
  (forall i, i ∈ clients h -> i ∉ used h) /\ used h ⊆ dom (channels h).

Lemma wf_New : wf NewHub.
Proof. split_and!; set_solver. Qed.

Definition pushed (p : bytes) (ch : Channel) : Channel :=
  if (length (ch_buffer ch) <? capacity)%nat then mkChannel (ch_buffer ch ++ [p]) false else ch.

(** A publication reaches every client once and no other channel. *)
Lemma offer_all_spec p l chs :
  NoDup l -> (forall i, i ∈ l -> exists ch, chs !! i = Some ch /\ ch_closed ch = false) ->
  exists chs', offer_all p l chs = Some chs' /\
    forall j, chs' !! j = if bool_decide (j ∈ l) then pushed p <$> chs !! j else chs !! j.
Proof.
  revert chs. induction l as [|i l IH]; intros chs Hnd Hopen; simpl.
  { exists chs. done. }
  apply NoDup_cons in Hnd as [Hi Hnd]. destruct (Hopen i) as (ch & Hch & Hc); [set_solver|]. rewrite Hch.
  assert (offer p ch = Some (pushed p ch)) as ->.
  { unfold offer, pushed. rewrite Hc. by destruct (_ <? _)%nat. }
  simpl. destruct (IH (<[i := pushed p ch]> chs) Hnd) as (chs' & E & Hspec).
  { intros j Hj. destruct (Hopen j) as (ch' & Hch' & Hc'); [set_solver|]. exists ch'.
    rewrite lookup_insert_ne by set_solver. done. }
  exists chs'. split; [done|]. intros j. rewrite Hspec. destruct (decide (j = i)) as [->|Hne].
  - rewrite (bool_decide_false (i ∈ l)), (bool_decide_true (i ∈ i :: l)), lookup_insert_eq, Hch by set_solver. done.
  - rewrite lookup_insert_ne by done. rewrite (bool_decide_ext (j ∈ l) (j ∈ i :: l)); [done|set_solver].
Qed.

Lemma broadcast_spec p h :
  wf h -> exists h', broadcast p h = Some h' /\ clients h' = clients h /\ used h' = used h /\
    forall j, channels h' !! j = if bool_decide (j ∈ clients h) then pushed p <$> channels h !! j
                                 else channels h !! j.
Proof.
  intros (Hopen & _ & _). unfold broadcast.
  destruct (offer_all_spec p (elements (clients h)) (channels h)) as (chs' & -> & Hspec).
  - apply NoDup_elements.
  - intros i Hi%elem_of_elements. eauto.
  - eexists. split; [done|]. split_and!; [done..|]. intros j. simpl. rewrite Hspec.
    by rewrite (bool_decide_ext (j ∈ elements (clients h)) (j ∈ clients h)) by apply elem_of_elements.
Qed.

Lemma Publish_channels zone e p h h' j :
  wf h -> payload zone e = Some p -> Publish zone e h = Some h' ->
  channels h' !! j = if bool_decide (j ∈ clients h) then pushed p <$> channels h !! j
                     else channels h !! j.
Proof.
  intros Hwf Hp E. unfold Publish in E. rewrite Hp in E.
  destruct (broadcast_spec p h Hwf) as (h1 & E1 & _ & _ & Hch). rewrite E in E1. by injection E1 as <-.
Qed.

Lemma Publish_withheld zone e h h' : payload zone e = None -> Publish zone e h = Some h' -> h' = h.
Proof. unfold Publish. intros ->. by intros [= <-]. Qed.

Lemma Publish_total zone e h : wf h -> exists h', Publish zone e h = Some h'.
Proof.
  intros Hwf. unfold Publish. destruct (payload zone e) as [p|]; [|eauto].
  destruct (broadcast_spec p h Hwf) as (h' & E & _). eauto.
Qed.

Lemma wf_publish zone e h h' : wf h -> Publish zone e h = Some h' -> wf h'.
Proof.
  intros Hwf E. pose proof Hwf as (W1 & W2 & W3 & W4). unfold Publish in E.
  destruct (payload zone e) as [p|]; [|by injection E as <-].
  destruct (broadcast_spec p h Hwf) as (h1 & E1 & Hc & Hu & Hch). rewrite E in E1. injection E1 as <-.
  split_and!.
  - intros i. rewrite Hc. intros Hi. destruct (W1 i Hi) as (ch & Hl & Hcl).
    rewrite Hch, bool_decide_true, Hl by done. simpl. eexists. split; [done|]. unfold pushed. by case_match.
  - intros i ch. rewrite Hch. case_bool_decide; [|eauto]. intros (ch0 & Hl & ->)%fmap_Some. unfold pushed.
    destruct (_ <? _)%nat eqn:El; [|eauto]. simpl. rewrite length_app. apply Nat.ltb_lt in El. simpl. lia.
  - intros i. rewrite Hc, Hu. auto.
  - rewrite Hu. intros i Hi. apply W4 in Hi. rewrite elem_of_dom in Hi |- *. rewrite Hch.
    case_bool_decide; [by apply fmap_is_Some|done].
Qed.

Lemma wf_subscribe h : wf h -> wf (Subscribe h).2.
Proof.
  intros (W1 & W2 & W3 & W4). unfold Subscribe. simpl. set (i := fresh (dom (channels h))).
  assert (Hi : channels h !! i = None) by (apply not_elem_of_dom, is_fresh).
  assert (Hd : i ∉ dom (channels h)) by apply is_fresh. split_and!; simpl.
  - intros j [->%elem_of_singleton|Hj]%elem_of_union; [exists (mkChannel [] false); by rewrite lookup_insert_eq|].
    destruct (W1 j Hj) as (ch & Hl & Hcl). exists ch. rewrite lookup_insert_ne by congruence. done.
  - intros j ch [[<- <-]|[_ Hl]]%lookup_insert_Some; [simpl; lia|eauto].
  - set_solver.
  - rewrite dom_insert. set_solver.
Qed.

Lemma wf_unsubscribe i h : wf h -> is_Some (channels h !! i) -> wf (unsubscribe i h).
Proof.
  intros (W1 & W2 & W3 & W4) Hi. unfold unsubscribe. case_bool_decide; [done|]. split_and!; simpl.
  - intros j [Hj Hne]%elem_of_difference. destruct (W1 j Hj) as (ch & Hl & Hcl). exists ch.
    rewrite lookup_alter_ne by set_solver. done.
  - intros j ch Hl. apply lookup_alter_Some in Hl as [(-> & ch0 & Hl & ->)|[_ Hl]]; simpl; eauto.
  - set_solver.
  - rewrite dom_alter. apply elem_of_dom in Hi. set_solver.
Qed.

Lemma wf_receive i p h h' : wf h -> receive i h = Some (p, h') -> wf h'.
Proof.
  intros (W1 & W2 & W3 & W4) E. unfold receive in E. apply bind_Some in E as (ch & Hl & E).
  destruct (ch_buffer ch) as [|q rest] eqn:Hb; [done|]. injection E as <- <-. split_and!; simpl.
  - intros j Hj. destruct (W1 j Hj) as (ch' & Hl' & Hcl). destruct (decide (j = i)) as [->|Hne].
    + rewrite lookup_insert_eq. eexists. split; [done|]. simpl. congruence.
    + rewrite lookup_insert_ne by done. eauto.
  - intros j ch' [[<- <-]|[_ Hl']]%lookup_insert_Some; [|eauto]. simpl. specialize (W2 i ch Hl).
    rewrite Hb in W2. simpl in W2. lia.
  - done.
  - rewrite dom_insert. set_solver.
Qed.

Lemma wf_step zone h o h' : wf h -> step zone h o h' -> wf h'.
Proof.
  intros Hwf. destruct 1 as [e p h h' Hp E|e h h' Hp E|i h h' E|i h Hi|i p h h' E].
  - by eapply wf_publish.
  - by eapply wf_publish.
  - pose proof (wf_subscribe h Hwf) as H. by rewrite E in H.
  - by apply wf_unsubscribe.
  - by eapply wf_receive.
Qed.

(** ** What a subscriber gets *)
Definition buffered (i : nat) (h : t) : list bytes := from_option ch_buffer [] (channels h !! i).

(** One step, seen by a subscriber: what it took and what waits for it afterwards. *)
Lemma step_buffered zone h o h' i :
  wf h -> is_Some (channels h !! i) -> step zone h o h' ->
  is_Some (channels h' !! i) /\
  match o with
  | Published p => buffered i h' = buffered i h \/ buffered i h' = (buffered i h ++ [p])%list
  | Received j p => if bool_decide (j = i) then buffered i h = p :: buffered i h' else buffered i h' = buffered i h
  | _ => buffered i h' = buffered i h
  end.
Proof.
  intros Hwf [ch Hch]. unfold buffered. destruct 1 as [e p h h' Hp E|e h h' Hp E|j h h' E|j h Hj|j p h h' E].
  - rewrite (Publish_channels _ _ _ _ _ i Hwf Hp E), Hch. case_bool_decide; simpl; [|eauto]. split; [eauto|].
    unfold pushed. case_match; simpl; auto.
  - apply Publish_withheld in E as ->; [|done]. rewrite Hch. eauto.
  - injection E as <- <-. simpl. rewrite lookup_insert_ne, Hch; [eauto|].
    intros Heq. assert (Hf : fresh (dom (channels h)) ∉ dom (channels h)) by apply is_fresh.
    rewrite Heq in Hf. by apply Hf, elem_of_dom.
  - unfold unsubscribe. case_bool_decide; [rewrite Hch; eauto|]. simpl. destruct (decide (j = i)) as [->|Hne].
    + rewrite lookup_alter_eq, Hch. simpl. eauto.
    + rewrite lookup_alter_ne, Hch by done. eauto.
  - unfold receive in E. apply bind_Some in E as (ch' & Hl & E). destruct (ch_buffer ch') as [|q rest] eqn:Hb; [done|].
    injection E as <- <-. simpl. case_bool_decide as Hj.
    + subst j. rewrite lookup_insert_eq, Hl. simpl. split; [eauto|done].
    + rewrite lookup_insert_ne, Hch by done. eauto.
Qed.

(** A browser sees activities in order and never twice.  Whatever publications,
    subscriptions, sign-offs and receives interleave, publishing never blocks and never
    panics, and what a subscriber has taken since some moment, together with what still
    waits for it, is what waited then followed by a subsequence of what was published
    meanwhile, in the order of publication. *)
Theorem subscriber_order zone h ops h' i :
  wf h -> is_Some (channels h !! i) -> steps zone h ops h' ->
  (forall e, exists h2, Publish zone e h' = Some h2) /\
  exists seen, seen `sublist_of` published ops /\
    (taken i ops ++ buffered i h')%list = (buffered i h ++ seen)%list.
Proof.
  intros Hwf Hi Hsteps. induction Hsteps as [h|h o h1 ops h2 Hstep _ IH].
  { split; [intros e; by apply Publish_total|].
    exists []. by rewrite app_nil_r. }
  pose proof (wf_step _ _ _ _ Hwf Hstep) as Hwf1. destruct (step_buffered _ _ _ _ i Hwf Hi Hstep) as [Hi1 Hb].
  destruct (IH Hwf1 Hi1) as (Hp & seen & Hsub & Heq). split; [done|].
  destruct o as [p| |j|j|j p]; simpl.
  - destruct Hb as [Hb|Hb]; rewrite Hb in Heq.
    + exists seen. split; [by apply sublist_cons|done].
    + exists (p :: seen). split; [by apply sublist_skip|]. by rewrite Heq, <- app_assoc.
  - exists seen. by rewrite <- Hb.
  - exists seen. by rewrite <- Hb.
  - exists seen. by rewrite <- Hb.
  - exists seen. split; [done|]. case_bool_decide; simpl; [rewrite Hb; simpl; by f_equal|by rewrite <- Hb].
Qed.

(** A history during which a client stays subscribed and its buffer has room. *)
Inductive keeps_up (zone : time -> Z) (i : nat) : t -> list op -> t -> Prop :=
| up_nil h : keeps_up zone i h [] h
| up_cons h o h1 ops h2 : i ∈ clients h -> (length (buffered i h) < capacity)%nat ->
    step zone h o h1 -> keeps_up zone i h1 ops h2 -> keeps_up zone i h (o :: ops) h2.

(** A browser that keeps up misses nothing: while it stays subscribed and its buffer is
    never full, what it has taken and what waits in its buffer is everything that was
    published since, in order and without repetition. *)
Theorem keeping_up_is_lossless zone h ops h' i :
  wf h -> keeps_up zone i h ops h' -> (taken i ops ++ buffered i h')%list = (buffered i h ++ published ops)%list.
Proof.
  intros Hwf. induction 1 as [h|h o h1 ops h2 Hc Hlen Hstep _ IH]; [by rewrite app_nil_r|].
  assert (Hi : is_Some (channels h !! i)) by (destruct Hwf as (W1 & _); destruct (W1 i Hc) as (ch & Hch & _); eauto).
  pose proof (wf_step _ _ _ _ Hwf Hstep) as Hwf1. destruct (step_buffered _ _ _ _ i Hwf Hi Hstep) as [Hi1 Hb].
  specialize (IH Hwf1). destruct Hstep as [e p h h1 Hp E|e h h1 Hp E|j h h1 E|j h Hj|j p h h1 E]; simpl.
  - rewrite IH. destruct Hi as [ch Hch]. unfold buffered in Hlen |- *.
    rewrite (Publish_channels _ _ _ _ _ i Hwf Hp E), bool_decide_true, Hch by done. rewrite Hch in Hlen. simpl in *.
    unfold pushed. rewrite (proj2 (Nat.ltb_lt _ _) Hlen). simpl. by rewrite <- app_assoc.
  - by rewrite IH, Hb.
  - by rewrite IH, Hb.
  - by rewrite IH, Hb.
  - case_bool_decide; simpl; [rewrite IH, Hb; done|by rewrite IH, Hb].
Qed.
End Hub.
