(* ===== verification/Wire.v ===== *)
(** internal/pushsdk/events.go and commands.go: protocol errors and the parsers
    of the Event and CommandResult envelopes.

    Messages that wrap a standard-library error keep their format string; the
    wording of the wrapped error is not modelled. *)

From Stdlib Require Import ZArith Lia Ascii String.
From stdpp Require Import base gmap strings list option.
From S2P Require Import Prelude GoText GoJSON GoHTTP StoreTypes.

Local Open Scope string_scope.
Local Open Scope Z_scope.

(** ** Protocol errors *)
Record ProtocolError := mkProtocolError {
  Status : Z;
  Code : string;
  Message : string;
  Reason : string
}.

Definition badRequest (message : string) : ProtocolError := mkProtocolError 400 "" message "".
Definition unprocessable (message : string) : ProtocolError := mkProtocolError 422 "" message "".

Definition invalidSessionCode : string := "0x0020000f".
Definition invalidSessionMessage : string := "Invalid SessionID.".
Definition invalidSession (reason : string) : ProtocolError :=
  mkProtocolError 401 invalidSessionCode invalidSessionMessage reason.

(** ** Event batches *)

(** [^[A-Za-z0-9._:-]{1,64}$] *)
Definition vendorEventID (s : string) : bool :=
  class_between (fun c => is_alnum c || bool_decide (c ∈ bytes_of "._:-")) 1 64 s.

Definition supportedDataFormat (format : string) : bool :=
  bool_decide (format = "jsonData") || bool_decide (format = "xmlData")
  || bool_decide (format = "boundaryData") || bool_decide (format = "noData").

Record ParsedEvent := {
  pe_UUID : string;
  pe_Format : string;
  pe_Record : NewDeviceEvent
}.

Record eventItem := mkEventItem {
  ei_UUID : string;
  ei_DataFormat : string;
  ei_Data : option string
}.
Definition zero_eventItem : eventItem := mkEventItem "" "" None.

Definition eventItem_fields : list (field eventItem) :=
  [ fld "UUID" ei_UUID (fun i v => mkEventItem v (ei_DataFormat i) (ei_Data i)) decode_string;
    fld "dataFormat" ei_DataFormat (fun i v => mkEventItem (ei_UUID i) v (ei_Data i)) decode_string;
    fld "data" ei_Data (fun i v => mkEventItem (ei_UUID i) (ei_DataFormat i) v)
      (decode_ptr "" decode_string) ].

Record eventEnvelope := mkEventEnvelope {
  ee_EventNum : option Z;
  ee_EventList : option (slice eventItem)
}.
Definition zero_eventEnvelope : eventEnvelope := mkEventEnvelope None None.

Definition eventEnvelope_fields : list (field eventEnvelope) :=
  [ fld "eventNum" ee_EventNum (fun e v => mkEventEnvelope v (ee_EventList e)) (decode_ptr 0 decode_int);
    fld "eventList" ee_EventList (fun e v => mkEventEnvelope (ee_EventNum e) v)
      (decode_ptr nil_slice (decode_slice zero_eventItem
         (fun i e => decode_struct true eventItem_fields i e.2))) ].

(** The body of the loop of [ParseEventBatch]: the accumulator is the set [seen]
    and the slice [parsed]. *)
Definition parse_event (terminalSerial : string) (acc : gset string * list ParsedEvent)
    (item : eventItem) : result ProtocolError (gset string * list ParsedEvent) :=
  let '(seen, parsed) := acc in
  let uuid := ei_UUID item in
  if negb (vendorEventID uuid) then Err (badRequest "event UUID is invalid")
  else if bool_decide (uuid ∈ seen) then Err (badRequest "eventList contains a duplicate UUID")
  else if negb (supportedDataFormat (ei_DataFormat item)) then
    Err (badRequest ("event " +:+ uuid +:+ " has an unsupported dataFormat"))
  else match ei_Data item with
  | None => Err (badRequest ("event " +:+ uuid +:+ " has no data"))
  | Some data =>
      if negb (bool_decide (is_Some (b64_DecodeString data))) then
        Err (badRequest ("event " +:+ uuid +:+ " data is not base64: %v"))
      else if bool_decide (ei_DataFormat item = "noData") && negb (bool_decide (data = "")) then
        Err (badRequest ("event " +:+ uuid +:+ " noData payload must be empty"))
      else
        Ok ({[uuid]} ∪ seen,
            (parsed ++ [{| pe_UUID := uuid;
                          pe_Format := ei_DataFormat item;
                          pe_Record := {| nde_TerminalSerialNumber := terminalSerial;
                                          nde_VendorEventID := uuid;
                                          nde_DataFormat := ei_DataFormat item;
                                          nde_PayloadBase64 := data |} |}])%list)
  end.

(** The checks of [ParseEventBatch] after the envelope is decoded. *)
Definition check_event_envelope (terminalSerial : string) (envelope : eventEnvelope)
    : result ProtocolError (list ParsedEvent) :=
  match ee_EventNum envelope, ee_EventList envelope with
  | Some num, Some items =>
      if (num <? 0) || (20 <? num) then Err (badRequest "eventNum must be between 0 and 20")
      else if negb (zlen (elems items) =? num) then
        Err (badRequest "eventNum must equal eventList length")
      else acc ← foldR (parse_event terminalSerial) (elems items) (∅, []); Ok (acc.2)
  | _, _ => Err (badRequest "event envelope must contain eventNum and eventList")
  end.

Definition ParseEventBatch (terminalSerial : string) (body : bytes)
    : result ProtocolError (list ParsedEvent) :=
  match Scan.first_value body with
  | Scan.POk j rest =>
      match decode_struct true eventEnvelope_fields zero_eventEnvelope j with
      | None => Err (badRequest "event envelope is not valid JSON: %v")
      | Some envelope =>
          match Scan.skip_ws rest with
          | [] => check_event_envelope terminalSerial envelope
          | _ => Err (badRequest "event envelope contains a trailing JSON value")
          end
      end
  | _ => Err (badRequest "event envelope is not valid JSON: %v")
  end.

(** ** Command results *)

(** [^[0-9a-f]{8}-[0-9a-f]{4}-[0-9a-f]{4}-[0-9a-f]{4}-[0-9a-f]{12}$] *)
Definition commandUUID (s : string) : bool :=
  match strings_Split s "-"%char with
  | [a; b; c; d; e] =>
      class_exactly is_lower_hex 8 a && class_exactly is_lower_hex 4 b
      && class_exactly is_lower_hex 4 c && class_exactly is_lower_hex 4 d
      && class_exactly is_lower_hex 12 e
  | _ => false
  end.

Record commandResultItem := mkCommandResultItem {
  ci_UUID : string;
  ci_DataFormat : option bytes;    (* json.RawMessage, nil when the member is absent *)
  ci_Data : option string
}.
Definition zero_commandResultItem : commandResultItem := mkCommandResultItem "" None None.

Definition commandResultItem_fields : list (field commandResultItem) :=
  [ fld "UUID" ci_UUID (fun i v => mkCommandResultItem v (ci_DataFormat i) (ci_Data i)) decode_string;
    ("dataFormat", fun i e => v ← decode_raw (ci_DataFormat i) e;
                              Some (mkCommandResultItem (ci_UUID i) v (ci_Data i)));
    fld "data" ci_Data (fun i v => mkCommandResultItem (ci_UUID i) (ci_DataFormat i) v)
      (decode_ptr "" decode_string) ].

Record commandResultEnvelope := mkCommandResultEnvelope {
  ce_CommandNum : option Z;
  ce_CommandList : option (slice commandResultItem)
}.
Definition zero_commandResultEnvelope : commandResultEnvelope := mkCommandResultEnvelope None None.

Definition commandResultEnvelope_fields : list (field commandResultEnvelope) :=
  [ fld "commandNum" ce_CommandNum (fun e v => mkCommandResultEnvelope v (ce_CommandList e))
      (decode_ptr 0 decode_int);
    fld "commandList" ce_CommandList (fun e v => mkCommandResultEnvelope (ce_CommandNum e) v)
      (decode_ptr nil_slice (decode_slice zero_commandResultItem
         (fun i e => decode_struct true commandResultItem_fields i e.2))) ].

(** [decodeExactJSON] *)
Definition decodeExactJSON {A} (d : decoder A) (zero : A) (body : bytes) : option A :=
  decode_exact d zero body.

(** The declared format of a result item: absent, or a supported string. *)
Definition declared_format (uuid : string) (raw : option bytes) (data : string)
    : result ProtocolError (option string) :=
  match raw with
  | None => Ok None
  | Some source =>
      if bool_decide (Mime.trim_space source = bytes_of "null") then
        Err (badRequest ("command result " +:+ uuid +:+ " dataFormat must be a string when present"))
      else match parse_document source ≫= decode_string "" with
      | None => Err (badRequest ("command result " +:+ uuid +:+ " dataFormat must be a string when present"))
      | Some format =>
          if negb (supportedDataFormat format) then
            Err (badRequest ("command result " +:+ uuid +:+ " has an unsupported dataFormat"))
          else if bool_decide (format = "noData") && negb (bool_decide (data = "")) then
            Err (badRequest ("command result " +:+ uuid +:+ " noData payload must be empty"))
          else if negb (bool_decide (format = "noData")) && bool_decide (data = "") then
            Err (badRequest ("command result " +:+ uuid +:+ " payload must not be empty"))
          else Ok (Some format)
      end
  end.

Definition parse_command_result (acc : gset string * list ISAPICommandResult) (item : commandResultItem)
    : result ProtocolError (gset string * list ISAPICommandResult) :=
  let '(seen, results) := acc in
  let uuid := ci_UUID item in
  if negb (commandUUID uuid) then Err (badRequest "command result UUID is invalid")
  else if bool_decide (uuid ∈ seen) then Err (badRequest "command result contains a duplicate UUID")
  else match ci_Data item with
  | None => Err (badRequest ("command result " +:+ uuid +:+ " has no data"))
  | Some data =>
      if negb (bool_decide (is_Some (b64_DecodeString data))) then
        Err (badRequest ("command result " +:+ uuid +:+ " data is not base64: %v"))
      else
        format ← declared_format uuid (ci_DataFormat item) data;
        Ok ({[uuid]} ∪ seen,
            (results ++ [{| icr_UUID := uuid; icr_DataFormat := format; icr_DataBase64 := data |}])%list)
  end.

Definition ParseCommandResultBatch (body : bytes) : result ProtocolError (list ISAPICommandResult) :=
  match decodeExactJSON (decode_struct true commandResultEnvelope_fields) zero_commandResultEnvelope body with
  | None => Err (badRequest "command result envelope is not valid JSON: %v")
  | Some envelope =>
      match ce_CommandNum envelope, ce_CommandList envelope with
      | Some num, Some items =>
          if (num <? 0) || (20 <? num) then Err (badRequest "commandNum must be between 0 and 20")
          else if negb (zlen (elems items) =? num) then
            Err (badRequest "commandNum must equal commandList length")
          else acc ← foldR parse_command_result (elems items) (∅, []); Ok (acc.2)
      | _, _ => Err (badRequest "command result must contain commandNum and commandList")
      end
  end.

(** ** Command requests *)
Record commandRequestItem := {
  cri_UUID : string;
  cri_URL : string;
  cri_DataFormat : string;
  cri_Data : string
}.

Definition commandRequestItemFor (delivery : ISAPICommandDelivery) : commandRequestItem :=
  {| cri_UUID := icd_UUID delivery;
     cri_URL := icd_Method delivery +:+ " " +:+ icd_URL delivery;
     cri_DataFormat := icd_DataFormat delivery;
     cri_Data := b64_EncodeToString (icd_Data delivery) |}.

(** ** What the parsers guarantee *)

(** A parsed event is the record to archive under the terminal's serial number. *)
Definition event_ok (terminalSerial : string) (e : ParsedEvent) : Prop :=
  vendorEventID (pe_UUID e) = true /\ supportedDataFormat (pe_Format e) = true /\
  nde_TerminalSerialNumber (pe_Record e) = terminalSerial /\ nde_VendorEventID (pe_Record e) = pe_UUID e /\
  nde_DataFormat (pe_Record e) = pe_Format e /\ is_Some (b64_DecodeString (nde_PayloadBase64 (pe_Record e))) /\
  (pe_Format e = "noData" -> nde_PayloadBase64 (pe_Record e) = "").

Definition result_ok (r : ISAPICommandResult) : Prop :=
  commandUUID (icr_UUID r) = true /\ is_Some (b64_DecodeString (icr_DataBase64 r)) /\
  forall format, icr_DataFormat r = Some format ->
    supportedDataFormat format = true /\ (format = "noData" <-> icr_DataBase64 r = "").

(** The loops keep the identifiers seen and accept an item at a time. *)
Definition batch_inv {A B} (key : B -> string) (ok : B -> Prop) (items : list A) (acc : gset string * list B) : Prop :=
  length acc.2 = length items /\ NoDup (key <$> acc.2) /\ (forall s, s ∈ acc.1 <-> s ∈ key <$> acc.2) /\
  Forall ok acc.2.

Lemma batch_inv_snoc {A B} (key : B -> string) (ok : B -> Prop) (items : list A) x seen (bs : list B) b :
  batch_inv key ok items (seen, bs) -> key b ∉ seen -> ok b ->
  batch_inv key ok (items ++ [x])%list ({[key b]} ∪ seen, (bs ++ [b])%list).
Proof.
  intros (Hl & Hnd & Hseen & Hall) Hnew Hb. simpl in *. split_and!; simpl.
  - rewrite !length_app. simpl. lia.
  - rewrite fmap_app. apply list.NoDup_app. split_and!; [done|set_solver|apply NoDup_singleton].
  - intros s. rewrite fmap_app. simpl. set_solver.
  - apply Forall_app. auto.
Qed.

Lemma parse_event_Ok serial items acc item acc' :
  batch_inv pe_UUID (event_ok serial) items acc -> parse_event serial acc item = Ok acc' ->
  batch_inv pe_UUID (event_ok serial) (items ++ [item])%list acc'.
Proof.
  destruct acc as [seen parsed]. intros HI. unfold parse_event. intros E. repeat case_match; simplify_eq.
  repeat match goal with
  | H : negb _ = false |- _ => apply negb_false_iff in H
  | H : bool_decide _ = true |- _ => apply bool_decide_eq_true in H
  | H : bool_decide (_ ∈ _) = false |- _ => apply bool_decide_eq_false in H
  end.
  apply (batch_inv_snoc pe_UUID _ _ _ _ _ (Build_ParsedEvent _ _ _)); [done|done|].
  split_and!; try done. simpl. intros Hno. rewrite Hno in *. simpl in *.
  match goal with H : negb _ = false |- _ => by apply negb_false_iff, bool_decide_eq_true in H end.
Qed.

Lemma ParseEventBatch_Ok terminalSerial body parsed :
  ParseEventBatch terminalSerial body = Ok parsed ->
  (length parsed <= 20)%nat /\ NoDup (pe_UUID <$> parsed) /\ Forall (event_ok terminalSerial) parsed.
Proof.
  unfold ParseEventBatch, check_event_envelope. intros E. repeat case_match; simplify_eq.
  destruct (foldR _ _ _) as [acc|] eqn:Hf; [|done]. simplify_eq/=.
  apply (foldR_inv _ (batch_inv pe_UUID (event_ok terminalSerial))) in Hf as (Hl & Hnd & _ & Hall).
  - split_and!; [|done|done]. rewrite Hl.
    repeat match goal with
    | H : _ || _ = false |- _ => apply orb_false_iff in H as [? ?]
    | H : negb _ = false |- _ => apply negb_false_iff in H
    end. unfold zlen in *. lia.
  - split_and!; simpl; try done; [constructor|set_solver].
  - intros done_ x acc1 acc2. apply parse_event_Ok.
Qed.

(** C37: what an Event batch is once accepted: at most 20 events with distinct, well-formed
    identifiers and supported formats, each a record of this very terminal whose payload
    is the Base64 text that was sent. *)
Theorem event_batch_sound terminalSerial body parsed :
  ParseEventBatch terminalSerial body = Ok parsed ->
  (length parsed <= 20)%nat /\ NoDup (pe_UUID <$> parsed) /\ Forall (event_ok terminalSerial) parsed.
Proof. apply ParseEventBatch_Ok. Qed.

Lemma declared_format_Ok uuid raw data format :
  declared_format uuid raw data = Ok (Some format) ->
  supportedDataFormat format = true /\ (format = "noData" <-> data = "").
Proof.
  unfold declared_format. intros E. repeat case_match; simplify_eq.
  repeat match goal with H : negb _ = false |- _ => apply negb_false_iff in H end. split; [done|].
  repeat case_bool_decide; simpl in *; naive_solver.
Qed.

Lemma parse_command_result_Ok items acc item acc' :
  batch_inv icr_UUID result_ok items acc -> parse_command_result acc item = Ok acc' ->
  batch_inv icr_UUID result_ok (items ++ [item])%list acc'.
Proof.
  destruct acc as [seen results]. intros HI. unfold parse_command_result. intros E. repeat case_match; simplify_eq.
  repeat match goal with
  | H : negb _ = false |- _ => apply negb_false_iff in H
  | H : bool_decide _ = true |- _ => apply bool_decide_eq_true in H
  | H : bool_decide (_ ∈ _) = false |- _ => apply bool_decide_eq_false in H
  end.
  destruct (declared_format _ _ _) as [format|] eqn:Hd; [|done]. simplify_eq/=.
  apply (batch_inv_snoc icr_UUID _ _ _ _ _ (Build_ISAPICommandResult _ _ _)); [done|done|].
  split_and!; try done. simpl. intros f ->. by eapply declared_format_Ok.
Qed.

(** What a CommandResult batch is once accepted: at most 20 results with distinct
    command UUIDs, Base64 data, and a declared format that is supported and empty exactly
    for noData. *)
Theorem result_batch_sound body results :
  ParseCommandResultBatch body = Ok results ->
  (length results <= 20)%nat /\ NoDup (icr_UUID <$> results) /\ Forall result_ok results.
Proof.
  unfold ParseCommandResultBatch. intros E. repeat case_match; simplify_eq.
  destruct (foldR _ _ _) as [acc|] eqn:Hf; [|done]. simplify_eq/=.
  apply (foldR_inv _ (batch_inv icr_UUID result_ok)) in Hf as (Hl & Hnd & _ & Hall).
  - split_and!; [|done|done]. rewrite Hl.
    repeat match goal with
    | H : _ || _ = false |- _ => apply orb_false_iff in H as [? ?]
    | H : negb _ = false |- _ => apply negb_false_iff in H
    end. unfold zlen in *. lia.
  - split_and!; simpl; try done; [constructor|set_solver].
  - intros done_ x acc1 acc2. apply parse_command_result_Ok.
Qed.
