(* ===== verification/Database.v ===== *)
(** The database as the store sees it: the tables of db/schema.sql that the
    modelled operations read or write, transactions, and the queries and
    constraints they share.

    A transaction sees one [now()], and reads the process clock and the random
    source as often as it likes; [run] discards those counters at its end.
    Columns no modelled query reads ([created_at] and [updated_at] of most
    tables) are left out.  Rows whose order a query leaves open come in the
    order of their keys, but in the pages of the archive, where [cx_plan] orders
    them. *)

From Stdlib Require Import ZArith Lia Ascii String.
From stdpp Require Import base gmap strings list option sorting.
From S2P Require Import Prelude GoText GoTime AccessControl Crypto StoreTypes.

Local Open Scope string_scope.
Local Open Scope Z_scope.

(** ** Rows *)
Record TerminalRow := mkTerminalRow {
  tr_pushsdk_serial : string;
  tr_username : string;
  tr_credential_fingerprint : string;
  tr_security_version : Z;
  tr_command_interval_seconds : Z;
  tr_error_delay_seconds : Z;
  tr_connection_status : string;
  tr_last_seen_at : option time;
  tr_last_error : option string
}.

(** [pushsdk_sessions], keyed by the terminal's serial number. *)
Record SessionRow := mkSessionRow {
  sr_configuration_fingerprint : string;
  sr_payload_mode : string;
  sr_salt : string;
  sr_login_challenge : string;
  sr_next_challenge : string;
  sr_iterations : Z;
  sr_created_at : time;
  sr_next_challenge_at : option time;
  sr_authenticated : bool
}.

Record DeviceEventRow := {
  de_terminal_serial_number : string;
  de_vendor_event_id : string;
  de_data_format : string;
  de_received_at : time;
  de_payload_base64 : option string
}.

(** [access_event_projections], keyed by the device event: unclassified, or the
    projected columns. *)
Record ProjectionRow := {
  pr_schema_version : Z;
  pr_projection : option Projection
}.

Inductive CommandStatus := CmdQueued | CmdSent | CmdCompleted | CmdExpired.
#[export] Instance CommandStatus_eq_dec : EqDecision CommandStatus.
Proof. solve_decision. Defined.

Definition command_status_text (s : CommandStatus) : string :=
  match s with CmdQueued => "queued" | CmdSent => "sent" | CmdCompleted => "completed" | CmdExpired => "expired" end.

Record CommandRow := mkCommandRow {
  cr_terminal_serial_number : string;
  cr_created_by_admin_user_id : option Z;
  cr_created_by_username : string;
  cr_method : string;
  cr_url : string;
  cr_data_format : string;
  cr_request_data : bytes;
  cr_status : CommandStatus;
  cr_created_at : time;
  cr_expires_at : time;
  cr_sent_at : option time;
  cr_completed_at : option time;
  cr_response_data_format : option string;
  cr_response_data_format_declared : option bool;
  cr_response_data_base64 : option string
}.

Inductive SyncStatus := SyncAwaitingTime | SyncRunning | SyncCompleted | SyncFailed.
#[export] Instance SyncStatus_eq_dec : EqDecision SyncStatus.
Proof. solve_decision. Defined.

Definition sync_active (s : SyncStatus) : bool :=
  match s with SyncAwaitingTime | SyncRunning => true | _ => false end.

Record SyncRow := mkSyncRow {
  sy_terminal_serial_number : string;
  sy_created_by_admin_user_id : option Z;
  sy_created_by_username : string;
  sy_search_id : string;
  sy_status : SyncStatus;
  sy_search_started_at : option time;
  sy_search_ended_at : option time;
  sy_total_matches : option Z;
  sy_pages_completed : Z;
  sy_records_imported : Z;
  sy_records_duplicate : Z;
  sy_failure : option string;
  sy_created_at : time;
  sy_completed_at : option time
}.

Inductive SyncPhase := PhaseTime | PhasePage.

(** [access_event_sync_commands], keyed by the command. *)
Record SyncLinkRow := {
  sl_sync_run_uuid : string;
  sl_phase : SyncPhase;
  sl_search_result_position : option Z
}.

Record RetainedRow := {
  re_terminal_serial_number : string;
  re_source_sync_run_uuid : string;
  re_source_command_uuid : string;
  re_source_record : bytes;
  re_source_sha256 : bytes;
  re_imported_at : time;
  re_projection : Projection
}.

Record RouteRow := {
  ro_endpoint_url : string;
  ro_signing_key_id : string;
  ro_enabled : bool;
  ro_updated_by : Z
}.

Inductive DeliveryStatus := DlvPending | DlvSending | DlvDelivered | DlvFailed.
#[export] Instance DeliveryStatus_eq_dec : EqDecision DeliveryStatus.
Proof. solve_decision. Defined.

(** The columns the two delivery queues share. *)
Record QueueRow := mkQueueRow {
  qr_status : DeliveryStatus;
  qr_attempts : Z;
  qr_next_attempt_at : time;
  qr_lease_until : option time;
  qr_last_http_status : option Z;
  qr_last_error : option string;
  qr_created_at : time;
  qr_delivered_at : option time
}.

Record DeliveryRow := mkDeliveryRow {
  dr_device_event_id : option Z;
  dr_retained_event_id : option Z;
  dr_backfill_id : option Z;
  dr_terminal_serial_number : string;
  dr_endpoint_url : string;
  dr_signing_key_id : string;
  dr_request_body : bytes;
  dr_queue : QueueRow
}.

Record AttachmentRow := mkAttachmentRow {
  ar_event_delivery_id : Z;
  ar_request_body : option bytes;
  ar_availability : option string;
  ar_reason : option string;
  ar_queue : QueueRow
}.

(** An audited delivery backfill. *)
Record BackfillRow := {
  bf_terminal_serial_number : string;
  bf_starts_at : time;
  bf_ends_at : time;
  bf_preview_sha256 : string;
  bf_queued_count : Z;
  bf_created_by : Z
}.

Record AdminUserRow := { au_username : string; au_password_hash : string }.

Record AdminSessionRow := { as_admin_user_id : Z; as_token_hash : bytes; as_expires_at : time }.

(** ** The database *)

(** The identity columns, each with a sequence of its own. *)
Inductive Sequence :=
| DeviceEventsID | AdminUsersID | AdminSessionsID | GatewayActivitiesID
| RetainedAccessEventsID | DeliveryBackfillsID | EventDeliveriesID | AttachmentDeliveriesID.

#[export] Instance Sequence_eq_dec : EqDecision Sequence.
Proof. solve_decision. Defined.
#[export] Instance Sequence_countable : Countable Sequence.
Proof.
  refine (inj_countable'
    (fun q => match q with
       | DeviceEventsID => 0 | AdminUsersID => 1 | AdminSessionsID => 2 | GatewayActivitiesID => 3
       | RetainedAccessEventsID => 4 | DeliveryBackfillsID => 5 | EventDeliveriesID => 6 | AttachmentDeliveriesID => 7
       end)%nat
    (fun n => match n with
       | 0 => DeviceEventsID | 1 => AdminUsersID | 2 => AdminSessionsID | 3 => GatewayActivitiesID
       | 4 => RetainedAccessEventsID | 5 => DeliveryBackfillsID | 6 => EventDeliveriesID | _ => AttachmentDeliveriesID
       end)%nat _).
  by intros [].
Defined.

Record DB := mkDB {
  db_terminals : gmap string TerminalRow;
  db_sessions : gmap string SessionRow;
  db_activities : list activity.Event;
  db_device_events : gmap Z DeviceEventRow;
  db_projections : gmap Z ProjectionRow;
  db_commands : gmap string CommandRow;
  db_sync_runs : gmap string SyncRow;
  db_sync_links : gmap string SyncLinkRow;
  db_retained : gmap Z RetainedRow;
  db_routes : gmap string RouteRow;
  db_deliveries : gmap Z DeliveryRow;
  db_attachments : gmap Z AttachmentRow;
  db_backfills : gmap Z BackfillRow;
  db_admin_users : gmap Z AdminUserRow;
  db_admin_sessions : gmap Z AdminSessionRow;
  db_next_id : gmap Sequence Z       (* the least number a sequence has not passed *)
}.

Definition empty_DB : DB := mkDB ∅ ∅ [] ∅ ∅ ∅ ∅ ∅ ∅ ∅ ∅ ∅ ∅ ∅ ∅ ∅.

Definition next_id (d : DB) (q : Sequence) : Z := default 1 (db_next_id d !! q).

Definition on_terminals (f : gmap string TerminalRow -> gmap string TerminalRow) (d : DB) : DB :=
  mkDB (f (db_terminals d)) (db_sessions d) (db_activities d) (db_device_events d) (db_projections d)
    (db_commands d) (db_sync_runs d) (db_sync_links d) (db_retained d) (db_routes d) (db_deliveries d)
    (db_attachments d) (db_backfills d) (db_admin_users d) (db_admin_sessions d) (db_next_id d).
Definition on_sessions (f : gmap string SessionRow -> gmap string SessionRow) (d : DB) : DB :=
  mkDB (db_terminals d) (f (db_sessions d)) (db_activities d) (db_device_events d) (db_projections d)
    (db_commands d) (db_sync_runs d) (db_sync_links d) (db_retained d) (db_routes d) (db_deliveries d)
    (db_attachments d) (db_backfills d) (db_admin_users d) (db_admin_sessions d) (db_next_id d).
Definition on_activities (f : list activity.Event -> list activity.Event) (d : DB) : DB :=
  mkDB (db_terminals d) (db_sessions d) (f (db_activities d)) (db_device_events d) (db_projections d)
    (db_commands d) (db_sync_runs d) (db_sync_links d) (db_retained d) (db_routes d) (db_deliveries d)
    (db_attachments d) (db_backfills d) (db_admin_users d) (db_admin_sessions d) (db_next_id d).
Definition on_device_events (f : gmap Z DeviceEventRow -> gmap Z DeviceEventRow) (d : DB) : DB :=
  mkDB (db_terminals d) (db_sessions d) (db_activities d) (f (db_device_events d)) (db_projections d)
    (db_commands d) (db_sync_runs d) (db_sync_links d) (db_retained d) (db_routes d) (db_deliveries d)
    (db_attachments d) (db_backfills d) (db_admin_users d) (db_admin_sessions d) (db_next_id d).
Definition on_projections (f : gmap Z ProjectionRow -> gmap Z ProjectionRow) (d : DB) : DB :=
  mkDB (db_terminals d) (db_sessions d) (db_activities d) (db_device_events d) (f (db_projections d))
    (db_commands d) (db_sync_runs d) (db_sync_links d) (db_retained d) (db_routes d) (db_deliveries d)
    (db_attachments d) (db_backfills d) (db_admin_users d) (db_admin_sessions d) (db_next_id d).
Definition on_commands (f : gmap string CommandRow -> gmap string CommandRow) (d : DB) : DB :=
  mkDB (db_terminals d) (db_sessions d) (db_activities d) (db_device_events d) (db_projections d)
    (f (db_commands d)) (db_sync_runs d) (db_sync_links d) (db_retained d) (db_routes d) (db_deliveries d)
    (db_attachments d) (db_backfills d) (db_admin_users d) (db_admin_sessions d) (db_next_id d).
Definition on_sync_runs (f : gmap string SyncRow -> gmap string SyncRow) (d : DB) : DB :=
  mkDB (db_terminals d) (db_sessions d) (db_activities d) (db_device_events d) (db_projections d)
    (db_commands d) (f (db_sync_runs d)) (db_sync_links d) (db_retained d) (db_routes d) (db_deliveries d)
    (db_attachments d) (db_backfills d) (db_admin_users d) (db_admin_sessions d) (db_next_id d).
Definition on_sync_links (f : gmap string SyncLinkRow -> gmap string SyncLinkRow) (d : DB) : DB :=
  mkDB (db_terminals d) (db_sessions d) (db_activities d) (db_device_events d) (db_projections d)
    (db_commands d) (db_sync_runs d) (f (db_sync_links d)) (db_retained d) (db_routes d) (db_deliveries d)
    (db_attachments d) (db_backfills d) (db_admin_users d) (db_admin_sessions d) (db_next_id d).
Definition on_retained (f : gmap Z RetainedRow -> gmap Z RetainedRow) (d : DB) : DB :=
  mkDB (db_terminals d) (db_sessions d) (db_activities d) (db_device_events d) (db_projections d)
    (db_commands d) (db_sync_runs d) (db_sync_links d) (f (db_retained d)) (db_routes d) (db_deliveries d)
    (db_attachments d) (db_backfills d) (db_admin_users d) (db_admin_sessions d) (db_next_id d).
Definition on_routes (f : gmap string RouteRow -> gmap string RouteRow) (d : DB) : DB :=
  mkDB (db_terminals d) (db_sessions d) (db_activities d) (db_device_events d) (db_projections d)
    (db_commands d) (db_sync_runs d) (db_sync_links d) (db_retained d) (f (db_routes d)) (db_deliveries d)
    (db_attachments d) (db_backfills d) (db_admin_users d) (db_admin_sessions d) (db_next_id d).
Definition on_deliveries (f : gmap Z DeliveryRow -> gmap Z DeliveryRow) (d : DB) : DB :=
  mkDB (db_terminals d) (db_sessions d) (db_activities d) (db_device_events d) (db_projections d)
    (db_commands d) (db_sync_runs d) (db_sync_links d) (db_retained d) (db_routes d) (f (db_deliveries d))
    (db_attachments d) (db_backfills d) (db_admin_users d) (db_admin_sessions d) (db_next_id d).
Definition on_attachments (f : gmap Z AttachmentRow -> gmap Z AttachmentRow) (d : DB) : DB :=
  mkDB (db_terminals d) (db_sessions d) (db_activities d) (db_device_events d) (db_projections d)
    (db_commands d) (db_sync_runs d) (db_sync_links d) (db_retained d) (db_routes d) (db_deliveries d)
    (f (db_attachments d)) (db_backfills d) (db_admin_users d) (db_admin_sessions d) (db_next_id d).
Definition on_backfills (f : gmap Z BackfillRow -> gmap Z BackfillRow) (d : DB) : DB :=
  mkDB (db_terminals d) (db_sessions d) (db_activities d) (db_device_events d) (db_projections d)
    (db_commands d) (db_sync_runs d) (db_sync_links d) (db_retained d) (db_routes d) (db_deliveries d)
    (db_attachments d) (f (db_backfills d)) (db_admin_users d) (db_admin_sessions d) (db_next_id d).
Definition on_admin_users (f : gmap Z AdminUserRow -> gmap Z AdminUserRow) (d : DB) : DB :=
  mkDB (db_terminals d) (db_sessions d) (db_activities d) (db_device_events d) (db_projections d)
    (db_commands d) (db_sync_runs d) (db_sync_links d) (db_retained d) (db_routes d) (db_deliveries d)
    (db_attachments d) (db_backfills d) (f (db_admin_users d)) (db_admin_sessions d) (db_next_id d).
Definition on_admin_sessions (f : gmap Z AdminSessionRow -> gmap Z AdminSessionRow) (d : DB) : DB :=
  mkDB (db_terminals d) (db_sessions d) (db_activities d) (db_device_events d) (db_projections d)
    (db_commands d) (db_sync_runs d) (db_sync_links d) (db_retained d) (db_routes d) (db_deliveries d)
    (db_attachments d) (db_backfills d) (db_admin_users d) (f (db_admin_sessions d)) (db_next_id d).
Definition on_next_id (f : gmap Sequence Z -> gmap Sequence Z) (d : DB) : DB :=
  mkDB (db_terminals d) (db_sessions d) (db_activities d) (db_device_events d) (db_projections d)
    (db_commands d) (db_sync_runs d) (db_sync_links d) (db_retained d) (db_routes d) (db_deliveries d)
    (db_attachments d) (db_backfills d) (db_admin_users d) (db_admin_sessions d) (f (db_next_id d)).

(** ** Transactions *)

(** What a transaction reads besides the database. *)
Record TxCtx := {
  cx_now : time;                       (* now() *)
  cx_clock : nat -> time;              (* the n-th time.Now() *)
  cx_zone : time -> Z;                 (* the offset of time.Local at an instant *)
  cx_rand : rand_source;               (* the n-th read of crypto/rand *)
  cx_gap : Sequence -> Z -> nat;       (* how many numbers of a sequence, from the least it has not passed,
                                          transactions that rolled back have used up *)
  cx_plan : list nat                   (* the order in which the plan of a query reads its rows *)
}.

Record TxState := mkTxState { tx_db : DB; tx_clock : nat; tx_reads : nat }.

Abbreviation Txn := (Tx store_error TxCtx TxState).

(** [Begin] .. [Commit]: an error rolls everything back. *)
Definition run {A} (m : Txn A) : Tx store_error TxCtx DB A := fun c d =>
  match m c (mkTxState d 0 0) with
  | Ok (a, s) => Ok (a, tx_db s)
  | Err e => Err e
  end.

Definition db_get {A} (f : DB -> A) : Txn A := tx_gets (fun s => f (tx_db s)).
Definition db_set (f : DB -> DB) : Txn unit :=
  tx_modify (fun s => mkTxState (f (tx_db s)) (tx_clock s) (tx_reads s)).

(** [now()] *)
Definition sql_now : Txn time := tx_ctx cx_now.

(** [time.Now().UTC()] *)
Definition go_now : Txn time := fun c s =>
  Ok (cx_clock c (tx_clock s), mkTxState (tx_db s) (S (tx_clock s)) (tx_reads s)).

(** [rand.Read] of [n] bytes. *)
Definition go_rand (n : nat) : Txn (option bytes) := fun c s =>
  Ok (ReadFull (cx_rand c) (tx_reads s) n, mkTxState (tx_db s) (tx_clock s) (S (tx_reads s))).

(** [GENERATED ALWAYS AS IDENTITY]: a sequence never goes back, a rollback leaves a gap. *)
Definition fresh_id (q : Sequence) : Txn Z :=
  gap ← tx_ctx cx_gap;
  n ← db_get (fun d => next_id d q);
  let id := n + Z.of_nat (gap q n) in
  db_set (on_next_id <[q := id + 1]>);;
  mret id.

(** A violated constraint fails the statement. *)
Definition constraint (ok : bool) : Txn unit := if ok then mret tt else tx_fail ErrDatabase.

(** [INSERT] into a table whose primary key is an identity column. *)
Definition insert_identity {V} (q : Sequence) (table : DB -> gmap Z V) (update : (gmap Z V -> gmap Z V) -> DB -> DB)
    (row : V) : Txn Z :=
  id ← fresh_id q;
  taken ← db_get (fun d => bool_decide (is_Some (table d !! id)));
  constraint (negb taken);;
  db_set (update <[id := row]>);;
  mret id.

(** A TIMESTAMPTZ read back: an instant in the process's own zone. *)
Definition local_time (t : time) : Txn Time := tx_ctx (fun c => mkTime t (cx_zone c t)).

(** ** Shared queries *)

(** The rows of a table that satisfy a condition, by key. *)
Definition select {K V} `{Countable K} (p : K -> V -> bool) (m : gmap K V) : list (K * V) :=
  List.filter (fun r => p r.1 r.2) (map_to_list m).

Definition exists_row {K V} `{Countable K} (p : K -> V -> bool) (m : gmap K V) : bool :=
  existsb (fun r => p r.1 r.2) (map_to_list m).

#[export] Instance leb_rel_decision {A} (leb : A -> A -> bool) : RelDecision (fun a b => leb a b = true).
Proof. intros a b. apply bool_eq_dec. Defined.

(** The rows of a query in the order its plan comes upon them: at each turn the plan names the
    next of the rows that are left. *)
Fixpoint scan {A} (plan : list nat) (l : list A) : list A :=
  match plan with
  | [] => l
  | i :: plan =>
      match l !! i with
      | Some x => x :: scan plan (delete i l)
      | None => scan plan l
      end
  end.

(** [ORDER BY] a boolean comparison, [LIMIT n]. *)
Definition order_by {A} (leb : A -> A -> bool) (l : list A) : list A :=
  merge_sort (fun a b => leb a b = true) l.
(** [ORDER BY] a comparison with ties: rows that tie come as the plan read them. *)
Fixpoint place {A} (leb : A -> A -> bool) (x : A) (l : list A) : list A :=
  match l with
  | [] => [x]
  | y :: l' => if leb x y then x :: l else y :: place leb x l'
  end.
Definition order_by_plan {A} (leb : A -> A -> bool) (plan : list nat) (l : list A) : list A :=
  foldr (place leb) [] (scan plan l).
Definition sql_limit {A} (n : Z) (l : list A) : list A := take (Z.to_nat n) l.

(** [FOREIGN KEY .. REFERENCES terminals]: checked when a row is inserted. *)
Definition terminal_exists (serial : string) : Txn unit :=
  found ← db_get (fun d => bool_decide (is_Some (db_terminals d !! serial)));
  constraint found.

(** [REFERENCES admin_users(id)] *)
Definition admin_exists (id : Z) : Txn unit :=
  found ← db_get (fun d => bool_decide (is_Some (db_admin_users d !! id)));
  constraint found.

(** ** What the shared queries find *)
Section queries.
Context {K V : Type} `{Countable K}.
Implicit Types (p : K -> V -> bool) (m : gmap K V).

Lemma elem_of_select p m k v : (k, v) ∈ select p m <-> m !! k = Some v /\ p k v = true.
Proof. unfold select. rewrite list_elem_of_In, filter_In, <- list_elem_of_In, elem_of_map_to_list. done. Qed.

Lemma NoDup_select p m : NoDup ((select p m).*1).
Proof.
  unfold select. eapply list.sublist_NoDup; [apply (NoDup_fst_map_to_list m)|].
  induction (map_to_list m) as [|x l IH]; simpl; [done|]. destruct (p x.1 x.2); simpl; by constructor.
Qed.

Lemma exists_row_true p m : exists_row p m = true <-> exists k v, m !! k = Some v /\ p k v = true.
Proof.
  unfold exists_row. rewrite existsb_exists. split.
  - intros ([k v] & Hin%list_elem_of_In%elem_of_map_to_list & Hp). eauto.
  - intros (k & v & Hm & Hp). exists (k, v). split; [|done]. by apply list_elem_of_In, elem_of_map_to_list.
Qed.

Lemma exists_row_false p m : exists_row p m = false <-> forall k v, m !! k = Some v -> p k v = false.
Proof.
  rewrite <- not_true_iff_false, exists_row_true. split.
  - intros Hno k v Hm. apply not_true_iff_false. intros Hp. apply Hno. eauto.
  - intros Hno (k & v & Hm & Hp). by rewrite (Hno k v) in Hp.
Qed.

Lemma head_select p m k v : head (select p m) = Some (k, v) -> m !! k = Some v /\ p k v = true.
Proof. intros Hh. apply elem_of_select. destruct (select p m); [done|]. injection Hh as ->. set_solver. Qed.

Lemma head_select_None p m : head (select p m) = None <-> forall k v, m !! k = Some v -> p k v = false.
Proof.
  split.
  - intros Hh k v Hm. apply not_true_iff_false. intros Hp.
    assert (Hin : (k, v) ∈ select p m) by by apply elem_of_select. destruct (select p m); [set_solver|done].
  - intros Hno. destruct (select p m) as [|[k v] l] eqn:E; [done|].
    assert (Hin : (k, v) ∈ select p m) by (rewrite E; set_solver).
    apply elem_of_select in Hin as [Hm Hp]. by rewrite (Hno k v) in Hp.
Qed.

(** A condition on a UNIQUE column has at most one row. *)
Lemma head_select_unique p m k v :
  (forall k1 v1 k2 v2, m !! k1 = Some v1 -> m !! k2 = Some v2 -> p k1 v1 = true -> p k2 v2 = true -> k1 = k2) ->
  m !! k = Some v -> p k v = true -> head (select p m) = Some (k, v).
Proof.
  intros Hu Hm Hp. destruct (head (select p m)) as [[k1 v1]|] eqn:E.
  - apply head_select in E as [Hm1 Hp1]. assert (k1 = k) as -> by eauto. congruence.
  - rewrite head_select_None in E. by rewrite (E k v) in Hp.
Qed.
End queries.

(** ** Inversion of a transaction that committed *)
Lemma run_Ok {A} (m : Txn A) c d a d' :
  run m c d = Ok (a, d') -> exists s', m c (mkTxState d 0 0) = Ok (a, s') /\ tx_db s' = d'.
Proof. unfold run. destruct (m c _) as [[a' s']|]; [|done]. intros [= -> <-]. eauto. Qed.

Lemma constraint_Ok b c s u s' : constraint b c s = Ok (u, s') -> b = true /\ s' = s.
Proof. destruct b; [|done]. by intros [= _ ->]. Qed.

Lemma terminal_exists_Ok serial c s u s' :
  terminal_exists serial c s = Ok (u, s') -> is_Some (db_terminals (tx_db s) !! serial) /\ s' = s.
Proof. intros (b & s1 & [= <- <-] & E)%tx_bind_Ok. apply constraint_Ok in E as [E%bool_decide_eq_true ->]. done. Qed.

Lemma admin_exists_Ok id c s u s' :
  admin_exists id c s = Ok (u, s') -> is_Some (db_admin_users (tx_db s) !! id) /\ s' = s.
Proof. intros (b & s1 & [= <- <-] & E)%tx_bind_Ok. apply constraint_Ok in E as [E%bool_decide_eq_true ->]. done. Qed.

(** A plan reads every row once, and there is a plan for every order. *)
Lemma scan_Permutation {A} plan (l : list A) : scan plan l ≡ₚ l.
Proof.
  revert l. induction plan as [|i plan IH]; intros l; simpl; [done|].
  destruct (l !! i) as [x|] eqn:E; [|done]. rewrite IH. by rewrite <- delete_Permutation.
Qed.

Lemma scan_onto {A} (l l' : list A) : l' ≡ₚ l -> exists plan, scan plan l = l'.
Proof.
  revert l. induction l' as [|x l' IH]; intros l Hp.
  - exists []. by apply Permutation_nil.
  - assert (x ∈ l) as [i Hi]%list_elem_of_lookup by (rewrite <- Hp; left).
    destruct (IH (delete i l)) as [plan Hplan].
    { apply (Permutation_cons_inv (a := x)). by rewrite <- (delete_Permutation l i x Hi). }
    exists (i :: plan). simpl. by rewrite Hi, Hplan.
Qed.

Lemma place_Permutation {A} (leb : A -> A -> bool) x l : place leb x l ≡ₚ x :: l.
Proof. induction l as [|y l IH]; simpl; [done|]. destruct (leb x y); [done|]. rewrite IH. constructor. Qed.

Lemma order_by_plan_Permutation {A} (leb : A -> A -> bool) plan l : order_by_plan leb plan l ≡ₚ l.
Proof.
  unfold order_by_plan. rewrite <- (scan_Permutation plan l) at 2. induction (scan plan l) as [|x l' IH]; simpl; [done|].
  by rewrite place_Permutation, IH.
Qed.

Section ordered.
Context {A} (leb : A -> A -> bool).
Let R a b := leb a b = true.

Lemma place_sorted `{!Total R} `{!Transitive R} x l : StronglySorted R l -> StronglySorted R (place leb x l).
Proof.
  induction 1 as [|y l Hs IH Hy]; simpl; [by repeat constructor|]. destruct (leb x y) eqn:E.
  - constructor; [by constructor|]. constructor; [done|]. eapply Forall_impl; [exact Hy|]. intros z. by transitivity y.
  - constructor; [done|]. rewrite place_Permutation. constructor; [|done].
    destruct (total R x y) as [Hxy|Hyx]; [|done]. unfold R in Hxy. congruence.
Qed.

Lemma order_by_plan_sorted `{!Total R} `{!Transitive R} plan l : StronglySorted R (order_by_plan leb plan l).
Proof. unfold order_by_plan. induction (scan plan l) as [|x l' IH]; simpl; [constructor|by apply place_sorted]. Qed.

(** Every order the query allows is the order of some plan. *)
Lemma order_by_plan_onto l l' : l' ≡ₚ l -> StronglySorted R l' -> exists plan, order_by_plan leb plan l = l'.
Proof.
  intros [plan Hplan]%scan_onto Hs. exists plan. unfold order_by_plan. rewrite Hplan. clear Hplan.
  induction Hs as [|x l1 Hs IH Hx]; simpl; [done|]. rewrite IH. destruct Hx as [|y l1 Hxy]; simpl; [done|].
  by rewrite Hxy.
Qed.
End ordered.

(** The number a sequence gives is none it has passed. *)
Lemma fresh_id_Ok q c s id s' :
  fresh_id q c s = Ok (id, s') ->
  next_id (tx_db s) q <= id /\ s' = mkTxState (on_next_id <[q := id + 1]> (tx_db s)) (tx_clock s) (tx_reads s).
Proof.
  intros (gap & s1 & [= <- <-] & E)%tx_bind_Ok. apply tx_bind_Ok in E as (n & s2 & [= <- <-] & E).
  apply tx_bind_Ok in E as (u & s3 & [= <-] & [= <- <-]). split; [lia|done].
Qed.

Lemma insert_identity_Ok {V} q (table : DB -> gmap Z V) update row c s id s' :
  (forall g d, table (on_next_id g d) = table d) ->
  insert_identity q table update row c s = Ok (id, s') ->
  table (tx_db s) !! id = None /\ tx_db s' = update <[id := row]> (on_next_id <[q := id + 1]> (tx_db s)).
Proof.
  intros Ht (i & s1 & [_ ->]%fresh_id_Ok & E)%tx_bind_Ok.
  apply tx_bind_Ok in E as (b & s4 & [= <- <-] & E).
  apply tx_bind_Ok in E as (u' & s5 & [E1 ->]%constraint_Ok & E).
  apply tx_bind_Ok in E as (u'' & s6 & [= <-] & [= <- <-]). subst. cbn [tx_db] in E1 |- *.
  apply negb_true_iff, bool_decide_eq_false in E1. split; [|done].
  apply eq_None_not_Some. by rewrite Ht in E1.
Qed.

(** Takes a successful run apart, one statement at a time. *)
Ltac tx_inv H :=
  cbn beta iota zeta in H;
  lazymatch type of H with
  | mbind ?k ?m ?c ?s = Ok _ =>
      let a := fresh "a" in let s1 := fresh "s" in let E := fresh "E" in
      apply tx_bind_Ok in H as (a & s1 & E & H); tx_inv E
  | mret _ _ _ = Ok _ => injection H; clear H; intros; subst
  | tx_fail _ _ _ = Ok _ => discriminate H
  | db_get _ _ _ = Ok _ => injection H; clear H; intros; subst
  | db_set _ _ _ = Ok _ => injection H; clear H; intros; subst
  | sql_now _ _ = Ok _ => injection H; clear H; intros; subst
  | go_now _ _ = Ok _ => injection H; clear H; intros; subst
  | go_rand _ _ _ = Ok _ => injection H; clear H; intros; subst
  | local_time _ _ _ = Ok _ => injection H; clear H; intros; subst
  | constraint _ _ _ = Ok _ => apply constraint_Ok in H as [H ?]; subst
  | terminal_exists _ _ _ = Ok _ => apply terminal_exists_Ok in H as [H ?]; subst
  | admin_exists _ _ _ = Ok _ => apply admin_exists_Ok in H as [H ?]; subst
  | (if ?b then _ else _) _ _ = Ok _ => let E := fresh "Hb" in destruct b eqn:E; tx_inv H
  | (match ?o with _ => _ end) _ _ = Ok _ => let E := fresh "Hm" in destruct o eqn:E; tx_inv H
  | _ => idtac
  end.
Ltac tx_invs H := repeat (progress tx_inv H).
