(* ===== verification/Migrations.v ===== *)
(** internal/store/store.go: [Migrate], the registry of applied migrations and the two
    ways a database gets its schema.

    What PostgreSQL does with a script is a parameter; a script does not touch the
    registry.  A database call that fails is an input of the run, numbered by call. *)

From Stdlib Require Import ZArith Lia Ascii String.
From stdpp Require Import base gmap strings list option sorting.
From S2P Require Import Prelude GoText GoCrypto Database.

Local Open Scope string_scope.

(** What the database holds besides the registry, what a script makes of it ([None] is
    an error), and whether the table [public.terminals] is there. *)
Class Postgres := {
  schema : Type;
  exec : bytes -> schema -> option schema;
  terminals_exist : schema -> bool
}.

(** ** The files *)
Record Entry := { en_Name : string; en_IsDir : bool; en_Contents : option bytes }.

(** The directory [MIGRATIONS_DIR] with its [legacy] directory and the schema file
    beside it; [None] is a failed read. *)
Record Directory := {
  dir_schema : option bytes;
  dir_legacy : option (list Entry);
  dir_forward : option (list Entry)
}.

Record migrationFile := mkMigrationFile { mf_name : string; mf_contents : bytes; mf_checksum : string }.

Definition migrationFiles (entries : option (list Entry)) : result string (list Entry) :=
  entries ← ok_or entries "read migrations directory %s: %w";
  Ok (order_by (fun a b => String.leb (en_Name a) (en_Name b))
        (List.filter (fun e => negb (en_IsDir e) && has_suffix (en_Name e) ".sql") entries)).

Section files.
Context `{CryptoLib}.

Definition checksum (contents : bytes) : string := hex_EncodeToString (sha256_Sum256 contents).

Definition load_file (files : list migrationFile) (e : Entry) : result string (list migrationFile) :=
  contents ← ok_or (en_Contents e) ("read migration " +:+ en_Name e +:+ ": %w");
  Ok (files ++ [mkMigrationFile (en_Name e) contents (checksum contents)])%list.

Definition loadMigrationFiles (entries : option (list Entry)) : result string (list migrationFile) :=
  names ← migrationFiles entries; foldR load_file names [].
End files.

Definition schemaBaselineMigration : string := "schema-baseline-2026-09-02".

(** ** The registry *)
Section migrate.
Context `{CryptoLib} `{Postgres}.

(** [schema_migrations], name to checksum, and the rest of the database. *)
Abbreviation registry := (gmap string string) (only parsing).
Record Database_ := mkDatabase { registered : registry; contents : schema }.

(** The database and the number of calls made. *)
Definition State : Type := Database_ * nat.
Context (fault : nat -> bool).
Local Abbreviation M := (M string State).

(** A call of the database: a fault is its error and changes nothing. *)
Definition database {A} (failure : string) (op : Database_ -> result string (A * Database_)) : M A :=
  fun '(d, n) =>
    if fault n then (Err failure, (d, S n))
    else match op d with
         | Ok (a, d') => (Ok a, (d', S n))
         | Err e => (Err e, (d, S n))
         end.

(** [INSERT INTO schema_migrations]; the name is the primary key. *)
Definition record_migration (failure : string) (r : registry) (f : string * string) : result string registry :=
  match r !! f.1 with
  | Some _ => Err failure
  | None => Ok (<[f.1 := f.2]> r)
  end.

(** The transaction of [ensureCanonicalSchema]. *)
Definition canonical_schema (script : bytes) (forwardFiles : list migrationFile) (d : Database_)
    : result string (bool * Database_) :=
  match registered d !! schemaBaselineMigration with
  | Some _ => Ok (true, d)
  | None =>
      if negb (size (registered d) =? 0)%nat then Ok (false, d)
      else if terminals_exist (contents d) then Err "database has terminal tables but no recorded migration history"
      else match exec script (contents d) with
           | None => Err "create canonical schema: %w"
           | Some s =>
               r ← record_migration "record canonical schema baseline: %w" (registered d)
                     (schemaBaselineMigration, checksum script);
               r ← foldR (fun r f => record_migration ("record canonical schema forward migration " +:+ mf_name f +:+ ": %w") r
                                       (mf_name f, mf_checksum f)) forwardFiles r;
               Ok (true, mkDatabase r s)
           end
  end.
Definition ensureCanonicalSchema (script : bytes) (forwardFiles : list migrationFile) : M bool :=
  database "check canonical schema baseline: %w" (canonical_schema script forwardFiles).

(** The transaction that runs a script and records it. *)
Definition apply_script (f : migrationFile) (d : Database_) : result string (unit * Database_) :=
  match exec (mf_contents f) (contents d) with
  | None => Err ("apply migration " +:+ mf_name f +:+ ": %w")
  | Some s => r ← record_migration ("apply migration " +:+ mf_name f +:+ ": %w") (registered d) (mf_name f, mf_checksum f);
              Ok (tt, mkDatabase r s)
  end.

Definition apply_migration (f : migrationFile) : M unit :=
  recorded ← database ("check migration " +:+ mf_name f +:+ ": %w") (fun d => Ok (registered d !! mf_name f, d));
  match recorded with
  | Some c => if bool_decide (c = mf_checksum f) then mret tt
              else fail ("migration " +:+ mf_name f +:+ " has changed after application")
  | None => database ("apply migration " +:+ mf_name f +:+ ": %w") (apply_script f)
  end.
Definition applyMigrationFiles (files : list migrationFile) : M unit := for_each apply_migration files.

Definition Migrate (dir : Directory) : M unit :=
  script ← lift (ok_or (dir_schema dir) "read canonical schema: %w");
  legacyFiles ← lift (loadMigrationFiles (dir_legacy dir));
  forwardFiles ← lift (loadMigrationFiles (dir_forward dir));
  database "create migration registry: %w" (fun d => Ok (tt, d));;
  baselineApplied ← ensureCanonicalSchema script forwardFiles;
  (if (baselineApplied : bool) then mret tt else applyMigrationFiles legacyFiles);;
  applyMigrationFiles forwardFiles.
End migrate.

(** ** A run that is interrupted can be repeated *)
Section facts.
Context `{CryptoLib} `{Postgres}.

Definition no_fault : nat -> bool := fun _ => false.

(** The outcome of a run without the number of its calls. *)
Definition outcome {A} (r : result string A * State) : result string A * Database_ := (r.1, r.2.1).

Lemma apply_migration_outcome f d n m :
  outcome (apply_migration no_fault f (d, n)) = outcome (apply_migration no_fault f (d, m)).
Proof.
  unfold apply_migration, mbind, M_bind, database, no_fault. simpl.
  destruct (registered d !! mf_name f) as [c|]; [by case_bool_decide|].
  by destruct (apply_script f d) as [[[] d']|e].
Qed.

Lemma apply_files_outcome files d n m :
  outcome (applyMigrationFiles no_fault files (d, n)) = outcome (applyMigrationFiles no_fault files (d, m)).
Proof.
  revert d n m. unfold applyMigrationFiles.
  induction files as [|f files IH]; intros d n m; [done|]. cbn [for_each]. unfold mbind, M_bind.
  pose proof (apply_migration_outcome f d n m) as E.
  destruct (apply_migration no_fault f (d, n)) as [[[]|e] [d1 n1]], (apply_migration no_fault f (d, m)) as [[[]|e'] [d2 n2]];
    unfold outcome in E; simpl in E; simplify_eq; [apply IH|done].
Qed.

(** A step records the file, leaves the registry, or does not succeed. *)
Lemma apply_migration_cases fault f d n r d' n' :
  apply_migration fault f (d, n) = (r, (d', n')) ->
  (d' = d /\ (r = Ok tt -> registered d !! mf_name f = Some (mf_checksum f))) \/
  (r = Ok tt /\ registered d !! mf_name f = None /\ registered d' = <[mf_name f := mf_checksum f]> (registered d) /\
   apply_script f d = Ok (tt, d')).
Proof.
  unfold apply_migration, mbind, M_bind, database. destruct (fault n); [intros [= <- <- <-]; by left|].
  destruct (registered d !! mf_name f) as [c|] eqn:E.
  { case_bool_decide; intros [= <- <- <-]; left; split; [done|by intros _; subst|done|done]. }
  destruct (fault (S n)); [intros [= <- <- <-]; by left|].
  destruct (apply_script f d) as [[[] d1]|e] eqn:Es; intros [= <- <- <-]; [|by left].
  right. split_and!; try done. unfold apply_script, record_migration in Es.
  destruct (exec _ _) as [s|]; [|done]. simpl in Es. rewrite E in Es. by injection Es as <-.
Qed.

Lemma apply_migration_skip f d n :
  registered d !! mf_name f = Some (mf_checksum f) -> apply_migration no_fault f (d, n) = (Ok tt, (d, S n)).
Proof.
  intros E. unfold apply_migration, mbind, M_bind, database. cbn [no_fault]. rewrite E.
  by rewrite bool_decide_eq_true_2.
Qed.

Lemma apply_files_grow fault files d n r d' n' :
  applyMigrationFiles fault files (d, n) = (r, (d', n')) ->
  registered d ⊆ registered d' /\
  (forall name, name ∉ mf_name <$> files -> registered d' !! name = registered d !! name) /\
  (r = Ok tt -> Forall (fun f => registered d' !! mf_name f = Some (mf_checksum f)) files).
Proof.
  revert d n. unfold applyMigrationFiles.
  induction files as [|f files IH]; intros d n; cbn [for_each]; [by intros [= <- <- <-]|].
  unfold mbind, M_bind. destruct (apply_migration fault f (d, n)) as [r1 [d1 n1]] eqn:E1.
  apply apply_migration_cases in E1 as E1'.
  assert (Hd : registered d ⊆ registered d1 /\
               (forall name, name <> mf_name f -> registered d1 !! name = registered d !! name) /\
               (r1 = Ok tt -> registered d1 !! mf_name f = Some (mf_checksum f))).
  { destruct E1' as [[-> Hr]|(_ & Hn & -> & _)]; [done|]. split_and!.
    - by apply insert_subseteq.
    - intros name Hne. by rewrite lookup_insert_ne.
    - intros _. by rewrite lookup_insert_eq. }
  destruct Hd as (D1 & D2 & D3). destruct r1 as [[]|e].
  - intros (I1 & I2 & I3)%IH. split_and!.
    + by etrans.
    + intros name [Hne Hin]%not_elem_of_cons. rewrite I2, D2; [done..|]. done.
    + intros Hr. constructor; [|by apply I3]. eapply lookup_weaken; [by apply D3|done].
  - intros [= <- <- <-]. split_and!; [done| |done]. intros name [Hne Hin]%not_elem_of_cons. by apply D2.
Qed.

(** A run without faults that succeeds ends in the same database when it starts from
    where an interrupted run stopped. *)
Lemma apply_files_resume fault files d n m k r1 d1 n1 d2 n2 :
  applyMigrationFiles no_fault files (d, n) = (Ok tt, (d2, n2)) ->
  applyMigrationFiles fault files (d, m) = (r1, (d1, n1)) ->
  outcome (applyMigrationFiles no_fault files (d1, k)) = (Ok tt, d2).
Proof.
  revert d n m k. unfold applyMigrationFiles.
  induction files as [|f files IH]; intros d n m k; cbn [for_each]; [by intros [= <- <-] [= <- <- <-]|].
  intros Hok Hrun. pose proof Hok as Hok0.
  unfold mbind, M_bind in Hok, Hrun.
  destruct (apply_migration no_fault f (d, n)) as [[[]|e] [d0 n0]] eqn:E0; [|done].
  destruct (apply_migration fault f (d, m)) as [r [d' m']] eqn:E1.
  assert (Hstay : d' = d \/ d' = d0 /\ r = Ok tt).
  { apply apply_migration_cases in E1 as [[-> _]|(-> & Hn & _ & Hs)]; [by left|]. right.
    apply apply_migration_cases in E0 as [[-> Hr]|(_ & _ & _ & Hs0)]; [by rewrite Hr in Hn|].
    by rewrite Hs in Hs0; injection Hs0 as ->. }
  assert (Hskip : forall d3, registered d3 !! mf_name f = Some (mf_checksum f) ->
            outcome (for_each (apply_migration no_fault) files (d3, S k)) = (Ok tt, d2) ->
            outcome ((apply_migration no_fault f;; for_each (apply_migration no_fault) files) (d3, k)) = (Ok tt, d2)).
  { intros d3 Hrec Hrest. unfold mbind, M_bind. by rewrite apply_migration_skip. }
  assert (Hrec0 : registered d0 !! mf_name f = Some (mf_checksum f)).
  { apply apply_migration_cases in E0 as [[-> Hr]|(_ & _ & -> & _)]; [auto|by rewrite lookup_insert_eq]. }
  destruct r as [[]|e].
  - assert (Hd0 : d' = d0).
    { destruct Hstay as [->|[-> _]]; [|done].
      apply apply_migration_cases in E1 as [[_ Hr]|(_ & Hn & Hreg & _)].
      - apply apply_migration_cases in E0 as [[-> _]|(_ & Hn & _)]; [done|]. by rewrite Hr in Hn.
      - rewrite Hreg, lookup_insert_eq in Hn. done. }
    subst d'. apply Hskip.
    + apply (apply_files_grow fault files) in Hrun as [Hsub _]. by eapply lookup_weaken.
    + by eapply IH.
  - injection Hrun as <- <- <-. destruct Hstay as [->|[_ ?]]; [|done].
    pose proof (apply_files_outcome (f :: files) d k n) as Ho. unfold applyMigrationFiles in Ho.
    cbn [for_each] in Ho. rewrite Ho. unfold outcome. by rewrite Hok0.
Qed.

(** *** The canonical schema *)
Lemma canonical_schema_cases script forward d b d' :
  canonical_schema script forward d = Ok (b, d') ->
  (b = true /\ is_Some (registered d' !! schemaBaselineMigration) /\ registered d ⊆ registered d') \/
  (b = false /\ d' = d /\ registered d !! schemaBaselineMigration = None /\ registered d <> ∅).
Proof.
  unfold canonical_schema. destruct (registered d !! schemaBaselineMigration) eqn:Eb.
  { intros [= <- <-]. left. by rewrite Eb. }
  destruct (size (registered d) =? 0)%nat eqn:Es; cbn [negb].
  2: { intros [= <- <-]. right. split_and!; try done. intros Hd. by rewrite Hd in Es. }
  apply Nat.eqb_eq, map_size_empty_iff in Es.
  destruct (terminals_exist _); [done|]. destruct (exec _ _) as [s|]; [|done].
  unfold mbind, result_bind. destruct (record_migration _ _ _) as [r|] eqn:Er; [|done].
  destruct (foldR _ _ _) as [r'|] eqn:Ef; [|done]. intros [= <- <-]. left. rewrite Es. cbn [registered].
  split_and!; [done| |apply map_empty_subseteq].
  unfold record_migration in Er. cbn [fst] in Er. rewrite Eb in Er. injection Er as <-.
  apply (foldR_inv _ (fun _ r => is_Some (r !! schemaBaselineMigration)) _ _ _) in Ef; [done| |].
  - rewrite lookup_insert_eq. eauto.
  - intros _ f r r2 Hr. unfold record_migration. case_match; [intros ?; congruence|]. intros [= <-].
    rewrite lookup_insert_is_Some. cbn [fst]. destruct (decide (mf_name f = schemaBaselineMigration)) as [Hn|Hn]; [by left|by right].
Qed.

Lemma canonical_schema_again script forward d :
  is_Some (registered d !! schemaBaselineMigration) -> canonical_schema script forward d = Ok (true, d).
Proof. intros [c E]. unfold canonical_schema. by rewrite E. Qed.

Lemma canonical_schema_incremental script forward d :
  registered d !! schemaBaselineMigration = None -> registered d <> ∅ ->
  canonical_schema script forward d = Ok (false, d).
Proof.
  intros E Hne. unfold canonical_schema. rewrite E.
  destruct (size (registered d) =? 0)%nat eqn:Es; [|done].
  by apply Nat.eqb_eq, map_size_empty_iff in Es.
Qed.

(** The names of the files end in [.sql], the name of the baseline does not. *)
Lemma load_files_names names acc files :
  Forall (fun e => has_suffix (en_Name e) ".sql" = true) names ->
  Forall (fun f => has_suffix (mf_name f) ".sql" = true) acc ->
  foldR load_file names acc = Ok files -> Forall (fun f => has_suffix (mf_name f) ".sql" = true) files.
Proof.
  intros Hn. revert acc. induction Hn as [|e names He Hn IH]; intros acc Hacc; cbn [foldR]; [by intros [= <-]|].
  unfold mbind, result_bind, load_file at 1. destruct (en_Contents e) as [c|]; [|done]. cbn [ok_or].
  unfold mbind, result_bind. apply IH. apply Forall_app. split; [done|]. by constructor.
Qed.

Lemma baseline_not_a_file entries files :
  loadMigrationFiles entries = Ok files -> schemaBaselineMigration ∉ mf_name <$> files.
Proof.
  unfold loadMigrationFiles, migrationFiles, mbind, result_bind.
  destruct entries as [es|]; [|done]. cbn [ok_or]. intros Hf (f & Hb & Hfin)%list_elem_of_fmap.
  apply load_files_names in Hf; [|unfold order_by; rewrite merge_sort_Permutation|constructor].
  - rewrite list.Forall_forall in Hf. specialize (Hf f Hfin). by rewrite <- Hb in Hf.
  - rewrite list.Forall_forall. intros e [_ He]%list_elem_of_In%List.filter_In.
    by apply andb_true_iff in He as [_ ?].
Qed.

(** *** The run *)
Lemma for_each_app {E W A} (f : A -> Prelude.M E W unit) l1 l2 w :
  for_each f (l1 ++ l2) w = (for_each f l1;; for_each f l2) w.
Proof.
  revert w. induction l1 as [|x l1 IH]; intros w; [done|]. cbn [for_each app].
  unfold mbind, M_bind. destruct (f x w) as [[[]|e] w']; [|done]. apply IH.
Qed.

Definition scripts (baseline : bool) (legacy forward : list migrationFile) : list migrationFile :=
  if baseline then forward else (legacy ++ forward)%list.

Lemma Migrate_run fault dir script legacy forward d n :
  dir_schema dir = Some script -> loadMigrationFiles (dir_legacy dir) = Ok legacy ->
  loadMigrationFiles (dir_forward dir) = Ok forward ->
  Migrate fault dir (d, n) =
  (database fault "create migration registry: %w" (fun d => Ok (tt, d));;
   b ← ensureCanonicalSchema fault script forward;
   applyMigrationFiles fault (scripts b legacy forward)) (d, n).
Proof.
  intros Es El Ef. unfold Migrate, lift, mbind, M_bind. rewrite Es, El, Ef. cbn [ok_or].
  destruct (database _ _ _ (d, n)) as [[[]|e] w1]; [|done].
  destruct (ensureCanonicalSchema _ _ _ w1) as [[[]|e] w2]; try done. cbn [scripts].
  unfold applyMigrationFiles. by rewrite for_each_app.
Qed.

(** A run that succeeded read its files, and a run that stopped either changed nothing or
    was inside the list of scripts. *)
Lemma Migrate_Ok_files fault dir d n w :
  Migrate fault dir (d, n) = (Ok tt, w) ->
  exists script legacy forward, dir_schema dir = Some script /\
    loadMigrationFiles (dir_legacy dir) = Ok legacy /\ loadMigrationFiles (dir_forward dir) = Ok forward.
Proof.
  unfold Migrate, lift, mbind, M_bind. destruct (dir_schema dir) as [script|]; [|done]. cbn [ok_or].
  destruct (loadMigrationFiles (dir_legacy dir)) as [legacy|]; [|done].
  destruct (loadMigrationFiles (dir_forward dir)) as [forward|]; [|done]. eauto 10.
Qed.

Lemma Migrate_stops fault dir script legacy forward d n r d' n' :
  dir_schema dir = Some script -> loadMigrationFiles (dir_legacy dir) = Ok legacy ->
  loadMigrationFiles (dir_forward dir) = Ok forward ->
  Migrate fault dir (d, n) = (r, (d', n')) ->
  (d' = d /\ r <> Ok tt) \/
  exists b d0, canonical_schema script forward d = Ok (b, d0) /\
               exists m, applyMigrationFiles fault (scripts b legacy forward) (d0, m) = (r, (d', n')).
Proof.
  intros Es El Ef. rewrite (Migrate_run _ _ _ _ _ _ _ Es El Ef).
  unfold mbind, M_bind, ensureCanonicalSchema, database.
  destruct (fault n); [intros [= <- <- <-]; by left|].
  destruct (fault (S n)); [intros [= <- <- <-]; by left|].
  destruct (canonical_schema script forward d) as [[b d0]|e] eqn:Ec; [|intros [= <- <- <-]; by left].
  intros Hrun. right. eauto 10.
Qed.

Lemma Migrate_from fault dir script legacy forward d n b d0 :
  dir_schema dir = Some script -> loadMigrationFiles (dir_legacy dir) = Ok legacy ->
  loadMigrationFiles (dir_forward dir) = Ok forward -> fault n = false -> fault (S n) = false ->
  canonical_schema script forward d = Ok (b, d0) ->
  Migrate fault dir (d, n) = applyMigrationFiles fault (scripts b legacy forward) (d0, S (S n)).
Proof.
  intros Es El Ef F1 F2 Ec. rewrite (Migrate_run _ _ _ _ _ _ _ Es El Ef).
  unfold mbind, M_bind, ensureCanonicalSchema, database. by rewrite F1, F2, Ec.
Qed.

(** From where an interrupted run stopped, the schema is chosen as at its start. *)
Lemma canonical_schema_resume fault script entries entries' legacy forward d b d0 m r d' n' :
  loadMigrationFiles entries = Ok legacy -> loadMigrationFiles entries' = Ok forward ->
  canonical_schema script forward d = Ok (b, d0) ->
  applyMigrationFiles fault (scripts b legacy forward) (d0, m) = (r, (d', n')) ->
  canonical_schema script forward d' = Ok (b, d').
Proof.
  intros El Ef Ec (Hsub & Hother & _)%apply_files_grow.
  apply canonical_schema_cases in Ec as [(-> & [c Hc] & _)|(-> & -> & Hn & Hne)].
  - apply canonical_schema_again. exists c. by eapply lookup_weaken.
  - apply canonical_schema_incremental.
    + rewrite Hother; [done|]. cbn [scripts]. rewrite fmap_app. intros [Hin|Hin]%elem_of_app.
      * by apply baseline_not_a_file in El.
      * by apply baseline_not_a_file in Ef.
    + intros He. apply Hne, map_empty. intros i. rewrite He in Hsub.
      destruct (registered d !! i) eqn:E; [|done]. by eapply lookup_weaken in E; [|exact Hsub].
Qed.

(** C28: start-up migration can be repeated.  If a run without failures brings the
    database to a state, then after any run of it that database failures interrupted,
    at whatever call, a run without failures ends in exactly that state: no script is
    executed twice and none is left out.  In particular a second run changes nothing. *)
Theorem interrupted_migration_resumes fault dir d n m k r1 d1 n1 d2 n2 :
  Migrate no_fault dir (d, n) = (Ok tt, (d2, n2)) ->
  Migrate fault dir (d, m) = (r1, (d1, n1)) ->
  outcome (Migrate no_fault dir (d1, k)) = (Ok tt, d2).
Proof.
  intros Hok Hrun. apply Migrate_Ok_files in Hok as Hfiles.
  destruct Hfiles as (script & legacy & forward & Es & El & Ef).
  apply (Migrate_stops _ _ _ _ _ _ _ _ _ _ Es El Ef) in Hok as Hfull.
  destruct Hfull as [[_ ?]|(b & d0 & Ec & m0 & Hscripts)]; [done|].
  destruct (Migrate_stops _ _ _ _ _ _ _ _ _ _ Es El Ef Hrun) as [[Hd _]|(b' & d0' & Ec' & m' & Hpart)].
  - rewrite Hd, (Migrate_from _ _ _ _ _ _ _ _ _ Es El Ef eq_refl eq_refl Ec).
    rewrite (apply_files_outcome _ d0 _ m0). unfold outcome. by rewrite Hscripts.
  - rewrite Ec in Ec'. injection Ec' as <- <-.
    eapply canonical_schema_resume in Ec; [|exact El|exact Ef|exact Hpart].
    rewrite (Migrate_from _ _ _ _ _ _ _ _ _ Es El Ef eq_refl eq_refl Ec).
    by eapply apply_files_resume.
Qed.

(** A migration that succeeds leaves every forward script recorded with the
    checksum of its present contents, and no record that was there has changed: a script
    that was edited after it was applied makes the start fail. *)
Theorem migrated_checksums fault dir d n d' n' :
  Migrate fault dir (d, n) = (Ok tt, (d', n')) ->
  registered d ⊆ registered d' /\
  exists forward, loadMigrationFiles (dir_forward dir) = Ok forward /\
    Forall (fun f => registered d' !! mf_name f = Some (mf_checksum f)) forward.
Proof.
  intros Hok. destruct (Migrate_Ok_files _ _ _ _ _ Hok) as (script & legacy & forward & Es & El & Ef).
  destruct (Migrate_stops _ _ _ _ _ _ _ _ _ _ Es El Ef Hok) as [[_ ?]|(b & d0 & Ec & m & Hrun)]; [done|].
  apply apply_files_grow in Hrun as (Hsub & _ & Hall). specialize (Hall eq_refl). split.
  - etrans; [|exact Hsub]. by apply canonical_schema_cases in Ec as [(_ & _ & ?)|(_ & -> & _)].
  - exists forward. split; [done|]. destruct b; cbn [scripts] in Hall; [done|]. by apply Forall_app in Hall as [_ ?].
Qed.
End facts.
