(* ===== verification/StoreCore.v ===== *)
(** internal/store/store.go: gateway activities, terminal states and PushSDK
    session checkpoints. *)

From Stdlib Require Import ZArith Lia Ascii String.
From stdpp Require Import base gmap strings list option.
From S2P Require Import Prelude GoText GoTime GoCrypto AccessControl Config Crypto StoreTypes Database.

Local Open Scope string_scope.
Local Open Scope Z_scope.

(** ** Gateway activities *)

(** The CHECK on [kind]: dot-separated segments of a lower-case letter followed by
    lower-case letters, digits and underscores. *)
Definition kind_segment (s : string) : bool :=
  match bytes_of s with
  | c :: l => is_lower c && forallb (fun c => is_lower c || is_digit c || (byte_val c =? 95)) l
  | [] => false
  end.
Definition kind_check (kind : string) : bool := forallb kind_segment (strings_Split kind "."%char).

Definition set_id_at (e : activity.Event) (id : Z) (at_ : time) : activity.Event :=
  activity.mkEvent id at_ (activity.Kind e) (activity.Terminal e) (activity.Message e) (activity.Fields e).

Definition insertGatewayActivity (event : activity.Event) : Txn activity.Event :=
  if bool_decide (activity.Kind event = "") then tx_fail (ErrText "gateway activity kind is required")
  else if bool_decide (activity.Message event = "") then
    tx_fail (ErrText "gateway activity message is required")
  else
    constraint (kind_check (activity.Kind event));;
    (if bool_decide (activity.Terminal event = "") then mret tt
     else terminal_exists (activity.Terminal event));;
    id ← fresh_id GatewayActivitiesID;
    now ← sql_now;
    let stored := set_id_at event id now in
    db_set (on_activities (fun l => l ++ [stored])%list);;
    mret stored.

Definition RecordGatewayActivity (event : activity.Event) : Tx store_error TxCtx DB activity.Event :=
  run (insertGatewayActivity event).

(** ** Terminals *)
Definition set_status (status : string) (last_seen : option time) (last_error : option string)
    (r : TerminalRow) : TerminalRow :=
  mkTerminalRow (tr_pushsdk_serial r) (tr_username r) (tr_credential_fingerprint r) (tr_security_version r)
    (tr_command_interval_seconds r) (tr_error_delay_seconds r) status last_seen last_error.

(** [CHECK (connection_status IN ('offline', 'authenticating', 'online', 'error'))] *)
Definition status_check (status : string) : bool :=
  bool_decide (status = "offline") || bool_decide (status = "authenticating")
  || bool_decide (status = "online") || bool_decide (status = "error").

Definition TransitionTerminalState_tx (serial status : string) (lastError : option string)
    (event : activity.Event) : Txn activity.Event :=
  if negb (bool_decide (activity.Terminal event = serial)) then
    tx_fail (ErrText "gateway activity terminal does not match state transition terminal")
  else
    now ← sql_now;
    row ← db_get (fun d => db_terminals d !! serial);
    match row with
    | None => tx_fail (ErrText "terminal is not registered")
    | Some r =>
        constraint (status_check status);;
        let seen := if bool_decide (status = "offline") then tr_last_seen_at r else Some now in
        db_set (on_terminals <[serial := set_status status seen lastError r]>);;
        insertGatewayActivity event
    end.

Definition TransitionTerminalState (serial status : string) (lastError : option string)
    (event : activity.Event) : Tx store_error TxCtx DB activity.Event :=
  run (TransitionTerminalState_tx serial status lastError event).

(** The row [SeedConfiguredTerminals] leaves for a configured terminal: a known
    terminal keeps its last contact, every terminal starts offline. *)
Definition seeded_row `{CryptoLib} (t : Terminal) (old : option TerminalRow) : TerminalRow :=
  mkTerminalRow (PushSDKSerial t) (Username t) (CredentialFingerprint t) (SecurityVersion t)
    (CommandIntervalSeconds t) (ErrorDelaySeconds t) "offline" (old ≫= tr_last_seen_at) None.

(** [UNIQUE (pushsdk_serial)] and the range checks of [terminals]. *)
Definition terminal_check (serial : string) (r : TerminalRow) (rows : gmap string TerminalRow) : bool :=
  negb (exists_row (fun k o => negb (bool_decide (k = serial))
                               && bool_decide (tr_pushsdk_serial o = tr_pushsdk_serial r)) rows)
  && ((tr_security_version r =? 3) || (tr_security_version r =? 4))
  && (1 <=? tr_command_interval_seconds r) && (tr_command_interval_seconds r <=? 300)
  && (1 <=? tr_error_delay_seconds r) && (tr_error_delay_seconds r <=? 300).

Definition SeedConfiguredTerminals_tx `{CryptoLib} (terminals : list Terminal) : Txn unit :=
  tx_for (fun _ t =>
    rows ← db_get db_terminals;
    let row := seeded_row t (rows !! SerialNumber t) in
    constraint (terminal_check (SerialNumber t) row rows);;
    db_set (on_terminals <[SerialNumber t := row]>)) terminals tt.

Definition SeedConfiguredTerminals `{CryptoLib} (terminals : list Terminal) : Tx store_error TxCtx DB unit :=
  run (SeedConfiguredTerminals_tx terminals).

(** ** PushSDK session checkpoints *)
Definition row_of_session (s : PushSDKSession) : SessionRow :=
  mkSessionRow (ps_ConfigurationFingerprint s) (ps_PayloadMode s) (ps_Salt s) (ps_LoginChallenge s)
    (ps_NextChallenge s) (ps_Iterations s) (to_micros (ps_CreatedAt s))
    (to_micros <$> ps_NextChallengeAt s) (ps_Authenticated s).

Definition session_of_row (serial : string) (r : SessionRow) : PushSDKSession :=
  mkPushSDKSession serial (sr_configuration_fingerprint r) (sr_payload_mode r) (sr_salt r)
    (sr_login_challenge r) (sr_next_challenge r) (sr_iterations r) (sr_created_at r)
    (sr_next_challenge_at r) (sr_authenticated r).

(** The CHECK constraints of [pushsdk_sessions]. *)
Definition session_check (r : SessionRow) : bool :=
  lowerHex64 (sr_configuration_fingerprint r)
  && (bool_decide (sr_payload_mode r = "plaintext") || bool_decide (sr_payload_mode r = "encrypted"))
  && alphaNumeric64 (sr_salt r) && alphaNumeric64 (sr_login_challenge r)
  && (bool_decide (sr_next_challenge r = "") || lowerHex64 (sr_next_challenge r))
  && (500 <=? sr_iterations r) && (sr_iterations r <=? 5000)
  && (if sr_authenticated r
      then lowerHex64 (sr_next_challenge r) && bool_decide (is_Some (sr_next_challenge_at r))
      else bool_decide (sr_next_challenge r = "") && bool_decide (sr_next_challenge_at r = None)).

Definition UpsertPushSDKSession_tx (session : PushSDKSession) : Txn unit :=
  let serial := ps_TerminalSerialNumber session in
  let row := row_of_session session in
  terminal_exists serial;;
  constraint (session_check row);;
  db_set (on_sessions <[serial := row]>);;
  if ps_Authenticated session then
    (* only an authenticated exchange refreshes last seen *)
    db_set (on_terminals (alter (fun r => set_status (tr_connection_status r) (sr_next_challenge_at row)
                                            (tr_last_error r) r) serial))
  else mret tt.

Definition UpsertPushSDKSession (session : PushSDKSession) : Tx store_error TxCtx DB unit :=
  run (UpsertPushSDKSession_tx session).

Definition ExpirePushSDKLoginChallenge_tx (serial reason : string) : Txn (option activity.Event) :=
  db_set (on_sessions (delete serial));;
  row ← db_get (fun d => db_terminals d !! serial);
  match row with
  | Some r =>
      if bool_decide (tr_connection_status r = "offline") then mret None
      else
        db_set (on_terminals <[serial := set_status "offline" (tr_last_seen_at r) (Some reason) r]>);;
        stored ← insertGatewayActivity (activity.event activity.KindPushSDKSessionExpired serial reason ∅);
        mret (Some stored)
  | None => mret None
  end.

Definition ExpirePushSDKLoginChallenge (serial reason : string) : Tx store_error TxCtx DB (option activity.Event) :=
  run (ExpirePushSDKLoginChallenge_tx serial reason).

(** [ORDER BY terminal_serial_number], in the order of their bytes. *)
Definition serial_leb (a b : PushSDKSession) : bool :=
  String.leb (ps_TerminalSerialNumber a) (ps_TerminalSerialNumber b).

Definition PushSDKSessions : Tx store_error TxCtx DB (list PushSDKSession) :=
  run (rows ← db_get db_sessions;
       mret (order_by serial_leb ((fun r => session_of_row r.1 r.2) <$> map_to_list rows))).

Definition DeletePushSDKSession (terminalSerial : string) : Tx store_error TxCtx DB unit :=
  run (db_set (on_sessions (delete terminalSerial))).
