(* ===== verification/Deliveries.v ===== *)
(** internal/store/event_deliveries.go: delivery routes and the durable queue of
    attendance events, with the attachment rows that are queued beside them. *)

From Stdlib Require Import ZArith Lia Ascii String.
From stdpp Require Import base gmap strings list option.
From S2P Require Import Prelude GoText GoTime GoJSON AccessControl StoreTypes Database StoreCore.

Local Open Scope string_scope.
Local Open Scope Z_scope.

Definition ErrDeliveryRouteBusy : store_error := ErrSentinel "ErrDeliveryRouteBusy".
Definition ErrDeliveryRouteUnfinished : store_error := ErrSentinel "ErrDeliveryRouteUnfinished".

Record DeliveryRoute := {
  rt_TerminalSerialNumber : string;
  rt_EndpointURL : string;
  rt_SigningKeyID : string;
  rt_Enabled : bool
}.

(** A delivery as the worker claims it and as the administration lists it; a claim
    leaves the fields it does not read at their zero values. *)
Record EventDelivery := {
  ev_Attachment : bool;
  ev_ID : Z;
  ev_DeviceEventID : option Z;
  ev_RetainedEventID : option Z;
  ev_BackfillID : option Z;
  ev_TerminalSerialNumber : string;
  ev_EndpointURL : string;
  ev_SigningKeyID : string;
  ev_Status : string;
  ev_Attempts : Z;
  ev_NextAttemptAt : Time;
  ev_LastHTTPStatus : option Z;
  ev_LastError : option string;
  ev_CreatedAt : Time;
  ev_DeliveredAt : option Time;
  ev_Body : bytes
}.

Definition zero_Time : Time := mkTime 0 0.

(** ** Messages *)
Record EventMessage := mkEventMessage {
  em_SchemaVersion : Z;
  em_Source : string;
  em_EventID : string;
  em_TerminalSerialNumber : string;
  em_PushSDKSerial : string;
  em_MajorEventType : Z;
  em_SubEventType : Z;
  em_EventState : option string;
  em_OccurredAt : option Time;
  em_EmployeeNumber : option string;
  em_EmployeeName : option string;
  em_EventSerialNumber : option Z
}.

Definition json_option {A} (f : A -> jout) (o : option A) : jout := from_option f ONull o.

Definition message_json (m : EventMessage) : jout :=
  OObject ([("schemaVersion", OInt (em_SchemaVersion m))]
    ++ (if bool_decide (em_Source m = "") then [] else [("source", OString (em_Source m))])
    ++ [("eventId", OString (em_EventID m));
        ("terminalSerialNumber", OString (em_TerminalSerialNumber m));
        ("pushSdkSerial", OString (em_PushSDKSerial m));
        ("majorEventType", OInt (em_MajorEventType m));
        ("subEventType", OInt (em_SubEventType m));
        ("eventState", json_option OString (em_EventState m));
        ("occurredAt", json_option (fun t => OString (Format_RFC3339Nano t)) (em_OccurredAt m));
        ("employeeNoString", json_option OString (em_EmployeeNumber m));
        ("employeeName", json_option OString (em_EmployeeName m));
        ("eventSerialNumber", json_option OInt (em_EventSerialNumber m))])%list.

(** [json.Marshal(message)]: an error when the time has no RFC 3339 text. *)
Definition marshal_message (m : EventMessage) : option bytes :=
  if from_option MarshalJSON_ok true (em_OccurredAt m) then Some (json_Marshal (message_json m)) else None.

(** ** Queue rows *)

(** The defaults of a new row: pending, due at once. *)
Definition new_queue_row (now : time) : QueueRow := mkQueueRow DlvPending 0 now None None None now None.

(** [enqueueAttachment] *)
Definition enqueueAttachment (parent : Z) : Txn unit :=
  taken ← db_get (fun d => exists_row (fun _ a => ar_event_delivery_id a =? parent) (db_attachments d));
  constraint (negb taken);;
  now ← sql_now;
  insert_identity AttachmentDeliveriesID db_attachments on_attachments (mkAttachmentRow parent None None None (new_queue_row now));;
  mret tt.

(** The eligible events: a completed face authentication that is active. *)
Definition deliverable (p : Projection) : bool :=
  (pj_MajorEventType p =? 5) && (pj_SubEventType p =? 75) && bool_decide (pj_EventState p = Some "active").

(** The joined row of [enqueueEventDelivery], if the query has one. *)
Definition delivery_candidate (d : DB) (eventID : Z)
    : option (DeviceEventRow * Projection * TerminalRow * RouteRow) :=
  e ← db_device_events d !! eventID;
  row ← db_projections d !! eventID;
  p ← pr_projection row;
  t ← db_terminals d !! de_terminal_serial_number e;
  r ← db_routes d !! de_terminal_serial_number e;
  if ro_enabled r && deliverable p then Some (e, p, t, r) else None.

Definition enqueueEventDelivery (eventID : Z) : Txn unit :=
  found ← db_get (fun d => delivery_candidate d eventID);
  match found with
  | None => mret tt
  | Some (e, p, t, r) =>
      occurredAt ← match pj_OccurredAt p with
                   | None => mret None
                   | Some at_ => at_ ← local_time (t_ns at_); mret (Some at_)
                   end;
      let message :=
        mkEventMessage 2 "pushsdk" (de_vendor_event_id e) (de_terminal_serial_number e) (tr_pushsdk_serial t)
          (pj_MajorEventType p) (pj_SubEventType p) (pj_EventState p) occurredAt (pj_EmployeeNumber p)
          (pj_EmployeeName p) (pj_EventSerialNumber p) in
      match marshal_message message with
      | None => tx_fail (ErrText "json.Marshal")
      | Some body =>
      taken ← db_get (fun d => exists_row (fun _ x => bool_decide (dr_device_event_id x = Some eventID))
                                 (db_deliveries d));
      constraint (negb taken);;
      now ← sql_now;
      id ← insert_identity EventDeliveriesID db_deliveries on_deliveries
             (mkDeliveryRow (Some eventID) None None (de_terminal_serial_number e)
                (ro_endpoint_url r) (ro_signing_key_id r) body (new_queue_row now));
      enqueueAttachment id
      end
  end.

(** ** Routes *)
Definition unfinished (q : QueueRow) : bool :=
  bool_decide (qr_status q = DlvPending) || bool_decide (qr_status q = DlvSending).

Definition activityForRoute (serial : string) (actor : Z) : activity.Event :=
  activity.event "admin.event_delivery_route_saved" serial "event delivery configuration saved"
    (<["adminUserId" := activity.VInt actor]> ∅).
Definition activityForRetry (serial : string) (id actor : Z) : activity.Event :=
  activity.event "admin.event_delivery_retried" serial "failed event delivery queued for retry"
    (<["deliveryId" := activity.VInt id]> (<["adminUserId" := activity.VInt actor]> ∅)).

(** A delivery of the terminal, or its attachment, satisfies a condition. *)
Definition exists_delivery (d : DB) (serial : string) (p : QueueRow -> bool) : bool :=
  exists_row (fun id x => bool_decide (dr_terminal_serial_number x = serial)
    && (p (dr_queue x)
        || exists_row (fun _ a => (ar_event_delivery_id a =? id) && p (ar_queue a)) (db_attachments d)))
    (db_deliveries d).

Definition SaveDeliveryRoute_tx (route : DeliveryRoute) (actorID : Z) : Txn unit :=
  let serial := rt_TerminalSerialNumber route in
  known ← db_get (fun d => bool_decide (is_Some (db_terminals d !! serial)));
  if negb known then tx_fail ErrNoRows else
  blocked ← db_get (fun d => match db_routes d !! serial with
    | Some r => (negb (bool_decide (ro_endpoint_url r = rt_EndpointURL route))
                 || negb (bool_decide (ro_signing_key_id r = rt_SigningKeyID route)))
                && exists_delivery d serial unfinished
    | None => false
    end);
  if (blocked : bool) then tx_fail ErrDeliveryRouteBusy else
  admin_exists actorID;;
  db_set (on_routes <[serial := {| ro_endpoint_url := rt_EndpointURL route;
                                   ro_signing_key_id := rt_SigningKeyID route;
                                   ro_enabled := rt_Enabled route;
                                   ro_updated_by := actorID |}]>);;
  insertGatewayActivity (activityForRoute serial actorID);;
  mret tt.

Definition SaveDeliveryRoute (route : DeliveryRoute) (actorID : Z) : Tx store_error TxCtx DB unit :=
  run (SaveDeliveryRoute_tx route actorID).

Definition DeleteDeliveryRoute_tx (serial : string) (actorID : Z) : Txn unit :=
  known ← db_get (fun d => bool_decide (is_Some (db_terminals d !! serial))
                           && bool_decide (is_Some (db_routes d !! serial)));
  if negb known then tx_fail ErrNoRows else
  pending ← db_get (fun d => exists_delivery d serial (fun q => negb (bool_decide (qr_status q = DlvDelivered))));
  if (pending : bool) then tx_fail ErrDeliveryRouteUnfinished else
  db_set (on_routes (delete serial));;
  insertGatewayActivity (activity.event "admin.event_delivery_route_removed" serial
    "event delivery destination removed" (<["adminUserId" := activity.VInt actorID]> ∅));;
  mret tt.

Definition DeleteDeliveryRoute (serial : string) (actorID : Z) : Tx store_error TxCtx DB unit :=
  run (DeleteDeliveryRoute_tx serial actorID).

(** ** The queue *)
Definition lease : duration := 60 * second.

(** Due now, or leased to a worker whose lease has run out. *)
Definition claimable (now : time) (q : QueueRow) : bool :=
  match qr_status q with
  | DlvPending => qr_next_attempt_at q <=? now
  | DlvSending => match qr_lease_until q with Some l => l <=? now | None => false end
  | _ => false
  end.

Definition route_enabled (d : DB) (serial : string) : bool :=
  match db_routes d !! serial with Some r => ro_enabled r | None => false end.

Definition claimed (now : time) (q : QueueRow) : QueueRow :=
  mkQueueRow DlvSending (qr_attempts q + 1) (qr_next_attempt_at q) (Some (now + lease))
    (qr_last_http_status q) (qr_last_error q) (qr_created_at q) (qr_delivered_at q).

Definition with_queue (r : DeliveryRow) (q : QueueRow) : DeliveryRow :=
  mkDeliveryRow (dr_device_event_id r) (dr_retained_event_id r) (dr_backfill_id r)
    (dr_terminal_serial_number r) (dr_endpoint_url r) (dr_signing_key_id r) (dr_request_body r) q.

Definition id_leb {A} (a b : Z * A) : bool := a.1 <=? b.1.

(** The candidates of [ClaimEventDelivery], in the order of their ids. *)
Definition claim_candidates (d : DB) (now : time) : list (Z * DeliveryRow) :=
  order_by id_leb (select (fun _ r => route_enabled d (dr_terminal_serial_number r)
                                      && claimable now (dr_queue r)) (db_deliveries d)).

Definition ClaimEventDelivery_tx : Txn (option EventDelivery) :=
  now ← sql_now;
  candidates ← db_get (fun d => claim_candidates d now);
  match candidates with
  | [] => mret None
  | (id, r) :: _ =>
      let r' := with_queue r (claimed now (dr_queue r)) in
      db_set (on_deliveries <[id := r']>);;
      mret (Some {| ev_Attachment := false;
                    ev_ID := id;
                    ev_DeviceEventID := dr_device_event_id r';
                    ev_RetainedEventID := dr_retained_event_id r';
                    ev_BackfillID := dr_backfill_id r';
                    ev_TerminalSerialNumber := dr_terminal_serial_number r';
                    ev_EndpointURL := dr_endpoint_url r';
                    ev_SigningKeyID := dr_signing_key_id r';
                    ev_Status := "";
                    ev_Attempts := qr_attempts (dr_queue r');
                    ev_NextAttemptAt := zero_Time;
                    ev_LastHTTPStatus := None;
                    ev_LastError := None;
                    ev_CreatedAt := zero_Time;
                    ev_DeliveredAt := None;
                    ev_Body := dr_request_body r' |})
  end.

Definition ClaimEventDelivery : Tx store_error TxCtx DB (option EventDelivery) := run ClaimEventDelivery_tx.

(** [NULLIF($4,0)] and [NULLIF($5,'')] *)
Definition nullif_zero (n : Z) : option Z := if n =? 0 then None else Some n.
Definition nullif_empty (s : string) : option string := if bool_decide (s = "") then None else Some s.

Definition finished (now : time) (status : DeliveryStatus) (httpStatus : Z) (failure : string) (next : time)
    (q : QueueRow) : QueueRow :=
  mkQueueRow status (qr_attempts q) (to_micros next) None (nullif_zero httpStatus) (nullif_empty failure)
    (qr_created_at q) (if bool_decide (status = DlvDelivered) then Some now else None).

(** The lease is still the worker's: same attempt, still sending. *)
Definition owned (d : EventDelivery) (q : QueueRow) : bool :=
  (qr_attempts q =? ev_Attempts d) && bool_decide (qr_status q = DlvSending).

Definition FinishEventDelivery_tx (d : EventDelivery) (status : DeliveryStatus) (httpStatus : Z)
    (failure : string) (next : time) : Txn unit :=
  now ← sql_now;
  row ← db_get (fun db => db_deliveries db !! ev_ID d);
  match row with
  | Some r =>
      if owned d (dr_queue r) then
        db_set (on_deliveries <[ev_ID d := with_queue r (finished now status httpStatus failure next (dr_queue r))]>)
      else tx_fail (ErrText "event delivery lease is no longer owned")
  | None => tx_fail (ErrText "event delivery lease is no longer owned")
  end.

Definition FinishEventDelivery (d : EventDelivery) (status : DeliveryStatus) (httpStatus : Z)
    (failure : string) (next : time) : Tx store_error TxCtx DB unit :=
  run (FinishEventDelivery_tx d status httpStatus failure next).

Definition retried (now : time) (q : QueueRow) : QueueRow :=
  mkQueueRow DlvPending (qr_attempts q) now (qr_lease_until q) (qr_last_http_status q) None
    (qr_created_at q) (qr_delivered_at q).

Definition RetryEventDelivery_tx (id actorID : Z) : Txn unit :=
  now ← sql_now;
  row ← db_get (fun d => db_deliveries d !! id);
  match row with
  | Some r =>
      if bool_decide (qr_status (dr_queue r) = DlvFailed) then
        db_set (on_deliveries <[id := with_queue r (retried now (dr_queue r))]>);;
        insertGatewayActivity (activityForRetry (dr_terminal_serial_number r) id actorID);;
        mret tt
      else tx_fail ErrNoRows
  | None => tx_fail ErrNoRows
  end.

Definition RetryEventDelivery (id actorID : Z) : Tx store_error TxCtx DB unit :=
  run (RetryEventDelivery_tx id actorID).
