(* ===== verification/Worker.v ===== *)
(** internal/delivery/worker.go: the signed delivery of queued messages.

    The HTTP client and the receiver behind it are the environment of the
    worker; the queue is an interface ([DeliveryQueue]), as in the code. *)

From Stdlib Require Import ZArith Lia Ascii String.
From stdpp Require Import base gmap strings list option.
From S2P Require Import Prelude GoText GoTime GoJSON GoCrypto StoreTypes Database Deliveries.

Local Open Scope string_scope.
Local Open Scope Z_scope.

(** ** Signatures *)

(** [hmac.New(sha256.New, key)] over a message: blocks of 64 bytes. *)
Definition hmac_sha256 `{CryptoLib} (key message : bytes) : bytes :=
  let key := if (64 <? length key)%nat then sha256_Sum256 key else key in
  let block := (key ++ replicate (64 - length key) (byte_of 0))%list in
  let pad n := (fun c => xor_byte c (byte_of n)) <$> block in
  sha256_Sum256 (pad 92 ++ sha256_Sum256 (pad 54 ++ message))%list.

Definition Signature `{CryptoLib} (key timestamp : string) (body : bytes) : string :=
  hex_EncodeToString (hmac_sha256 (bytes_of key) (bytes_of (timestamp +:+ string_of [byte_of 10]) ++ body)%list).

(** ** Retries *)

(** The loop of [RetryDelay]; [n] iterations are left by its counter. *)
Fixpoint retry_loop (n : nat) (delay : duration) : duration :=
  match n with
  | O => delay
  | S n' => if delay <? 300 * second then retry_loop n' (delay * 2) else delay
  end.

Definition RetryDelay (attempts : Z) : duration :=
  let delay := retry_loop (Z.to_nat (attempts - 1)) (5 * second) in
  if 300 * second <? delay then 300 * second else delay.

(** ** Receipts *)

(** One member of the receipt object: the names seen so far, or a rejection. *)
Definition receipt_member (eventID : string) (schemaVersion : Z) (attachmentID : string)
    (seen : list string) (member : string * (bytes * json)) : option (list string) :=
  let '(name, (_, v)) := member in
  if bool_decide (name ∈ seen) then None
  else
    let text (expected : string) :=
      match decode_string "" v with Some s => bool_decide (s = expected) | None => false end in
    let ok :=
      if bool_decide (name = "attachmentId") then negb (bool_decide (attachmentID = "")) && text attachmentID
      else if bool_decide (name = "schemaVersion") then
        match decode_int 0 v with Some n => n =? schemaVersion | None => false end
      else if bool_decide (name = "eventId") then text eventID
      else if bool_decide (name = "receipt") then text "stored"
      else false in
    if ok then Some (name :: seen) else None.

Fixpoint receipt_members (eventID : string) (schemaVersion : Z) (attachmentID : string)
    (seen : list string) (members : list (string * (bytes * json))) : option (list string) :=
  match members with
  | [] => Some seen
  | m :: l => seen' ← receipt_member eventID schemaVersion attachmentID seen m;
              receipt_members eventID schemaVersion attachmentID seen' l
  end.

Definition validReceipt (body : bytes) (eventID : string) (schemaVersion : Z) (attachmentID : string) : bool :=
  let expectedFields := if bool_decide (attachmentID = "") then 3%nat else 4%nat in
  match parse_document body with
  | Some (JObject members) =>
      match receipt_members eventID schemaVersion attachmentID [] members with
      | Some seen => (length seen =? expectedFields)%nat
      | None => false
      end
  | _ => false
  end.

(** ** The message a body carries *)

(** [time.Time.UnmarshalJSON] on the source bytes of a value that is not null. *)
Definition unmarshal_time (raw : bytes) : option Time :=
  match raw with
  | q :: rest =>
      if bool_decide (q = Print.quote) && bool_decide (list.last rest = Some Print.quote)
      then Parse_RFC3339 (string_of (take (length rest - 1) rest)) else None
  | [] => None
  end.

Definition zero_EventMessage : EventMessage :=
  mkEventMessage 0 "" "" "" "" 0 0 None None None None None.

Definition EventMessage_fields : list (field EventMessage) :=
  [ fld "schemaVersion" em_SchemaVersion
      (fun m v => mkEventMessage v (em_Source m) (em_EventID m) (em_TerminalSerialNumber m) (em_PushSDKSerial m)
         (em_MajorEventType m) (em_SubEventType m) (em_EventState m) (em_OccurredAt m) (em_EmployeeNumber m)
         (em_EmployeeName m) (em_EventSerialNumber m)) decode_int;
    fld "source" em_Source
      (fun m v => mkEventMessage (em_SchemaVersion m) v (em_EventID m) (em_TerminalSerialNumber m) (em_PushSDKSerial m)
         (em_MajorEventType m) (em_SubEventType m) (em_EventState m) (em_OccurredAt m) (em_EmployeeNumber m)
         (em_EmployeeName m) (em_EventSerialNumber m)) decode_string;
    fld "eventId" em_EventID
      (fun m v => mkEventMessage (em_SchemaVersion m) (em_Source m) v (em_TerminalSerialNumber m) (em_PushSDKSerial m)
         (em_MajorEventType m) (em_SubEventType m) (em_EventState m) (em_OccurredAt m) (em_EmployeeNumber m)
         (em_EmployeeName m) (em_EventSerialNumber m)) decode_string;
    fld "terminalSerialNumber" em_TerminalSerialNumber
      (fun m v => mkEventMessage (em_SchemaVersion m) (em_Source m) (em_EventID m) v (em_PushSDKSerial m)
         (em_MajorEventType m) (em_SubEventType m) (em_EventState m) (em_OccurredAt m) (em_EmployeeNumber m)
         (em_EmployeeName m) (em_EventSerialNumber m)) decode_string;
    fld "pushSdkSerial" em_PushSDKSerial
      (fun m v => mkEventMessage (em_SchemaVersion m) (em_Source m) (em_EventID m) (em_TerminalSerialNumber m) v
         (em_MajorEventType m) (em_SubEventType m) (em_EventState m) (em_OccurredAt m) (em_EmployeeNumber m)
         (em_EmployeeName m) (em_EventSerialNumber m)) decode_string;
    fld "majorEventType" em_MajorEventType
      (fun m v => mkEventMessage (em_SchemaVersion m) (em_Source m) (em_EventID m) (em_TerminalSerialNumber m)
         (em_PushSDKSerial m) v (em_SubEventType m) (em_EventState m) (em_OccurredAt m) (em_EmployeeNumber m)
         (em_EmployeeName m) (em_EventSerialNumber m)) decode_int;
    fld "subEventType" em_SubEventType
      (fun m v => mkEventMessage (em_SchemaVersion m) (em_Source m) (em_EventID m) (em_TerminalSerialNumber m)
         (em_PushSDKSerial m) (em_MajorEventType m) v (em_EventState m) (em_OccurredAt m) (em_EmployeeNumber m)
         (em_EmployeeName m) (em_EventSerialNumber m)) decode_int;
    fld "eventState" em_EventState
      (fun m v => mkEventMessage (em_SchemaVersion m) (em_Source m) (em_EventID m) (em_TerminalSerialNumber m)
         (em_PushSDKSerial m) (em_MajorEventType m) (em_SubEventType m) v (em_OccurredAt m) (em_EmployeeNumber m)
         (em_EmployeeName m) (em_EventSerialNumber m)) (decode_ptr "" decode_string);
    ("occurredAt", fun m e =>
      let set v := mkEventMessage (em_SchemaVersion m) (em_Source m) (em_EventID m) (em_TerminalSerialNumber m)
         (em_PushSDKSerial m) (em_MajorEventType m) (em_SubEventType m) (em_EventState m) v (em_EmployeeNumber m)
         (em_EmployeeName m) (em_EventSerialNumber m) in
      match e.2 with
      | JNull => Some (set None)
      | _ => t ← unmarshal_time e.1; Some (set (Some t))
      end);
    fld "employeeNoString" em_EmployeeNumber
      (fun m v => mkEventMessage (em_SchemaVersion m) (em_Source m) (em_EventID m) (em_TerminalSerialNumber m)
         (em_PushSDKSerial m) (em_MajorEventType m) (em_SubEventType m) (em_EventState m) (em_OccurredAt m) v
         (em_EmployeeName m) (em_EventSerialNumber m)) (decode_ptr "" decode_string);
    fld "employeeName" em_EmployeeName
      (fun m v => mkEventMessage (em_SchemaVersion m) (em_Source m) (em_EventID m) (em_TerminalSerialNumber m)
         (em_PushSDKSerial m) (em_MajorEventType m) (em_SubEventType m) (em_EventState m) (em_OccurredAt m)
         (em_EmployeeNumber m) v (em_EventSerialNumber m)) (decode_ptr "" decode_string);
    fld "eventSerialNumber" em_EventSerialNumber
      (fun m v => mkEventMessage (em_SchemaVersion m) (em_Source m) (em_EventID m) (em_TerminalSerialNumber m)
         (em_PushSDKSerial m) (em_MajorEventType m) (em_SubEventType m) (em_EventState m) (em_OccurredAt m)
         (em_EmployeeNumber m) (em_EmployeeName m) v) (decode_ptr 0 decode_int) ].

(** [json.Unmarshal(d.Body, &source)] *)
Definition unmarshal_EventMessage (body : bytes) : option EventMessage :=
  decode_exact (decode_struct false EventMessage_fields) zero_EventMessage body.

(** ** Sending *)
Record OutgoingRequest := {
  og_url : string;
  og_headers : list (string * string);
  og_body : bytes
}.

(** A response: its status, the bytes of its body, and whether reading them ends in an error. *)
Record IncomingResponse := { ir_code : Z; ir_body : bytes; ir_broken : bool }.

(** [io.ReadAll(io.LimitReader(body, limit))] *)
Definition read_limited (limit : nat) (r : IncomingResponse) : option bytes :=
  if (limit <=? length (ir_body r))%nat then Some (take limit (ir_body r))
  else if ir_broken r then None else Some (ir_body r).

(** The environment of a worker. *)
Class HTTPClient := {
  http_NewRequest_ok : string -> bool;       (* the destination is a URL net/url accepts *)
  client_Do : nat -> OutgoingRequest -> option IncomingResponse   (* the n-th exchange; [None]: no response *)
}.

(** The Go interface [Queue]. *)
Class DeliveryQueue := {
  q_st : Type;
  q_ctx : Type;
  claim_delivery : Tx store_error q_ctx q_st (option EventDelivery);
  finish_delivery : EventDelivery -> DeliveryStatus -> Z -> string -> time -> Tx store_error q_ctx q_st unit
}.

(** The attendance queue of the store. *)
#[export] Instance event_queue : DeliveryQueue := {|
  q_st := DB;
  q_ctx := TxCtx;
  claim_delivery := ClaimEventDelivery;
  finish_delivery := FinishEventDelivery
|}.

(** What a worker reads besides the queue: the context of its n-th call, whether that call
    reaches the database and whether its reply is lost after the commit, its n-th clock
    reading, and whether its run context is cancelled at the n-th check. *)
Record WorkerEnv `{DeliveryQueue} := {
  we_ctx : nat -> q_ctx;
  we_fault : nat -> bool;
  we_lost : nat -> bool;
  we_now : nat -> time;
  we_cancelled : nat -> bool
}.

Record WorkerState `{DeliveryQueue} := mkWorkerState {
  ws_queue : q_st;
  ws_calls : nat;
  ws_clock : nat;
  ws_exchanges : nat;
  ws_checks : nat
}.

Section worker.
Context `{CryptoLib} `{HTTPClient}.

(** The request [send] makes. *)
Definition signed_request (d : EventDelivery) (key : string) (unix : Z) : OutgoingRequest :=
  let timestamp := itoa unix in
  {| og_url := ev_EndpointURL d;
     og_headers := [("Content-Type", "application/json"); ("Accept", "application/json");
                    ("X-PushSDK-Key-Id", ev_SigningKeyID d); ("X-PushSDK-Timestamp", timestamp);
                    ("X-PushSDK-Signature", Signature key timestamp (ev_Body d))];
     og_body := ev_Body d |}.

(** What a response means for the delivery. *)
Definition judge (d : EventDelivery) (response : IncomingResponse) : DeliveryStatus * Z * string :=
  let code := ir_code response in
  if (code =? 408) || (code =? 429) || (500 <=? code) then (DlvPending, code, "receiver_unavailable")
  else if negb (code =? 200) then (DlvFailed, code, "receiver_rejected")
  else match read_limited 4097 response with
  | None => (DlvFailed, code, "invalid_receipt")
  | Some body =>
      if (4096 <? length body)%nat then (DlvFailed, code, "invalid_receipt")
      else
        let attachmentID := if ev_Attachment d then "Picture" else "" in
        match unmarshal_EventMessage (ev_Body d) with
        | None => (DlvFailed, code, "invalid_receipt")
        | Some source =>
            if validReceipt body (em_EventID source) (em_SchemaVersion source) attachmentID
            then (DlvDelivered, code, "") else (DlvFailed, code, "invalid_receipt")
        end
  end.

Definition send (keys : gmap string string) (d : EventDelivery) (unix : Z) (exchange : nat)
    : DeliveryStatus * Z * string :=
  match keys !! ev_SigningKeyID d with
  | None => (DlvFailed, 0, "signing_key_unavailable")
  | Some key =>
      if negb (http_NewRequest_ok (ev_EndpointURL d)) then (DlvFailed, 0, "invalid_destination")
      else match client_Do exchange (signed_request d key unix) with
      | None => (DlvPending, 0, "network_error")
      | Some response => judge d response
      end
  end.

(** ** The loop *)
Context `{DeliveryQueue} (keys : gmap string string) (env : WorkerEnv).

Definition queue_call {A} (m : Tx store_error q_ctx q_st A) (w : WorkerState) : result store_error A * WorkerState :=
  let next q := mkWorkerState _ q (S (ws_calls w)) (ws_clock w) (ws_exchanges w) (ws_checks w) in
  if we_fault env (ws_calls w) then (Err ErrDatabase, next (ws_queue w))
  else match m (we_ctx env (ws_calls w)) (ws_queue w) with
       | Ok (a, q') => (if we_lost env (ws_calls w) then Err ErrDatabase else Ok a, next q')
       | Err e => (Err e, next (ws_queue w))
       end.

(** One claimed delivery: sent, and its outcome saved. *)
Definition deliver (d : EventDelivery) (w : WorkerState) : WorkerState :=
  let '(status, code, failure) := send keys d (Unix (we_now env (ws_clock w))) (ws_exchanges w) in
  let next := we_now env (S (ws_clock w)) + RetryDelay (ev_Attempts d) in
  let w1 := mkWorkerState _ (ws_queue w) (ws_calls w) (S (S (ws_clock w))) (S (ws_exchanges w)) (ws_checks w) in
  (queue_call (finish_delivery d status code failure next) w1).2.

(** The body of a tick of [Run]: at most [budget] deliveries; [true] when the run
    context was cancelled. *)
Fixpoint drain (budget : nat) (w : WorkerState) : bool * WorkerState :=
  match budget with
  | O => (false, w)
  | S budget' =>
      match queue_call claim_delivery w with
      | (Ok (Some d), w1) =>
          let w2 := deliver d w1 in
          let w3 := mkWorkerState _ (ws_queue w2) (ws_calls w2) (ws_clock w2) (ws_exchanges w2) (S (ws_checks w2)) in
          if we_cancelled env (ws_checks w2) then (true, w3) else drain budget' w3
      | (_, w1) => (false, w1)
      end
  end.

Definition tick (w : WorkerState) : bool * WorkerState := drain 25 w.

(** [Run]: [ticks] ticks of its ticker, then its context is done. *)
Fixpoint Run (ticks : nat) (w : WorkerState) : WorkerState :=
  match ticks with
  | O => w
  | S ticks' => let '(cancelled, w') := tick w in if (cancelled : bool) then w' else Run ticks' w'
  end.
End worker.
