(* ===== verification/Attachments.v ===== *)
(** internal/store/event_attachments.go: the queue of picture deliveries, which
    follows the attendance queue, its listing, its manual retry and its backfill. *)

From Stdlib Require Import ZArith Lia Ascii String.
From stdpp Require Import base gmap strings list option.
From S2P Require Import Prelude GoText GoTime GoJSON GoHTTP GoURL GoCrypto AccessControl StoreTypes Database.
From S2P Require Import StoreCore Deliveries Worker.

Local Open Scope string_scope.
Local Open Scope Z_scope.

Definition ErrBackfillPreviewChanged : store_error := ErrSentinel "ErrBackfillPreviewChanged".
Definition ErrBackfillRouteDisabled : store_error := ErrSentinel "ErrBackfillRouteDisabled".
Definition ErrBackfillTooLarge : store_error := ErrSentinel "ErrBackfillTooLarge".
Definition ErrBackfillEmpty : store_error := ErrSentinel "ErrBackfillEmpty".

(** ** Messages *)
Record AttachmentMessage := {
  am_SchemaVersion : Z;
  am_Kind : string;
  am_Source : string;
  am_EventID : string;
  am_TerminalSerialNumber : string;
  am_PushSDKSerial : string;
  am_AttachmentID : string;
  am_Availability : string;
  am_Reason : option string;
  am_Attachment : option Attachment
}.

Definition attachment_json (a : Attachment) : jout :=
  OObject [("contentType", OString (at_ContentType a)); ("byteSize", OInt (at_ByteSize a));
           ("sha256", OString (at_SHA256 a)); ("dataBase64", OString (at_DataBase64 a))].

Definition attachment_message_json (m : AttachmentMessage) : jout :=
  OObject [("schemaVersion", OInt (am_SchemaVersion m)); ("kind", OString (am_Kind m));
           ("source", OString (am_Source m)); ("eventId", OString (am_EventID m));
           ("terminalSerialNumber", OString (am_TerminalSerialNumber m));
           ("pushSdkSerial", OString (am_PushSDKSerial m)); ("attachmentId", OString (am_AttachmentID m));
           ("availability", OString (am_Availability m)); ("reason", json_option OString (am_Reason m));
           ("attachment", json_option attachment_json (am_Attachment m))].

(** The destination of the pictures of an endpoint. *)
Definition attachment_endpoint (u : NetURL.URL) : NetURL.URL :=
  let suffix := bytes_of "/attachments" in
  NetURL.mkURL (NetURL.Scheme u) (NetURL.Opaque u) (NetURL.User u) (NetURL.Host u) (NetURL.Path u ++ suffix)%list
    (if bool_decide (NetURL.RawPath u = []) then [] else NetURL.RawPath u ++ suffix)%list
    (NetURL.OmitHost u) (NetURL.ForceQuery u) (NetURL.RawQuery u) (NetURL.Fragment u) (NetURL.RawFragment u).

(** ** The queue *)
Definition with_attachment_queue (a : AttachmentRow) (q : QueueRow) : AttachmentRow :=
  mkAttachmentRow (ar_event_delivery_id a) (ar_request_body a) (ar_availability a) (ar_reason a) q.
Definition with_body (a : AttachmentRow) (body : bytes) (availability : string) (reason : option string)
    : AttachmentRow :=
  mkAttachmentRow (ar_event_delivery_id a) (Some body) (Some availability) reason (ar_queue a).

Definition parent_delivered (d : DB) (a : AttachmentRow) : option DeliveryRow :=
  parent ← db_deliveries d !! ar_event_delivery_id a;
  if bool_decide (qr_status (dr_queue parent) = DlvDelivered) then Some parent else None.

(** The candidates of a claim: due, on an enabled route, behind a delivered event. *)
Definition attachment_candidates (d : DB) (now : time) : list (Z * AttachmentRow) :=
  order_by id_leb (select (fun _ a => match parent_delivered d a with
                                      | Some parent => route_enabled d (dr_terminal_serial_number parent)
                                                       && claimable now (ar_queue a)
                                      | None => false
                                      end) (db_attachments d)).

(** [CHECK (availability IN (..))] *)
Definition availability_check (availability : string) : bool :=
  bool_decide (availability = "available") || bool_decide (availability = "not_provided")
  || bool_decide (availability = "unavailable").

Section attachments.
Context `{GoParsers} `{CryptoLib}.

(** The message of a picture, built when it is first claimed. *)
Definition attachment_message (event : EventMessage) (picture : picture_result) : AttachmentMessage :=
  let '(attachment, availability, reason) := picture in
  {| am_SchemaVersion := 1; am_Kind := "event_attachment";
     am_Source := if em_SchemaVersion event =? 1 then "pushsdk" else em_Source event;
     am_EventID := em_EventID event; am_TerminalSerialNumber := em_TerminalSerialNumber event;
     am_PushSDKSerial := em_PushSDKSerial event; am_AttachmentID := "Picture";
     am_Availability := availability; am_Reason := reason; am_Attachment := attachment |}.

(** The archived payload of the device event behind a delivery; a NULL payload does
    not scan into a Go string. *)
Definition archived_payload (d : DB) (parent : DeliveryRow) : option (DeviceEventRow * option string) :=
  event ← dr_device_event_id parent; e ← db_device_events d !! event; Some (e, de_payload_base64 e).

Definition build_message (parent : DeliveryRow) : Txn AttachmentMessage :=
  match unmarshal_EventMessage (dr_request_body parent) with
  | None => tx_fail (ErrText "json.Unmarshal")
  | Some event =>
      let source := if em_SchemaVersion event =? 1 then "pushsdk" else em_Source event in
      if bool_decide (source = "pushsdk") then
        found ← db_get (fun d => archived_payload d parent);
        match found with
        | None => tx_fail ErrNoRows
        | Some (_, None) => tx_fail ErrDatabase
        | Some (e, Some payload) => mret (attachment_message event (DeliveryPicture (de_data_format e) payload))
        end
      else mret (attachment_message event (None, "not_provided", None))
  end.

(** The body of a picture: stored with its availability when it is first claimed. *)
Definition attachment_body (id : Z) (a : AttachmentRow) (parent : DeliveryRow) : Txn bytes :=
  match ar_request_body a with
  | Some body => mret body
  | None =>
      message ← build_message parent;
      let body := json_Marshal (attachment_message_json message) in
      constraint (availability_check (am_Availability message));;
      db_set (on_attachments (alter (fun a => with_body a body (am_Availability message) (am_Reason message)) id));;
      mret body
  end.

Definition picture_delivery (id : Z) (a : AttachmentRow) (parent : DeliveryRow) (endpoint : NetURL.URL) (body : bytes)
    : EventDelivery :=
  {| ev_Attachment := true;
     ev_ID := id;
     ev_DeviceEventID := None;
     ev_RetainedEventID := None;
     ev_BackfillID := None;
     ev_TerminalSerialNumber := dr_terminal_serial_number parent;
     ev_EndpointURL := NetURL.String_ (attachment_endpoint endpoint);
     ev_SigningKeyID := dr_signing_key_id parent;
     ev_Status := "";
     ev_Attempts := qr_attempts (ar_queue a) + 1;
     ev_NextAttemptAt := zero_Time;
     ev_LastHTTPStatus := None;
     ev_LastError := None;
     ev_CreatedAt := zero_Time;
     ev_DeliveredAt := None;
     ev_Body := body |}.

(** [AttachmentQueue.ClaimEventDelivery] *)
Definition ClaimAttachment_tx : Txn (option EventDelivery) :=
  now ← sql_now;
  candidates ← db_get (fun d => attachment_candidates d now);
  match candidates with
  | [] => mret None
  | (id, a) :: _ =>
      found ← db_get (fun d => parent_delivered d a);
      match found with
      | None => mret None                       (* not reached: a candidate has its parent *)
      | Some parent =>
          match NetURL.Parse (dr_endpoint_url parent) with
          | None => tx_fail (ErrText "url.Parse")
          | Some endpoint =>
              body ← attachment_body id a parent;
              db_set (on_attachments (alter (fun a => with_attachment_queue a (claimed now (ar_queue a))) id));;
              mret (Some (picture_delivery id a parent endpoint body))
          end
      end
  end.

Definition ClaimAttachment : Tx store_error TxCtx DB (option EventDelivery) := run ClaimAttachment_tx.

(** [AttachmentQueue.FinishEventDelivery] *)
Definition FinishAttachment_tx (d : EventDelivery) (status : DeliveryStatus) (code : Z) (failure : string)
    (next : time) : Txn unit :=
  now ← sql_now;
  row ← db_get (fun db => db_attachments db !! ev_ID d);
  match row with
  | Some a =>
      if owned d (ar_queue a) then
        db_set (on_attachments <[ev_ID d := with_attachment_queue a (finished now status code failure next (ar_queue a))]>)
      else tx_fail (ErrText "attachment delivery lease is no longer owned")
  | None => tx_fail (ErrText "attachment delivery lease is no longer owned")
  end.

Definition FinishAttachment (d : EventDelivery) (status : DeliveryStatus) (code : Z) (failure : string)
    (next : time) : Tx store_error TxCtx DB unit :=
  run (FinishAttachment_tx d status code failure next).

(** The queue of pictures behind the interface of the worker. *)
Definition attachment_queue : DeliveryQueue := {|
  q_st := DB;
  q_ctx := TxCtx;
  claim_delivery := ClaimAttachment;
  finish_delivery := FinishAttachment
|}.
End attachments.

(** ** Administration *)
Definition RetryAttachmentDelivery_tx (id actor : Z) : Txn unit :=
  now ← sql_now;
  found ← db_get (fun d =>
    a ← db_attachments d !! id; parent ← db_deliveries d !! ar_event_delivery_id a;
    _ ← db_terminals d !! dr_terminal_serial_number parent; Some (a, parent));
  match found with
  | None => tx_fail ErrNoRows
  | Some (a, parent) =>
      if bool_decide (qr_status (ar_queue a) = DlvFailed) then
        db_set (on_attachments <[id := with_attachment_queue a (retried now (ar_queue a))]>);;
        insertGatewayActivity (activity.event "admin.attachment_delivery_retried" (dr_terminal_serial_number parent)
          "failed attachment queued for retry"
          (<["attachmentDeliveryId" := activity.VInt id]> (<["adminUserId" := activity.VInt actor]> ∅)));;
        mret tt
      else tx_fail ErrNoRows
  end.

Definition RetryAttachmentDelivery (id actor : Z) : Tx store_error TxCtx DB unit :=
  run (RetryAttachmentDelivery_tx id actor).

(** ** Backfill *)
Record AttachmentBackfillPreview := {
  ap_ThroughDeliveryID : Z;
  ap_Eligible : Z;
  ap_Token : string;
  ap_IDs : list Z
}.

(** A delivered event of the terminal without an attachment row. *)
Definition lacks_attachment (d : DB) (serial : string) (through id : Z) (r : DeliveryRow) : bool :=
  bool_decide (dr_terminal_serial_number r = serial) && (id <=? through)
  && bool_decide (qr_status (dr_queue r) = DlvDelivered)
  && negb (exists_row (fun _ a => ar_event_delivery_id a =? id) (db_attachments d)).

Definition attachment_backfill_rows (d : DB) (serial : string) (through : Z) : list (Z * DeliveryRow) :=
  sql_limit 5001 (order_by id_leb (select (lacks_attachment d serial through) (db_deliveries d))).

(** [coalesce(max(id),0)] *)
Definition last_delivery (d : DB) (serial : string) : Z :=
  foldr (fun r m => Z.max r.1 m) 0
    (select (fun _ r => bool_decide (dr_terminal_serial_number r = serial)) (db_deliveries d)).

(** What the digest reads: [Encode] ends every value with a newline. *)
Definition encode_line (j : jout) : bytes := (json_Marshal j ++ [byte_of 10])%list.
Definition attachment_manifest (serial : string) (through : Z) (rows : list (Z * DeliveryRow)) : bytes :=
  (encode_line (OString serial) ++ encode_line (OInt through)
   ++ (rows ≫= fun r => encode_line (OArray [OInt r.1; OString (dr_endpoint_url r.2);
                                             OString (dr_signing_key_id r.2)])))%list.

Section backfill.
Context `{CryptoLib}.

Definition previewAttachments (serial : string) (through : Z) : Txn AttachmentBackfillPreview :=
  route ← db_get (fun d => db_routes d !! serial);
  match route with
  | None => tx_fail ErrNoRows
  | Some r =>
      if negb (ro_enabled r) then tx_fail ErrBackfillRouteDisabled else
      through ← (if through =? 0 then db_get (fun d => last_delivery d serial) else mret through);
      rows ← db_get (fun d => attachment_backfill_rows d serial through);
      if 5000 <? zlen rows then tx_fail ErrBackfillTooLarge else
      mret {| ap_ThroughDeliveryID := through;
              ap_Eligible := zlen rows;
              ap_Token := hex_EncodeToString (sha256_Sum256 (attachment_manifest serial through rows));
              ap_IDs := rows.*1 |}
  end.

(** The transaction is rolled back: a preview changes nothing. *)
Definition PreviewAttachmentBackfill (serial : string) (through : Z)
    : Tx store_error TxCtx DB AttachmentBackfillPreview :=
  run (previewAttachments serial through).

Definition QueueAttachmentBackfill_tx (serial : string) (through : Z) (token : string) (actor : Z) : Txn Z :=
  known ← db_get (fun d => bool_decide (is_Some (db_terminals d !! serial)));
  if negb known then tx_fail ErrNoRows else
  p ← previewAttachments serial through;
  if negb (bool_decide (ap_Token p = token)) then tx_fail ErrBackfillPreviewChanged
  else if ap_Eligible p =? 0 then tx_fail ErrBackfillEmpty
  else
  tx_for (fun _ id => enqueueAttachment id) (ap_IDs p) tt;;
  insertGatewayActivity (activity.event "admin.attachment_backfill_queued" serial
    "historical attachment receipts queued without attendance replay"
    (<["queuedCount" := activity.VInt (ap_Eligible p)]> (<["throughDeliveryId" := activity.VInt through]>
      (<["previewToken" := activity.VString token]> (<["adminUserId" := activity.VInt actor]> ∅)))));;
  mret (ap_Eligible p).

Definition QueueAttachmentBackfill (serial : string) (through : Z) (token : string) (actor : Z)
    : Tx store_error TxCtx DB Z :=
  run (QueueAttachmentBackfill_tx serial through token actor).
End backfill.

(** ** Listing *)
Record AttachmentDelivery := {
  ad_EventDelivery : EventDelivery;
  ad_EventDeliveryID : Z;
  ad_Availability : option string;
  ad_Reason : option string
}.
