(* ===== verification/Backfills.v ===== *)
(** internal/store/event_backfills.go: the preview of the archived events a route has
    not delivered, bound by a token to the exact bodies, and their queueing. *)

From Stdlib Require Import ZArith Lia Ascii String.
From stdpp Require Import base gmap strings list option.
From S2P Require Import Prelude GoText GoTime GoJSON GoHTTP GoCrypto AccessControl StoreTypes Database StoreCore.
From S2P Require Import Deliveries Worker Attachments.

Local Open Scope string_scope.
Local Open Scope Z_scope.

(** ** Values *)
Record BackfillIdentity := mkBackfillIdentity {
  bi_EmployeeNumber : string;
  bi_Names : list string;
  bi_Events : Z;
  bi_FirstScan : Time;
  bi_LastScan : Time
}.

Record backfillCandidate := {
  bc_Source : string;
  bc_ID : Z;
  bc_Body : bytes
}.

Record BackfillPreview := mkBackfillPreview {
  bp_Token : string;
  bp_Route : DeliveryRoute;
  bp_StartsAt : Time;
  bp_EndsAt : Time;
  bp_Eligible : Z;
  bp_AlreadyQueued : Z;
  bp_DuplicateSources : Z;
  bp_Invalid : Z;
  bp_PushSDKEvents : Z;
  bp_ISAPIEvents : Z;
  bp_Identities : list BackfillIdentity;
  bp_candidates : list backfillCandidate
}.

Definition time_json (t : Time) : jout := OString (Format_RFC3339Nano t).
Definition route_json (r : DeliveryRoute) : jout :=
  OObject [("terminalSerialNumber", OString (rt_TerminalSerialNumber r)); ("endpointUrl", OString (rt_EndpointURL r));
           ("signingKeyId", OString (rt_SigningKeyID r)); ("enabled", OBool (rt_Enabled r))].
Definition identity_json (i : BackfillIdentity) : jout :=
  OObject [("employeeNumber", OString (bi_EmployeeNumber i)); ("names", OArray (OString <$> bi_Names i));
           ("events", OInt (bi_Events i)); ("firstScan", time_json (bi_FirstScan i));
           ("lastScan", time_json (bi_LastScan i))].
Definition preview_json (p : BackfillPreview) : jout :=
  OObject [("token", OString (bp_Token p)); ("route", route_json (bp_Route p));
           ("startsAt", time_json (bp_StartsAt p)); ("endsAt", time_json (bp_EndsAt p));
           ("eligible", OInt (bp_Eligible p)); ("alreadyQueued", OInt (bp_AlreadyQueued p));
           ("duplicateSources", OInt (bp_DuplicateSources p)); ("invalid", OInt (bp_Invalid p));
           ("pushSdkEvents", OInt (bp_PushSDKEvents p)); ("isapiEvents", OInt (bp_ISAPIEvents p));
           ("identities", OArray (identity_json <$> bp_Identities p))].
(** A byte slice marshals as its Base64 text. *)
Definition candidate_json (c : backfillCandidate) : jout :=
  OObject [("source", OString (bc_Source c)); ("id", OInt (bc_ID c));
           ("body", OString (b64_EncodeToString (bc_Body c)))].

(** The bytes the token is the digest of. *)
Definition backfill_manifest (p : BackfillPreview) : bytes :=
  json_Marshal (OObject [("Preview", preview_json p); ("Candidates", OArray (candidate_json <$> bp_candidates p))]).

(** [json.Marshal] of the manifest fails on a time without RFC 3339 text. *)
Definition manifest_ok (p : BackfillPreview) : bool :=
  MarshalJSON_ok (bp_StartsAt p) && MarshalJSON_ok (bp_EndsAt p)
  && forallb (fun i => MarshalJSON_ok (bi_FirstScan i) && MarshalJSON_ok (bi_LastScan i)) (bp_Identities p).

(** ** Validity *)

(** [utf8.ValidString] *)
Definition utf8_valid (s : string) : bool :=
  forallb (fun r => negb ((r.1 =? Utf8.RuneError) && (length r.2 =? 1)%nat)) (Mime.segments 0 (bytes_of s)).
Definition rune_count (s : string) : Z := zlen (Utf8.runes (bytes_of s)).

(** [^[A-Za-z0-9._:-]{1,64}$] *)
Definition eventIdentifier (s : string) : bool :=
  class_between (fun c => is_alnum c || bool_decide (c ∈ bytes_of "._:-")) 1 64 s.

Definition validBackfillMessage (m : EventMessage) : bool :=
  match em_OccurredAt m, em_EmployeeNumber m with
  | Some _, Some number =>
      eventIdentifier (em_EventID m) && utf8_valid number
      && negb (rune_count number =? 0) && negb (32 <? rune_count number)
      && forallb (fun r => negb (Utf8.IsSpace r)) (Utf8.runes (bytes_of number))
      && match em_EmployeeName m with
         | Some name => utf8_valid name && negb (100 <? rune_count name)
         | None => true
         end
      && match em_EventSerialNumber m with Some n => 0 <=? n | None => true end
  | _, _ => false
  end.

(** ** The archived events of a range *)

(** One row of the query: its source and id, the message it makes, and whether it is queued. *)
Record archive_row := {
  ar_source : string;
  ar_id : Z;
  ar_message : EventMessage;
  ar_queued : bool
}.

Definition in_range (from until : time) (p : Projection) : bool :=
  match pj_OccurredAt p with
  | Some t => (to_micros from <=? t_ns t) && (t_ns t <? to_micros until)
  | None => false
  end.

Definition face_authentication (p : Projection) : bool :=
  (pj_MajorEventType p =? 5) && (pj_SubEventType p =? 75).

(** The literal of the loop with the scanned columns; times come in the process's zone. *)
Definition backfill_message (zone : time -> Z) (serial pushSerial source eventID : string)
    (state : option string) (p : Projection) : EventMessage :=
  mkEventMessage 2 source eventID serial pushSerial 5 75 state
    ((fun t => mkTime (t_ns t) (zone (t_ns t))) <$> pj_OccurredAt p)
    (pj_EmployeeNumber p) (pj_EmployeeName p) (pj_EventSerialNumber p).

Definition live_rows (d : DB) (zone : time -> Z) (serial pushSerial : string) (from until : time) : list archive_row :=
  omap (fun r : Z * DeviceEventRow =>
    let '(id, e) := r in
    row ← db_projections d !! id; p ← pr_projection row;
    if bool_decide (de_terminal_serial_number e = serial) && face_authentication p
       && bool_decide (pj_EventState p = Some "active") && in_range from until p then
      Some {| ar_source := "pushsdk"; ar_id := id;
              ar_message := backfill_message zone serial pushSerial "pushsdk" (de_vendor_event_id e)
                              (pj_EventState p) p;
              ar_queued := exists_row (fun _ x => bool_decide (dr_device_event_id x = Some id)) (db_deliveries d) |}
    else None) (order_by id_leb (map_to_list (db_device_events d))).

Definition retained_rows (d : DB) (zone : time -> Z) (serial pushSerial : string) (from until : time)
    : list archive_row :=
  omap (fun r : Z * RetainedRow =>
    let '(id, e) := r in
    let p := re_projection e in
    if bool_decide (re_terminal_serial_number e = serial) && face_authentication p && in_range from until p then
      Some {| ar_source := "isapi"; ar_id := id;
              ar_message := backfill_message zone serial pushSerial "isapi"
                              (hex_EncodeToString (re_source_sha256 e)) None p;
              ar_queued := exists_row (fun _ x => bool_decide (dr_retained_event_id x = Some id)) (db_deliveries d) |}
    else None) (order_by id_leb (map_to_list (db_retained d))).

(** [UNION ALL .. JOIN terminals .. ORDER BY a.source DESC, a.id LIMIT 10001] *)
Definition archive_rows (d : DB) (zone : time -> Z) (serial : string) (from until : time) : list archive_row :=
  match db_terminals d !! serial with
  | None => []
  | Some t =>
      sql_limit 10001 (live_rows d zone serial (tr_pushsdk_serial t) from until
                       ++ retained_rows d zone serial (tr_pushsdk_serial t) from until)%list
  end.

(** ** The loop *)

(** An event both archives have: instant, person, name and serial number. *)
Definition sharedIdentity : Type := string * string * option string * Z.

Definition shared_identity (m : EventMessage) : option sharedIdentity :=
  serial ← em_EventSerialNumber m; at_ ← em_OccurredAt m; person ← em_EmployeeNumber m;
  Some (Format_RFC3339Nano (mkTime (t_ns at_) 0), person, em_EmployeeName m, serial).

(** The identity entry of a person after one more event. *)
Definition see_identity (i : option BackfillIdentity) (person : string) (name : option string) (at_ : Time)
    : BackfillIdentity :=
  let i := default (mkBackfillIdentity person [] 0 at_ at_) i in
  mkBackfillIdentity (bi_EmployeeNumber i)
    (match name with
     | Some n => if bool_decide (n ∈ bi_Names i) then bi_Names i else bi_Names i ++ [n]
     | None => bi_Names i
     end)%list
    (bi_Events i + 1)
    (if t_ns at_ <? t_ns (bi_FirstScan i) then at_ else bi_FirstScan i)
    (if t_ns (bi_LastScan i) <? t_ns at_ then at_ else bi_LastScan i).

Record backfill_acc := mkAcc {
  acc_invalid : Z;
  acc_duplicates : Z;
  acc_queued : Z;
  acc_pushsdk : gset sharedIdentity;
  acc_identities : gmap string BackfillIdentity;
  acc_candidates : list backfillCandidate;
  acc_push_events : Z;
  acc_isapi_events : Z
}.

Definition empty_acc : backfill_acc := mkAcc 0 0 0 ∅ ∅ [] 0 0.

(** One valid row that is neither a duplicate nor queued. *)
Definition add_candidate (acc : backfill_acc) (r : archive_row) (body : bytes) : backfill_acc :=
  let m := ar_message r in
  mkAcc (acc_invalid acc) (acc_duplicates acc) (acc_queued acc) (acc_pushsdk acc)
    (match em_EmployeeNumber m, em_OccurredAt m with
     | Some person, Some at_ =>
         <[person := see_identity (acc_identities acc !! person) person (em_EmployeeName m) at_]> (acc_identities acc)
     | _, _ => acc_identities acc
     end)
    (acc_candidates acc ++ [{| bc_Source := ar_source r; bc_ID := ar_id r;
                               bc_Body := body |}])%list
    (if bool_decide (ar_source r = "pushsdk") then acc_push_events acc + 1 else acc_push_events acc)
    (if bool_decide (ar_source r = "pushsdk") then acc_isapi_events acc else acc_isapi_events acc + 1).

Definition backfill_row (acc : backfill_acc) (r : archive_row) : result store_error backfill_acc :=
  let m := ar_message r in
  if negb (validBackfillMessage m) then
    Ok (mkAcc (acc_invalid acc + 1) (acc_duplicates acc) (acc_queued acc) (acc_pushsdk acc) (acc_identities acc)
          (acc_candidates acc) (acc_push_events acc) (acc_isapi_events acc))
  else
  let shared := shared_identity m in
  let seen := match shared with Some s => bool_decide (s ∈ acc_pushsdk acc) | None => false end in
  if bool_decide (ar_source r = "isapi") && seen then
    Ok (mkAcc (acc_invalid acc) (acc_duplicates acc + 1) (acc_queued acc) (acc_pushsdk acc) (acc_identities acc)
          (acc_candidates acc) (acc_push_events acc) (acc_isapi_events acc))
  else
  let pushSDK := match shared with
                 | Some s => if bool_decide (ar_source r = "pushsdk") then {[s]} ∪ acc_pushsdk acc else acc_pushsdk acc
                 | None => acc_pushsdk acc
                 end in
  let acc := mkAcc (acc_invalid acc) (acc_duplicates acc) (acc_queued acc) pushSDK (acc_identities acc)
               (acc_candidates acc) (acc_push_events acc) (acc_isapi_events acc) in
  if ar_queued r then
    Ok (mkAcc (acc_invalid acc) (acc_duplicates acc) (acc_queued acc + 1) pushSDK (acc_identities acc)
          (acc_candidates acc) (acc_push_events acc) (acc_isapi_events acc))
  else match marshal_message m with
       | Some body => Ok (add_candidate acc r body)
       | None => Err (ErrText "json.Marshal")
       end.

(** [sort.Strings(identity.Names)], then [sort.Slice] by employee number. *)
Definition sorted_identities (m : gmap string BackfillIdentity) : list BackfillIdentity :=
  order_by (fun a b => String.leb (bi_EmployeeNumber a) (bi_EmployeeNumber b))
    ((fun i => mkBackfillIdentity (bi_EmployeeNumber i) (order_by String.leb (bi_Names i)) (bi_Events i)
                 (bi_FirstScan i) (bi_LastScan i)) <$> (map_to_list m).*2).

Section backfills.
Context `{CryptoLib}.

(** The preview of the accumulated rows, its token not yet set. *)
Definition preview_of (route : DeliveryRoute) (from until : Time) (acc : backfill_acc) : BackfillPreview :=
  mkBackfillPreview "" route from until (zlen (acc_candidates acc)) (acc_queued acc) (acc_duplicates acc)
    (acc_invalid acc) (acc_push_events acc) (acc_isapi_events acc) (sorted_identities (acc_identities acc))
    (acc_candidates acc).

Definition with_token (p : BackfillPreview) : BackfillPreview :=
  mkBackfillPreview (hex_EncodeToString (sha256_Sum256 (backfill_manifest p))) (bp_Route p) (bp_StartsAt p)
    (bp_EndsAt p) (bp_Eligible p) (bp_AlreadyQueued p) (bp_DuplicateSources p) (bp_Invalid p)
    (bp_PushSDKEvents p) (bp_ISAPIEvents p) (bp_Identities p) (bp_candidates p).

Definition previewEventBackfill (serial : string) (from until : Time) : Txn BackfillPreview :=
  found ← db_get (fun d => db_routes d !! serial);
  match found with
  | None => tx_fail ErrNoRows
  | Some r =>
      let route := {| rt_TerminalSerialNumber := serial; rt_EndpointURL := ro_endpoint_url r;
                      rt_SigningKeyID := ro_signing_key_id r; rt_Enabled := ro_enabled r |} in
      if negb (rt_Enabled route) then tx_fail ErrBackfillRouteDisabled else
      zone ← tx_ctx cx_zone;
      rows ← db_get (fun d => archive_rows d zone serial (t_ns from) (t_ns until));
      match foldR backfill_row (take (Z.to_nat 10000) rows) empty_acc with
      | Err err => tx_fail err
      | Ok acc =>
          if 10000 <? zlen rows then tx_fail ErrBackfillTooLarge else
          let p := preview_of route from until acc in
          if manifest_ok p then mret (with_token p) else tx_fail (ErrText "json.Marshal")
      end
  end.

Definition PreviewEventBackfill (serial : string) (from until : Time) : Tx store_error TxCtx DB BackfillPreview :=
  run (previewEventBackfill serial from until).

(** One candidate of [QueueEventBackfill] with its attachment row. *)
Definition queue_candidate (serial : string) (batch : Z) (route : DeliveryRoute) (c : backfillCandidate) : Txn unit :=
  let live := if bool_decide (bc_Source c = "pushsdk") then Some (bc_ID c) else None in
  let retained := if bool_decide (bc_Source c = "pushsdk") then None else Some (bc_ID c) in
  taken ← db_get (fun d => exists_row (fun _ x =>
    (bool_decide (is_Some live) && bool_decide (dr_device_event_id x = live))
    || (bool_decide (is_Some retained) && bool_decide (dr_retained_event_id x = retained))) (db_deliveries d));
  constraint (negb taken);;
  now ← sql_now;
  id ← insert_identity EventDeliveriesID db_deliveries on_deliveries
         (mkDeliveryRow live retained (Some batch) serial (rt_EndpointURL route) (rt_SigningKeyID route) (bc_Body c)
            (new_queue_row now));
  enqueueAttachment id.

Definition QueueEventBackfill_tx (serial : string) (from until : Time) (token : string) (actor : Z) : Txn (Z * Z) :=
  known ← db_get (fun d => bool_decide (is_Some (db_terminals d !! serial)));
  if negb known then tx_fail ErrNoRows else
  p ← previewEventBackfill serial from until;
  if negb (bool_decide (bp_Token p = token)) then tx_fail ErrBackfillPreviewChanged
  else if bp_Eligible p =? 0 then tx_fail ErrBackfillEmpty
  else
  constraint ((to_micros (t_ns from) <? to_micros (t_ns until)) && (0 <? bp_Eligible p));;
  admin_exists actor;;
  batch ← insert_identity DeliveryBackfillsID db_backfills on_backfills
            {| bf_terminal_serial_number := serial; bf_starts_at := to_micros (t_ns from);
               bf_ends_at := to_micros (t_ns until); bf_preview_sha256 := token;
               bf_queued_count := bp_Eligible p; bf_created_by := actor |};
  tx_for (fun _ c => queue_candidate serial batch (bp_Route p) c) (bp_candidates p) tt;;
  insertGatewayActivity (activity.event "admin.event_backfill_queued" serial
    "previewed historical events queued for delivery"
    (<["backfillId" := activity.VInt batch]> (<["queuedCount" := activity.VInt (bp_Eligible p)]>
      (<["startsAt" := activity.VString (Format_RFC3339Nano from)]>
        (<["endsAt" := activity.VString (Format_RFC3339Nano until)]>
          (<["adminUserId" := activity.VInt actor]> ∅))))));;
  mret (batch, bp_Eligible p).

Definition QueueEventBackfill (serial : string) (from until : Time) (token : string) (actor : Z)
    : Tx store_error TxCtx DB (Z * Z) :=
  run (QueueEventBackfill_tx serial from until token actor).
End backfills.
