(* ===== verification/Archive.v ===== *)
(** internal/store/store.go: the event archive — [InsertDeviceEventBatch] with its
    projection and delivery, the projection backfill, and the stored payloads. *)

From Stdlib Require Import ZArith Lia Ascii String.
From stdpp Require Import base gmap strings list option.
From S2P Require Import Prelude GoText GoTime AccessControl StoreTypes Database StoreCore Deliveries.

Local Open Scope string_scope.
Local Open Scope Z_scope.

Definition ErrUnknownArchiveEventSource : store_error := ErrSentinel "ErrUnknownArchiveEventSource".

(** ** Column types *)

(** INTEGER is 32 bits wide; TEXT holds no NUL. *)
Definition int4_ok (n : Z) : bool := (- 2 ^ 31 <=? n) && (n <=? 2 ^ 31 - 1).
Definition text_ok (s : string) : bool := forallb (fun c => negb (byte_val c =? 0)) (bytes_of s).

Definition opt_ok {A} (p : A -> bool) (o : option A) : bool := match o with Some a => p a | None => true end.

Definition face_ok (r : FaceRect) : bool :=
  opt_ok text_ok (fr_Height r) && opt_ok text_ok (fr_Width r) && opt_ok text_ok (fr_X r) && opt_ok text_ok (fr_Y r).

(** A projection fits the columns of its row. *)
Definition columns_ok (p : Projection) : bool :=
  int4_ok (pj_SubEventType p)
  && opt_ok int4_ok (pj_ChannelID p) && opt_ok int4_ok (pj_ActivePostCount p)
  && opt_ok int4_ok (pj_CardReaderNumber p) && opt_ok int4_ok (pj_DoorNumber p)
  && opt_ok int4_ok (pj_PicturesNumber p)
  && opt_ok text_ok (pj_EventDescription p) && opt_ok text_ok (pj_EventState p)
  && opt_ok text_ok (pj_SourceMACAddress p) && opt_ok text_ok (pj_ShortSerialNumber p)
  && opt_ok text_ok (pj_DeviceName p) && opt_ok text_ok (pj_EmployeeNumber p)
  && opt_ok text_ok (pj_EmployeeName p) && opt_ok text_ok (pj_CardNumber p)
  && opt_ok text_ok (pj_UserType p) && opt_ok text_ok (pj_CurrentVerifyMode p)
  && opt_ok text_ok (pj_Mask p) && opt_ok text_ok (pj_SourceIPAddress p)
  && opt_ok face_ok (pj_FaceRect p).

(** What a TIMESTAMPTZ column keeps of the time: the instant, to the microsecond. *)
Definition stored_projection (p : Projection) : Projection :=
  {| pj_MajorEventType := pj_MajorEventType p;
     pj_SubEventType := pj_SubEventType p;
     pj_EventDescription := pj_EventDescription p;
     pj_EventState := pj_EventState p;
     pj_OccurredAt := (fun t => mkTime (to_micros (t_ns t)) 0) <$> pj_OccurredAt p;
     pj_SourceMACAddress := pj_SourceMACAddress p;
     pj_ChannelID := pj_ChannelID p;
     pj_ActivePostCount := pj_ActivePostCount p;
     pj_ShortSerialNumber := pj_ShortSerialNumber p;
     pj_DeviceName := pj_DeviceName p;
     pj_EmployeeNumber := pj_EmployeeNumber p;
     pj_EmployeeName := pj_EmployeeName p;
     pj_CardNumber := pj_CardNumber p;
     pj_CardReaderNumber := pj_CardReaderNumber p;
     pj_DoorNumber := pj_DoorNumber p;
     pj_EventSerialNumber := pj_EventSerialNumber p;
     pj_FrontSerialNumber := pj_FrontSerialNumber p;
     pj_UserType := pj_UserType p;
     pj_CurrentVerifyMode := pj_CurrentVerifyMode p;
     pj_CurrentEvent := pj_CurrentEvent p;
     pj_Mask := pj_Mask p;
     pj_PicturesNumber := pj_PicturesNumber p;
     pj_PurePwdVerifyEnable := pj_PurePwdVerifyEnable p;
     pj_FaceRect := pj_FaceRect p;
     pj_SourceIPAddress := pj_SourceIPAddress p |}.

Section archive.
Context `{GoParsers}.

Definition insertAccessEventProjection (deviceEventID : Z) (dataFormat payloadBase64 : string) : Txn unit :=
  match Extract dataFormat payloadBase64 with
  | None =>
      db_set (on_projections <[deviceEventID := {| pr_schema_version := SchemaVersion; pr_projection := None |}]>)
  | Some projection =>
      constraint (columns_ok projection);;
      db_set (on_projections <[deviceEventID := {| pr_schema_version := SchemaVersion;
                                                   pr_projection := Some (stored_projection projection) |}]>)
  end.

(** [CHECK (data_format IN (...))] *)
Definition data_format_check (format : string) : bool :=
  bool_decide (format = "jsonData") || bool_decide (format = "xmlData")
  || bool_decide (format = "boundaryData") || bool_decide (format = "noData").

Definition same_event (terminal vendorID : string) (r : DeviceEventRow) : bool :=
  bool_decide (de_terminal_serial_number r = terminal) && bool_decide (de_vendor_event_id r = vendorID).

(** The body of the loop of [InsertDeviceEventBatch]. *)
Definition insert_device_event (persisted : list DeviceEventPersistence) (event : NewDeviceEvent)
    : Txn (list DeviceEventPersistence) :=
  constraint (data_format_check (nde_DataFormat event));;
  terminal_exists (nde_TerminalSerialNumber event);;
  duplicate ← db_get (fun d => exists_row (fun _ r =>
    same_event (nde_TerminalSerialNumber event) (nde_VendorEventID event) r) (db_device_events d));
  (if (duplicate : bool) then mret tt   (* ON CONFLICT DO NOTHING *)
   else
     now ← sql_now;
     id ← insert_identity DeviceEventsID db_device_events on_device_events
            {| de_terminal_serial_number := nde_TerminalSerialNumber event;
               de_vendor_event_id := nde_VendorEventID event;
               de_data_format := nde_DataFormat event;
               de_received_at := now;
               de_payload_base64 := Some (nde_PayloadBase64 event) |};
     insertAccessEventProjection id (nde_DataFormat event) (nde_PayloadBase64 event);;
     enqueueEventDelivery id);;
  let '(kind, message) :=
    if (duplicate : bool) then (activity.KindDeviceEventDuplicate, "device event payload was already retained")
    else (activity.KindDeviceEventPersisted, "device event payload persisted") in
  stored ← insertGatewayActivity (activity.event kind (nde_TerminalSerialNumber event) message
    (<["eventId" := activity.VString (nde_VendorEventID event)]>
       (<["dataFormat" := activity.VString (nde_DataFormat event)]> ∅)));
  mret (persisted ++ [{| dep_Inserted := negb duplicate; dep_Activity := stored |}])%list.

Definition InsertDeviceEventBatch (events : list NewDeviceEvent)
    : Tx store_error TxCtx DB (list DeviceEventPersistence) :=
  run (tx_for insert_device_event events []).

(** ** The projection backfill *)

(** [ace.device_event_id IS NULL OR ace.schema_version < $1] *)
Definition stale (d : DB) (id : Z) : bool :=
  match db_projections d !! id with
  | None => true
  | Some r => pr_schema_version r <? SchemaVersion
  end.

(** Rows without a projection of the current schema, at most 500, by id. *)
Definition backfill_rows (d : DB) : list (Z * DeviceEventRow) :=
  sql_limit 500 (order_by id_leb (select (fun id _ => stale d id) (db_device_events d))).

(** One transaction of [BackfillAccessEventProjections]; it returns the batch size. *)
Definition backfill_batch : Tx store_error TxCtx DB Z :=
  run (batch ← db_get backfill_rows;
       tx_for (fun _ r => insertAccessEventProjection r.1 (de_data_format r.2)
                            (default "" (de_payload_base64 r.2))) batch tt;;
       mret (zlen batch)).

(** The loop, each batch a transaction of its own, which meets a context or fails, and
    whose reply may be lost after the commit: the number of projected events and the error,
    if any.  [None] is a run that has not ended within the fuel. *)
Fixpoint BackfillAccessEventProjections (fuel : nat) (projected : Z) (ctx : nat -> option TxCtx)
    (lost : nat -> bool) (d : DB)
    : option (Z * option store_error * DB) :=
  match fuel with
  | O => None
  | S fuel' =>
      match from_option (fun c => backfill_batch c d) (Err ErrDatabase) (ctx fuel') with
      | Err e => Some (projected, Some e, d)
      | Ok (n, d') =>
          if lost fuel' then Some (projected, Some ErrDatabase, d')
          else if n =? 0 then Some (projected, None, d')
          else BackfillAccessEventProjections fuel' (projected + n) ctx lost d'
      end
  end.
End archive.

(** ** Stored payloads *)
Record DeviceEventPayload := {
  dp_ID : Z;
  dp_Source : string;
  dp_SourceRecordID : string;
  dp_DataFormat : string;
  dp_PayloadBase64 : option string
}.

(** [encode(_, 'base64')] of PostgreSQL breaks lines after 76 characters. *)
Fixpoint wrap76 (fuel : nat) (l : bytes) : bytes :=
  match fuel with
  | O => l
  | S f => if (length l <=? 76)%nat then l
           else (take 76 l ++ Ascii.ascii_of_nat 10 :: wrap76 f (drop 76 l))%list
  end.

Definition ArchiveEventPayload (source : string) (id : Z) : Tx store_error TxCtx DB (option DeviceEventPayload) :=
  run (if bool_decide (source = "pushsdk") then
         db_get (fun d => (fun r => {| dp_ID := id; dp_Source := "pushsdk";
                                       dp_SourceRecordID := de_vendor_event_id r;
                                       dp_DataFormat := de_data_format r;
                                       dp_PayloadBase64 := de_payload_base64 r |}) <$> db_device_events d !! id)
       else if bool_decide (source = "isapi") then
         db_get (fun d => (fun r => {| dp_ID := id; dp_Source := "isapi";
                                       dp_SourceRecordID := hex_EncodeToString (re_source_sha256 r);
                                       dp_DataFormat := "jsonData";
                                       dp_PayloadBase64 := Some (string_of (wrap76 (length (re_source_record r))
                                         (b64_encode (re_source_record r)))) |}) <$> db_retained d !! id)
       else tx_fail ErrUnknownArchiveEventSource).
