(* ===== verification/CommandQueue.v ===== *)
(** internal/store/isapi_commands.go: the durable command queue primitive that the
    administration API and the retained-event sync share. *)

From Stdlib Require Import ZArith Lia Ascii String.
From stdpp Require Import base gmap strings list option.
From S2P Require Import Prelude GoText GoTime AccessControl Crypto StoreTypes Database StoreCore Wire.

Local Open Scope string_scope.
Local Open Scope Z_scope.

Definition ErrISAPICommandTerminalNotFound : store_error := ErrSentinel "ErrISAPICommandTerminalNotFound".
Definition ErrISAPICommandTerminalOffline : store_error := ErrSentinel "ErrISAPICommandTerminalOffline".

Record AdminIdentity := { ai_ID : Z; ai_Username : string }.

Record NewISAPICommand := {
  nc_TerminalSerialNumber : string;
  nc_CreatedBy : AdminIdentity;
  nc_Method : string;
  nc_URL : string;
  nc_DataFormat : string;
  nc_Data : bytes;
  nc_ExpiresAt : time
}.

Record ISAPICommand := {
  ic_UUID : string;
  ic_TerminalSerialNumber : string;
  ic_CreatedByUsername : string;
  ic_Method : string;
  ic_URL : string;
  ic_DataFormat : string;
  ic_Status : CommandStatus;
  ic_CreatedAt : time;
  ic_ExpiresAt : time;
  ic_SentAt : option time;
  ic_CompletedAt : option time;
  ic_ResponseDataFormat : option string;
  ic_ResponseDataFormatDeclared : option bool;
  ic_ResponseDataAvailable : bool
}.

(** ** UUIDs *)

(** [bytes[i] = (bytes[i] & keep) | set_] *)
Definition mask_byte (keep set_ : Z) (b : ascii) : ascii :=
  byte_of (Z.lor (Z.land (byte_val b) keep) set_).

(** The version 4 UUID text of 16 random bytes. *)
Definition uuid_text (random : bytes) : string :=
  let b := alter (mask_byte 63 128) 8%nat (alter (mask_byte 15 64) 6%nat random) in
  let encoded := hex_encode b in
  let slice (i j : nat) := string_of (take (j - i) (drop i encoded)) in
  slice 0%nat 8%nat +:+ "-" +:+ slice 8%nat 12%nat +:+ "-" +:+ slice 12%nat 16%nat +:+ "-"
  +:+ slice 16%nat 20%nat +:+ "-" +:+ slice 20%nat 32%nat.

Definition newISAPICommandUUID : Txn string :=
  random ← go_rand 16;
  match random with
  | None => tx_fail (ErrText "generate ISAPI command UUID")
  | Some b => mret (uuid_text b)
  end.

(** ** Activity fields *)
Definition command_fields (uuid method url format : string) : gmap string activity.Value :=
  <["commandId" := activity.VString uuid]> (<["method" := activity.VString method]>
    (<["url" := activity.VString url]> (<["dataFormat" := activity.VString format]> ∅))).

(** [commandActivityFields]: the additional entries win. *)
Definition commandActivityFields (uuid method url format : string)
    (additional : gmap string activity.Value) : gmap string activity.Value :=
  additional ∪ command_fields uuid method url format.

(** ** Queueing *)

(** The CHECK constraints of a queued row of [isapi_commands]. *)
Definition command_check (uuid : string) (r : CommandRow) : bool :=
  commandUUID uuid
  && negb (bool_decide (cr_created_by_username r = ""))
  && (bool_decide (cr_method r = "GET") || bool_decide (cr_method r = "POST")
      || bool_decide (cr_method r = "PUT") || bool_decide (cr_method r = "DELETE"))
  && (8 <=? text_length (cr_url r)) && (text_length (cr_url r) <=? 4096)
  && bool_decide (take 7 (bytes_of (cr_url r)) = bytes_of "/ISAPI/")
  && supportedDataFormat (cr_data_format r)
  && (if bool_decide (cr_data_format r = "noData") then bool_decide (cr_request_data r = [])
      else negb (bool_decide (cr_request_data r = [])))
  && (cr_created_at r <? cr_expires_at r).

Definition queueISAPICommandTx (input : NewISAPICommand) : Txn (ISAPICommand * activity.Event) :=
  if (ai_ID (nc_CreatedBy input) =? 0) || bool_decide (ai_Username (nc_CreatedBy input) = "") then
    tx_fail (ErrText "ISAPI command administrator identity is required")
  else
  clock ← go_now;
  if negb (clock <? nc_ExpiresAt input) then
    tx_fail (ErrText "ISAPI command expiry must be in the future")
  else
  let serial := nc_TerminalSerialNumber input in
  terminal ← db_get (fun d => db_terminals d !! serial);
  match terminal with
  | None => tx_fail ErrISAPICommandTerminalNotFound
  | Some t =>
  if negb (bool_decide (tr_connection_status t = "online")) then tx_fail ErrISAPICommandTerminalOffline else
  uuid ← newISAPICommandUUID;
  now ← sql_now;
  let row := mkCommandRow serial (Some (ai_ID (nc_CreatedBy input))) (ai_Username (nc_CreatedBy input))
               (nc_Method input) (nc_URL input) (nc_DataFormat input) (nc_Data input) CmdQueued now
               (to_micros (nc_ExpiresAt input)) None None None None None in
  taken ← db_get (fun d => bool_decide (is_Some (db_commands d !! uuid)));
  constraint (negb taken && command_check uuid row);;
  admin_exists (ai_ID (nc_CreatedBy input));;
  db_set (on_commands <[uuid := row]>);;
  stored ← insertGatewayActivity (activity.event activity.KindAdminISAPICommandQueued serial
    "administrator queued an ISAPI command"
    (commandActivityFields uuid (nc_Method input) (nc_URL input) (nc_DataFormat input)
       (<["issuedBy" := activity.VString (ai_Username (nc_CreatedBy input))]> ∅)));
  mret ({| ic_UUID := uuid;
           ic_TerminalSerialNumber := serial;
           ic_CreatedByUsername := ai_Username (nc_CreatedBy input);
           ic_Method := nc_Method input;
           ic_URL := nc_URL input;
           ic_DataFormat := nc_DataFormat input;
           ic_Status := CmdQueued;
           ic_CreatedAt := now;
           ic_ExpiresAt := nc_ExpiresAt input;
           ic_SentAt := None;
           ic_CompletedAt := None;
           ic_ResponseDataFormat := None;
           ic_ResponseDataFormatDeclared := None;
           ic_ResponseDataAvailable := false |}, stored)
  end.

Definition QueueISAPICommand_tx (input : NewISAPICommand) : Txn (ISAPICommand * activity.Event) :=
  if (ai_ID (nc_CreatedBy input) =? 0) || bool_decide (ai_Username (nc_CreatedBy input) = "") then
    tx_fail (ErrText "ISAPI command administrator identity is required")
  else
  clock ← go_now;
  if negb (clock <? nc_ExpiresAt input) then
    tx_fail (ErrText "ISAPI command expiry must be in the future")
  else queueISAPICommandTx input.

Definition QueueISAPICommand (input : NewISAPICommand)
    : Tx store_error TxCtx DB (ISAPICommand * activity.Event) :=
  run (QueueISAPICommand_tx input).

(** ** UUIDs are well formed *)
Lemma slice_lower_hex l i n :
  Forall (fun c => is_lower_hex c = true) l -> (i + n <= length l)%nat ->
  class_exactly is_lower_hex n (string_of (take n (drop i l))) = true.
Proof.
  intros Hl Hlen. apply class_exactly_spec. rewrite bytes_of_string_of. split.
  - rewrite length_take, length_drop. lia.
  - by apply Forall_take, Forall_drop.
Qed.

Lemma no_hyphen l : Forall (fun c => is_lower_hex c = true) l -> "-"%char ∉ l.
Proof. rewrite list.Forall_forall. intros Hl Hin. by apply Hl in Hin. Qed.

(** Sixteen random bytes always make a UUID in the text form that the protocol's
    own UUID check and the database constraint accept. *)
Theorem uuid_well_formed random : length random = 16%nat -> commandUUID (uuid_text random) = true.
Proof.
  intros Hr. unfold commandUUID, uuid_text, strings_Split.
  set (encoded := hex_encode _).
  assert (Hl : length encoded = 32%nat).
  { unfold encoded. rewrite length_hex_encode, !length_alter. lia. }
  assert (Hc : Forall (fun c => is_lower_hex c = true) encoded) by apply hex_encode_lower.
  assert (Hn : forall i n, "-"%char ∉ take n (drop i encoded)).
  { intros. by apply no_hyphen, Forall_take, Forall_drop. }
  rewrite !bytes_of_app, !bytes_of_string_of. cbn [bytes_of list_ascii_of_string app].
  rewrite !split_bytes_piece, split_bytes_last by done. cbn [fmap list_fmap reverse rev_append app].
  rewrite !slice_lower_hex by (done || (simpl; lia)). done.
Qed.
