(* ===== verification/SyncRuns.v ===== *)
(** internal/store/access_event_sync.go: the reconciliation of a terminal's
    retained event archive.  A run reads the terminal clock, then pages the
    archive; each step is taken in the transaction that stores the result of the
    command before it. *)

From Stdlib Require Import ZArith Lia Ascii String.
From stdpp Require Import base gmap strings list option.
From S2P Require Import Prelude GoText GoTime GoCrypto AccessControl StoreTypes Wire Database StoreCore Archive.
From S2P Require Import CommandQueue.

Local Open Scope string_scope.
Local Open Scope Z_scope.

Definition accessEventSyncCommandTTL : duration := 5 * minute.

Definition ErrAccessEventSyncTerminalNotFound : store_error := ErrSentinel "ErrAccessEventSyncTerminalNotFound".
Definition ErrAccessEventSyncTerminalOffline : store_error := ErrSentinel "ErrAccessEventSyncTerminalOffline".
Definition ErrAccessEventSyncInProgress : store_error := ErrSentinel "ErrAccessEventSyncInProgress".

(** A sync command with the state of its run, as the queries join them. *)
Record accessEventSyncCommand := {
  sc_RunUUID : string;
  sc_Terminal : string;
  sc_CreatedByID : option Z;
  sc_CreatedByName : string;
  sc_SearchID : string;
  sc_Status : SyncStatus;
  sc_Phase : SyncPhase;
  sc_Position : option Z;
  sc_SearchStarted : option time;
  sc_SearchEnded : option time;
  sc_TotalMatches : option Z;
  sc_PagesCompleted : Z;
  sc_Imported : Z;
  sc_Duplicate : Z
}.

Record retainedEventRecord := {
  rec_Source : bytes;
  rec_Fingerprint : bytes;
  rec_Projection : Projection
}.

(** ** Updates of a run *)
Definition run_failed (reason : string) (now : time) (r : SyncRow) : SyncRow :=
  mkSyncRow (sy_terminal_serial_number r) (sy_created_by_admin_user_id r) (sy_created_by_username r)
    (sy_search_id r) SyncFailed (sy_search_started_at r) (sy_search_ended_at r) (sy_total_matches r)
    (sy_pages_completed r) (sy_records_imported r) (sy_records_duplicate r) (Some reason)
    (sy_created_at r) (Some now).

Definition run_started (started ended : time) (r : SyncRow) : SyncRow :=
  mkSyncRow (sy_terminal_serial_number r) (sy_created_by_admin_user_id r) (sy_created_by_username r)
    (sy_search_id r) SyncRunning (Some started) (Some ended) (sy_total_matches r)
    (sy_pages_completed r) (sy_records_imported r) (sy_records_duplicate r) (sy_failure r)
    (sy_created_at r) (sy_completed_at r).

Definition run_advanced (total pages imported duplicate : Z) (r : SyncRow) : SyncRow :=
  mkSyncRow (sy_terminal_serial_number r) (sy_created_by_admin_user_id r) (sy_created_by_username r)
    (sy_search_id r) (sy_status r) (sy_search_started_at r) (sy_search_ended_at r) (Some total)
    pages imported duplicate (sy_failure r) (sy_created_at r) (sy_completed_at r).

Definition run_completed (total pages imported duplicate : Z) (completedAt : time) (r : SyncRow) : SyncRow :=
  mkSyncRow (sy_terminal_serial_number r) (sy_created_by_admin_user_id r) (sy_created_by_username r)
    (sy_search_id r) SyncCompleted (sy_search_started_at r) (sy_search_ended_at r) (Some total)
    pages imported duplicate (sy_failure r) (sy_created_at r) (Some completedAt).

(** [failAccessEventSync]: a run that is no longer active is left alone. *)
Definition failAccessEventSync (runUUID reason : string) : Txn (list activity.Event) :=
  now ← sql_now;
  row ← db_get (fun d => db_sync_runs d !! runUUID);
  match row with
  | Some r =>
      if sync_active (sy_status r) then
        db_set (on_sync_runs <[runUUID := run_failed reason now r]>);;
        stored ← insertGatewayActivity (activity.event activity.KindDeviceAccessEventSyncFailed
          (sy_terminal_serial_number r) "gateway stopped a retained access-event sync"
          (<["syncRunId" := activity.VString runUUID]> (<["reason" := activity.VString reason]> ∅)));
        mret [stored]
      else mret []
  | None => mret []
  end.

Definition failExpiredAccessEventSyncCommand (commandUUID : string) (delivered : bool)
    : Txn (list activity.Event) :=
  link ← db_get (fun d => db_sync_links d !! commandUUID);
  match link with
  | None => mret []
  | Some l =>
      failAccessEventSync (sl_sync_run_uuid l)
        (if delivered then "terminal did not return the retained-event command result before the command deadline"
         else "retained-event command expired before terminal delivery")
  end.

(** A call whose error is handled: [None] when it failed before any statement did.
    A failed statement has aborted the transaction, and what follows fails too. *)
Definition tx_attempt {A} (m : Txn A) : Txn (option A) := fun c s =>
  match m c s with
  | Ok (a, s') => Ok (Some a, s')
  | Err ErrDatabase => Err ErrDatabase
  | Err _ => Ok (None, s)
  end.

(** [INSERT INTO access_event_sync_commands] *)
Definition link_command (uuid runUUID : string) (phase : SyncPhase) (position : option Z) : Txn unit :=
  constraint (match position with Some p => (0 <=? p) && (p <=? 150000) | None => true end);;
  db_set (on_sync_links <[uuid := {| sl_sync_run_uuid := runUUID; sl_phase := phase;
                                     sl_search_result_position := position |}]>).

(** The search command of a page, with the deadline of a sync command. *)
Definition search_command (command : accessEventSyncCommand) (admin : Z) (request : bytes) (clock : time)
    : NewISAPICommand :=
  {| nc_TerminalSerialNumber := sc_Terminal command;
     nc_CreatedBy := {| ai_ID := admin; ai_Username := sc_CreatedByName command |};
     nc_Method := "POST";
     nc_URL := RetainedEventSearchURL;
     nc_DataFormat := "jsonData";
     nc_Data := request;
     nc_ExpiresAt := clock + accessEventSyncCommandTTL |}.

Section sync.
Context `{GoParsers} `{CryptoLib}.

Definition completeAccessEventSyncTime (command : accessEventSyncCommand) (source : bytes)
    : Txn (list activity.Event) :=
  let failed := failAccessEventSync (sc_RunUUID command) in
  if negb (bool_decide (sc_Status command = SyncAwaitingTime)) then
    failed "System/time result arrived after retained-event search began"
  else match ParseTerminalTime source with
  | Err _ => failed "System/time result is not the documented terminal time XML"
  | Ok terminalNow =>
  match NewRetainedEventSearchRequest (sc_SearchID command) 0 terminalNow with
  | Err _ => failed "terminal time cannot bound the retained-event search"
  | Ok request =>
  match sc_CreatedByID command with
  | None => failed "sync administrator no longer exists before event search delivery"
  | Some admin =>
      db_set (on_sync_runs (alter (run_started (t_ns (search_start terminalNow))
                                     (to_micros (t_ns terminalNow))) (sc_RunUUID command)));;
      clock ← go_now;
      queued ← tx_attempt (queueISAPICommandTx (search_command command admin request clock));
      match queued with
      | None => failed "could not queue the retained-event search command"
      | Some (next, commandActivity) =>
          link_command (ic_UUID next) (sc_RunUUID command) PhasePage (Some 0);;
          startedActivity ← insertGatewayActivity (activity.event activity.KindDeviceAccessEventSyncStarted
            (sc_Terminal command) "gateway started the terminal retained access-event search"
            (<["syncRunId" := activity.VString (sc_RunUUID command)]>
               (<["pageSize" := activity.VInt RetainedEventPageSize]> ∅)));
          mret [commandActivity; startedActivity]
      end
  end
  end
  end.

(** ** Pages *)
Definition retained_key (terminal : string) (sha : bytes) (r : RetainedRow) : bool :=
  bool_decide (re_terminal_serial_number r = terminal) && bool_decide (re_source_sha256 r = sha).

(** [insertRetainedAccessEvents]: the number of new records; the rest are duplicates. *)
Definition insert_retained (command : accessEventSyncCommand) (commandUUID : string)
    (inserted : Z) (record : retainedEventRecord) : Txn Z :=
  constraint (columns_ok (rec_Projection record) && negb (bool_decide (rec_Source record = [])));;
  duplicate ← db_get (fun d => exists_row (fun _ r =>
    retained_key (sc_Terminal command) (rec_Fingerprint record) r) (db_retained d));
  if (duplicate : bool) then mret inserted
  else
    now ← sql_now;
    insert_identity RetainedAccessEventsID db_retained on_retained
      {| re_terminal_serial_number := sc_Terminal command;
         re_source_sync_run_uuid := sc_RunUUID command;
         re_source_command_uuid := commandUUID;
         re_source_record := rec_Source record;
         re_source_sha256 := rec_Fingerprint record;
         re_imported_at := now;
         re_projection := stored_projection (rec_Projection record) |};;
    mret (inserted + 1).

Definition insertRetainedAccessEvents (command : accessEventSyncCommand) (commandUUID : string)
    (records : list retainedEventRecord) : Txn (Z * Z) :=
  inserted ← tx_for (insert_retained command commandUUID) records 0;
  mret (inserted, zlen records - inserted).

(** The records of a page; [None] when one of them is not documented. *)
Definition page_records (page : RetainedEventPage) : option (list retainedEventRecord) :=
  mapM (fun raw => match ExtractRetainedEvent raw with
                   | Ok projection => Some {| rec_Source := raw; rec_Fingerprint := sha256_Sum256 raw;
                                              rec_Projection := projection |}
                   | Err _ => None
                   end) (rp_InfoList page).

(** The checks of a page against its command: the reason to fail, if any, and the
    position after the page. *)
Definition page_problem (command : accessEventSyncCommand) (position : Z) (page : RetainedEventPage)
    : option string :=
  let nextPosition := position + rp_NumOfMatches page in
  if negb (bool_decide (rp_SearchID page = sc_SearchID command)) then
    Some "AcsEvent result searchID does not match the sync run"
  else if match sc_TotalMatches command with Some n => negb (rp_TotalMatches page =? n) | None => false end then
    Some "AcsEvent result totalMatches changed during the sync run"
  else if rp_TotalMatches page <? nextPosition then Some "AcsEvent result exceeds totalMatches"
  else if bool_decide (rp_ResponseStatus page = "NO MATCH") && negb (position =? 0) then
    Some "AcsEvent NO MATCH result appeared after the first page"
  else if bool_decide (rp_ResponseStatus page = "MORE")
          && ((rp_NumOfMatches page =? 0) || (rp_TotalMatches page <=? nextPosition)) then
    Some "AcsEvent MORE result does not advance to another page"
  else if bool_decide (rp_ResponseStatus page = "OK") && negb (nextPosition =? rp_TotalMatches page) then
    Some "AcsEvent OK result does not complete totalMatches"
  else None.

Definition page_fields (command : accessEventSyncCommand) (position : Z) (page : RetainedEventPage)
    (inserted duplicate : Z) : gmap string activity.Value :=
  <["syncRunId" := activity.VString (sc_RunUUID command)]> (<["searchPosition" := activity.VInt position]>
    (<["recordsReturned" := activity.VInt (rp_NumOfMatches page)]>
      (<["recordsImported" := activity.VInt inserted]> (<["recordsDuplicate" := activity.VInt duplicate]>
        (<["totalMatches" := activity.VInt (rp_TotalMatches page)]> ∅))))).

(** The continuation of a page that is not the last one. *)
Definition next_page (command : accessEventSyncCommand) (searchEnded : time) (nextPosition total pages
    imported duplicates : Z) (pageActivity : activity.Event) : Txn (list activity.Event) :=
  let failed := failAccessEventSync (sc_RunUUID command) in
  match sc_CreatedByID command with
  | None => failed "sync administrator no longer exists before next page delivery"
  | Some admin =>
      ended ← local_time searchEnded;
      match NewRetainedEventSearchRequest (sc_SearchID command) nextPosition ended with
      | Err _ => tx_fail (ErrText "build next retained event search page")
      | Ok request =>
          db_set (on_sync_runs (alter (run_advanced total pages imported duplicates) (sc_RunUUID command)));;
          clock ← go_now;
          queued ← tx_attempt (queueISAPICommandTx (search_command command admin request clock));
          match queued with
          | None => failed "could not queue the next retained-event page"
          | Some (next, commandActivity) =>
              link_command (ic_UUID next) (sc_RunUUID command) PhasePage (Some nextPosition);;
              mret [pageActivity; commandActivity]
          end
      end
  end.

Definition completeAccessEventSyncPage (command : accessEventSyncCommand) (commandUUID : string)
    (source : bytes) (completedAt : time) : Txn (list activity.Event) :=
  let failed := failAccessEventSync (sc_RunUUID command) in
  match sc_Position command, sc_SearchStarted command, sc_SearchEnded command with
  | Some position, Some _, Some searchEnded =>
  if negb (bool_decide (sc_Status command = SyncRunning)) then
    failed "AcsEvent result does not match an active retained-event page"
  else match ParseRetainedEventPage source with
  | Err _ => failed "AcsEvent result is not the documented pagination response"
  | Ok page =>
  match page_problem command position page with
  | Some reason => failed reason
  | None =>
  match page_records page with
  | None => failed "AcsEvent result contains an undocumented record"
  | Some records =>
      '(inserted, duplicate) ← insertRetainedAccessEvents command commandUUID records;
      let pages := sc_PagesCompleted command + 1 in
      let imported := sc_Imported command + inserted in
      let duplicates := sc_Duplicate command + duplicate in
      pageActivity ← insertGatewayActivity (activity.event activity.KindDeviceAccessEventSyncPageCaptured
        (sc_Terminal command) "gateway retained one terminal access-event archive page"
        (page_fields command position page inserted duplicate));
      if bool_decide (rp_ResponseStatus page = "MORE") then
        next_page command searchEnded (position + rp_NumOfMatches page) (rp_TotalMatches page) pages
          imported duplicates pageActivity
      else if negb (imported + duplicates =? rp_TotalMatches page) then
        failed "retained-event totals do not account for every device record"
      else
        db_set (on_sync_runs (alter (run_completed (rp_TotalMatches page) pages imported duplicates completedAt)
                                (sc_RunUUID command)));;
        completedActivity ← insertGatewayActivity (activity.event activity.KindDeviceAccessEventSyncCompleted
          (sc_Terminal command) "gateway completed the terminal retained access-event sync"
          (<["syncRunId" := activity.VString (sc_RunUUID command)]>
            (<["totalMatches" := activity.VInt (rp_TotalMatches page)]>
              (<["recordsImported" := activity.VInt imported]>
                (<["recordsDuplicate" := activity.VInt duplicates]> ∅)))));
        mret [pageActivity; completedActivity]
  end
  end
  end
  | _, _, _ => failed "AcsEvent result does not match an active retained-event page"
  end.

(** The joined row of a sync command. *)
Definition sync_command (d : DB) (commandUUID : string) : option accessEventSyncCommand :=
  link ← db_sync_links d !! commandUUID;
  r ← db_sync_runs d !! sl_sync_run_uuid link;
  Some {| sc_RunUUID := sl_sync_run_uuid link;
          sc_Terminal := sy_terminal_serial_number r;
          sc_CreatedByID := sy_created_by_admin_user_id r;
          sc_CreatedByName := sy_created_by_username r;
          sc_SearchID := sy_search_id r;
          sc_Status := sy_status r;
          sc_Phase := sl_phase link;
          sc_Position := sl_search_result_position link;
          sc_SearchStarted := sy_search_started_at r;
          sc_SearchEnded := sy_search_ended_at r;
          sc_TotalMatches := sy_total_matches r;
          sc_PagesCompleted := sy_pages_completed r;
          sc_Imported := sy_records_imported r;
          sc_Duplicate := sy_records_duplicate r |}.

Definition completeAccessEventSyncCommand (terminal : string) (result : ISAPICommandResult)
    (completedAt : time) : Txn (list activity.Event) :=
  found ← db_get (fun d => sync_command d (icr_UUID result));
  match found with
  | None => mret []
  | Some command =>
      if negb (bool_decide (sc_Terminal command = terminal)) then
        tx_fail (ErrText "retained event sync command is linked to another terminal")
      else if negb (sync_active (sc_Status command)) then
        tx_fail (ErrText "retained event sync run is not active")
      else match b64_DecodeString (icr_DataBase64 result) with
      | None => failAccessEventSync (sc_RunUUID command) "terminal command result is not decodable Base64"
      | Some source =>
          match sc_Phase command with
          | PhaseTime => completeAccessEventSyncTime command source
          | PhasePage =>
              if match icr_DataFormat result with
                 | Some format => negb (bool_decide (format = "jsonData"))
                 | None => false
                 end
              then failAccessEventSync (sc_RunUUID command)
                     "AcsEvent result declared a format other than jsonData"
              else completeAccessEventSyncPage command (icr_UUID result) source completedAt
          end
      end
  end.
End sync.
