(* ===== verification/Commands.v ===== *)
(** internal/store/isapi_commands.go: the lifecycle of ISAPI commands — queued,
    sent, completed or expired — and internal/store/access_event_sync.go's
    [QueueAccessEventSync], which starts a retained-event run. *)

From Stdlib Require Import ZArith Lia Ascii String.
From stdpp Require Import base gmap strings list option.
From S2P Require Import Prelude GoText GoTime GoCrypto AccessControl StoreTypes Wire Database StoreCore Archive.
From S2P Require Import CommandQueue SyncRuns.

Local Open Scope string_scope.
Local Open Scope Z_scope.

(** ** Updates of a command *)
Definition command_sent (now : time) (r : CommandRow) : CommandRow :=
  mkCommandRow (cr_terminal_serial_number r) (cr_created_by_admin_user_id r) (cr_created_by_username r)
    (cr_method r) (cr_url r) (cr_data_format r) (cr_request_data r) CmdSent (cr_created_at r)
    (cr_expires_at r) (Some now) (cr_completed_at r) (cr_response_data_format r)
    (cr_response_data_format_declared r) (cr_response_data_base64 r).

Definition command_expired (now : time) (r : CommandRow) : CommandRow :=
  mkCommandRow (cr_terminal_serial_number r) (cr_created_by_admin_user_id r) (cr_created_by_username r)
    (cr_method r) (cr_url r) (cr_data_format r) (cr_request_data r) CmdExpired (cr_created_at r)
    (cr_expires_at r) (cr_sent_at r) (Some now) (cr_response_data_format r)
    (cr_response_data_format_declared r) (cr_response_data_base64 r).

Definition command_completed (now : time) (format : option string) (data : string) (r : CommandRow) : CommandRow :=
  mkCommandRow (cr_terminal_serial_number r) (cr_created_by_admin_user_id r) (cr_created_by_username r)
    (cr_method r) (cr_url r) (cr_data_format r) (cr_request_data r) CmdCompleted (cr_created_at r)
    (cr_expires_at r) (cr_sent_at r) (Some now) format
    (Some (bool_decide (is_Some format))) (Some data).

(** [isapi_commands_response_state_check] *)
Definition command_state_check (r : CommandRow) : bool :=
  let no_response := bool_decide (cr_response_data_format r = None)
                     && bool_decide (cr_response_data_format_declared r = None)
                     && bool_decide (cr_response_data_base64 r = None) in
  let sent := bool_decide (is_Some (cr_sent_at r)) in
  let done := bool_decide (is_Some (cr_completed_at r)) in
  match cr_status r with
  | CmdQueued => negb sent && negb done && no_response
  | CmdSent => sent && negb done && no_response
  | CmdCompleted =>
      sent && done && bool_decide (is_Some (cr_response_data_base64 r))
      && bool_decide (cr_response_data_format_declared r = Some (bool_decide (is_Some (cr_response_data_format r))))
  | CmdExpired => done && no_response
  end.

(** ** Deadlines *)
Definition command_open (r : CommandRow) : bool :=
  match cr_status r with CmdQueued | CmdSent => true | _ => false end.

(** [status IN ('queued', 'sent') AND expires_at <= now()], of one terminal or of all. *)
Definition overdue (now : time) (terminalSerial : option string) (r : CommandRow) : bool :=
  match terminalSerial with Some t => bool_decide (cr_terminal_serial_number r = t) | None => true end
  && command_open r && (cr_expires_at r <=? now).

(** [UPDATE .. SET status = 'expired'] of every overdue row. *)
Definition expire_rows (now : time) (terminalSerial : option string)
    : gmap string CommandRow -> gmap string CommandRow :=
  fmap (fun r => if overdue now terminalSerial r then command_expired now r else r).

(** The activities of one expired command. *)
Definition report_expired (activities : list activity.Event) (row : string * CommandRow)
    : Txn (list activity.Event) :=
  let '(uuid, r) := row in
  let delivered := bool_decide (is_Some (cr_sent_at r)) in
  let message := if delivered then "ISAPI command expired before terminal result"
                 else "ISAPI command expired before terminal delivery" in
  let phase := if delivered then "awaiting_result" else "before_delivery" in
  stored ← insertGatewayActivity (activity.event activity.KindPushSDKCommandExpired
    (cr_terminal_serial_number r) message
    (commandActivityFields uuid (cr_method r) (cr_url r) (cr_data_format r)
       (<["status" := activity.VString "expired"]> (<["phase" := activity.VString phase]> ∅))));
  syncActivities ← failExpiredAccessEventSyncCommand uuid delivered;
  mret (activities ++ stored :: syncActivities)%list.

Definition expireOverdueISAPICommandsTx (terminalSerial : option string) : Txn (list activity.Event) :=
  now ← sql_now;
  commands ← db_get (fun d => select (fun _ r => overdue now terminalSerial r) (db_commands d));
  db_set (on_commands (expire_rows now terminalSerial));;
  tx_for report_expired commands [].

Definition ExpireOverdueISAPICommands : Tx store_error TxCtx DB (list activity.Event) :=
  run (expireOverdueISAPICommandsTx None).

(** ** Delivery *)

(** [terminal_serial_number = $1 AND status = 'queued' AND expires_at > now()] *)
Definition claimable (now : time) (terminalSerial : string) (r : CommandRow) : bool :=
  bool_decide (cr_terminal_serial_number r = terminalSerial)
  && bool_decide (cr_status r = CmdQueued) && (now <? cr_expires_at r).

(** [ORDER BY created_at ASC, uuid ASC] *)
Definition command_leb (a b : string * CommandRow) : bool :=
  (cr_created_at a.2 <? cr_created_at b.2)
  || ((cr_created_at a.2 =? cr_created_at b.2) && String.leb a.1 b.1).

Definition claimed (now : time) (terminalSerial : string) (limit : Z) (m : gmap string CommandRow)
    : list (string * CommandRow) :=
  sql_limit limit (order_by command_leb (select (fun _ r => claimable now terminalSerial r) m)).

Definition mark_sent (now : time) (rows : list (string * CommandRow)) (m : gmap string CommandRow)
    : gmap string CommandRow :=
  foldr (fun row m => alter (command_sent now) row.1 m) m rows.

Definition delivery_of (row : string * CommandRow) : ISAPICommandDelivery :=
  {| icd_UUID := row.1; icd_Method := cr_method row.2; icd_URL := cr_url row.2;
     icd_DataFormat := cr_data_format row.2; icd_Data := cr_request_data row.2 |}.

Definition report_sent (terminalSerial : string) (activities : list activity.Event)
    (delivery : ISAPICommandDelivery) : Txn (list activity.Event) :=
  stored ← insertGatewayActivity (activity.event activity.KindPushSDKCommandSent terminalSerial
    "gateway sent an ISAPI command to the terminal"
    (command_fields (icd_UUID delivery) (icd_Method delivery) (icd_URL delivery) (icd_DataFormat delivery)));
  mret (activities ++ [stored])%list.

Definition ClaimISAPICommands_tx (terminalSerial : string) (limit : Z)
    : Txn (list ISAPICommandDelivery * list activity.Event) :=
  if (limit <? 1) || (20 <? limit) then tx_fail (ErrText "ISAPI command delivery limit must be 1..20")
  else
    activities ← expireOverdueISAPICommandsTx (Some terminalSerial);
    now ← sql_now;
    rows ← db_get (fun d => claimed now terminalSerial limit (db_commands d));
    db_set (on_commands (mark_sent now rows));;
    let deliveries := delivery_of <$> rows in
    activities' ← tx_for (report_sent terminalSerial) deliveries activities;
    mret (deliveries, activities').

Definition ClaimISAPICommands (terminalSerial : string) (limit : Z)
    : Tx store_error TxCtx DB (list ISAPICommandDelivery * list activity.Event) :=
  run (ClaimISAPICommands_tx terminalSerial limit).

(** ** Results *)
Definition commandResultActivityFields (result : ISAPICommandResult) : gmap string activity.Value :=
  match icr_DataFormat result with
  | Some format => <["dataFormat" := activity.VString format]>
  | None => id
  end (<["commandId" := activity.VString (icr_UUID result)]>
        (<["dataFormatDeclared" := activity.VBool (bool_decide (is_Some (icr_DataFormat result)))]> ∅)).

(** The result a completed command already has is the one returned again. *)
Definition same_result (r : CommandRow) (result : ISAPICommandResult) : bool :=
  match icr_DataFormat result with
  | None =>
      negb (bool_decide (is_Some (cr_response_data_format r))
            || bool_decide (cr_response_data_format_declared r <> Some false)
            || bool_decide (cr_response_data_base64 r <> Some (icr_DataBase64 result)))
  | Some format =>
      negb (bool_decide (cr_response_data_format r <> Some format)
            || bool_decide (cr_response_data_format_declared r <> Some true)
            || bool_decide (cr_response_data_base64 r <> Some (icr_DataBase64 result)))
  end.

Section commands.
Context `{GoParsers} `{CryptoLib}.

(** The body of the loop of [CompleteISAPICommands]. *)
Definition complete_one (terminalSerial : string) (activities : list activity.Event)
    (result : ISAPICommandResult) : Txn (list activity.Event) :=
  row ← db_get (fun d => db_commands d !! icr_UUID result);
  match row with
  | None => tx_fail (ErrText "command result UUID is not a sent command for this terminal")
  | Some r =>
  if negb (bool_decide (cr_terminal_serial_number r = terminalSerial)) then
    tx_fail (ErrText "command result UUID is not a sent command for this terminal")
  else match cr_status r with
  | CmdSent =>
      now ← sql_now;
      let r' := command_completed now (icr_DataFormat result) (icr_DataBase64 result) r in
      constraint (command_state_check r' && match icr_DataFormat result with
                                            | Some format => supportedDataFormat format
                                            | None => true end);;
      db_set (on_commands <[icr_UUID result := r']>);;
      stored ← insertGatewayActivity (activity.event activity.KindPushSDKCommandCompleted terminalSerial
        "terminal returned an ISAPI command result" (commandResultActivityFields result));
      syncActivities ← completeAccessEventSyncCommand terminalSerial result now;
      mret (activities ++ stored :: syncActivities)%list
  | CmdCompleted =>
      if same_result r result then mret activities
      else tx_fail (ErrText "command result UUID conflicts with its completed result")
  | _ => tx_fail (ErrText ("command result UUID is in " +:+ command_status_text (cr_status r)
                           +:+ " state, not sent"))
  end
  end.

Definition CompleteISAPICommands_tx (terminalSerial : string) (results : list ISAPICommandResult)
    : Txn (list activity.Event * bool) :=
  activities ← expireOverdueISAPICommandsTx (Some terminalSerial);
  activities' ← tx_for (complete_one terminalSerial) results activities;
  now ← sql_now;
  pending ← db_get (fun d => exists_row (fun _ r => claimable now terminalSerial r) (db_commands d));
  mret (activities', pending).

Definition CompleteISAPICommands (terminalSerial : string) (results : list ISAPICommandResult)
    : Tx store_error TxCtx DB (list activity.Event * bool) :=
  run (CompleteISAPICommands_tx terminalSerial results).
End commands.

(** ** Queries of the administration API *)

(** [scanISAPICommand] *)
Definition scanISAPICommand (row : string * CommandRow) : ISAPICommand :=
  let '(uuid, r) := row in
  {| ic_UUID := uuid;
     ic_TerminalSerialNumber := cr_terminal_serial_number r;
     ic_CreatedByUsername := cr_created_by_username r;
     ic_Method := cr_method r;
     ic_URL := cr_url r;
     ic_DataFormat := cr_data_format r;
     ic_Status := cr_status r;
     ic_CreatedAt := cr_created_at r;
     ic_ExpiresAt := cr_expires_at r;
     ic_SentAt := cr_sent_at r;
     ic_CompletedAt := cr_completed_at r;
     ic_ResponseDataFormat := cr_response_data_format r;
     ic_ResponseDataFormatDeclared := cr_response_data_format_declared r;
     ic_ResponseDataAvailable := bool_decide (is_Some (cr_response_data_base64 r)) |}.

(** [LIMIT l OFFSET o] of rows in [ORDER BY created_at DESC, uuid DESC]; a negative
    bound fails the statement. *)
Definition QueryISAPICommands (terminalSerial : string) (limit offset : Z)
    : Tx store_error TxCtx DB (list ISAPICommand * Z) :=
  run (rows ← db_get (fun d => select (fun _ r => bool_decide (terminalSerial = "")
                          || bool_decide (cr_terminal_serial_number r = terminalSerial)) (db_commands d));
       constraint ((0 <=? limit) && (0 <=? offset));;
       let newest := order_by (fun a b => command_leb b a) rows in
       mret (scanISAPICommand <$> sql_limit limit (drop (Z.to_nat offset) newest), zlen rows)).

(** The command with its request, in Base64, and the stored response. *)
Definition ISAPICommandPayload (uuid : string)
    : Tx store_error TxCtx DB (option (ISAPICommand * string * option string)) :=
  run (db_get (fun d => (fun r => (scanISAPICommand (uuid, r), b64_EncodeToString (cr_request_data r),
                                   cr_response_data_base64 r)) <$> db_commands d !! uuid)).

(** ** Starting a retained-event run *)
Record AccessEventSyncRun := {
  run_UUID : string;
  run_TerminalSerialNumber : string;
  run_CreatedByUsername : string;
  run_Status : SyncStatus;
  run_SearchStartedAt : option time;
  run_SearchEndedAt : option time;
  run_TotalMatches : option Z;
  run_PagesCompleted : Z;
  run_RecordsImported : Z;
  run_RecordsDuplicate : Z;
  run_Failure : option string;
  run_CreatedAt : time;
  run_CompletedAt : option time
}.

Definition run_of_row (uuid : string) (r : SyncRow) : AccessEventSyncRun :=
  {| run_UUID := uuid;
     run_TerminalSerialNumber := sy_terminal_serial_number r;
     run_CreatedByUsername := sy_created_by_username r;
     run_Status := sy_status r;
     run_SearchStartedAt := sy_search_started_at r;
     run_SearchEndedAt := sy_search_ended_at r;
     run_TotalMatches := sy_total_matches r;
     run_PagesCompleted := sy_pages_completed r;
     run_RecordsImported := sy_records_imported r;
     run_RecordsDuplicate := sy_records_duplicate r;
     run_Failure := sy_failure r;
     run_CreatedAt := sy_created_at r;
     run_CompletedAt := sy_completed_at r |}.

(** A run of the terminal is awaiting the clock or paging. *)
Definition run_active (terminal : string) (r : SyncRow) : bool :=
  bool_decide (sy_terminal_serial_number r = terminal) && sync_active (sy_status r).

Definition QueueAccessEventSync_tx (terminal : string) (identity : AdminIdentity)
    : Txn (AccessEventSyncRun * list activity.Event) :=
  if (ai_ID identity =? 0) || bool_decide (ai_Username identity = "") then
    tx_fail (ErrText "retained event sync administrator identity is required")
  else
  expiryActivities ← expireOverdueISAPICommandsTx (Some terminal);
  known ← db_get (fun d => db_terminals d !! terminal);
  match known with
  | None => tx_fail ErrAccessEventSyncTerminalNotFound
  | Some t =>
  if negb (bool_decide (tr_connection_status t = "online")) then tx_fail ErrAccessEventSyncTerminalOffline else
  active ← db_get (fun d => exists_row (fun _ r => run_active terminal r) (db_sync_runs d));
  if (active : bool) then tx_fail ErrAccessEventSyncInProgress else
  runUUID ← newISAPICommandUUID;
  now ← sql_now;
  taken ← db_get (fun d => bool_decide (is_Some (db_sync_runs d !! runUUID)));
  constraint (negb taken && commandUUID runUUID);;
  let row := mkSyncRow terminal (Some (ai_ID identity)) (ai_Username identity) runUUID SyncAwaitingTime
               None None None 0 0 0 None now None in
  admin_exists (ai_ID identity);;
  db_set (on_sync_runs <[runUUID := row]>);;
  clock ← go_now;
  '(command, commandActivity) ← queueISAPICommandTx
     {| nc_TerminalSerialNumber := terminal;
        nc_CreatedBy := identity;
        nc_Method := "GET";
        nc_URL := "/ISAPI/System/time";
        nc_DataFormat := "noData";
        nc_Data := [];
        nc_ExpiresAt := clock + accessEventSyncCommandTTL |};
  link_command (ic_UUID command) runUUID PhaseTime None;;
  queuedActivity ← insertGatewayActivity (activity.event activity.KindAdminAccessEventSyncQueued terminal
    "administrator queued a retained access-event sync"
    (<["syncRunId" := activity.VString runUUID]>
       (<["issuedBy" := activity.VString (ai_Username identity)]> ∅)));
  mret (run_of_row runUUID row, expiryActivities ++ [commandActivity; queuedActivity])%list
  end.

Definition QueueAccessEventSync (terminal : string) (identity : AdminIdentity)
    : Tx store_error TxCtx DB (AccessEventSyncRun * list activity.Event) :=
  run (QueueAccessEventSync_tx terminal identity).

(** [AccessEventSyncRun]: the durable state of one run. *)
Definition load_AccessEventSyncRun (uuid : string) : Tx store_error TxCtx DB (option AccessEventSyncRun) :=
  run (db_get (fun d => run_of_row uuid <$> db_sync_runs d !! uuid)).
