(* ===== verification/Queries.v ===== *)
(** The list queries of internal/store: terminal states and the overview, the event
    archive with its filters, gateway activities, routes and the two delivery queues.

    A list and its total are two statements of the code; the model reads both from one
    state.  A JSON number of an activity comes back as a float64, which is the same
    number below 2^53. *)

From Stdlib Require Import ZArith Lia Ascii String.
From stdpp Require Import base gmap strings list option sorting.
From S2P Require Import Prelude GoText GoTime GoCrypto AccessControl Crypto StoreTypes Database StoreCore.
From S2P Require Import Wire Deliveries Worker Attachments Archive CommandQueue SyncRuns Commands.

Local Open Scope string_scope.
Local Open Scope Z_scope.

(** [LIMIT l OFFSET o]; a negative bound fails the statement. *)
Definition sql_page {A} (limit offset : Z) (l : list A) : Txn (list A) :=
  constraint ((0 <=? limit) && (0 <=? offset));;
  mret (sql_limit limit (drop (Z.to_nat offset) l)).

(** ** Terminals *)
Record TerminalState := {
  ts_SerialNumber : string;
  ts_PushSDKSerial : string;
  ts_Status : string;
  ts_LastSeenAt : option time;
  ts_LastError : option string;
  ts_LatestAccessEventSync : option AccessEventSyncRun
}.

(** [ORDER BY created_at DESC, uuid DESC] *)
Definition newest_run (a b : string * SyncRow) : bool :=
  (sy_created_at b.2 <? sy_created_at a.2)
  || ((sy_created_at a.2 =? sy_created_at b.2) && String.leb b.1 a.1).

Definition latest_sync (d : DB) (serial : string) : option AccessEventSyncRun :=
  (fun r => run_of_row r.1 r.2) <$>
  head (order_by newest_run (select (fun _ r => bool_decide (sy_terminal_serial_number r = serial)) (db_sync_runs d))).

Definition terminal_state (d : DB) (row : string * TerminalRow) : TerminalState :=
  let '(serial, r) := row in
  {| ts_SerialNumber := serial;
     ts_PushSDKSerial := tr_pushsdk_serial r;
     ts_Status := tr_connection_status r;
     ts_LastSeenAt := tr_last_seen_at r;
     ts_LastError := tr_last_error r;
     ts_LatestAccessEventSync := latest_sync d serial |}.

Definition TerminalStates_tx : Txn (list TerminalState) :=
  db_get (fun d => terminal_state d <$> order_by (fun a b => String.leb a.1 b.1) (map_to_list (db_terminals d))).
Definition TerminalStates : Tx store_error TxCtx DB (list TerminalState) := run TerminalStates_tx.

Record Overview := { ov_DeviceEventTotal : Z; ov_Terminals : list TerminalState }.

Definition load_Overview : Tx store_error TxCtx DB Overview :=
  run (total ← db_get (fun d => Z.of_nat (size (db_device_events d)) + Z.of_nat (size (db_retained d)));
       states ← TerminalStates_tx;
       mret {| ov_DeviceEventTotal := total; ov_Terminals := states |}).

(** ** The event archive *)
Record DeviceEventQuery := {
  dq_Limit : Z;
  dq_Offset : Z;
  dq_MajorEventType : option Z;
  dq_SubEventType : option Z;
  dq_Terminal : string;
  dq_Source : string
}.

(** [AccessEvent]: the category and the label of the subtype beside the projected columns. *)
Record AccessEvent := {
  ae_Category : string;
  ae_SubtypeLabel : string;
  ae_Projection : Projection
}.

Record DeviceEvent := {
  dev_ID : Z;
  dev_Source : string;
  dev_TerminalSerialNumber : string;
  dev_SourceRecordID : string;
  dev_DataFormat : string;
  dev_PayloadAvailable : bool;
  dev_ReceivedAt : time;
  dev_AccessEvent : option AccessEvent
}.

Record AccessEventSubtype := { sub_Code : Z; sub_Label : option string }.

Record DeviceEventPage := {
  page_Events : list DeviceEvent;
  page_Total : Z;
  page_Subtypes : list AccessEventSubtype
}.

(** A rectangle without any number is left out. *)
Definition shown_rect (r : option FaceRect) : option FaceRect :=
  match r with
  | Some (Build_FaceRect None None None None) => None
  | _ => r
  end.

(** The columns the archive of retained events has; the others read as NULL. *)
Definition retained_columns (p : Projection) : Projection :=
  {| pj_MajorEventType := pj_MajorEventType p;
     pj_SubEventType := pj_SubEventType p;
     pj_EventDescription := None;
     pj_EventState := None;
     pj_OccurredAt := pj_OccurredAt p;
     pj_SourceMACAddress := None;
     pj_ChannelID := None;
     pj_ActivePostCount := None;
     pj_ShortSerialNumber := None;
     pj_DeviceName := None;
     pj_EmployeeNumber := pj_EmployeeNumber p;
     pj_EmployeeName := pj_EmployeeName p;
     pj_CardNumber := pj_CardNumber p;
     pj_CardReaderNumber := pj_CardReaderNumber p;
     pj_DoorNumber := pj_DoorNumber p;
     pj_EventSerialNumber := pj_EventSerialNumber p;
     pj_FrontSerialNumber := None;
     pj_UserType := pj_UserType p;
     pj_CurrentVerifyMode := pj_CurrentVerifyMode p;
     pj_CurrentEvent := None;
     pj_Mask := pj_Mask p;
     pj_PicturesNumber := None;
     pj_PurePwdVerifyEnable := None;
     pj_FaceRect := pj_FaceRect p;
     pj_SourceIPAddress := None |}.

(** What the loop makes of the projected columns of a row. *)
Definition access_event (p : Projection) : AccessEvent :=
  {| ae_Category := default "" (CategoryForMajorEventType (pj_MajorEventType p));
     ae_SubtypeLabel := default "" (SubtypeLabel (pj_MajorEventType p) (pj_SubEventType p));
     ae_Projection :=
       {| pj_MajorEventType := pj_MajorEventType p;
          pj_SubEventType := pj_SubEventType p;
          pj_EventDescription := pj_EventDescription p;
          pj_EventState := pj_EventState p;
          pj_OccurredAt := pj_OccurredAt p;
          pj_SourceMACAddress := pj_SourceMACAddress p;
          pj_ChannelID := pj_ChannelID p;
          pj_ActivePostCount := pj_ActivePostCount p;
          pj_ShortSerialNumber := pj_ShortSerialNumber p;
          pj_DeviceName := pj_DeviceName p;
          pj_EmployeeNumber := pj_EmployeeNumber p;
          pj_EmployeeName := pj_EmployeeName p;
          pj_CardNumber := pj_CardNumber p;
          pj_CardReaderNumber := pj_CardReaderNumber p;
          pj_DoorNumber := pj_DoorNumber p;
          pj_EventSerialNumber := pj_EventSerialNumber p;
          pj_FrontSerialNumber := pj_FrontSerialNumber p;
          pj_UserType := pj_UserType p;
          pj_CurrentVerifyMode := pj_CurrentVerifyMode p;
          pj_CurrentEvent := pj_CurrentEvent p;
          pj_Mask := pj_Mask p;
          pj_PicturesNumber := pj_PicturesNumber p;
          pj_PurePwdVerifyEnable := pj_PurePwdVerifyEnable p;
          pj_FaceRect := shown_rect (pj_FaceRect p);
          pj_SourceIPAddress := pj_SourceIPAddress p |} |}.

(** [archiveEventCTE]: the live events with their projections, then the retained ones. *)
Definition live_event (d : DB) (row : Z * DeviceEventRow) : DeviceEvent :=
  let '(id, e) := row in
  {| dev_ID := id; dev_Source := "pushsdk"; dev_TerminalSerialNumber := de_terminal_serial_number e;
     dev_SourceRecordID := de_vendor_event_id e; dev_DataFormat := de_data_format e;
     dev_PayloadAvailable := bool_decide (is_Some (de_payload_base64 e)); dev_ReceivedAt := de_received_at e;
     dev_AccessEvent := access_event <$> (db_projections d !! id ≫= pr_projection) |}.
Definition retained_event (row : Z * RetainedRow) : DeviceEvent :=
  let '(id, e) := row in
  {| dev_ID := id; dev_Source := "isapi"; dev_TerminalSerialNumber := re_terminal_serial_number e;
     dev_SourceRecordID := hex_EncodeToString (re_source_sha256 e); dev_DataFormat := "jsonData";
     dev_PayloadAvailable := true; dev_ReceivedAt := re_imported_at e;
     dev_AccessEvent := Some (access_event (retained_columns (re_projection e))) |}.
Definition archive_events (d : DB) : list DeviceEvent :=
  ((live_event d <$> map_to_list (db_device_events d)) ++ (retained_event <$> map_to_list (db_retained d)))%list.

(** [archiveEventClauses]: NULL columns satisfy no equation. *)
Definition major_is (n : Z) (e : DeviceEvent) : bool :=
  match dev_AccessEvent e with Some a => pj_MajorEventType (ae_Projection a) =? n | None => false end.
Definition subtype_is (n : Z) (e : DeviceEvent) : bool :=
  match dev_AccessEvent e with Some a => pj_SubEventType (ae_Projection a) =? n | None => false end.
Definition archiveEventClauses (q : DeviceEventQuery) (e : DeviceEvent) : bool :=
  match dq_MajorEventType q with Some n => major_is n e | None => true end
  && match dq_SubEventType q with Some n => subtype_is n e | None => true end
  && (bool_decide (dq_Terminal q = "") || bool_decide (dev_TerminalSerialNumber e = dq_Terminal q))
  && (bool_decide (dq_Source q = "") || bool_decide (dev_Source e = dq_Source q)).

(** [ORDER BY received_at DESC, id DESC]: a live and a retained event may tie. *)
Definition newest_event (a b : DeviceEvent) : bool :=
  (dev_ReceivedAt b <? dev_ReceivedAt a)
  || ((dev_ReceivedAt a =? dev_ReceivedAt b) && (dev_ID b <=? dev_ID a)).

Definition matching_events (d : DB) (q : DeviceEventQuery) : list DeviceEvent :=
  List.filter (archiveEventClauses q) (archive_events d).

(** An INTEGER parameter out of range is refused when it is encoded. *)
Definition query_parameters_ok (q : DeviceEventQuery) : bool :=
  opt_ok int4_ok (dq_MajorEventType q) && opt_ok int4_ok (dq_SubEventType q).

(** [GROUP BY sub_event_type ORDER BY sub_event_type] *)
Definition subtype_codes (events : list DeviceEvent) : list Z :=
  order_by Z.leb (elements (list_to_set (omap (fun e =>
    (fun a => pj_SubEventType (ae_Projection a)) <$> dev_AccessEvent e) events) : gset Z)).

Definition accessEventSubtypes (d : DB) (q : DeviceEventQuery) : list AccessEventSubtype :=
  match dq_MajorEventType q with
  | None => []
  | Some major =>
      let all := {| dq_Limit := dq_Limit q; dq_Offset := dq_Offset q; dq_MajorEventType := Some major;
                    dq_SubEventType := None; dq_Terminal := dq_Terminal q; dq_Source := dq_Source q |} in
      (fun code => {| sub_Code := code; sub_Label := SubtypeLabel major code |})
        <$> subtype_codes (matching_events d all)
  end.

Definition QueryDeviceEvents (q : DeviceEventQuery) : Tx store_error TxCtx DB DeviceEventPage :=
  run (constraint (query_parameters_ok q);;
       matching ← db_get (fun d => matching_events d q);
       plan ← tx_ctx cx_plan;
       events ← sql_page (dq_Limit q) (dq_Offset q) (order_by_plan newest_event plan matching);
       subtypes ← db_get (fun d => accessEventSubtypes d q);
       mret {| page_Events := events; page_Total := zlen matching; page_Subtypes := subtypes |}).

Definition DeviceEvents (limit offset : Z) : Tx store_error TxCtx DB DeviceEventPage :=
  QueryDeviceEvents {| dq_Limit := limit; dq_Offset := offset; dq_MajorEventType := None; dq_SubEventType := None;
                       dq_Terminal := ""; dq_Source := "" |}.

(** ** Activities *)

(** [ORDER BY occurred_at DESC, id DESC] *)
Definition newest_activity (a b : activity.Event) : bool :=
  (activity.At b <? activity.At a)
  || ((activity.At a =? activity.At b) && (activity.ID b <=? activity.ID a)).

Definition GatewayActivities (limit offset : Z) : Tx store_error TxCtx DB (list activity.Event * Z) :=
  run (all ← db_get db_activities;
       activities ← sql_page limit offset (order_by newest_activity all);
       mret (activities, zlen all)).

(** ** Routes and deliveries *)
Definition DeliveryRoutes : Tx store_error TxCtx DB (list DeliveryRoute) :=
  run (db_get (fun d => (fun r => {| rt_TerminalSerialNumber := r.1; rt_EndpointURL := ro_endpoint_url r.2;
                                     rt_SigningKeyID := ro_signing_key_id r.2; rt_Enabled := ro_enabled r.2 |})
    <$> order_by (fun a b => String.leb a.1 b.1) (map_to_list (db_routes d)))).

Definition delivery_status_text (s : DeliveryStatus) : string :=
  match s with DlvPending => "pending" | DlvSending => "sending" | DlvDelivered => "delivered" | DlvFailed => "failed" end.

(** The columns of a queue row, times in the process's zone. *)
Definition listed (zone : time -> Z) (attachment : bool) (id : Z) (parent : DeliveryRow) (q : QueueRow)
    (device retained backfill : option Z) (key : string) : EventDelivery :=
  let at_ t := mkTime t (zone t) in
  {| ev_Attachment := attachment; ev_ID := id; ev_DeviceEventID := device; ev_RetainedEventID := retained;
     ev_BackfillID := backfill; ev_TerminalSerialNumber := dr_terminal_serial_number parent;
     ev_EndpointURL := dr_endpoint_url parent; ev_SigningKeyID := key;
     ev_Status := delivery_status_text (qr_status q); ev_Attempts := qr_attempts q;
     ev_NextAttemptAt := at_ (qr_next_attempt_at q); ev_LastHTTPStatus := qr_last_http_status q;
     ev_LastError := qr_last_error q; ev_CreatedAt := at_ (qr_created_at q);
     ev_DeliveredAt := at_ <$> qr_delivered_at q; ev_Body := [] |}.

Definition newest_id {A} (a b : Z * A) : bool := b.1 <=? a.1.

Definition EventDeliveries (limit offset : Z) : Tx store_error TxCtx DB (list EventDelivery * Z) :=
  run (zone ← tx_ctx cx_zone;
       all ← db_get (fun d => map_to_list (db_deliveries d));
       rows ← sql_page limit offset (order_by newest_id all);
       mret ((fun r => listed zone false r.1 r.2 (dr_queue r.2) (dr_device_event_id r.2) (dr_retained_event_id r.2)
                         (dr_backfill_id r.2) (dr_signing_key_id r.2)) <$> rows, zlen all)).

Definition AttachmentDeliveries (limit offset : Z) : Tx store_error TxCtx DB (list AttachmentDelivery * Z) :=
  run (zone ← tx_ctx cx_zone;
       total ← db_get (fun d => Z.of_nat (size (db_attachments d)));
       all ← db_get (fun d => omap (fun r : Z * AttachmentRow =>
               parent ← db_deliveries d !! ar_event_delivery_id r.2; Some (r.1, (r.2, parent)))
             (map_to_list (db_attachments d)));
       rows ← sql_page limit offset (order_by newest_id all);
       mret ((fun r : Z * (AttachmentRow * DeliveryRow) =>
                let '(id, (a, parent)) := r in
                {| ad_EventDelivery := listed zone false id parent (ar_queue a) None None None "";
                   ad_EventDeliveryID := ar_event_delivery_id a;
                   ad_Availability := ar_availability a;
                   ad_Reason := ar_reason a |}) <$> rows, total)).

(** ** Pages *)
Lemma sql_page_Ok {A} limit offset (l : list A) c s page s' :
  sql_page limit offset l c s = Ok (page, s') ->
  0 <= limit /\ 0 <= offset /\ page = take (Z.to_nat limit) (drop (Z.to_nat offset) l) /\ s' = s.
Proof.
  intros E. unfold sql_page in E. apply tx_bind_Ok in E as (u & s1 & [Hc ->]%constraint_Ok & [= <- <-]).
  apply andb_true_iff in Hc as [?%Z.leb_le ?%Z.leb_le]. done.
Qed.

(** Consecutive slices put together are a prefix. *)
Lemma concat_slices {A} (n k : nat) (l : list A) :
  concat ((fun i => take n (drop (i * n) l)) <$> seq 0 k) = take (k * n) l.
Proof.
  induction k as [|k IH]; [done|].
  rewrite seq_S, fmap_app, concat_app, IH. simpl. rewrite app_nil_r.
  rewrite take_take_drop. f_equal. lia.
Qed.

Lemma newest_event_total a b : newest_event a b = true \/ newest_event b a = true.
Proof.
  unfold newest_event. rewrite !orb_true_iff, !andb_true_iff, !Z.ltb_lt, !Z.eqb_eq, !Z.leb_le. lia.
Qed.

Lemma newest_event_trans a b c : newest_event a b = true -> newest_event b c = true -> newest_event a c = true.
Proof.
  unfold newest_event. rewrite !orb_true_iff, !andb_true_iff, !Z.ltb_lt, !Z.eqb_eq, !Z.leb_le. lia.
Qed.

#[export] Instance newest_event_total_order : Total (fun a b => newest_event a b = true).
Proof. intros a b. apply newest_event_total. Qed.
#[export] Instance newest_event_transitive : Transitive (fun a b => newest_event a b = true).
Proof. intros a b c. apply newest_event_trans. Qed.

(** The query for the k-th page. *)
Definition page_at (q : DeviceEventQuery) (k : nat) : DeviceEventQuery :=
  {| dq_Limit := dq_Limit q; dq_Offset := Z.of_nat k * dq_Limit q; dq_MajorEventType := dq_MajorEventType q;
     dq_SubEventType := dq_SubEventType q; dq_Terminal := dq_Terminal q; dq_Source := dq_Source q |}.

(** The rows a query asks for: the live and the retained events of the terminal and the source it
    names, with the codes it names among their projected columns. *)
Definition code_is (code : option Z) (column : Projection -> Z) (p : option Projection) : Prop :=
  forall n, code = Some n -> column <$> p = Some n.
Definition named (name value : string) : Prop := name = "" \/ name = value.

Definition requested (d : DB) (q : DeviceEventQuery) (e : DeviceEvent) : Prop :=
  (exists id r, db_device_events d !! id = Some r /\ e = live_event d (id, r) /\
     named (dq_Source q) "pushsdk" /\ named (dq_Terminal q) (de_terminal_serial_number r) /\
     let p := db_projections d !! id ≫= pr_projection in
     code_is (dq_MajorEventType q) pj_MajorEventType p /\ code_is (dq_SubEventType q) pj_SubEventType p) \/
  (exists id r, db_retained d !! id = Some r /\ e = retained_event (id, r) /\
     named (dq_Source q) "isapi" /\ named (dq_Terminal q) (re_terminal_serial_number r) /\
     code_is (dq_MajorEventType q) pj_MajorEventType (Some (re_projection r)) /\
     code_is (dq_SubEventType q) pj_SubEventType (Some (re_projection r))).

(** No live event arrived at the instant a retained one of the same number was imported. *)
Definition untied (d : DB) : Prop := forall id r r',
  db_device_events d !! id = Some r -> db_retained d !! id = Some r' -> de_received_at r <> re_imported_at r'.

Definition untied_b (d : DB) : bool :=
  forallb (fun r => match db_retained d !! r.1 with
                    | Some r' => negb (de_received_at r.2 =? re_imported_at r')
                    | None => true
                    end) (map_to_list (db_device_events d)).
Lemma untied_decided d : untied_b d = true -> untied d.
Proof.
  unfold untied_b. rewrite forallb_forall. intros Hd id r r' Hr Hr'.
  specialize (Hd (id, r)). cbn in Hd. rewrite <- list_elem_of_In, elem_of_map_to_list, Hr' in Hd.
  by apply Z.eqb_neq, negb_true_iff, Hd.
Qed.

(** Newer: received later, or at the same instant with a greater number. *)
Definition newer (a b : DeviceEvent) : Prop :=
  dev_ReceivedAt b < dev_ReceivedAt a \/ dev_ReceivedAt a = dev_ReceivedAt b /\ dev_ID b < dev_ID a.

Lemma named_decide name value : bool_decide (name = "") || bool_decide (value = name) = true <-> named name value.
Proof. unfold named. rewrite orb_true_iff, !bool_decide_eq_true. naive_solver. Qed.

Lemma codes_decide (code : option Z) column (p : option Projection) (a : option AccessEvent) :
  (column <$> p) = (fun x => column (ae_Projection x)) <$> a ->
  match code with
  | Some n => match a with Some x => column (ae_Projection x) =? n | None => false end
  | None => true
  end = true <-> code_is code column p.
Proof.
  intros Ep. unfold code_is. rewrite Ep. destruct code as [n|]; [|naive_solver].
  destruct a as [x|]; simpl; [rewrite Z.eqb_eq|]; naive_solver.
Qed.

(** The columns an event shows are the projected columns of its row. *)
Lemma shown_column (column : Projection -> Z) (p : option Projection) :
  (forall x, column (ae_Projection (access_event x)) = column x) ->
  (column <$> p) = (fun x => column (ae_Projection x)) <$> (access_event <$> p).
Proof. intros Hc. destruct p as [x|]; [|done]. cbn [fmap option_fmap option_map]. by rewrite Hc. Qed.

Lemma matching_requested d q e : e ∈ matching_events d q <-> requested d q e.
Proof.
  assert (Hf : e ∈ matching_events d q <-> e ∈ archive_events d /\ archiveEventClauses q e = true).
  { unfold matching_events. rewrite !list_elem_of_In. apply filter_In. }
  rewrite Hf. unfold archive_events, archiveEventClauses, requested. cbv zeta. rewrite elem_of_app, !list_elem_of_fmap, !andb_true_iff.
  setoid_rewrite <- named_decide. split.
  - intros [[([id r] & -> & Hr%elem_of_map_to_list)|([id r] & -> & Hr%elem_of_map_to_list)] [[[Hm Hs] Ht] Hsrc]];
      [left|right]; exists id, r; split_and!; try done;
      (eapply codes_decide; [|done]); try done; by apply shown_column.
  - intros [(id & r & Hr & -> & Hsrc & Ht & Hm & Hs)|(id & r & Hr & -> & Hsrc & Ht & Hm & Hs)].
    + split; [left; exists (id, r); by rewrite elem_of_map_to_list|].
      split_and!; try done; (eapply codes_decide; [|done]); by apply shown_column.
    + split; [right; exists (id, r); by rewrite elem_of_map_to_list|].
      split_and!; try done; by (eapply codes_decide; [|done]).
Qed.

(** A row is listed once. *)
Lemma matching_NoDup d q : NoDup (matching_events d q).
Proof.
  unfold matching_events. apply NoDup_ListNoDup, List.NoDup_filter, NoDup_ListNoDup. unfold archive_events.
  apply list.NoDup_app. split_and!.
  - eapply (NoDup_fmap_1 dev_ID). rewrite <- list_fmap_compose.
    rewrite (list_fmap_ext _ fst) by by intros ? [? ?]. apply NoDup_fst_map_to_list.
  - intros e ([id r] & -> & _)%list_elem_of_fmap ([id' r'] & E & _)%list_elem_of_fmap. discriminate E.
  - eapply (NoDup_fmap_1 dev_ID). rewrite <- list_fmap_compose.
    rewrite (list_fmap_ext _ fst) by by intros ? [? ?]. apply NoDup_fst_map_to_list.
Qed.

(** Untied rows have one order. *)
Lemma newest_event_iff a b :
  newest_event a b = true <-> newer a b \/ dev_ReceivedAt a = dev_ReceivedAt b /\ dev_ID a = dev_ID b.
Proof. unfold newest_event, newer. rewrite orb_true_iff, andb_true_iff, Z.ltb_lt, Z.eqb_eq, Z.leb_le. lia. Qed.

Lemma untied_events d q a b : untied d -> requested d q a -> requested d q b ->
  dev_ReceivedAt a = dev_ReceivedAt b -> dev_ID a = dev_ID b -> a = b.
Proof.
  intros Hu [(i & r & Hr & -> & _)|(i & r & Hr & -> & _)] [(j & x & Hx & -> & _)|(j & x & Hx & -> & _)];
    cbn; intros Ht <-; simplify_eq; try done; exfalso; by eapply Hu.
Qed.

Lemma one_order d q plan plan' : untied d ->
  order_by_plan newest_event plan (matching_events d q) = order_by_plan newest_event plan' (matching_events d q).
Proof.
  intros Hu. assert (Hp : forall p, order_by_plan newest_event p (matching_events d q) ≡ₚ matching_events d q)
    by (intros p; apply order_by_plan_Permutation).
  eapply (StronglySorted_unique_strong (fun a b => newest_event a b = true));
    [|apply order_by_plan_sorted; apply _..|by rewrite !Hp].
  intros a b. rewrite !Hp, !matching_requested, !newest_event_iff. unfold newer. intros Ha Hb H1 H2.
  apply (untied_events d q); [done..|lia|lia].
Qed.

Lemma QueryDeviceEvents_page q k c d :
  query_parameters_ok q = true -> 0 < dq_Limit q ->
  exists page, QueryDeviceEvents (page_at q k) c d = Ok (page, d) /\ page_Total page = zlen (matching_events d q) /\
    page_Events page = take (Z.to_nat (dq_Limit q))
      (drop (k * Z.to_nat (dq_Limit q)) (order_by_plan newest_event (cx_plan c) (matching_events d q))).
Proof.
  intros Hok Hl. unfold QueryDeviceEvents, run, mbind, Tx_bind, db_get, tx_gets, tx_ctx, sql_page, mret, Tx_ret, mbind, Tx_bind.
  change (query_parameters_ok (page_at q k)) with (query_parameters_ok q). rewrite Hok. simpl.
  rewrite (proj2 (Z.leb_le 0 (dq_Limit q))), (proj2 (Z.leb_le 0 (Z.of_nat k * dq_Limit q))) by lia. simpl.
  eexists. split; [done|]. split; [done|]. simpl. unfold sql_limit. do 2 f_equal. lia.
Qed.

(** The whole archive, sorted: every requested event once, strictly newer first. *)
Lemma sorted_archive d q plan : untied d ->
  let all := order_by_plan newest_event plan (matching_events d q) in
  NoDup all /\ (forall e, e ∈ all <-> requested d q e) /\ StronglySorted newer all /\
  zlen all = zlen (matching_events d q).
Proof.
  intros Hu all. assert (Hp : all ≡ₚ matching_events d q)
    by apply order_by_plan_Permutation.
  assert (Hnd : NoDup all) by (rewrite Hp; apply matching_NoDup).
  assert (Hin : forall e, e ∈ all <-> requested d q e) by (intros; by rewrite Hp, matching_requested).
  split_and!; [done|done| |unfold zlen; by rewrite Hp].
  assert (Hs : StronglySorted (fun a b => newest_event a b = true) all) by (apply order_by_plan_sorted; apply _).
  clearbody all. clear Hp. assert (Hall : forall e, e ∈ all -> requested d q e) by naive_solver. clear Hin.
  induction Hs as [|a l Hs IH Ha]; constructor; apply list.NoDup_cons in Hnd as [Hnew Hnd].
  - apply IH; [done|]. intros e He. apply Hall. by right.
  - apply list.Forall_forall. intros b Hb. rewrite list.Forall_forall in Ha.
    destruct (proj1 (newest_event_iff a b) (Ha b Hb)) as [|[Ht Hid]]; [done|].
    contradict Hnew. replace a with b; [done|]. symmetry.
    apply (untied_events d q); auto using list_elem_of_here, list_elem_of_further.
Qed.

(** C36: paging through the archive loses nothing and repeats nothing.  Take any filter and a
    positive limit, and pages fetched from one state, each by a query that may read its rows in
    another order.  Every page comes back with the same total, and the pages that reach the
    total, put together, are the live and the retained rows the filter names, each once, every
    event strictly newer than the next by arrival and number.  A live and a retained event of one
    number and one instant would tie, and the queries could then disagree on their order; [untied]
    excludes that. *)
Theorem archive_pages_partition q d (c : nat -> TxCtx) :
  query_parameters_ok q = true -> 0 < dq_Limit q -> untied d ->
  exists (pages : nat -> DeviceEventPage) (total : Z),
    (forall k, QueryDeviceEvents (page_at q k) (c k) d = Ok (pages k, d) /\ page_Total (pages k) = total) /\
    forall n : nat, total <= Z.of_nat n * dq_Limit q ->
      let all := concat ((fun k => page_Events (pages k)) <$> seq 0 n) in
      zlen all = total /\ NoDup all /\ (forall e, e ∈ all <-> requested d q e) /\ StronglySorted newer all.
Proof.
  intros Hok Hl Hu. set (sorted := order_by_plan newest_event [] (matching_events d q)).
  assert (Hk : forall k, { page | QueryDeviceEvents (page_at q k) (c k) d = Ok (page, d) /\
    page_Total page = zlen (matching_events d q) /\
    page_Events page = take (Z.to_nat (dq_Limit q)) (drop (k * Z.to_nat (dq_Limit q)) sorted) }).
  { intros k. destruct (QueryDeviceEvents (page_at q k) (c k) d) as [[page d']|e] eqn:E; [exists page|exfalso];
      destruct (QueryDeviceEvents_page q k (c k) d Hok Hl) as (p & E' & Ht & He); rewrite E in E'; [|done].
    injection E' as -> ->. rewrite He, (one_order d q _ [] Hu). done. }
  exists (fun k => proj1_sig (Hk k)), (zlen (matching_events d q)).
  split; [intros k; by destruct (proj2_sig (Hk k)) as (? & ? & _)|]. intros n Hn. cbv zeta.
  rewrite (list_fmap_ext _ (fun k => take (Z.to_nat (dq_Limit q)) (drop (k * Z.to_nat (dq_Limit q)) sorted)))
    by (intros; apply (proj2_sig (Hk _))).
  destruct (sorted_archive d q [] Hu) as (Hnd & Hin & Hs & Hlen). fold sorted in Hnd, Hin, Hs, Hlen.
  rewrite concat_slices, take_ge; [done|]. unfold zlen in *. lia.
Qed.
