(* ===== verification/Admin.v ===== *)
(** internal/store/store.go and isapi_commands.go: the configured administrator and
    the browser sessions of the administration API.

    bcrypt is a library of the program, hence a parameter ([Bcrypt]). *)

From Stdlib Require Import ZArith Lia Ascii String.
From stdpp Require Import base gmap strings list option.
From S2P Require Import Prelude GoText GoTime GoCrypto AccessControl Crypto StoreTypes Database StoreCore.
From S2P Require Import Wire CommandQueue.

Local Open Scope string_scope.
Local Open Scope Z_scope.

(** golang.org/x/crypto/bcrypt: a hash is made from fresh random bytes and a password,
    and is an error for a password longer than 72 bytes. *)
Class Bcrypt := {
  bcrypt_GenerateFromPassword : bytes -> bytes -> option string;
  bcrypt_CompareHashAndPassword : string -> bytes -> bool
}.

(** The documented contract: a hash is of its own password. *)
Class BcryptLaws `{Bcrypt} := {
  bcrypt_compare_generated : forall salt password hash,
    bcrypt_GenerateFromPassword salt password = Some hash ->
    bcrypt_CompareHashAndPassword hash password = true
}.

(** ** The administrator *)

(** [username] is UNIQUE: the query has at most one row. *)
Definition admin_by_name (d : DB) (username : string) : option (Z * AdminUserRow) :=
  head (select (fun _ u => bool_decide (au_username u = username)) (db_admin_users d)).

(** [SET NULL] on the commands and runs of a removed administrator. *)
Definition forget_admin (p : Z -> bool) (o : option Z) : option Z :=
  match o with Some id => if p id then None else Some id | None => None end.
Definition command_forgets (p : Z -> bool) (r : CommandRow) : CommandRow :=
  mkCommandRow (cr_terminal_serial_number r) (forget_admin p (cr_created_by_admin_user_id r))
    (cr_created_by_username r) (cr_method r) (cr_url r) (cr_data_format r) (cr_request_data r) (cr_status r)
    (cr_created_at r) (cr_expires_at r) (cr_sent_at r) (cr_completed_at r) (cr_response_data_format r)
    (cr_response_data_format_declared r) (cr_response_data_base64 r).
Definition run_forgets (p : Z -> bool) (r : SyncRow) : SyncRow :=
  mkSyncRow (sy_terminal_serial_number r) (forget_admin p (sy_created_by_admin_user_id r))
    (sy_created_by_username r) (sy_search_id r) (sy_status r) (sy_search_started_at r) (sy_search_ended_at r)
    (sy_total_matches r) (sy_pages_completed r) (sy_records_imported r) (sy_records_duplicate r)
    (sy_failure r) (sy_created_at r) (sy_completed_at r).

(** [DELETE FROM admin_users WHERE ..]: routes and backfills of a removed
    administrator refuse it, its sessions go with it. *)
Definition delete_admins (gone : AdminUserRow -> bool) : Txn unit :=
  users ← db_get db_admin_users;
  let p id := match users !! id with Some u => gone u | None => false end in
  referenced ← db_get (fun d => exists_row (fun _ r => p (ro_updated_by r)) (db_routes d)
                                || exists_row (fun _ b => p (bf_created_by b)) (db_backfills d));
  constraint (negb referenced);;
  db_set (on_admin_users (filter (fun x => gone x.2 = false)));;
  db_set (on_admin_sessions (filter (fun x => p (as_admin_user_id x.2) = false)));;
  db_set (on_commands (fmap (command_forgets p)));;
  db_set (on_sync_runs (fmap (run_forgets p))).

Section admin.
Context `{Bcrypt}.

(** [bcrypt.GenerateFromPassword([]byte(password), bcrypt.DefaultCost)] *)
Definition hash_password (password : string) : Txn string :=
  salt ← go_rand 16;
  match salt ≫= fun salt => bcrypt_GenerateFromPassword salt (bytes_of password) with
  | Some hash => mret hash
  | None => tx_fail (ErrText "hash administrator password: %w")
  end.

Definition ReconcileConfiguredAdministrator_tx (username password : string) : Txn unit :=
  delete_admins (fun u => negb (bool_decide (au_username u = username)));;
  found ← db_get (fun d => admin_by_name d username);
  match found with
  | None =>
      hash ← hash_password password;
      insert_identity AdminUsersID db_admin_users on_admin_users {| au_username := username; au_password_hash := hash |};;
      mret tt
  | Some (id, u) =>
      if negb (bcrypt_CompareHashAndPassword (au_password_hash u) (bytes_of password)) then
        hash ← hash_password password;
        db_set (on_admin_users <[id := {| au_username := username; au_password_hash := hash |}]>)
      else mret tt
  end.

Definition ReconcileConfiguredAdministrator (username password : string) : Tx store_error TxCtx DB unit :=
  run (ReconcileConfiguredAdministrator_tx username password).

(** The id of the administrator whose password this is. *)
Definition VerifyAdmin (username password : string) : Tx store_error TxCtx DB (option Z) :=
  run (found ← db_get (fun d => admin_by_name d username);
       mret (match found with
             | Some (id, u) =>
                 if bcrypt_CompareHashAndPassword (au_password_hash u) (bytes_of password) then Some id else None
             | None => None
             end)).
End admin.

(** ** Sessions *)

(** The row of a token that has not expired; [token_hash] is UNIQUE. *)
Definition session_row (d : DB) (now : time) (tokenHash : bytes) : option (Z * AdminSessionRow) :=
  head (select (fun _ s => bool_decide (as_token_hash s = tokenHash) && (now <? as_expires_at s))
          (db_admin_sessions d)).

Definition CreateSessionWithActivity_tx (userID : Z) (tokenHash : bytes) (expiresAt : time)
    (event : activity.Event) : Txn activity.Event :=
  admin_exists userID;;
  taken ← db_get (fun d => exists_row (fun _ s => bool_decide (as_token_hash s = tokenHash)) (db_admin_sessions d));
  constraint (negb taken);;
  insert_identity AdminSessionsID db_admin_sessions on_admin_sessions
    {| as_admin_user_id := userID; as_token_hash := tokenHash; as_expires_at := to_micros expiresAt |};;
  insertGatewayActivity event.

Definition CreateSessionWithActivity (userID : Z) (tokenHash : bytes) (expiresAt : time)
    (event : activity.Event) : Tx store_error TxCtx DB activity.Event :=
  run (CreateSessionWithActivity_tx userID tokenHash expiresAt event).

Definition SessionValid (tokenHash : bytes) : Tx store_error TxCtx DB bool :=
  run (now ← sql_now; db_get (fun d => bool_decide (is_Some (session_row d now tokenHash)))).

Definition DeleteSessionWithActivity_tx (tokenHash : bytes) (event : activity.Event) : Txn activity.Event :=
  db_set (on_admin_sessions (filter (fun x => as_token_hash x.2 <> tokenHash)));;
  insertGatewayActivity event.

Definition DeleteSessionWithActivity (tokenHash : bytes) (event : activity.Event)
    : Tx store_error TxCtx DB activity.Event :=
  run (DeleteSessionWithActivity_tx tokenHash event).

Definition PurgeExpiredSessions : Tx store_error TxCtx DB unit :=
  run (now ← sql_now; db_set (on_admin_sessions (filter (fun x => now < as_expires_at x.2)))).

Definition AdminIdentityForSession (tokenHash : bytes) : Tx store_error TxCtx DB (option AdminIdentity) :=
  run (now ← sql_now;
       db_get (fun d =>
         '(_, s) ← session_row d now tokenHash;
         u ← db_admin_users d !! as_admin_user_id s;
         Some {| ai_ID := as_admin_user_id s; ai_Username := au_username u |})).
