(* ===== verification/Schema.v ===== *)
(** db/schema.sql: what PostgreSQL guarantees of every state of the database — the
    CHECK, UNIQUE, PRIMARY KEY and REFERENCES clauses of its fifteen tables, as predicates
    on [DB].  Indexes only speed up queries; NOT NULL and the column types are the types
    of the rows (the width of an INTEGER that a request can exceed is in [columns_ok]; counters
    such as the attempts of a delivery are not bounded), and the CHECKs on a closed list of words are the constructors of
    [CommandStatus], [SyncStatus], [SyncPhase] and [DeliveryStatus]. *)

From Stdlib Require Import ZArith Lia Ascii String.
From stdpp Require Import base gmap strings list option.
From S2P Require Import Prelude GoText GoTime GoCrypto AccessControl Crypto StoreTypes Wire Database StoreCore.
From S2P Require Import Deliveries Worker Attachments Backfills Archive CommandQueue SyncRuns Commands Admin.

Local Open Scope string_scope.
Local Open Scope Z_scope.

(** ** Clauses *)

(** [UNIQUE (key)]; a row whose key is NULL ([None]) is distinct from every other. *)
Definition unique_by {K V X} `{Countable K} (key : V -> option X) (m : gmap K V) : Prop :=
  forall k1 k2 v1 v2 x, m !! k1 = Some v1 -> m !! k2 = Some v2 -> key v1 = Some x -> key v2 = Some x -> k1 = k2.

(** [REFERENCES table]: NOT NULL, and a column that may be NULL. *)
Definition references {K V} `{Countable K} (m : gmap K V) (k : K) : Prop := is_Some (m !! k).
Definition references_opt {K V} `{Countable K} (m : gmap K V) (o : option K) : Prop :=
  match o with Some k => references m k | None => True end.

(** [GENERATED ALWAYS AS IDENTITY]: the numbers given out so far. *)
Definition numbered {V} (next : Z) (m : gmap Z V) : Prop := map_Forall (fun id _ => id < next) m.

(** ** Tables *)
Section tables.
Context (d : DB).

Definition terminal_row_ok (r : TerminalRow) : bool :=
  ((tr_security_version r =? 3) || (tr_security_version r =? 4))
  && (1 <=? tr_command_interval_seconds r) && (tr_command_interval_seconds r <=? 300)
  && (1 <=? tr_error_delay_seconds r) && (tr_error_delay_seconds r <=? 300)
  && status_check (tr_connection_status r).
Definition terminals_ok : Prop :=
  map_Forall (fun _ r => terminal_row_ok r = true) (db_terminals d) /\
  unique_by (fun r => Some (tr_pushsdk_serial r)) (db_terminals d).

Definition sessions_ok : Prop :=
  map_Forall (fun serial r => references (db_terminals d) serial /\ session_check r = true) (db_sessions d).

Definition activity_row_ok (e : activity.Event) : Prop :=
  kind_check (activity.Kind e) = true /\ activity.Message e <> "" /\ activity.ID e < next_id d GatewayActivitiesID /\
  (activity.Terminal e = "" \/ references (db_terminals d) (activity.Terminal e)).
Definition activities_ok : Prop :=
  Forall activity_row_ok (db_activities d) /\ NoDup (activity.ID <$> db_activities d).

Definition device_events_ok : Prop :=
  map_Forall (fun _ e => references (db_terminals d) (de_terminal_serial_number e) /\
                         data_format_check (de_data_format e) = true) (db_device_events d) /\
  unique_by (fun e => Some (de_terminal_serial_number e, de_vendor_event_id e)) (db_device_events d) /\
  numbered (next_id d DeviceEventsID) (db_device_events d).

(** An unclassified projection has no other column; a classified one fits its columns. *)
Definition projections_ok : Prop :=
  map_Forall (fun id r => references (db_device_events d) id /\ 0 < pr_schema_version r /\
                          opt_ok columns_ok (pr_projection r) = true) (db_projections d).

Definition command_row_ok (uuid : string) (r : CommandRow) : Prop :=
  references (db_terminals d) (cr_terminal_serial_number r) /\
  references_opt (db_admin_users d) (cr_created_by_admin_user_id r) /\
  command_check uuid r = true /\ command_state_check r = true /\
  opt_ok supportedDataFormat (cr_response_data_format r) = true.
Definition commands_ok : Prop := map_Forall command_row_ok (db_commands d).

(** [access_event_sync_runs_lifecycle_check] *)
Definition lifecycle_check (r : SyncRow) : bool :=
  let searched := bool_decide (is_Some (sy_search_started_at r)) && bool_decide (is_Some (sy_search_ended_at r)) in
  let going := bool_decide (sy_failure r = None) && bool_decide (sy_completed_at r = None) in
  match sy_status r with
  | SyncAwaitingTime =>
      bool_decide (sy_search_started_at r = None) && bool_decide (sy_search_ended_at r = None)
      && bool_decide (sy_total_matches r = None) && (sy_pages_completed r =? 0) && (sy_records_imported r =? 0)
      && (sy_records_duplicate r =? 0) && going
  | SyncRunning => searched && going
  | SyncCompleted =>
      searched && bool_decide (sy_total_matches r = Some (sy_records_imported r + sy_records_duplicate r))
      && (1 <=? sy_pages_completed r) && bool_decide (sy_failure r = None)
      && bool_decide (is_Some (sy_completed_at r))
  | SyncFailed => bool_decide (is_Some (sy_failure r)) && bool_decide (is_Some (sy_completed_at r))
  end.

Definition sync_row_ok (uuid : string) (r : SyncRow) : Prop :=
  commandUUID uuid = true /\ references (db_terminals d) (sy_terminal_serial_number r) /\
  references_opt (db_admin_users d) (sy_created_by_admin_user_id r) /\ sy_created_by_username r <> "" /\
  1 <= text_length (sy_search_id r) <= 64 /\ 0 <= sy_pages_completed r /\ 0 <= sy_records_imported r /\
  0 <= sy_records_duplicate r /\ lifecycle_check r = true.
(** [access_event_sync_runs_one_active_terminal_idx] *)
Definition sync_runs_ok : Prop :=
  map_Forall sync_row_ok (db_sync_runs d) /\
  unique_by (fun r => if sync_active (sy_status r) then Some (sy_terminal_serial_number r) else None) (db_sync_runs d).

Definition link_row_ok (uuid : string) (l : SyncLinkRow) : Prop :=
  references (db_commands d) uuid /\ references (db_sync_runs d) (sl_sync_run_uuid l) /\
  match sl_phase l, sl_search_result_position l with
  | PhaseTime, None => True
  | PhasePage, Some p => 0 <= p <= 150000
  | _, _ => False
  end.
(** [UNIQUE (sync_run_uuid, phase, search_result_position)] *)
Definition page_key (l : SyncLinkRow) : option (string * Z) :=
  match sl_phase l with
  | PhasePage => pair (sl_sync_run_uuid l) <$> sl_search_result_position l
  | PhaseTime => None
  end.
Definition sync_links_ok : Prop := map_Forall link_row_ok (db_sync_links d) /\ unique_by page_key (db_sync_links d).

Definition retained_row_ok (r : RetainedRow) : Prop :=
  references (db_terminals d) (re_terminal_serial_number r) /\
  references (db_sync_runs d) (re_source_sync_run_uuid r) /\ references (db_commands d) (re_source_command_uuid r) /\
  re_source_record r <> [] /\ length (re_source_sha256 r) = 32%nat /\
  1 <= pj_MajorEventType (re_projection r) <= 5 /\ 0 <= pj_SubEventType (re_projection r) /\
  is_Some (pj_OccurredAt (re_projection r)) /\ columns_ok (re_projection r) = true.
Definition retained_ok : Prop :=
  map_Forall (fun _ => retained_row_ok) (db_retained d) /\
  unique_by (fun r => Some (re_terminal_serial_number r, re_source_sha256 r)) (db_retained d) /\
  numbered (next_id d RetainedAccessEventsID) (db_retained d).

Definition routes_ok : Prop :=
  map_Forall (fun serial r => references (db_terminals d) serial /\ references (db_admin_users d) (ro_updated_by r))
    (db_routes d).

Definition backfills_ok : Prop :=
  map_Forall (fun _ b => references (db_terminals d) (bf_terminal_serial_number b) /\ bf_starts_at b < bf_ends_at b /\
                         0 < bf_queued_count b /\ references (db_admin_users d) (bf_created_by b)) (db_backfills d) /\
  numbered (next_id d DeliveryBackfillsID) (db_backfills d).

Definition delivery_row_ok (r : DeliveryRow) : Prop :=
  references (db_terminals d) (dr_terminal_serial_number r) /\
  references_opt (db_device_events d) (dr_device_event_id r) /\
  references_opt (db_retained d) (dr_retained_event_id r) /\
  references_opt (db_backfills d) (dr_backfill_id r) /\
  (is_Some (dr_device_event_id r) <-> dr_retained_event_id r = None) /\ 0 <= qr_attempts (dr_queue r).
Definition deliveries_ok : Prop :=
  map_Forall (fun _ => delivery_row_ok) (db_deliveries d) /\
  unique_by dr_device_event_id (db_deliveries d) /\ unique_by dr_retained_event_id (db_deliveries d) /\
  numbered (next_id d EventDeliveriesID) (db_deliveries d).

Definition attachment_row_ok (a : AttachmentRow) : Prop :=
  references (db_deliveries d) (ar_event_delivery_id a) /\ opt_ok availability_check (ar_availability a) = true /\
  0 <= qr_attempts (ar_queue a).
Definition attachments_ok : Prop :=
  map_Forall (fun _ => attachment_row_ok) (db_attachments d) /\
  unique_by (fun a => Some (ar_event_delivery_id a)) (db_attachments d) /\
  numbered (next_id d AttachmentDeliveriesID) (db_attachments d).

Definition admin_users_ok : Prop :=
  unique_by (fun u => Some (au_username u)) (db_admin_users d) /\ numbered (next_id d AdminUsersID) (db_admin_users d).

Definition admin_sessions_ok : Prop :=
  map_Forall (fun _ s => references (db_admin_users d) (as_admin_user_id s)) (db_admin_sessions d) /\
  unique_by (fun s => Some (as_token_hash s)) (db_admin_sessions d) /\
  numbered (next_id d AdminSessionsID) (db_admin_sessions d).

(** ** The schema *)
Record schema_ok : Prop := {
  ok_terminals : terminals_ok;
  ok_device_events : device_events_ok;
  ok_admin_users : admin_users_ok;
  ok_admin_sessions : admin_sessions_ok;
  ok_activities : activities_ok;
  ok_sessions : sessions_ok;
  ok_projections : projections_ok;
  ok_commands : commands_ok;
  ok_sync_runs : sync_runs_ok;
  ok_sync_links : sync_links_ok;
  ok_retained : retained_ok;
  ok_routes : routes_ok;
  ok_backfills : backfills_ok;
  ok_deliveries : deliveries_ok;
  ok_attachments : attachments_ok
}.
End tables.

(** ** The methods of the store *)
Section methods.
Context `{GoParsers} `{CryptoLib} `{Bcrypt}.

(** Every exported method of the store that writes, as a transaction with its arguments;
    the projection backfill is one of its batches. *)
Inductive store_op :=
| OpRecordGatewayActivity (event : activity.Event)
| OpSeedConfiguredTerminals (terminals : list Config.Terminal)
| OpReconcileConfiguredAdministrator (username password : string)
| OpTransitionTerminalState (serial status : string) (lastError : option string) (event : activity.Event)
| OpUpsertPushSDKSession (session : PushSDKSession)
| OpExpirePushSDKLoginChallenge (serial reason : string)
| OpDeletePushSDKSession (serial : string)
| OpInsertDeviceEventBatch (events : list NewDeviceEvent)
| OpBackfillBatch
| OpCreateSessionWithActivity (user : Z) (tokenHash : bytes) (expiresAt : time) (event : activity.Event)
| OpDeleteSessionWithActivity (tokenHash : bytes) (event : activity.Event)
| OpPurgeExpiredSessions
| OpQueueISAPICommand (input : NewISAPICommand)
| OpExpireOverdueISAPICommands
| OpClaimISAPICommands (serial : string) (limit : Z)
| OpCompleteISAPICommands (serial : string) (results : list ISAPICommandResult)
| OpQueueAccessEventSync (serial : string) (identity : AdminIdentity)
| OpSaveDeliveryRoute (route : DeliveryRoute) (actor : Z)
| OpDeleteDeliveryRoute (serial : string) (actor : Z)
| OpClaimEventDelivery
| OpFinishEventDelivery (e : EventDelivery) (status : DeliveryStatus) (code : Z) (failure : string) (next : time)
| OpRetryEventDelivery (id actor : Z)
| OpClaimAttachment
| OpFinishAttachment (e : EventDelivery) (status : DeliveryStatus) (code : Z) (failure : string) (next : time)
| OpRetryAttachmentDelivery (id actor : Z)
| OpQueueEventBackfill (serial : string) (from until : Time) (token : string) (actor : Z)
| OpQueueAttachmentBackfill (serial : string) (through : Z) (token : string) (actor : Z).

(** The database a transaction commits, if it does. *)
Definition committed {A} (m : Tx store_error TxCtx DB A) (c : TxCtx) (d : DB) : option DB :=
  match m c d with Ok (_, d') => Some d' | Err _ => None end.

Definition perform (op : store_op) : TxCtx -> DB -> option DB :=
  match op with
  | OpRecordGatewayActivity event => committed (RecordGatewayActivity event)
  | OpSeedConfiguredTerminals terminals => committed (SeedConfiguredTerminals terminals)
  | OpReconcileConfiguredAdministrator username password => committed (ReconcileConfiguredAdministrator username password)
  | OpTransitionTerminalState serial status lastError event =>
      committed (TransitionTerminalState serial status lastError event)
  | OpUpsertPushSDKSession session => committed (UpsertPushSDKSession session)
  | OpExpirePushSDKLoginChallenge serial reason => committed (ExpirePushSDKLoginChallenge serial reason)
  | OpDeletePushSDKSession serial => committed (DeletePushSDKSession serial)
  | OpInsertDeviceEventBatch events => committed (InsertDeviceEventBatch events)
  | OpBackfillBatch => committed backfill_batch
  | OpCreateSessionWithActivity user tokenHash expiresAt event =>
      committed (CreateSessionWithActivity user tokenHash expiresAt event)
  | OpDeleteSessionWithActivity tokenHash event => committed (DeleteSessionWithActivity tokenHash event)
  | OpPurgeExpiredSessions => committed PurgeExpiredSessions
  | OpQueueISAPICommand input => committed (QueueISAPICommand input)
  | OpExpireOverdueISAPICommands => committed ExpireOverdueISAPICommands
  | OpClaimISAPICommands serial limit => committed (ClaimISAPICommands serial limit)
  | OpCompleteISAPICommands serial results => committed (CompleteISAPICommands serial results)
  | OpQueueAccessEventSync serial identity => committed (QueueAccessEventSync serial identity)
  | OpSaveDeliveryRoute route actor => committed (SaveDeliveryRoute route actor)
  | OpDeleteDeliveryRoute serial actor => committed (DeleteDeliveryRoute serial actor)
  | OpClaimEventDelivery => committed ClaimEventDelivery
  | OpFinishEventDelivery e status code failure next => committed (FinishEventDelivery e status code failure next)
  | OpRetryEventDelivery id actor => committed (RetryEventDelivery id actor)
  | OpClaimAttachment => committed ClaimAttachment
  | OpFinishAttachment e status code failure next => committed (FinishAttachment e status code failure next)
  | OpRetryAttachmentDelivery id actor => committed (RetryAttachmentDelivery id actor)
  | OpQueueEventBackfill serial from until token actor => committed (QueueEventBackfill serial from until token actor)
  | OpQueueAttachmentBackfill serial through token actor =>
      committed (QueueAttachmentBackfill serial through token actor)
  end.

(** A history of the database: transactions of any process, each at its own time and with
    its own randomness; one that fails leaves the database alone. *)
Definition history : Type := list (store_op * TxCtx).
Definition step_history (d : DB) (x : store_op * TxCtx) : DB := default d (perform x.1 x.2 d).
Definition replay (h : history) (d : DB) : DB := foldl step_history d h.
End methods.
