(* ===== verification/StoreFrame.v ===== *)
(** What the transactions of the store leave alone, and what they report.

    [frame f m]: [m] does not change the part [f] of the database.
    [reports acc m acts]: [m] only appends to the activities, and every activity
    of [acts] of its result is committed with it, given that those of [acc] are.
    Both follow the structure of the code; [frame_auto] and [reports_auto] apply
    their rules and the lemmas of the operations in the hint databases [frame]
    and [reports]. *)

From Stdlib Require Import ZArith Lia Ascii String.
From stdpp Require Import base gmap strings list option.
From S2P Require Import Prelude GoText GoTime GoCrypto AccessControl StoreTypes Wire Database StoreCore.
From S2P Require Import Deliveries Archive CommandQueue SyncRuns Commands.

Local Open Scope string_scope.
Local Open Scope Z_scope.

Create HintDb frame.
Create HintDb reports.

(** ** Frames *)
Definition frame {T A} (f : DB -> T) (m : Txn A) : Prop := forall c s a s',
  m c s = Ok (a, s') -> f (tx_db s') = f (tx_db s).

Section frame_rules.
Context {T : Type} (f : DB -> T).

Lemma frame_bind {A B} (m : Txn A) (k : A -> Txn B) :
  frame f m -> (forall a, frame f (k a)) -> frame f (m ≫= k).
Proof.
  intros Hm Hk c s b s'. unfold mbind, Tx_bind.
  destruct (m c s) as [[a s1]|] eqn:E1; [|done]. intros E2.
  by rewrite (Hk a c s1 b s' E2), (Hm c s a s1 E1).
Qed.

Lemma frame_ret {A} (a : A) : frame f (mret a).
Proof. by intros c s a' s' [= _ ->]. Qed.
Lemma frame_fail {A} e : frame f (tx_fail e : Txn A).
Proof. by intros c s a' s' [=]. Qed.
Lemma frame_get {A} (g : DB -> A) : frame f (db_get g).
Proof. by intros c s a' s' [= _ ->]. Qed.
Lemma frame_set g : (forall d, f (g d) = f d) -> frame f (db_set g).
Proof. intros Hg c s a' s' [= _ <-]. apply Hg. Qed.
Lemma frame_ctx {A} (g : TxCtx -> A) : frame f (tx_ctx g : Txn A).
Proof. by intros c s a' s' [= _ ->]. Qed.
Lemma frame_sql_now : frame f sql_now.
Proof. by intros c s a' s' [= _ ->]. Qed.
Lemma frame_go_now : frame f go_now.
Proof. by intros c s a' s' [= _ <-]. Qed.
Lemma frame_go_rand n : frame f (go_rand n).
Proof. by intros c s a' s' [= _ <-]. Qed.
Lemma frame_local_time t : frame f (local_time t).
Proof. by intros c s a' s' [= _ ->]. Qed.
Lemma frame_constraint b : frame f (constraint b).
Proof. destruct b; [apply frame_ret|apply frame_fail]. Qed.

Lemma frame_for {A B} (g : B -> A -> Txn B) l acc :
  (forall b a, frame f (g b a)) -> frame f (tx_for g l acc).
Proof.
  intros Hg. revert acc. induction l as [|x l IH]; intros acc; simpl; [apply frame_ret|].
  apply frame_bind; auto.
Qed.

Lemma frame_attempt {A} (m : Txn A) : frame f m -> frame f (tx_attempt m).
Proof.
  intros Hm c s a s'. unfold tx_attempt. destruct (m c s) as [[a1 s1]|e] eqn:E1.
  - intros [= <- <-]. by eapply Hm.
  - destruct e; by intros [= <- <-].
Qed.
End frame_rules.
#[export] Hint Resolve frame_ret frame_fail frame_get frame_ctx frame_sql_now frame_go_now frame_go_rand
  frame_local_time frame_constraint : frame.

Ltac frame_step :=
  lazymatch goal with
  | |- frame _ (mbind _ _) => apply frame_bind; [|intro]
  | |- frame _ (if ?b then _ else _) => destruct b
  | |- frame _ (match ?o with _ => _ end) => destruct o
  | |- frame _ (tx_for _ _ _) => apply frame_for; intros
  | |- frame _ (db_set _) => apply frame_set; intros; reflexivity
  | |- frame _ (tx_attempt _) => apply frame_attempt
  | |- frame _ _ => solve [auto with frame]
  end; cbn beta iota zeta.
Ltac frame_auto := intros; cbn beta iota zeta; repeat frame_step.

Lemma frame_admin_exists {T} (f : DB -> T) id : frame f (admin_exists id).
Proof. unfold admin_exists. frame_auto. Qed.
#[export] Hint Resolve frame_admin_exists : frame.

(** The parts of the database: a projection a transaction may not touch is one
    that commutes with the updates it makes. *)
Section frame_ops.
Context `{GoParsers} `{CryptoLib} {T : Type} (f : DB -> T).

(** The activity log and the identity counters are invisible to [f]. *)
Definition no_log : Prop :=
  (forall g d, f (on_activities g d) = f d) /\ (forall g d, f (on_next_id g d) = f d).
Context (Hlog : no_log).

Lemma frame_fresh_id q : frame f (fresh_id q).
Proof using Hlog. unfold fresh_id. frame_auto. apply frame_set. apply Hlog. Qed.
Local Hint Resolve frame_fresh_id : frame.

Lemma frame_terminal_exists serial : frame f (terminal_exists serial).
Proof using. unfold terminal_exists. frame_auto. Qed.
Local Hint Resolve frame_terminal_exists : frame.


Lemma frame_activity e : frame f (insertGatewayActivity e).
Proof using Hlog. unfold insertGatewayActivity. repeat frame_step. apply frame_set. apply Hlog. Qed.
Local Hint Resolve frame_activity : frame.

Lemma frame_newUUID : frame f newISAPICommandUUID.
Proof using. unfold newISAPICommandUUID. frame_auto. Qed.
Local Hint Resolve frame_newUUID : frame.

Lemma frame_insert_identity {V} q (table : DB -> gmap Z V) update row :
  (forall g d, f (update g d) = f d) -> frame f (insert_identity q table update row).
Proof using Hlog. intros Hu. unfold insert_identity. frame_auto. by apply frame_set. Qed.

Context (Hruns : forall g d, f (on_sync_runs g d) = f d).

Lemma frame_failAccessEventSync run reason : frame f (failAccessEventSync run reason).
Proof using Hlog Hruns. unfold failAccessEventSync. repeat frame_step. apply frame_set; auto. Qed.
Local Hint Resolve frame_failAccessEventSync : frame.

Lemma frame_failExpired uuid delivered : frame f (failExpiredAccessEventSyncCommand uuid delivered).
Proof using Hlog Hruns. unfold failExpiredAccessEventSyncCommand. frame_auto. Qed.
Local Hint Resolve frame_failExpired : frame.

Lemma frame_report_expired acts row : frame f (report_expired acts row).
Proof using Hlog Hruns. unfold report_expired. frame_auto. Qed.

Lemma frame_report_sent serial acts dlv : frame f (report_sent serial acts dlv).
Proof using Hlog. unfold report_sent. frame_auto. Qed.
Local Hint Resolve frame_report_expired frame_report_sent : frame.

Context (Hcommands : forall g d, f (on_commands g d) = f d).

Lemma frame_expireOverdue serial : frame f (expireOverdueISAPICommandsTx serial).
Proof using Hlog Hruns Hcommands. unfold expireOverdueISAPICommandsTx. repeat frame_step. apply frame_set; auto. Qed.

Lemma frame_queueISAPICommandTx input : frame f (queueISAPICommandTx input).
Proof using Hlog Hcommands. unfold queueISAPICommandTx. repeat frame_step. apply frame_set; auto. Qed.
Local Hint Resolve frame_expireOverdue frame_queueISAPICommandTx : frame.

Lemma frame_ClaimISAPICommands serial limit : frame f (ClaimISAPICommands_tx serial limit).
Proof using Hlog Hruns Hcommands. unfold ClaimISAPICommands_tx. repeat frame_step. apply frame_set; auto. Qed.

Context (Hlinks : forall g d, f (on_sync_links g d) = f d)
        (Hretained : forall g d, f (on_retained g d) = f d).

Lemma frame_link uuid run phase position : frame f (link_command uuid run phase position).
Proof using Hlinks. unfold link_command. repeat frame_step. apply frame_set; auto. Qed.
Local Hint Resolve frame_link : frame.

Lemma frame_insertRetained command uuid records :
  frame f (insertRetainedAccessEvents command uuid records).
Proof using Hlog Hretained.
  unfold insertRetainedAccessEvents, insert_retained. repeat frame_step.
  apply frame_insert_identity; auto.
Qed.
Local Hint Resolve frame_insertRetained : frame.

Lemma frame_completeTime command source : frame f (completeAccessEventSyncTime command source).
Proof using Hlog Hruns Hcommands Hlinks.
  unfold completeAccessEventSyncTime. frame_auto. apply frame_set; auto.
Qed.

Lemma frame_next_page command ended position total pages imported duplicates act :
  frame f (next_page command ended position total pages imported duplicates act).
Proof using Hlog Hruns Hcommands Hlinks. unfold next_page. frame_auto. apply frame_set; auto. Qed.
Local Hint Resolve frame_completeTime frame_next_page : frame.

Lemma frame_completePage command uuid source at_ : frame f (completeAccessEventSyncPage command uuid source at_).
Proof using Hlog Hruns Hcommands Hlinks Hretained.
  unfold completeAccessEventSyncPage. frame_auto. apply frame_set; auto.
Qed.
Local Hint Resolve frame_completePage : frame.

Lemma frame_completeSync serial result at_ : frame f (completeAccessEventSyncCommand serial result at_).
Proof using Hlog Hruns Hcommands Hlinks Hretained. unfold completeAccessEventSyncCommand. frame_auto. Qed.
Local Hint Resolve frame_completeSync : frame.

Lemma frame_CompleteISAPICommands serial results : frame f (CompleteISAPICommands_tx serial results).
Proof using Hlog Hruns Hcommands Hlinks Hretained.
  unfold CompleteISAPICommands_tx, complete_one. frame_auto. apply frame_set; auto.
Qed.
End frame_ops.

(** ** Reports *)
Abbreviation events := (list activity.Event).
Definition logged (d : DB) (l : events) : Prop := Forall (.∈ db_activities d) l.
Definition appends (d d' : DB) : Prop := exists more, db_activities d' = (db_activities d ++ more)%list.

Definition reports {A} (acc : events) (m : Txn A) (acts : A -> events) : Prop := forall c s a s',
  m c s = Ok (a, s') -> appends (tx_db s) (tx_db s') /\
  (logged (tx_db s) acc -> logged (tx_db s') (acts a)).

Lemma appends_refl d : appends d d.
Proof. exists []. by rewrite app_nil_r. Qed.

Lemma appends_trans d1 d2 d3 : appends d1 d2 -> appends d2 d3 -> appends d1 d3.
Proof. intros [m1 E1] [m2 E2]. exists (m1 ++ m2)%list. by rewrite E2, E1, app_assoc. Qed.

Lemma appends_logged d d' l : appends d d' -> logged d l -> logged d' l.
Proof.
  intros [more E]. unfold logged. rewrite E. apply Forall_impl. intros e He. apply elem_of_app. by left.
Qed.

Section report_rules.
Implicit Types acc : events.

Lemma reports_bind {A B} acc (m : Txn A) (k : A -> Txn B) acts acts' :
  reports acc m acts -> (forall a, reports (acts a ++ acc)%list (k a) acts') ->
  reports acc (m ≫= k) acts'.
Proof.
  intros Hm Hk c s b s'. unfold mbind, Tx_bind.
  destruct (m c s) as [[a s1]|] eqn:E1; [|done]. intros E2.
  destruct (Hm c s a s1 E1) as [A1 L1], (Hk a c s1 b s' E2) as [A2 L2].
  split; [by eapply appends_trans|]. intros Hacc. apply L2, Forall_app. split.
  - by apply L1.
  - by eapply appends_logged.
Qed.

Lemma reports_ret {A} acc (a : A) acts : (forall e, e ∈ acts a -> e ∈ acc) -> reports acc (mret a) acts.
Proof.
  intros Hin c s a' s' [= -> ->]. split; [apply appends_refl|].
  unfold logged. rewrite !list.Forall_forall. auto.
Qed.

Lemma reports_fail {A} acc e (acts : A -> events) : reports acc (tx_fail e) acts.
Proof. by intros c s a' s' [=]. Qed.

(** A transaction that leaves the log alone reports nothing new. *)
Lemma reports_frame {A} (m : Txn A) : frame db_activities m -> reports [] m (fun _ => []).
Proof.
  intros Hm c s a s' E. split; [|constructor]. exists []. rewrite app_nil_r. by eapply Hm.
Qed.

Lemma reports_weaken {A} acc (m : Txn A) acts : reports [] m acts -> reports acc m acts.
Proof.
  intros Hm c s a s' E. destruct (Hm c s a s' E) as [A1 L1]. split; [done|].
  intros _. apply L1. constructor.
Qed.

Lemma reports_mono {A} acc acc' (m : Txn A) acts :
  (forall e, e ∈ acc' -> e ∈ acc) -> reports acc' m acts -> reports acc m acts.
Proof.
  intros Hin Hm c s a s' E. destruct (Hm c s a s' E) as [A1 L1]. split; [done|].
  unfold logged. rewrite !list.Forall_forall. intros Hacc. apply list.Forall_forall, L1, list.Forall_forall.
  auto.
Qed.

Lemma reports_for {A} (g : events -> A -> Txn events) l acc :
  (forall acc a, reports acc (g acc a) id) -> reports acc (tx_for g l acc) id.
Proof.
  intros Hg. revert acc. induction l as [|x l IH]; intros acc; simpl; [by apply reports_ret|].
  intros c s b s'. unfold mbind, Tx_bind.
  destruct (g acc x c s) as [[a s1]|] eqn:E1; [|done]. intros E2.
  destruct (Hg acc x c s a s1 E1) as [A1 L1], (IH a c s1 b s' E2) as [A2 L2].
  split; [by eapply appends_trans|auto].
Qed.

Lemma reports_attempt {A} (m : Txn A) acts :
  reports [] m acts -> reports [] (tx_attempt m) (from_option acts []).
Proof.
  intros Hm c s a s'. unfold tx_attempt. destruct (m c s) as [[a1 s1]|e] eqn:E1.
  - intros [= <- <-]. by eapply Hm.
  - destruct e; intros [= <- <-]; (split; [apply appends_refl|constructor]).
Qed.
End report_rules.

(** Uses a lemma of the operation, or its frame. *)
Ltac reports_known :=
  apply reports_weaken;
  first [ solve [eauto with reports]
        | apply reports_attempt; solve [eauto with reports]
        | apply reports_frame; solve [frame_auto] ].
Ltac reports_step :=
  lazymatch goal with
  | |- reports _ (mbind _ _) _ => eapply reports_bind; [reports_known|intro]
  | |- reports _ (mret _) _ => apply reports_ret
  | |- reports _ (tx_fail _) _ => apply reports_fail
  | |- reports _ (if ?b then _ else _) _ => destruct b
  | |- reports _ (match ?o with _ => _ end) _ => destruct o
  | |- reports _ _ _ => reports_known
  end; cbn beta iota zeta.
Ltac reports_auto := intros; cbn beta iota zeta; repeat reports_step; unfold id; try set_solver.

Lemma frame_log_next_id q : frame db_activities (fresh_id q).
Proof. unfold fresh_id. frame_auto. Qed.
#[export] Hint Resolve frame_log_next_id : frame.

Lemma frame_log_terminal_exists serial : frame db_activities (terminal_exists serial).
Proof. unfold terminal_exists. frame_auto. Qed.
#[export] Hint Resolve frame_log_terminal_exists : frame.

Lemma frame_log_newUUID : frame db_activities newISAPICommandUUID.
Proof. apply frame_newUUID. Qed.
#[export] Hint Resolve frame_log_newUUID : frame.

Lemma frame_log_link uuid run phase position : frame db_activities (link_command uuid run phase position).
Proof. by apply frame_link. Qed.
#[export] Hint Resolve frame_log_link : frame.

Section report_ops.
Context `{GoParsers} `{CryptoLib}.

Lemma reports_activity e : reports [] (insertGatewayActivity e) (fun stored => [stored]).
Proof.
  unfold insertGatewayActivity. repeat reports_step.
  intros c s x s' [= <- <-]; simpl. split; [by eexists|]. intros _.
  repeat constructor. set_solver.
Qed.
Local Hint Resolve reports_activity : reports.

Lemma reports_failAccessEventSync run reason : reports [] (failAccessEventSync run reason) id.
Proof. unfold failAccessEventSync. reports_auto. Qed.
Local Hint Resolve reports_failAccessEventSync : reports.

Lemma reports_failExpired uuid delivered : reports [] (failExpiredAccessEventSyncCommand uuid delivered) id.
Proof. unfold failExpiredAccessEventSyncCommand. reports_auto. Qed.
Local Hint Resolve reports_failExpired : reports.

Lemma reports_expireOverdue serial : reports [] (expireOverdueISAPICommandsTx serial) id.
Proof.
  unfold expireOverdueISAPICommandsTx. do 3 reports_step. apply reports_for.
  intros acc [uuid r]. unfold report_expired. reports_auto.
Qed.
Local Hint Resolve reports_expireOverdue : reports.

Lemma reports_queueISAPICommandTx input :
  reports [] (queueISAPICommandTx input) (fun p => [p.2]).
Proof. unfold queueISAPICommandTx. reports_auto. Qed.
Local Hint Resolve reports_queueISAPICommandTx : reports.

Lemma reports_ClaimISAPICommands serial limit :
  reports [] (ClaimISAPICommands_tx serial limit) snd.
Proof.
  unfold ClaimISAPICommands_tx. do 5 reports_step.
  eapply reports_bind.
  { apply (reports_mono _ a); [set_solver|]. apply reports_for. intros. unfold report_sent. reports_auto. }
  reports_auto.
Qed.

Lemma reports_completeTime command source : reports [] (completeAccessEventSyncTime command source) id.
Proof. unfold completeAccessEventSyncTime. reports_auto. Qed.

Lemma reports_next_page command ended position total pages imported duplicates act :
  reports [act] (next_page command ended position total pages imported duplicates act) id.
Proof. unfold next_page. reports_auto. Qed.

Lemma frame_log_insertRetained command uuid records :
  frame db_activities (insertRetainedAccessEvents command uuid records).
Proof.
  unfold insertRetainedAccessEvents, insert_retained, insert_identity. frame_auto.
Qed.
Local Hint Resolve reports_completeTime frame_log_insertRetained : reports frame.

Lemma reports_completePage command uuid source at_ :
  reports [] (completeAccessEventSyncPage command uuid source at_) id.
Proof.
  unfold completeAccessEventSyncPage. reports_auto.
  eapply reports_mono; [|apply reports_next_page]. set_solver.
Qed.
Local Hint Resolve reports_completePage : reports.

Lemma reports_completeSync serial result at_ :
  reports [] (completeAccessEventSyncCommand serial result at_) id.
Proof. unfold completeAccessEventSyncCommand. reports_auto. Qed.
Local Hint Resolve reports_completeSync : reports.

Lemma reports_complete_one serial acc result : reports acc (complete_one serial acc result) id.
Proof. unfold complete_one. reports_auto. Qed.

Lemma reports_CompleteISAPICommands serial results :
  reports [] (CompleteISAPICommands_tx serial results) fst.
Proof.
  unfold CompleteISAPICommands_tx. reports_step. eapply reports_bind.
  { apply (reports_mono _ a); [set_solver|]. apply reports_for. intros. apply reports_complete_one. }
  reports_auto.
Qed.
End report_ops.
#[export] Hint Resolve reports_activity : reports.
