(* ===== verification/AdminProofs.v ===== *)
(** Administrators and their browser sessions: the uniqueness and reference
    invariants of the two tables, the single configured administrator, and the life
    of a session token from sign-in to sign-out, expiry or replacement of its
    administrator. *)

From Stdlib Require Import ZArith Lia Ascii String.
From stdpp Require Import base gmap strings list option relations.
From S2P Require Import Prelude GoText GoTime GoCrypto AccessControl StoreTypes Wire Database StoreCore.
From S2P Require Import Deliveries Archive CommandQueue SyncRuns Commands Admin StoreFrame.

Local Open Scope string_scope.
Local Open Scope Z_scope.

(** The constraints of [admin_users] and [admin_sessions]. *)
Record admin_wf (d : DB) : Prop := {
  names_unique : forall i u j v, db_admin_users d !! i = Some u -> db_admin_users d !! j = Some v ->
    au_username u = au_username v -> i = j;
  tokens_unique : forall i s j t, db_admin_sessions d !! i = Some s -> db_admin_sessions d !! j = Some t ->
    as_token_hash s = as_token_hash t -> i = j;
  sessions_owned : forall i s, db_admin_sessions d !! i = Some s -> is_Some (db_admin_users d !! as_admin_user_id s)
}.

(** The two tables as one projection. *)
Definition admin_tables (d : DB) : gmap Z AdminUserRow * gmap Z AdminSessionRow :=
  (db_admin_users d, db_admin_sessions d).

Lemma admin_tables_wf d d' : admin_tables d' = admin_tables d -> admin_wf d -> admin_wf d'.
Proof. unfold admin_tables. intros [= Eu Es] [H1 H2 H3]. split; rewrite ?Eu, ?Es; eauto. Qed.

Lemma admin_tables_activity e : frame admin_tables (insertGatewayActivity e).
Proof. by apply frame_activity. Qed.

(** ** Reading a token *)
Section tokens.
Context (d : DB) (Hwf : admin_wf d).

Lemma session_row_Some now h i s :
  session_row d now h = Some (i, s) <->
  db_admin_sessions d !! i = Some s /\ as_token_hash s = h /\ now < as_expires_at s.
Proof using Hwf.
  unfold session_row. split.
  - intros [Hs [Hh%bool_decide_eq_true Hn%Z.ltb_lt]%andb_true_iff]%head_select. done.
  - intros (Hs & Hh & Hn). apply head_select_unique; [|done|].
    + intros k1 v1 k2 v2 H1 H2 [P1%bool_decide_eq_true _]%andb_true_iff [P2%bool_decide_eq_true _]%andb_true_iff.
      eapply (tokens_unique d Hwf); [done..|congruence].
    + apply andb_true_iff. split; [by apply bool_decide_eq_true|by apply Z.ltb_lt].
Qed.

Lemma session_row_None now h :
  session_row d now h = None <->
  forall i s, db_admin_sessions d !! i = Some s -> as_token_hash s = h -> as_expires_at s <= now.
Proof using.
  unfold session_row. rewrite head_select_None. split.
  - intros Hno i s Hs Hh. specialize (Hno i s Hs). rewrite bool_decide_true in Hno by done. simpl in Hno.
    by apply Z.ltb_ge in Hno.
  - intros Hno i s Hs. apply andb_false_iff. destruct (decide (as_token_hash s = h)) as [Hh|Hh].
    + right. apply Z.ltb_ge. eauto.
    + left. by apply bool_decide_eq_false.
Qed.

Lemma SessionValid_eq h c :
  SessionValid h c d = Ok (bool_decide (is_Some (session_row d (cx_now c) h)), d).
Proof using. done. Qed.

(** The identity of a token is the administrator of its session; the two reads agree. *)
Lemma AdminIdentityForSession_eq h c :
  AdminIdentityForSession h c d =
  Ok ('(_, s) ← session_row d (cx_now c) h;
      u ← db_admin_users d !! as_admin_user_id s;
      Some {| ai_ID := as_admin_user_id s; ai_Username := au_username u |}, d).
Proof using. done. Qed.

Lemma identity_iff_valid h c :
  (exists identity, AdminIdentityForSession h c d = Ok (Some identity, d)) <-> SessionValid h c d = Ok (true, d).
Proof using Hwf.
  rewrite AdminIdentityForSession_eq, SessionValid_eq. destruct (session_row d (cx_now c) h) as [[i s]|] eqn:E.
  - apply session_row_Some in E as (Hs & _ & _). destruct (sessions_owned d Hwf i s Hs) as [u Hu]. simpl.
    rewrite Hu. naive_solver.
  - simpl. naive_solver.
Qed.
End tokens.

Lemma admin_by_name_Some d username i u :
  admin_wf d ->
  admin_by_name d username = Some (i, u) <-> db_admin_users d !! i = Some u /\ au_username u = username.
Proof.
  intros Hwf. unfold admin_by_name. split.
  - intros [Hu Hn%bool_decide_eq_true]%head_select. done.
  - intros [Hu Hn]. apply head_select_unique; [|done|by apply bool_decide_eq_true].
    intros k1 v1 k2 v2 H1 H2 P1%bool_decide_eq_true P2%bool_decide_eq_true.
    eapply (names_unique d Hwf); [done..|congruence].
Qed.

Lemma admin_by_name_None d username :
  admin_by_name d username = None <-> forall i u, db_admin_users d !! i = Some u -> au_username u <> username.
Proof.
  unfold admin_by_name. rewrite head_select_None. split.
  - intros Hno i u Hu. specialize (Hno i u Hu). by apply bool_decide_eq_false in Hno.
  - intros Hno i u Hu. apply bool_decide_eq_false. eauto.
Qed.

(** ** Writing *)
Lemma create_session_Ok user h expires e c d a d' :
  CreateSessionWithActivity user h expires e c d = Ok (a, d') ->
  is_Some (db_admin_users d !! user) /\
  (forall i s, db_admin_sessions d !! i = Some s -> as_token_hash s <> h) /\
  exists id, db_admin_sessions d !! id = None /\ db_admin_users d' = db_admin_users d /\
    db_admin_sessions d' = <[id := {| as_admin_user_id := user; as_token_hash := h;
                                      as_expires_at := to_micros expires |}]> (db_admin_sessions d).
Proof.
  intros (s' & E & <-)%run_Ok. unfold CreateSessionWithActivity_tx in E. tx_invs E.
  apply negb_true_iff in E1. rewrite exists_row_false in E1.
  apply insert_identity_Ok in E2 as [Hnew Hdb]; [|done].
  apply admin_tables_activity in E. unfold admin_tables in E. rewrite Hdb in E.
  injection E as Eu Es. cbn in Hnew, Eu, Es. split_and!; [done| |by eexists].
  intros i x Hs Hh. specialize (E1 i x Hs). by rewrite bool_decide_true in E1.
Qed.

Lemma delete_session_Ok h e c d a d' :
  DeleteSessionWithActivity h e c d = Ok (a, d') ->
  db_admin_users d' = db_admin_users d /\
  db_admin_sessions d' = filter (fun x => as_token_hash x.2 <> h) (db_admin_sessions d).
Proof.
  intros (s' & E & <-)%run_Ok. unfold DeleteSessionWithActivity_tx in E. tx_invs E.
  apply admin_tables_activity in E. by injection E as Eu Es.
Qed.

Lemma purge_Ok c d u d' :
  PurgeExpiredSessions c d = Ok (u, d') ->
  db_admin_users d' = db_admin_users d /\
  db_admin_sessions d' = filter (fun x => cx_now c < as_expires_at x.2) (db_admin_sessions d).
Proof. by intros [= <- <-]. Qed.

(** The users a deletion keeps, and the sessions that stay with them. *)
Lemma delete_admins_Ok gone c s u s' :
  delete_admins gone c s = Ok (u, s') ->
  let p id := match db_admin_users (tx_db s) !! id with Some u => gone u | None => false end in
  db_admin_users (tx_db s') = filter (fun x => gone x.2 = false) (db_admin_users (tx_db s)) /\
  db_admin_sessions (tx_db s') = filter (fun x => p (as_admin_user_id x.2) = false) (db_admin_sessions (tx_db s)) /\
  (forall k r, db_routes (tx_db s) !! k = Some r -> p (ro_updated_by r) = false) /\
  (forall k b, db_backfills (tx_db s) !! k = Some b -> p (bf_created_by b) = false).
Proof.
  intros E p. unfold delete_admins in E. tx_invs E. cbn.
  apply negb_true_iff, orb_false_iff in E0 as [E1 E2]. rewrite exists_row_false in E1. rewrite exists_row_false in E2.
  split_and!; done.
Qed.

Lemma delete_admins_wf gone c s u s' :
  delete_admins gone c s = Ok (u, s') -> admin_wf (tx_db s) -> admin_wf (tx_db s').
Proof.
  intros (Eu & Es & _)%delete_admins_Ok [H1 H2 H3]. split; rewrite ?Eu, ?Es.
  - intros i a j b [Ha _]%map_lookup_filter_Some [Hb _]%map_lookup_filter_Some. eauto.
  - intros i a j b [Ha _]%map_lookup_filter_Some [Hb _]%map_lookup_filter_Some. eauto.
  - intros i a [Ha Hp]%map_lookup_filter_Some. destruct (H3 i a Ha) as [x Hx]. exists x.
    apply map_lookup_filter_Some. simpl in *. by rewrite Hx in Hp.
Qed.

Lemma insert_user_wf d i row :
  admin_wf d -> (forall j u, db_admin_users d !! j = Some u -> au_username u = au_username row -> j = i) ->
  admin_wf (on_admin_users <[i := row]> d).
Proof.
  intros [H1 H2 H3] Hi. split; cbn.
  - intros a u b v Hu Hv E. rewrite lookup_insert_Some in Hu, Hv.
    destruct Hu as [[<- <-]|[Ha Hu]], Hv as [[<- <-]|[Hb Hv]]; eauto.
    symmetry. eauto.
  - eauto.
  - intros a s Hs. destruct (H3 a s Hs) as [u Hu]. destruct (decide (i = as_admin_user_id s)) as [<-|Hne].
    + rewrite lookup_insert_eq. eauto.
    + rewrite lookup_insert_ne by done. eauto.
Qed.

Lemma insert_session_wf d i row :
  admin_wf d -> is_Some (db_admin_users d !! as_admin_user_id row) ->
  (forall j s, db_admin_sessions d !! j = Some s -> as_token_hash s <> as_token_hash row) ->
  admin_wf (on_admin_sessions <[i := row]> d).
Proof.
  intros [H1 H2 H3] Hu Hno. split; cbn.
  - eauto.
  - intros a s b t Hs Ht E. rewrite lookup_insert_Some in Hs, Ht.
    destruct Hs as [[<- <-]|[Ha Hs]], Ht as [[<- <-]|[Hb Ht]]; eauto.
    + exfalso. by eapply Hno.
    + exfalso. by eapply Hno.
  - intros a s [[<- <-]|[Ha Hs]]%lookup_insert_Some; eauto.
Qed.

Lemma create_session_wf user h expires e c d a d' :
  admin_wf d -> CreateSessionWithActivity user h expires e c d = Ok (a, d') -> admin_wf d'.
Proof.
  intros Hwf (Hu & Hno & id & _ & Eu & Es)%create_session_Ok.
  eapply admin_tables_wf; [|by eapply (insert_session_wf d id {| as_admin_user_id := user; as_token_hash := h;
                                                                as_expires_at := to_micros expires |})].
  unfold admin_tables. rewrite Eu, Es. reflexivity.
Qed.

Lemma filter_sessions_wf d (P : Z * AdminSessionRow -> Prop) `{forall x, Decision (P x)} :
  admin_wf d -> admin_wf (on_admin_sessions (filter P) d).
Proof.
  intros [H1 H2 H3]. split; cbn; [eauto| |].
  - intros i a j b [Ha _]%map_lookup_filter_Some [Hb _]%map_lookup_filter_Some. eauto.
  - intros i a [Ha _]%map_lookup_filter_Some. eauto.
Qed.

(** ** The configured administrator *)
Section reconcile.
Context `{BcryptLaws}.

Lemma hash_password_Ok password c s hash s' :
  hash_password password c s = Ok (hash, s') ->
  bcrypt_CompareHashAndPassword hash (bytes_of password) = true /\ tx_db s' = tx_db s.
Proof using Type*.
  intros E. unfold hash_password in E. tx_invs E. split; [|done].
  apply bind_Some in Hm as (salt & _ & Hg). by eapply bcrypt_compare_generated.
Qed.

(** The sessions of the administrators with this name. *)
Definition sessions_of (d : DB) (username : string) : gmap Z AdminSessionRow :=
  filter (fun x => au_username <$> db_admin_users d !! as_admin_user_id x.2 = Some username) (db_admin_sessions d).

(** Deleting every other administrator leaves at most one row, and its sessions. *)
Lemma delete_others_Ok username c s u s' :
  admin_wf (tx_db s) -> delete_admins (fun u => negb (bool_decide (au_username u = username))) c s = Ok (u, s') ->
  admin_wf (tx_db s') /\
  (forall i r, db_admin_users (tx_db s') !! i = Some r <->
               db_admin_users (tx_db s) !! i = Some r /\ au_username r = username) /\
  (forall id row, db_admin_users (tx_db s') !! id = Some row -> db_admin_users (tx_db s') = {[id := row]}) /\
  db_admin_sessions (tx_db s') = sessions_of (tx_db s) username.
Proof using.
  intros Hwf Ed. pose proof (delete_admins_wf _ _ _ _ _ Ed Hwf) as Hwf1.
  apply delete_admins_Ok in Ed as (Eu & Es & _).
  assert (Hkeep : forall i r, db_admin_users (tx_db s') !! i = Some r <->
                              db_admin_users (tx_db s) !! i = Some r /\ au_username r = username).
  { intros i r. rewrite Eu, map_lookup_filter_Some. cbn. rewrite negb_false_iff, bool_decide_eq_true. done. }
  split_and!; [done..| |].
  - intros id row Hid. apply map_eq. intros j. destruct (decide (j = id)) as [->|Hj]; [by rewrite lookup_singleton_eq|].
    rewrite lookup_singleton_ne by done. apply eq_None_not_Some. intros [r Hr]. apply Hj.
    apply (names_unique _ Hwf1 j r id row); [done..|]. apply Hkeep in Hr as [_ ->], Hid as [_ ->]. done.
  - rewrite Es. apply map_filter_ext. intros i x Hs. cbn. destruct (sessions_owned _ Hwf i x Hs) as [r Hr].
    rewrite Hr, negb_false_iff, bool_decide_eq_true. cbn. split; [by intros ->|by intros [= ->]].
Qed.

(** What reconciliation leaves: the account that was the configured administrator's, or a
    new one, with a hash of the configured password. *)
Lemma reconcile_Ok username password c d u d' :
  admin_wf d -> ReconcileConfiguredAdministrator username password c d = Ok (u, d') ->
  admin_wf d' /\
  exists id row, db_admin_users d' = {[id := row]} /\ au_username row = username /\
    bcrypt_CompareHashAndPassword (au_password_hash row) (bytes_of password) = true /\
    (forall i r, db_admin_users d !! i = Some r -> au_username r = username -> i = id) /\
    db_admin_sessions d' = sessions_of d username.
Proof using Type*.
  intros Hwf (s' & E & <-)%run_Ok. unfold ReconcileConfiguredAdministrator_tx in E.
  apply tx_bind_Ok in E as ([] & s1 & (Hwf1 & Hkeep & Hone & Hsess)%delete_others_Ok & E); [|done]. cbn in Hkeep, Hsess.
  apply tx_bind_Ok in E as (o & s2 & [= <- <-] & E).
  destruct (admin_by_name (tx_db s1) username) as [[id row]|] eqn:Hm.
  { apply admin_by_name_Some in Hm as [Hu Hn]; [|done].
    assert (Hsame : forall i r, db_admin_users d !! i = Some r -> au_username r = username -> i = id).
    { intros i r Hr E1. apply Hkeep in Hu as [Hu E2]. eapply (names_unique _ Hwf); [done..|congruence]. }
    destruct (bcrypt_CompareHashAndPassword (au_password_hash row) (bytes_of password)) eqn:Hb; cbn in E.
    - injection E as _ <-. split; [done|]. exists id, row. split_and!; eauto.
    - apply tx_bind_Ok in E as (hash & s2 & [Hh Hdb]%hash_password_Ok & [= _ <-]). cbn. rewrite Hdb. split.
      + apply insert_user_wf; [done|]. cbn. intros j r Hr E1. apply (names_unique _ Hwf1 j r id row); [done..|congruence].
      + exists id, {| au_username := username; au_password_hash := hash |}. cbn. split_and!; eauto.
        rewrite (Hone id _ Hu). apply insert_singleton_eq. }
  rewrite admin_by_name_None in Hm.
  assert (Hempty : db_admin_users (tx_db s1) = ∅).
  { apply map_empty. intros i. apply eq_None_not_Some. intros [r Hr]. apply (Hm i r Hr). apply Hkeep in Hr. by destruct Hr. }
  apply tx_bind_Ok in E as (hash & s2 & [Hh Hdb]%hash_password_Ok & E).
  apply tx_bind_Ok in E as (id & s3 & [Hnew Hdb1]%insert_identity_Ok & [= _ <-]); [|done].
  rewrite Hdb1, Hdb. split.
  - apply insert_user_wf; [by eapply admin_tables_wf; [|exact Hwf1]|]. cbn. rewrite Hempty. intros j r [=].
  - exists id, {| au_username := username; au_password_hash := hash |}. cbn. rewrite Hempty. split_and!; try done.
    intros i r Hr E1. assert (Hin : db_admin_users (tx_db s1) !! i = Some r) by by apply Hkeep. by rewrite Hempty in Hin.
Qed.

(** Reconciliation leaves exactly one administrator, the configured one: its
    password signs in, no other name does with any password, an existing account keeps
    its id and its sessions, and every session of a replaced administrator is gone. *)
Theorem reconcile_sole_administrator username password c d d' c' :
  admin_wf d -> ReconcileConfiguredAdministrator username password c d = Ok (tt, d') ->
  admin_wf d' /\ exists id,
    dom (db_admin_users d') = {[id]} /\
    VerifyAdmin username password c' d' = Ok (Some id, d') /\
    (forall other p, other <> username -> VerifyAdmin other p c' d' = Ok (None, d')) /\
    (forall i r, db_admin_users d !! i = Some r -> au_username r = username -> i = id) /\
    db_admin_sessions d' = sessions_of d username.
Proof using Type*.
  intros Hwf (Hwf' & id & row & Eu & Hn & Hb & Hid & Hs)%reconcile_Ok; [|done]. split; [done|]. exists id.
  assert (Hlook : forall i r, db_admin_users d' !! i = Some r -> i = id /\ r = row).
  { intros i r. rewrite Eu. by intros [-> ->]%lookup_singleton_Some. }
  split_and!; [by rewrite Eu, dom_singleton_L| | |done..].
  - change (VerifyAdmin username password c' d') with
      (Ok (E := store_error) (match admin_by_name d' username with
          | Some (id, u) => if bcrypt_CompareHashAndPassword (au_password_hash u) (bytes_of password)
                            then Some id else None | None => None end, d')).
    assert (admin_by_name d' username = Some (id, row)) as ->; [|by rewrite Hb].
    apply admin_by_name_Some; [done|]. by rewrite Eu, lookup_singleton_eq.
  - intros other p Hne. change (VerifyAdmin other p c' d') with
      (Ok (E := store_error) (match admin_by_name d' other with
          | Some (id, u) => if bcrypt_CompareHashAndPassword (au_password_hash u) (bytes_of p)
                            then Some id else None | None => None end, d')).
    assert (admin_by_name d' other = None) as ->; [|done].
    apply admin_by_name_None. intros i r [-> ->]%Hlook. congruence.
Qed.

(** ** The life of a token *)

(** What changes the two tables: a transaction of the administration, or any other. *)
Inductive admin_op :=
| OpReconcile (username password : string)
| OpCreate (user : Z) (tokenHash : bytes) (expiresAt : time) (event : activity.Event)
| OpDelete (tokenHash : bytes) (event : activity.Event)
| OpPurge
| OpOther.

Inductive admin_step : admin_op -> TxCtx -> DB -> DB -> Prop :=
| step_reconcile username password c d d' :
    ReconcileConfiguredAdministrator username password c d = Ok (tt, d') ->
    admin_step (OpReconcile username password) c d d'
| step_create user h expires e c d a d' :
    CreateSessionWithActivity user h expires e c d = Ok (a, d') -> admin_step (OpCreate user h expires e) c d d'
| step_delete h e c d a d' : DeleteSessionWithActivity h e c d = Ok (a, d') -> admin_step (OpDelete h e) c d d'
| step_purge c d d' : PurgeExpiredSessions c d = Ok (tt, d') -> admin_step OpPurge c d d'
| step_other c d d' : admin_tables d' = admin_tables d -> admin_step OpOther c d d'.

(** Any number of steps that satisfy a condition. *)
Definition admin_steps (P : admin_op -> TxCtx -> Prop) : DB -> DB -> Prop :=
  rtc (fun d d' => exists op c, P op c /\ admin_step op c d d').

Lemma admin_step_wf op c d d' : admin_step op c d d' -> admin_wf d -> admin_wf d'.
Proof using Type*.
  destruct 1 as [username password c d d' E|user h expires e c d a d' E|h e c d a d' E|c d d' E|c d d' E]; intros Hwf.
  - by apply reconcile_Ok in E as [? _].
  - by eapply create_session_wf.
  - apply delete_session_Ok in E as [Eu Es].
    eapply admin_tables_wf; [|by eapply filter_sessions_wf]. unfold admin_tables. rewrite Eu, Es. reflexivity.
  - apply purge_Ok in E as [Eu Es].
    eapply admin_tables_wf; [|by eapply filter_sessions_wf]. unfold admin_tables. rewrite Eu, Es. reflexivity.
  - by eapply admin_tables_wf.
Qed.

(** A session is where it was before the step, or the step created it. *)
Lemma admin_step_session op c d d' i s :
  admin_wf d -> admin_step op c d d' -> db_admin_sessions d' !! i = Some s ->
  db_admin_sessions d !! i = Some s \/ exists user expires e, op = OpCreate user (as_token_hash s) expires e.
Proof using Type*.
  intros Hwf. destruct 1 as [username password c d d' E|user h expires e c d a d' E|h e c d a d' E|c d d' E|c d d' E].
  - apply reconcile_Ok in E as (_ & id & row & _ & _ & _ & _ & ->); [|done].
    intros [Hs _]%map_lookup_filter_Some. by left.
  - apply create_session_Ok in E as (_ & _ & id & _ & _ & ->).
    intros [[_ <-]|[_ Hs]]%lookup_insert_Some; [right; by eexists _, _, _|by left].
  - apply delete_session_Ok in E as [_ ->]. intros [Hs _]%map_lookup_filter_Some. by left.
  - apply purge_Ok in E as [_ ->]. intros [Hs _]%map_lookup_filter_Some. by left.
  - injection E as _ ->. by left.
Qed.

Definition no_token (h : bytes) (d : DB) : Prop :=
  forall i s, db_admin_sessions d !! i = Some s -> as_token_hash s <> h.
Definition not_created (h : bytes) (op : admin_op) (c : TxCtx) : Prop :=
  match op with OpCreate _ h' _ _ => h' <> h | _ => True end.

Lemma no_token_steps h d d' :
  admin_wf d -> no_token h d -> admin_steps (not_created h) d d' -> no_token h d'.
Proof using Type*.
  intros Hwf Hno Hsteps. induction Hsteps as [d|d d1 d' (op & c & Hok & Hstep) _ IH]; [done|].
  apply IH; [by eapply admin_step_wf|]. intros i s Hs. eapply admin_step_session in Hs; [|done..].
  destruct Hs as [Hs|(user & expires & e & ->)]; [by eapply Hno|done].
Qed.

Lemma no_token_refused h c d : no_token h d ->
  SessionValid h c d = Ok (false, d) /\ AdminIdentityForSession h c d = Ok (None, d).
Proof using.
  intros Hno. rewrite SessionValid_eq, AdminIdentityForSession_eq.
  assert (session_row d (cx_now c) h = None) as ->; [|done].
  apply session_row_None. intros i s Hs Hh. by destruct (Hno i s Hs).
Qed.

(** Signing out is final: after it the token is refused at every later instant and
    names no administrator, whatever else happens, unless the same token is issued anew. *)
Theorem signed_out_token_refused h e c d a d1 d2 c2 :
  admin_wf d -> DeleteSessionWithActivity h e c d = Ok (a, d1) -> admin_steps (not_created h) d1 d2 ->
  SessionValid h c2 d2 = Ok (false, d2) /\ AdminIdentityForSession h c2 d2 = Ok (None, d2).
Proof using Type*.
  intros Hwf Hd Hsteps. apply no_token_refused. eapply no_token_steps; [| |exact Hsteps].
  - eapply admin_step_wf; [by eapply step_delete|done].
  - apply delete_session_Ok in Hd as [_ Es]. intros i s. rewrite Es. by intros [_ Hs]%map_lookup_filter_Some.
Qed.

(** The steps that leave a session to its expiry: nobody signs it out or issues its token
    again, its administrator stays configured, and purges run no later than [t]. *)
Definition undisturbed (h : bytes) (name : string) (t : time) (op : admin_op) (c : TxCtx) : Prop :=
  match op with
  | OpReconcile username _ => username = name
  | OpCreate _ h' _ _ => h' <> h
  | OpDelete h' _ => h' <> h
  | OpPurge => cx_now c <= t
  | OpOther => True
  end.

(** The session as long as it has not expired, and no other one with its token. *)
Record session_kept (row : AdminSessionRow) (name : string) (t : time) (d : DB) : Prop := {
  kept_user : t < as_expires_at row -> au_username <$> db_admin_users d !! as_admin_user_id row = Some name;
  kept_row : t < as_expires_at row -> exists i, db_admin_sessions d !! i = Some row;
  kept_only : forall i s, db_admin_sessions d !! i = Some s -> as_token_hash s = as_token_hash row -> s = row
}.

Lemma session_kept_step row name t op c d d' :
  admin_wf d -> undisturbed (as_token_hash row) name t op c -> admin_step op c d d' ->
  session_kept row name t d -> session_kept row name t d'.
Proof using Type*.
  intros Hwf Hok Hstep [H1 H2 H3].
  assert (Honly : forall i s, db_admin_sessions d' !! i = Some s -> as_token_hash s = as_token_hash row -> s = row).
  { intros i s Hs Hh. eapply admin_step_session in Hs; [|done..].
    destruct Hs as [Hs|(user & expires & e & ->)]; [eauto|]. simpl in Hok. by rewrite Hh in Hok. }
  assert (Hkeep : t < as_expires_at row ->
            au_username <$> db_admin_users d' !! as_admin_user_id row = Some name /\
            exists i, db_admin_sessions d' !! i = Some row); [|split; [apply Hkeep|apply Hkeep|done]].
  intros Ht. specialize (H1 Ht) as Hn. destruct (H2 Ht) as [i Hi].
  destruct Hstep as [username password c d d' E|user h expires e c d a d' E|h e c d a d' E|c d d' E|c d d' E]; simpl in Hok.
  - apply reconcile_Ok in E as (_ & id & r & Eu & Er & _ & Hid & Es); [|done]. subst username.
    apply fmap_Some in Hn as (u & Hu & ->). rewrite (Hid _ u Hu), Eu, lookup_singleton_eq by done.
    simpl. rewrite Er. split; [done|]. exists i. rewrite Es. apply map_lookup_filter_Some. simpl. by rewrite Hu.
  - apply create_session_Ok in E as (_ & _ & id & Hid & -> & ->). split; [done|]. exists i.
    rewrite lookup_insert_ne; [done|]. by intros ->; rewrite Hid in Hi.
  - apply delete_session_Ok in E as [-> ->]. split; [done|]. exists i. by apply map_lookup_filter_Some.
  - apply purge_Ok in E as [-> ->]. split; [done|]. exists i. apply map_lookup_filter_Some. simpl. split; [done|lia].
  - injection E as -> ->. eauto.
Qed.

Lemma session_kept_steps row name t d d' :
  admin_wf d -> admin_steps (undisturbed (as_token_hash row) name t) d d' ->
  session_kept row name t d -> admin_wf d' /\ session_kept row name t d'.
Proof using Type*.
  intros Hwf Hsteps Hk. induction Hsteps as [d|d d1 d' (op & c & Hok & Hstep) _ IH]; [done|].
  apply IH; [by eapply admin_step_wf|by eapply session_kept_step].
Qed.

(** C39: a session lasts exactly until it expires: from sign-in on, while nobody signs it
    out and its administrator stays configured, its token is valid at the instants before
    its expiry and at no other, and names the administrator who signed in just then. *)
Theorem session_lifetime user u h expires e c d a d1 d2 c2 :
  admin_wf d -> db_admin_users d !! user = Some u ->
  CreateSessionWithActivity user h expires e c d = Ok (a, d1) ->
  admin_steps (undisturbed h (au_username u) (cx_now c2)) d1 d2 ->
  let valid := bool_decide (cx_now c2 < to_micros expires) in
  SessionValid h c2 d2 = Ok (valid, d2) /\
  AdminIdentityForSession h c2 d2 =
    Ok (if valid then Some {| ai_ID := user; ai_Username := au_username u |} else None, d2).
Proof using Type*.
  intros Hwf Hu Hc Hsteps valid.
  pose proof (admin_step_wf _ _ _ _ (step_create _ _ _ _ _ _ _ _ Hc) Hwf) as Hwf1.
  apply create_session_Ok in Hc as (_ & Hno & id & Hid & Eu & Es).
  set (row := {| as_admin_user_id := user; as_token_hash := h; as_expires_at := to_micros expires |}) in *.
  assert (Hk : session_kept row (au_username u) (cx_now c2) d1).
  { split; simpl.
    - intros _. by rewrite Eu, Hu.
    - intros _. exists id. by rewrite Es, lookup_insert_eq.
    - intros i s. rewrite Es. intros [[_ <-]|[_ Hs]]%lookup_insert_Some Hh; [done|]. by destruct (Hno i s Hs). }
  destruct (session_kept_steps row (au_username u) (cx_now c2) d1 d2 Hwf1 Hsteps Hk) as [Hwf2 [K1 K2 K3]].
  rewrite SessionValid_eq, AdminIdentityForSession_eq. unfold valid. clear valid.
  destruct (decide (cx_now c2 < to_micros expires)) as [Ht|Ht];
    [rewrite (bool_decide_true (cx_now c2 < _)) by done|rewrite (bool_decide_false (cx_now c2 < _)) by done].
  - destruct (K2 Ht) as [i Hi]. specialize (K1 Ht). apply fmap_Some in K1 as (v & Hv & Hn). simpl in Hv.
    assert (session_row d2 (cx_now c2) h = Some (i, row)) as -> by by apply session_row_Some.
    simpl. rewrite Hv. simpl. by rewrite Hn.
  - assert (session_row d2 (cx_now c2) h = None) as ->; [|done].
    apply session_row_None. intros i s Hs Hh. rewrite (K3 i s Hs Hh). simpl. lia.
Qed.
End reconcile.
