(* ===== verification/ArchiveProofs.v ===== *)
(** The projection backfill ends: every batch that does not fail projects at least
    one event that was stale, and none becomes stale again. *)

From Stdlib Require Import ZArith Lia Ascii String.
From stdpp Require Import base gmap strings list option sorting.
From S2P Require Import Prelude GoText GoTime AccessControl StoreTypes Database StoreCore Deliveries Archive.
From S2P Require Import StoreFrame.

Local Open Scope string_scope.
Local Open Scope Z_scope.

(** A stricter filter that drops an element is shorter. *)
Lemma filter_length_le {A} (p q : A -> bool) l :
  (forall x, x ∈ l -> q x = true -> p x = true) -> (length (List.filter q l) <= length (List.filter p l))%nat.
Proof.
  induction l as [|x l IH]; intros Hsub; simpl; [lia|].
  assert (length (List.filter q l) <= length (List.filter p l))%nat by (apply IH; set_solver).
  destruct (q x) eqn:Hq; [rewrite (Hsub x) by set_solver; simpl; lia|]. destruct (p x); simpl; lia.
Qed.

Lemma filter_length_lt {A} (p q : A -> bool) l y :
  (forall x, x ∈ l -> q x = true -> p x = true) -> y ∈ l -> p y = true -> q y = false ->
  (length (List.filter q l) < length (List.filter p l))%nat.
Proof.
  induction l as [|x l IH]; intros Hsub Hy Hp Hq; [set_solver|]. simpl.
  pose proof (filter_length_le p q l ltac:(set_solver)). apply elem_of_cons in Hy as [->|Hy].
  - rewrite Hp, Hq. simpl. lia.
  - assert (length (List.filter q l) < length (List.filter p l))%nat by (apply IH; set_solver).
    destruct (q x) eqn:Hqx; [rewrite (Hsub x) by set_solver; simpl; lia|]. destruct (p x); simpl; lia.
Qed.

Section backfill.
Context `{GoParsers}.

(** The number of events without a current projection. *)
Definition stale_count (d : DB) : nat := length (select (fun id _ => stale d id) (db_device_events d)).

Lemma insert_projection_Ok id format payload c s u s' :
  insertAccessEventProjection id format payload c s = Ok (u, s') ->
  db_device_events (tx_db s') = db_device_events (tx_db s) /\
  stale (tx_db s') id = false /\ (forall i, i <> id -> stale (tx_db s') i = stale (tx_db s) i).
Proof using.
  intros E. unfold insertAccessEventProjection in E. tx_invs E.
  all: split_and!; [done|unfold stale; cbn; by rewrite lookup_insert_eq|].
  all: intros i Hi; unfold stale; cbn; by rewrite lookup_insert_ne.
Qed.

Lemma backfill_progress c d n d' :
  backfill_batch c d = Ok (n, d') -> n <> 0 -> (stale_count d' < stale_count d)%nat.
Proof using.
  intros (s' & E & <-)%run_Ok Hn. tx_invs E.
  pose (Inv := fun (rows : list (Z * DeviceEventRow)) (_ : unit) (s : TxState) =>
    db_device_events (tx_db s) = db_device_events d /\
    (forall i, stale (tx_db s) i = true -> stale d i = true) /\
    Forall (fun r => stale (tx_db s) r.1 = false) rows).
  assert (HI : Inv (backfill_rows d) tt s').
  { destruct a. revert E0. apply (tx_for_inv _ Inv); [done|]. clear.
    intros rows x [] [] s1 s2 (I1 & I2 & I3) (E1 & E2 & E3)%insert_projection_Ok. split_and!.
    - congruence.
    - intros i Hi. destruct (decide (i = x.1)) as [->|Hne]; [congruence|]. apply I2. by rewrite <- E3.
    - apply Forall_app. split; [|by repeat constructor]. eapply Forall_impl; [exact I3|].
      intros r Hr. destruct (decide (r.1 = x.1)) as [->|Hne]; [done|]. by rewrite E3. }
  destruct HI as (I1 & I2 & I3). cbn [tx_db] in *.
  destruct (backfill_rows d) as [|r rows] eqn:Hrows; [done|].
  assert (Hr : r ∈ select (fun id _ => stale d id) (db_device_events d)).
  { assert (r ∈ backfill_rows d) as Hr by (rewrite Hrows; set_solver). unfold backfill_rows, sql_limit, order_by in Hr.
    apply elem_of_take in Hr as (i & Hr & _). apply list_elem_of_lookup_2 in Hr.
    by rewrite merge_sort_Permutation in Hr. }
  unfold stale_count. rewrite I1. unfold select in *. apply list_elem_of_In, filter_In in Hr as [Hin Hst].
  apply (filter_length_lt _ _ _ r); [|by apply list_elem_of_In|done|by inversion I3].
  intros x _. apply I2.
Qed.

(** The projection backfill ends: with more steps than there are events without a
    current projection it returns, whatever errors its transactions meet. *)
Theorem backfill_terminates fuel projected ctx lost d :
  (stale_count d < fuel)%nat -> is_Some (BackfillAccessEventProjections fuel projected ctx lost d).
Proof using.
  revert projected d. induction fuel as [|fuel IH]; intros projected d Hf; [lia|]. simpl.
  destruct (ctx fuel) as [c|]; [cbn [from_option]|done].
  destruct (backfill_batch c d) as [[n d']|e] eqn:E; [|done].
  destruct (lost fuel); [done|]. destruct (n =? 0) eqn:Hn; [done|]. apply Z.eqb_neq in Hn. apply IH.
  pose proof (backfill_progress _ _ _ _ E Hn). lia.
Qed.
End backfill.
