(* ===== verification/CommandProofs.v ===== *)
(** The life of an ISAPI command.

    [command_step] is the state machine of a row of [isapi_commands]; every
    transaction of the queue only takes such steps ([commands_le]).  Claiming
    hands out the oldest queued commands of one terminal, each of them once, and
    a completed result is final: returning it again changes nothing. *)

From Stdlib Require Import ZArith Lia Ascii String.
From stdpp Require Import base gmap strings list option sorting relations.
From S2P Require Import Prelude GoText GoTime GoCrypto AccessControl StoreTypes Wire Database StoreCore.
From S2P Require Import Deliveries Archive CommandQueue SyncRuns Commands StoreFrame.

Local Open Scope string_scope.
Local Open Scope Z_scope.

(** ** The state machine of a command *)
Inductive command_step : CommandRow -> CommandRow -> Prop :=
| step_sent r now :
    cr_status r = CmdQueued -> now < cr_expires_at r -> command_step r (command_sent now r)
| step_completed r now format data :
    cr_status r = CmdSent -> command_step r (command_completed now format data r)
| step_expired r now :
    command_open r = true -> cr_expires_at r <= now -> command_step r (command_expired now r).

Definition command_steps : CommandRow -> CommandRow -> Prop := rtc command_step.

(** Commands are never removed, and each of them only moves along the machine. *)
Definition commands_le (d d' : DB) : Prop := forall uuid r,
  db_commands d !! uuid = Some r -> exists r', db_commands d' !! uuid = Some r' /\ command_steps r r'.

#[export] Instance commands_le_preorder : PreOrder commands_le.
Proof.
  split.
  - intros d uuid r Hr. exists r. split; [done|]. apply rtc_refl.
  - intros d1 d2 d3 H12 H23 uuid r Hr. destruct (H12 _ _ Hr) as (r2 & Hr2 & S1).
    destruct (H23 _ _ Hr2) as (r3 & Hr3 & S2). exists r3. split; [done|]. by etrans.
Qed.

(** What a command asks for never changes. *)
Definition command_request (r : CommandRow) :=
  (cr_terminal_serial_number r, cr_method r, cr_url r, cr_data_format r, cr_request_data r,
   cr_created_at r, cr_expires_at r).

Lemma steps_request r r' : command_steps r r' -> command_request r' = command_request r.
Proof. induction 1 as [|r1 r2 r3 [] _ IH]; [done|..]; by rewrite IH. Qed.

(** Completed and expired are final. *)
Lemma steps_final r r' : command_open r = false -> command_steps r r' -> r' = r.
Proof.
  intros Hopen Hs. destruct Hs as [|r1 r2 r3 Hstep _]; [done|]. exfalso.
  destruct Hstep as [r now E _|r now f dt E|r now E _].
  - unfold command_open in Hopen. by rewrite E in Hopen.
  - unfold command_open in Hopen. by rewrite E in Hopen.
  - congruence.
Qed.

(** A command that has left the queue does not come back. *)
Lemma steps_not_queued r r' : cr_status r <> CmdQueued -> command_steps r r' -> cr_status r' <> CmdQueued.
Proof. intros Hq Hs. induction Hs as [|r1 r2 r3 [] _ IH]; auto. Qed.

(** ** Transactions that respect a preorder on databases *)
Section respects.
Context (R : DB -> DB -> Prop) {HR : PreOrder R}.

Definition respects {A} (m : Txn A) : Prop := forall c s a s', m c s = Ok (a, s') -> R (tx_db s) (tx_db s').

Lemma respects_bind {A B} (m : Txn A) (k : A -> Txn B) :
  respects m -> (forall a, respects (k a)) -> respects (m ≫= k).
Proof using HR. intros Hm Hk c s b s' (a & s1 & E1 & E2)%tx_bind_Ok. etrans; [by eapply Hm|by eapply Hk]. Qed.

Lemma respects_for {A B} (g : B -> A -> Txn B) l acc :
  (forall b a, respects (g b a)) -> respects (tx_for g l acc).
Proof using HR.
  intros Hg c s b s' E. revert E. apply (tx_for_inv g (fun _ _ s' => R (tx_db s) (tx_db s'))); [done|].
  intros d x acc1 acc2 s1 s2 HI E1. etrans; [exact HI|]. by eapply Hg.
Qed.

Lemma respects_attempt {A} (m : Txn A) : respects m -> respects (tx_attempt m).
Proof using HR.
  intros Hm c s a s'. unfold tx_attempt. destruct (m c s) as [[a1 s1]|e] eqn:E1.
  - intros [= <- <-]. by eapply Hm.
  - destruct e; by intros [= <- <-].
Qed.

Lemma respects_frame {T A} (f : DB -> T) (m : Txn A) :
  (forall d d', f d' = f d -> R d d') -> frame f m -> respects m.
Proof using. intros Hf Hm c s a s' E. by eapply Hf, Hm. Qed.
End respects.

(** Everything but the two queue updates leaves the commands alone. *)
Lemma same_commands d d' : db_commands d' = db_commands d -> commands_le d d'.
Proof. intros E uuid r Hr. exists r. rewrite E. split; [done|]. apply rtc_refl. Qed.

Lemma no_log_commands : no_log db_commands.
Proof. done. Qed.

Section ops.
Context `{GoParsers} `{CryptoLib}.
Abbreviation resp := (respects commands_le).

Lemma resp_frame {A} (m : Txn A) : frame db_commands m -> resp m.
Proof using. apply respects_frame, same_commands. Qed.

Lemma resp_set g :
  (forall d uuid r, db_commands d !! uuid = Some r ->
     exists r', db_commands (g d) !! uuid = Some r' /\ command_steps r r') -> resp (db_set g).
Proof using. intros Hg c s a s' [= _ <-]. intros uuid r. apply Hg. Qed.

Create HintDb resp.
Ltac resp_step :=
  lazymatch goal with
  | |- respects _ (mbind _ _) => apply respects_bind; [apply _| |intro]
  | |- respects _ (if ?b then _ else _) => destruct b
  | |- respects _ (match ?o with _ => _ end) => destruct o
  | |- respects _ (tx_attempt _) => apply respects_attempt; [apply _|]
  | |- respects _ (tx_for _ _ _) => apply respects_for; [apply _|intros]
  | |- respects _ _ => first [solve [auto with resp] | apply resp_frame; solve [frame_auto]]
  end; cbn beta iota zeta.
Ltac resp_auto := intros; cbn beta iota zeta; repeat resp_step.

Lemma frame_commands_activity e : frame db_commands (insertGatewayActivity e).
Proof using. by apply frame_activity. Qed.
Lemma frame_commands_fail run reason : frame db_commands (failAccessEventSync run reason).
Proof using. by apply frame_failAccessEventSync. Qed.
Lemma frame_commands_report acts row : frame db_commands (report_expired acts row).
Proof using. by apply frame_report_expired. Qed.
Lemma frame_commands_sent serial acts dlv : frame db_commands (report_sent serial acts dlv).
Proof using. by apply frame_report_sent. Qed.
Lemma frame_commands_link uuid run phase position : frame db_commands (link_command uuid run phase position).
Proof using. by apply frame_link. Qed.
Lemma frame_commands_retained command uuid records :
  frame db_commands (insertRetainedAccessEvents command uuid records).
Proof using. by apply frame_insertRetained. Qed.
Lemma frame_commands_uuid : frame db_commands newISAPICommandUUID.
Proof using. by apply frame_newUUID. Qed.
Local Hint Resolve frame_commands_activity frame_commands_fail frame_commands_report frame_commands_sent
  frame_commands_link frame_commands_retained frame_commands_uuid : frame.

(** ** Deadlines *)
Lemma expire_rows_step now serial d uuid r :
  db_commands d !! uuid = Some r ->
  exists r', expire_rows now serial (db_commands d) !! uuid = Some r' /\ command_steps r r'.
Proof using.
  intros Hr. unfold expire_rows. rewrite lookup_fmap, Hr. simpl.
  destruct (overdue now serial r) eqn:Ho; eexists; split; try done.
  - apply rtc_once. unfold overdue in Ho. apply andb_true_iff in Ho as [[_ Ho]%andb_true_iff Hx%Z.leb_le].
    by constructor.
Qed.

Lemma resp_expireOverdue serial : resp (expireOverdueISAPICommandsTx serial).
Proof using.
  unfold expireOverdueISAPICommandsTx. resp_auto. apply resp_set. intros. by apply expire_rows_step.
Qed.
Local Hint Resolve resp_expireOverdue : resp.

(** The row of a new command. *)
Definition queued_row (input : NewISAPICommand) (now : time) : CommandRow :=
  mkCommandRow (nc_TerminalSerialNumber input) (Some (ai_ID (nc_CreatedBy input)))
    (ai_Username (nc_CreatedBy input)) (nc_Method input) (nc_URL input) (nc_DataFormat input) (nc_Data input)
    CmdQueued now (to_micros (nc_ExpiresAt input)) None None None None None.

(** A new command takes a fresh UUID, and only an online terminal is given one. *)
Lemma queue_Ok input c s command act s' :
  queueISAPICommandTx input c s = Ok ((command, act), s') ->
  db_commands (tx_db s) !! ic_UUID command = None /\
  db_commands (tx_db s') = <[ic_UUID command := queued_row input (cx_now c)]> (db_commands (tx_db s)) /\
  command_check (ic_UUID command) (queued_row input (cx_now c)) = true /\
  ic_TerminalSerialNumber command = nc_TerminalSerialNumber input /\
  tr_connection_status <$> db_terminals (tx_db s) !! nc_TerminalSerialNumber input = Some "online".
Proof using.
  intros E. unfold queueISAPICommandTx in E. tx_invs E.
  apply andb_true_iff in E1 as [E1%negb_true_iff%bool_decide_eq_false Hcheck].
  apply negb_false_iff, bool_decide_eq_true in Hb1.
  pose proof (frame_commands_uuid _ _ _ _ E0) as Hu. pose proof (frame_commands_activity _ _ _ _ _ E3) as Ha.
  cbn in Ha, Hm. rewrite Hu in *. split_and!; try done.
  - by apply eq_None_not_Some.
  - simpl. by rewrite Hb1.
Qed.

Lemma resp_queueISAPICommandTx input : resp (queueISAPICommandTx input).
Proof using.
  intros c s [command act] s' (Hnew & E & _)%queue_Ok uuid r Hr. exists r. rewrite E. split.
  - rewrite lookup_insert_ne; [done|]. congruence.
  - apply rtc_refl.
Qed.
Local Hint Resolve resp_queueISAPICommandTx : resp.

(** ** Claims *)
Lemma mark_sent_lookup now rows m uuid :
  NoDup (rows.*1) ->
  mark_sent now rows m !! uuid =
    if bool_decide (uuid ∈ rows.*1) then command_sent now <$> m !! uuid else m !! uuid.
Proof using.
  induction rows as [|[k r] rows IH]; [done|]. simpl. intros [Hk Hnd]%NoDup_cons.
  destruct (decide (uuid = k)) as [->|Hne].
  - rewrite lookup_alter_eq, IH by done. rewrite bool_decide_false by done. by rewrite bool_decide_true by set_solver.
  - rewrite lookup_alter_ne, IH by done. repeat case_bool_decide; set_solver.
Qed.

(** [ORDER BY created_at, uuid] is a total order. *)
Abbreviation earlier := (fun a b : string * CommandRow => command_leb a b = true).

Lemma command_leb_spec a b :
  command_leb a b = true <->
  cr_created_at a.2 < cr_created_at b.2 \/ (cr_created_at a.2 = cr_created_at b.2 /\ String.le a.1 b.1).
Proof using.
  unfold command_leb. rewrite orb_true_iff, andb_true_iff, Z.ltb_lt, Z.eqb_eq.
  by rewrite <- Is_true_true.
Qed.

#[local] Instance earlier_total : Total earlier.
Proof using.
  intros a b. rewrite !command_leb_spec.
  destruct (total String.le a.1 b.1), (Z.lt_total (cr_created_at a.2) (cr_created_at b.2)) as [|[]]; naive_solver.
Qed.

#[local] Instance earlier_trans : Transitive earlier.
Proof using.
  intros a b c. rewrite !command_leb_spec. intros [H1|[H1 H1']] [H2|[H2 H2']]; try (left; lia).
  right. split; [lia|]. by etrans.
Qed.

(** The claimed rows are the head of the ordered candidates. *)
Lemma claimed_prefix now serial limit m :
  exists rest,
    claimed now serial limit m ++ rest ≡ₚ select (fun _ r => claimable now serial r) m /\
    StronglySorted earlier (claimed now serial limit m ++ rest) /\
    (rest = [] \/ length (claimed now serial limit m) = Z.to_nat limit).
Proof using.
  unfold claimed, sql_limit, order_by. set (l := merge_sort _ _). exists (drop (Z.to_nat limit) l).
  rewrite take_drop. split_and!.
  - apply merge_sort_Permutation.
  - apply (StronglySorted_merge_sort earlier).
  - rewrite length_take. destruct (decide (Z.to_nat limit < length l)%nat).
    + right. lia.
    + left. apply drop_ge. lia.
Qed.

Lemma claimable_not_overdue now serial r : claimable now serial r = true -> overdue now (Some serial) r = false.
Proof using.
  unfold claimable, overdue. rewrite !andb_true_iff, Z.ltb_lt. intros [_ Hx].
  apply andb_false_iff. right. apply Z.leb_gt. lia.
Qed.

(** Expiring overdue commands first does not change what is claimed. *)
Lemma select_expire now serial m :
  select (fun _ r => claimable now serial r) (expire_rows now (Some serial) m) =
  select (fun _ r => claimable now serial r) m.
Proof using.
  unfold select, expire_rows. rewrite map_to_list_fmap.
  induction (map_to_list m) as [|[k r] l IH]; [done|]. simpl.
  destruct (claimable now serial r) eqn:Hc.
  - rewrite claimable_not_overdue, Hc by done. by f_equal.
  - destruct (overdue now (Some serial) r); [|by rewrite Hc].
    assert (claimable now serial (command_expired now r) = false) as ->; [|done].
    unfold claimable. simpl. by rewrite andb_false_r.
Qed.

Lemma expireOverdue_commands serial c s l s' :
  expireOverdueISAPICommandsTx serial c s = Ok (l, s') ->
  db_commands (tx_db s') = expire_rows (cx_now c) serial (db_commands (tx_db s)).
Proof using.
  intros E. unfold expireOverdueISAPICommandsTx in E. tx_invs E.
  eapply (frame_for db_commands) in E; [exact E|]. intros. apply frame_commands_report.
Qed.

Lemma claim_Ok serial limit c s ds acts s' :
  ClaimISAPICommands_tx serial limit c s = Ok ((ds, acts), s') ->
  let rows := claimed (cx_now c) serial limit (db_commands (tx_db s)) in
  1 <= limit <= 20 /\ ds = delivery_of <$> rows /\
  db_commands (tx_db s') = mark_sent (cx_now c) rows (expire_rows (cx_now c) (Some serial) (db_commands (tx_db s))).
Proof using.
  intros E. unfold ClaimISAPICommands_tx in E. tx_invs E.
  apply orb_false_iff in Hb as [Hb%Z.ltb_ge Hb'%Z.ltb_ge].
  apply expireOverdue_commands in E0.
  eapply (frame_for db_commands) in E1; [|intros; apply frame_commands_sent].
  cbn in E1. rewrite E1, E0. unfold claimed. by rewrite select_expire.
Qed.

Lemma elem_of_claimed now serial limit m uuid r :
  (uuid, r) ∈ claimed now serial limit m -> m !! uuid = Some r /\ claimable now serial r = true.
Proof using.
  intros Hin. destruct (claimed_prefix now serial limit m) as (rest & Hperm & _).
  apply (elem_of_select (fun _ r => claimable now serial r)). rewrite <- Hperm. set_solver.
Qed.

Lemma NoDup_claimed now serial limit m : NoDup ((claimed now serial limit m).*1).
Proof using.
  destruct (claimed_prefix now serial limit m) as (rest & Hperm & _).
  pose proof (NoDup_select (fun _ r => claimable now serial r) m) as Hnd.
  rewrite <- Hperm, fmap_app in Hnd. by apply list.NoDup_app in Hnd as [? _].
Qed.

Lemma claim_lookup_none serial limit c s ds acts s' uuid :
  ClaimISAPICommands_tx serial limit c s = Ok ((ds, acts), s') ->
  db_commands (tx_db s) !! uuid = None -> db_commands (tx_db s') !! uuid = None.
Proof using.
  intros (_ & _ & E)%claim_Ok Hr. rewrite E, mark_sent_lookup by apply NoDup_claimed.
  unfold expire_rows. rewrite lookup_fmap, Hr. by case_bool_decide.
Qed.

(** What a claim does to each command: it is sent, expired or left alone. *)
Lemma claim_lookup serial limit c s ds acts s' uuid r :
  ClaimISAPICommands_tx serial limit c s = Ok ((ds, acts), s') ->
  db_commands (tx_db s) !! uuid = Some r ->
  let rows := claimed (cx_now c) serial limit (db_commands (tx_db s)) in
  db_commands (tx_db s') !! uuid =
    Some (if bool_decide (uuid ∈ rows.*1) then command_sent (cx_now c) r
          else if overdue (cx_now c) (Some serial) r then command_expired (cx_now c) r else r).
Proof using.
  intros (_ & _ & E)%claim_Ok Hr. cbv zeta. rewrite E, mark_sent_lookup by apply NoDup_claimed.
  unfold expire_rows. rewrite lookup_fmap, Hr. simpl. case_bool_decide as Hin; [|done].
  apply list_elem_of_fmap in Hin as ([u r'] & -> & Hin). apply elem_of_claimed in Hin as [Hr' Hc]. simpl in *.
  rewrite Hr in Hr'. injection Hr' as <-. by rewrite claimable_not_overdue.
Qed.

Lemma resp_ClaimISAPICommands serial limit : resp (ClaimISAPICommands_tx serial limit).
Proof using.
  intros c s [ds acts] s' E uuid r Hr. rewrite (claim_lookup _ _ _ _ _ _ _ _ _ E Hr). cbv zeta.
  eexists. split; [done|]. case_bool_decide as Hin.
  - apply list_elem_of_fmap in Hin as ([u r'] & -> & Hin). apply elem_of_claimed in Hin as [Hr' Hc]. simpl in *.
    rewrite Hr in Hr'. injection Hr' as <-. apply rtc_once. unfold claimable in Hc.
    apply andb_true_iff in Hc as [[_ Hq%bool_decide_eq_true]%andb_true_iff Hx%Z.ltb_lt]. by constructor.
  - destruct (expire_rows_step (cx_now c) (Some serial) (tx_db s) uuid r Hr) as (r' & Hr' & Hs).
    unfold expire_rows in Hr'. rewrite lookup_fmap, Hr in Hr'. by injection Hr' as <-.
Qed.

(** ** Results *)
Lemma resp_completeSync serial result at_ : resp (completeAccessEventSyncCommand serial result at_).
Proof using.
  unfold completeAccessEventSyncCommand, completeAccessEventSyncTime, completeAccessEventSyncPage, next_page.
  resp_auto.
Qed.
Local Hint Resolve resp_completeSync : resp.

(** A result accepted for a sent command. *)
Definition accepted (serial : string) (result : ISAPICommandResult) (d : DB) : Prop :=
  exists r, db_commands d !! icr_UUID result = Some r /\ cr_terminal_serial_number r = serial /\
    cr_status r = CmdCompleted /\ same_result r result = true.

(** A result is the same when its format and its data are. *)
Lemma same_result_columns r result :
  same_result r result = true ->
  cr_response_data_format r = icr_DataFormat result /\ cr_response_data_base64 r = Some (icr_DataBase64 result).
Proof using.
  unfold same_result. destruct (icr_DataFormat result) as [format|]; rewrite negb_true_iff, !orb_false_iff;
    intros [[Hf%bool_decide_eq_false _] Hd%bool_decide_eq_false]; split; try by apply dec_stable.
  by apply eq_None_not_Some.
Qed.

Lemma same_result_completed now r result :
  same_result (command_completed now (icr_DataFormat result) (icr_DataBase64 result) r) result = true.
Proof using.
  unfold same_result. destruct (icr_DataFormat result); simpl.
  all: repeat (rewrite bool_decide_false by naive_solver); done.
Qed.

Lemma accepted_le serial result d d' : commands_le d d' -> accepted serial result d -> accepted serial result d'.
Proof using.
  intros Hle (r & Hr & Hk & Hs & Hsame). destruct (Hle _ _ Hr) as (r' & Hr' & Hsteps).
  apply steps_final in Hsteps as ->; [|by unfold command_open; rewrite Hs]. by exists r.
Qed.

Lemma completed_le now format data uuid r s :
  db_commands (tx_db s) !! uuid = Some r -> cr_status r = CmdSent ->
  commands_le (tx_db s) (on_commands <[uuid := command_completed now format data r]> (tx_db s)).
Proof using.
  intros Hr Hs u x Hx. cbn [on_commands db_commands]. destruct (decide (u = uuid)) as [->|Hne].
  - rewrite lookup_insert_eq. eexists. split; [done|]. rewrite Hr in Hx. injection Hx as <-.
    apply rtc_once. by constructor.
  - rewrite lookup_insert_ne by done. exists x. split; [done|]. apply rtc_refl.
Qed.

(** One result: the command is completed with it, or was so before and nothing happens. *)
Lemma complete_one_Ok serial acts result c s acts' s' :
  complete_one serial acts result c s = Ok (acts', s') ->
  commands_le (tx_db s) (tx_db s') /\ accepted serial result (tx_db s') /\
  (accepted serial result (tx_db s) -> acts' = acts /\ s' = s).
Proof using.
  intros E. unfold complete_one in E. tx_invs E.
  all: apply negb_false_iff, bool_decide_eq_true in Hb.
  - pose proof (completed_le (cx_now c) (icr_DataFormat result) (icr_DataBase64 result) _ _ _ Hm Hm0) as Hle.
    apply frame_commands_activity, same_commands in E1. apply resp_completeSync in E2. cbn [tx_db] in E1.
    split_and!.
    + by do 2 (etrans; [eassumption|]).
    + eapply accepted_le; [etrans; [exact E1|exact E2]|]. eexists. cbn [on_commands db_commands].
      rewrite lookup_insert_eq. split_and!; [done..|]. apply same_result_completed.
    + intros (r & Hr & _ & Hs & _). congruence.
  - split_and!; [done| |done]. by exists c0.
Qed.

Lemma complete_loop_Ok serial results acts c s acts' s' :
  tx_for (complete_one serial) results acts c s = Ok (acts', s') ->
  commands_le (tx_db s) (tx_db s') /\ Forall (fun result => accepted serial result (tx_db s')) results.
Proof using.
  apply (tx_for_inv (complete_one serial) (fun rs _ s' =>
    commands_le (tx_db s) (tx_db s') /\ Forall (fun result => accepted serial result (tx_db s')) rs)); [done|].
  intros rs x a1 a2 s1 s2 [I1 I2] (E1 & E2 & _)%complete_one_Ok. split; [by etrans|].
  apply Forall_app. split; [|by repeat constructor].
  eapply Forall_impl; [exact I2|]. intros r. by apply accepted_le.
Qed.

Lemma resp_CompleteISAPICommands serial results : resp (CompleteISAPICommands_tx serial results).
Proof using.
  intros c s [acts pending] s' E. unfold CompleteISAPICommands_tx in E. tx_invs E.
  apply resp_expireOverdue in E0. apply complete_loop_Ok in E1 as [E1 _]. by etrans.
Qed.

(** ** Returning results again *)
Lemma accepted_replay serial acts result c s :
  accepted serial result (tx_db s) -> complete_one serial acts result c s = Ok (acts, s).
Proof using.
  intros (r & Hr & Hk & Hs & Hsame). unfold complete_one, mbind, Tx_bind, db_get, tx_gets.
  rewrite Hr. rewrite (bool_decide_true (_ = serial)) by done. cbn [negb]. by rewrite Hs, Hsame.
Qed.

Lemma replay_loop serial results acts c s :
  Forall (fun result => accepted serial result (tx_db s)) results ->
  tx_for (complete_one serial) results acts c s = Ok (acts, s).
Proof using.
  induction 1 as [|result results Hr _ IH]; [done|]. simpl. unfold mbind, Tx_bind.
  by rewrite accepted_replay.
Qed.

Lemma nothing_overdue serial c s :
  (forall uuid r, db_commands (tx_db s) !! uuid = Some r -> overdue (cx_now c) serial r = false) ->
  expireOverdueISAPICommandsTx serial c s = Ok ([], s).
Proof using.
  intros Hno. unfold expireOverdueISAPICommandsTx, mbind, Tx_bind, sql_now, tx_ctx, db_get, tx_gets, db_set, tx_modify.
  assert (select (fun _ r => overdue (cx_now c) serial r) (db_commands (tx_db s)) = []) as ->.
  { apply elem_of_nil_inv. intros [u r] [Hu Ho]%elem_of_select. rewrite (Hno u r Hu) in Ho. done. }
  simpl. unfold mret, Tx_ret. do 2 f_equal. destruct s as [[] ? ?]. cbn in *. do 2 f_equal.
  unfold on_commands. cbn. f_equal. apply map_eq. intros k. unfold expire_rows. rewrite lookup_fmap.
  match goal with |- context [?m !! k] => destruct (m !! k) as [r|] eqn:Hk; [|done] end. simpl. by rewrite (Hno k r Hk).
Qed.
End ops.
