(* ===== verification/SyncProofs.v ===== *)
(** Retained-event runs: every page of the archive is accounted for.

    A page result fails the run, asks for the next page, or completes the run.
    The position of the next page is strictly larger and stays below the total
    the terminal announced, and it always equals the number of records imported
    or recognised as duplicates so far; so a run takes finitely many pages, and
    a run that completes has accounted for every record. *)

From Stdlib Require Import ZArith Lia Ascii String.
From stdpp Require Import base gmap strings list option.
From S2P Require Import Prelude GoText GoTime GoCrypto AccessControl StoreTypes Wire Database StoreCore.
From S2P Require Import Deliveries Archive CommandQueue SyncRuns Commands StoreFrame CommandProofs.

Local Open Scope string_scope.
Local Open Scope Z_scope.

(** ** Pages *)
Lemma ParseRetainedEventPage_spec source page :
  ParseRetainedEventPage source = Ok page ->
  1 <= slen (rp_SearchID page) <= 64 /\
  0 <= rp_NumOfMatches page <= RetainedEventPageSize /\ 0 <= rp_TotalMatches page <= 150000 /\
  rp_NumOfMatches page = zlen (rp_InfoList page) /\
  (rp_ResponseStatus page = "MORE" \/ rp_ResponseStatus page = "OK" \/
   (rp_ResponseStatus page = "NO MATCH" /\ rp_TotalMatches page = 0 /\ rp_NumOfMatches page = 0)).
Proof.
  unfold ParseRetainedEventPage. intros E. repeat case_match; simplify_eq/=.
  all: repeat match goal with
         | H : _ || _ = false |- _ => apply orb_false_iff in H as [? ?]
         | H : _ || _ = true |- _ => apply orb_true_iff in H
         | H : negb _ = false |- _ => apply negb_false_iff in H
         | H : bool_decide _ = true |- _ => apply bool_decide_eq_true in H
         | H : bool_decide _ = false |- _ => apply bool_decide_eq_false in H
         | H : (_ <? _) = false |- _ => apply Z.ltb_ge in H
         | H : (_ =? _) = true |- _ => apply Z.eqb_eq in H
         end.
  all: assert (1 <= slen s) by (unfold slen; destruct s; [done|simpl; lia]).
  all: split_and!; try lia; try done.
  - match goal with H : _ \/ _ |- _ => destruct H as [H|H]; apply bool_decide_eq_true in H; auto end.
  - right. right. split_and!; congruence.
Qed.

Lemma mapM_length {A B} (f : A -> option B) l k : mapM f l = Some k -> length k = length l.
Proof. intros H%mapM_Some_1. symmetry. by eapply Forall2_length. Qed.

Section sync_proofs.
Context `{GoParsers} `{CryptoLib}.

Lemma page_records_length page records : page_records page = Some records -> zlen records = zlen (rp_InfoList page).
Proof using. unfold page_records, zlen. intros E%mapM_length. lia. Qed.

(** Every record of a page is new or a duplicate. *)
Lemma insertRetained_counts command uuid records c s inserted duplicate s' :
  insertRetainedAccessEvents command uuid records c s = Ok ((inserted, duplicate), s') ->
  inserted + duplicate = zlen records /\ 0 <= inserted /\ 0 <= duplicate.
Proof using.
  intros E. unfold insertRetainedAccessEvents in E. tx_invs E.
  cut (0 <= inserted <= zlen records); [lia|]. revert E0.
  apply (tx_for_inv _ (fun rs n _ => 0 <= n <= zlen rs)); [done|].
  intros rs x n n' s1 s2 HI E. unfold insert_retained in E. tx_invs E; rewrite zlen_app; unfold zlen at 2; simpl; lia.
Qed.

(** ** The run of a sync command *)
Definition run_row (d : DB) (command : accessEventSyncCommand) : option SyncRow :=
  db_sync_runs d !! sc_RunUUID command.

(** [failAccessEventSync] on an active run. *)
Lemma fail_Ok run reason c s acts s' r :
  failAccessEventSync run reason c s = Ok (acts, s') ->
  db_sync_runs (tx_db s) !! run = Some r -> sync_active (sy_status r) = true ->
  db_sync_runs (tx_db s') !! run = Some (run_failed reason (cx_now c) r).
Proof using.
  intros E Hr Ha. unfold failAccessEventSync in E. tx_invs E; try congruence.
  apply (frame_activity db_sync_runs) in E0; [|done]. rewrite E0. cbn. rewrite lookup_insert_eq. congruence.
Qed.

(** Why a page fails its run; the totals of a well-accounted run are never the reason. *)
Definition totals_reason := "retained-event totals do not account for every device record".

Lemma page_problem_None command position page :
  page_problem command position page = None ->
  rp_SearchID page = sc_SearchID command /\
  (forall n, sc_TotalMatches command = Some n -> rp_TotalMatches page = n) /\
  position + rp_NumOfMatches page <= rp_TotalMatches page /\
  (rp_ResponseStatus page = "NO MATCH" -> position = 0) /\
  (rp_ResponseStatus page = "MORE" -> rp_NumOfMatches page <> 0 /\
     position + rp_NumOfMatches page < rp_TotalMatches page) /\
  (rp_ResponseStatus page = "OK" -> position + rp_NumOfMatches page = rp_TotalMatches page).
Proof using.
  unfold page_problem. intros E. repeat case_match; try discriminate.
  all: repeat match goal with
         | H : negb _ = false |- _ => apply negb_false_iff in H
         | H : bool_decide _ = true |- _ => apply bool_decide_eq_true in H
         | H : (_ <? _) = false |- _ => apply Z.ltb_ge in H
         | H : (_ =? _) = true |- _ => apply Z.eqb_eq in H
         end.
  all: split_and!; try done; try congruence.
  all: intros Hst; rewrite Hst in *; simpl in *.
  all: repeat match goal with
         | H : negb _ = false |- _ => apply negb_false_iff in H
         | H : _ || _ = false |- _ => apply orb_false_iff in H as [? ?]
         end; lia.
Qed.

Lemma page_problem_reason command position page reason :
  page_problem command position page = Some reason -> reason <> totals_reason.
Proof using. unfold page_problem. intros E. repeat case_match; by simplify_eq. Qed.

(** The state of a run after its page command succeeded. *)
Definition page_request (d : DB) (uuid : string) (command : accessEventSyncCommand) (position : Z) : Prop :=
  sync_command d uuid = Some command /\ sc_Phase command = PhasePage /\ sc_Position command = Some position /\
  sc_Status command = SyncRunning /\ is_Some (sc_SearchEnded command) /\
  sc_Imported command + sc_Duplicate command = position.

Inductive page_outcome (d' : DB) (command : accessEventSyncCommand) (position : Z) : Prop :=
| page_fails r reason :
    run_row d' command = Some r -> sy_status r = SyncFailed -> sy_failure r = Some reason ->
    reason <> totals_reason -> page_outcome d' command position
| page_more next command' position' total :
    page_request d' next command' position' ->
    sc_RunUUID command' = sc_RunUUID command ->
    cr_status <$> db_commands d' !! next = Some CmdQueued ->
    sc_TotalMatches command' = Some total ->
    (forall n, sc_TotalMatches command = Some n -> total = n) ->
    position < position' < total ->
    sc_PagesCompleted command' = sc_PagesCompleted command + 1 ->
    page_outcome d' command position
| page_last r total :
    run_row d' command = Some r -> sy_status r = SyncCompleted -> sy_total_matches r = Some total ->
    (forall n, sc_TotalMatches command = Some n -> total = n) ->
    sy_records_imported r + sy_records_duplicate r = total ->
    sy_pages_completed r = sc_PagesCompleted command + 1 ->
    page_outcome d' command position.

(** The row behind a joined sync command. *)
Lemma sync_command_Some d uuid command :
  sync_command d uuid = Some command ->
  exists link r, db_sync_links d !! uuid = Some link /\ sl_sync_run_uuid link = sc_RunUUID command /\
    run_row d command = Some r /\ sc_Status command = sy_status r /\
    sc_SearchEnded command = sy_search_ended_at r.
Proof using.
  unfold sync_command. intros (link & Hl & (r & Hr & [= <-])%bind_Some)%bind_Some. exists link, r.
  by split_and!.
Qed.

Lemma fails_outcome command position reason c s acts s' r :
  failAccessEventSync (sc_RunUUID command) reason c s = Ok (acts, s') ->
  run_row (tx_db s) command = Some r -> sync_active (sy_status r) = true -> reason <> totals_reason ->
  page_outcome (tx_db s') command position.
Proof using.
  intros E Hr Ha Hne. eapply page_fails; [by eapply fail_Ok|done|done|done].
Qed.

Lemma attempt_Ok {A} (m : Txn A) c s o s' :
  tx_attempt m c s = Ok (o, s') ->
  match o with Some a => m c s = Ok (a, s') | None => s' = s end.
Proof using.
  unfold tx_attempt. destruct (m c s) as [[a s1]|e]; [by intros [= <- <-]|].
  destruct e; by intros [= <- <-].
Qed.

Lemma link_Ok uuid run phase position c s u s' :
  link_command uuid run phase position c s = Ok (u, s') ->
  tx_db s' = on_sync_links <[uuid := {| sl_sync_run_uuid := run; sl_phase := phase;
                                        sl_search_result_position := position |}]> (tx_db s).
Proof using. intros E. unfold link_command in E. by tx_invs E. Qed.

(** Asking for the next page: the new command is linked to the advanced run. *)
Lemma next_page_outcome command ended position position' total pages imported duplicates act c s acts s' r :
  next_page command ended position' total pages imported duplicates act c s = Ok (acts, s') ->
  run_row (tx_db s) command = Some r -> sy_status r = SyncRunning -> is_Some (sy_search_ended_at r) ->
  imported + duplicates = position' -> position < position' < total ->
  (forall n, sc_TotalMatches command = Some n -> total = n) ->
  pages = sc_PagesCompleted command + 1 ->
  page_outcome (tx_db s') command position.
Proof using.
  intros E Hr Hrun Hend Hacc Hpos Htotal Hpages. unfold next_page in E. tx_invs E.
  - apply attempt_Ok in E0. apply link_Ok in E1. pose proof E0 as (_ & Hq & _)%queue_Ok.
    apply (frame_queueISAPICommandTx db_sync_runs) in E0; [|done..].
    apply (page_more _ _ _ (ic_UUID i) {|
      sc_RunUUID := sc_RunUUID command; sc_Terminal := sy_terminal_serial_number r;
      sc_CreatedByID := sy_created_by_admin_user_id r; sc_CreatedByName := sy_created_by_username r;
      sc_SearchID := sy_search_id r; sc_Status := SyncRunning; sc_Phase := PhasePage;
      sc_Position := Some (imported + duplicates); sc_SearchStarted := sy_search_started_at r;
      sc_SearchEnded := sy_search_ended_at r; sc_TotalMatches := Some total;
      sc_PagesCompleted := sc_PagesCompleted command + 1; sc_Imported := imported; sc_Duplicate := duplicates |}
      (imported + duplicates) total); try done.
    + split_and!; try done. unfold sync_command. rewrite E1. cbn [on_sync_links db_sync_links db_sync_runs].
      rewrite lookup_insert_eq. simpl. rewrite E0. cbn. unfold run_row in Hr.
      by rewrite lookup_alter_eq, Hr, <- Hrun.
    + rewrite E1. cbn [on_sync_links db_commands]. by rewrite Hq, lookup_insert_eq.
  - apply attempt_Ok in E0. subst. eapply fails_outcome; [exact E| | |done].
    + unfold run_row in *. cbn. by rewrite lookup_alter_eq, Hr.
    + simpl. by rewrite Hrun.
  - by eapply fails_outcome; [exact E|done|rewrite Hrun|].
Qed.

(** The result of a page command. *)
Lemma completePage_outcome command uuid position source at_ c s acts s' :
  completeAccessEventSyncPage command uuid source at_ c s = Ok (acts, s') ->
  page_request (tx_db s) uuid command position ->
  page_outcome (tx_db s') command position.
Proof using.
  intros E (Hcmd & Hphase & Hpos & Hstatus & [ended Hended] & Hacc).
  destruct (sync_command_Some _ _ _ Hcmd) as (link & r & _ & _ & Hr & Hs & He).
  assert (Hactive : sync_active (sy_status r) = true) by (rewrite <- Hs, Hstatus; done).
  unfold completeAccessEventSyncPage in E. rewrite Hpos, Hended in E. tx_invs E.
  all: try by (eapply fails_outcome; [exact E|done|done|first [done|by eapply page_problem_reason]]).
  all: match goal with Hp : ParseRetainedEventPage _ = Ok ?page, Hn : page_problem _ _ _ = None,
                      Hrec : page_records _ = Some _ |- _ =>
         apply ParseRetainedEventPage_spec in Hp as (_ & Hnum & Htot & Hlen & Hst);
         apply page_problem_None in Hn as (_ & Hsame & Hle & Hnm & Hmore & Hok);
         apply page_records_length in Hrec
       end.
  all: pose proof E0 as (Hcount & Hins & Hdup)%insertRetained_counts.
  all: apply (frame_insertRetained db_sync_runs) in E0; [|done..].
  all: apply (frame_activity db_sync_runs) in E1; [|done].
  all: assert (Hr' : run_row (tx_db s1) command = Some r) by (unfold run_row in *; by rewrite E1, E0).
  - apply bool_decide_eq_true in Hb1. destruct (Hmore Hb1) as [Hne Hlt].
    eapply next_page_outcome; [exact E|exact Hr'|congruence|by rewrite <- He, Hended|lia|lia|done|done].
  - exfalso. apply bool_decide_eq_false in Hb1. apply negb_true_iff, Z.eqb_neq in Hb2.
    destruct Hst as [?|[Hst|(Hst & ? & ?)]]; [done|specialize (Hok Hst); lia|specialize (Hnm Hst); lia].
  - apply negb_false_iff, Z.eqb_eq in Hb2. apply (frame_activity db_sync_runs) in E2; [|done].
    eapply page_last; [unfold run_row in *; rewrite E2; cbn; by rewrite lookup_alter_eq, Hr'|done..].
Qed.
End sync_proofs.
