(* ===== verification/OutboxProofs.v ===== *)
(** The outbox: archived events and their deliveries are written in one transaction.
    A batch queues a delivery for exactly those of its new events that are active
    face authentications of a terminal with an enabled route. *)

From Stdlib Require Import ZArith Lia Ascii String.
From stdpp Require Import base gmap strings list option.
From S2P Require Import Prelude GoText GoTime GoJSON GoCrypto AccessControl StoreTypes Database StoreCore.
From S2P Require Import Deliveries Archive CommandQueue SyncRuns Commands StoreFrame.

Local Open Scope string_scope.
Local Open Scope Z_scope.

(** The message of an event, and the rows queued for it. *)
Definition outbox_message (c : TxCtx) (e : DeviceEventRow) (p : Projection) (t : TerminalRow) : EventMessage :=
  mkEventMessage 2 "pushsdk" (de_vendor_event_id e) (de_terminal_serial_number e) (tr_pushsdk_serial t)
    (pj_MajorEventType p) (pj_SubEventType p) (pj_EventState p)
    ((fun at_ => mkTime (t_ns at_) (cx_zone c (t_ns at_))) <$> pj_OccurredAt p)
    (pj_EmployeeNumber p) (pj_EmployeeName p) (pj_EventSerialNumber p).

Definition outbox_row (c : TxCtx) (id : Z) (e : DeviceEventRow) (p : Projection) (t : TerminalRow) (r : RouteRow)
    : DeliveryRow :=
  mkDeliveryRow (Some id) None None (de_terminal_serial_number e) (ro_endpoint_url r) (ro_signing_key_id r)
    (json_Marshal (message_json (outbox_message c e p t))) (new_queue_row (cx_now c)).

Definition attachment_row (c : TxCtx) (parent : Z) : AttachmentRow :=
  mkAttachmentRow parent None None None (new_queue_row (cx_now c)).

Section outbox.
Context `{GoParsers} (c : TxCtx).

(** The tables an event batch works on. *)
Definition outbox (d : DB) := (db_deliveries d, db_attachments d).
Definition inputs (d : DB) := (db_device_events d, db_projections d, db_terminals d, db_routes d).

(** What [enqueueEventDelivery] does, for an event with and without a candidate row. *)
Definition queued_for (id : Z) (d d' : DB) : Prop :=
  match delivery_candidate d id with
  | None => outbox d' = outbox d
  | Some (e, p, t, r) => exists k a,
      db_deliveries d !! k = None /\ db_deliveries d' = <[k := outbox_row c id e p t r]> (db_deliveries d) /\
      db_attachments d !! a = None /\ db_attachments d' = <[a := attachment_row c k]> (db_attachments d)
  end.

Lemma enqueueAttachment_Ok parent s u s' :
  enqueueAttachment parent c s = Ok (u, s') ->
  inputs (tx_db s') = inputs (tx_db s) /\ db_deliveries (tx_db s') = db_deliveries (tx_db s) /\
  exists a, db_attachments (tx_db s) !! a = None /\
    db_attachments (tx_db s') = <[a := attachment_row c parent]> (db_attachments (tx_db s)).
Proof using.
  unfold enqueueAttachment. intros E. tx_invs E.
  apply insert_identity_Ok in E1 as [Hnew ->]; [|done]. split_and!; [done..|]. by eexists.
Qed.

Lemma enqueueEventDelivery_Ok id s u s' :
  enqueueEventDelivery id c s = Ok (u, s') ->
  inputs (tx_db s') = inputs (tx_db s) /\ queued_for id (tx_db s) (tx_db s').
Proof using.
  unfold enqueueEventDelivery, queued_for. intros E. apply tx_bind_Ok in E as (found & s0 & [= <- <-] & E).
  destruct (delivery_candidate (tx_db s) id) as [[[[e p] t] r]|]; [|by injection E as <- <-].
  apply tx_bind_Ok in E as (at_ & s1 & E1 & E).
  assert (s1 = s /\ at_ = (fun x => mkTime (t_ns x) (cx_zone c (t_ns x))) <$> pj_OccurredAt p) as [-> ->]
    by (destruct (pj_OccurredAt p); tx_invs E1; done).
  unfold marshal_message in E. cbn [em_OccurredAt] in E. destruct (from_option _ _ _) in E; [|done].
  tx_invs E. apply insert_identity_Ok in E2 as [Hk Es]; [|done].
  apply enqueueAttachment_Ok in E as (Hin & Hd & k' & Ha & Hat). rewrite Es in *. split; [done|].
  eexists _, k'. by split_and!.
Qed.

(** One event of a batch: a duplicate changes none of the tables, a new event is
    archived and queued. *)
Lemma insert_device_event_Ok ps e s ps' s' :
  insert_device_event ps e c s = Ok (ps', s') ->
  (inputs (tx_db s') = inputs (tx_db s) /\ outbox (tx_db s') = outbox (tx_db s)) \/
  exists id row pr, let d1 := on_projections <[id := pr]> (on_device_events <[id := row]> (tx_db s)) in
    db_device_events (tx_db s) !! id = None /\ inputs (tx_db s') = inputs d1 /\ queued_for id d1 (tx_db s').
Proof using.
  unfold insert_device_event. intros E.
  assert (Hlog : forall kind terminal message fields s1 s2 a,
    insertGatewayActivity (activity.event kind terminal message fields) c s1 = Ok (a, s2) ->
    inputs (tx_db s2) = inputs (tx_db s1) /\ outbox (tx_db s2) = outbox (tx_db s1)).
  { intros * Ea. split; by eapply frame_activity. }
  tx_invs E.
  - left. by apply Hlog in E2.
  - right. apply Hlog in E3 as [L1 L2].
    apply tx_bind_Ok in E2 as (id & s2 & [Hid Es]%insert_identity_Ok & E2); [|done].
    apply tx_bind_Ok in E2 as (u & s3 & Ep & [Hin Hq]%enqueueEventDelivery_Ok).
    assert (exists pr, tx_db s3 = on_projections <[id := pr]> (tx_db s2)) as [pr Hpr].
    { unfold insertAccessEventProjection in Ep. tx_invs Ep; by eexists. }
    eexists id, _, pr. split_and!; [exact Hid|by rewrite L1, Hin, Hpr, Es|].
    injection L2 as L2 L3. rewrite Hpr, Es in Hq. unfold queued_for, outbox in *. rewrite L2, L3. exact Hq.
Qed.

(** ** A batch *)

(** The delivery of a new event with its attachment row. *)
Definition outbox_queued (d : DB) (k : Z) (row : DeliveryRow) : Prop :=
  exists id e p t r, dr_device_event_id row = Some id /\ delivery_candidate d id = Some (e, p, t, r) /\
    row = outbox_row c id e p t r /\ exists a, db_attachments d !! a = Some (attachment_row c k).

Record outbox_inv (d0 : DB) (d : DB) : Prop := {
  oi_terminals : db_terminals d = db_terminals d0;
  oi_routes : db_routes d = db_routes d0;
  oi_events : db_device_events d0 ⊆ db_device_events d;
  oi_deliveries : db_deliveries d0 ⊆ db_deliveries d;
  oi_new : forall id, db_device_events d0 !! id = None -> is_Some (delivery_candidate d id) ->
    exists k row, db_deliveries d0 !! k = None /\ db_deliveries d !! k = Some row /\ dr_device_event_id row = Some id;
  oi_only : forall k row, db_deliveries d0 !! k = None -> db_deliveries d !! k = Some row ->
    outbox_queued d k row /\ forall id, dr_device_event_id row = Some id -> db_device_events d0 !! id = None
}.

Lemma candidate_inputs d d' id : inputs d' = inputs d -> delivery_candidate d' id = delivery_candidate d id.
Proof using. intros [= E1 E2 E3 E4]. unfold delivery_candidate. by rewrite E1, E2, E3, E4. Qed.

(** A new event does not change what is queued for the others. *)
Lemma candidate_other d id id' row pr :
  id' <> id -> delivery_candidate (on_projections <[id := pr]> (on_device_events <[id := row]> d)) id' =
    delivery_candidate d id'.
Proof using. intros Hne. unfold delivery_candidate. cbn. by rewrite !lookup_insert_ne. Qed.

Lemma candidate_event d id x : delivery_candidate d id = Some x -> is_Some (db_device_events d !! id).
Proof using. unfold delivery_candidate. intros (e & He & _)%bind_Some. eauto. Qed.

Lemma queued_row_mono d d' k row :
  (forall id x, delivery_candidate d id = Some x -> delivery_candidate d' id = Some x) ->
  db_attachments d ⊆ db_attachments d' -> outbox_queued d k row -> outbox_queued d' k row.
Proof using.
  intros Hc Ha (id & e & p & t & r & H1 & H2 & H3 & a & H4). exists id, e, p, t, r.
  split_and!; [done|by apply Hc|done|]. exists a. by eapply lookup_weaken.
Qed.

Lemma outbox_inv_refl d : outbox_inv d d.
Proof using.
  split; [done..| |congruence]. intros id Hid [x Hx]. apply candidate_event in Hx as [e He]. congruence.
Qed.

Lemma outbox_inv_same d0 d d' : inputs d' = inputs d -> outbox d' = outbox d -> outbox_inv d0 d -> outbox_inv d0 d'.
Proof using.
  intros Hi Ho [I1 I2 I3 I4 I5 I6]. pose proof (fun id => candidate_inputs d d' id Hi) as Hc.
  injection Hi as E1 _ E3 E4. injection Ho as O1 O2.
  split; [by rewrite E3|by rewrite E4|by rewrite E1|by rewrite O1| |].
  - intros id Hid. rewrite Hc, O1. by apply I5.
  - intros k row Hk. rewrite O1. intros Hrow. destruct (I6 k row Hk Hrow) as [Hq Hid]. split; [|done].
    eapply queued_row_mono; [| |exact Hq]; [|by rewrite O2]. intros id x. by rewrite Hc.
Qed.

(** The tables after a new event. *)
Lemma outbox_inv_new d0 d d' id row pr :
  let d1 := on_projections <[id := pr]> (on_device_events <[id := row]> d) in
  db_device_events d !! id = None -> inputs d' = inputs d1 -> queued_for id d1 d' ->
  outbox_inv d0 d -> outbox_inv d0 d'.
Proof using.
  intros d1 Hid Hi Hq [I1 I2 I3 I4 I5 I6].
  assert (Hc : forall id', delivery_candidate d' id' = delivery_candidate d1 id') by (intros; by apply candidate_inputs).
  assert (Hother : forall id', id' <> id -> delivery_candidate d' id' = delivery_candidate d id').
  { intros. rewrite Hc. by apply candidate_other. }
  assert (Hmono : forall id' x, delivery_candidate d id' = Some x -> delivery_candidate d' id' = Some x).
  { intros id' x Hx. rewrite Hother; [done|]. intros ->. apply candidate_event in Hx as [e He]. congruence. }
  assert (Hnew : db_device_events d0 !! id = None) by by eapply lookup_weaken_None.
  injection Hi as E1 _ E3 E4. unfold queued_for in Hq. rewrite <- Hc in Hq.
  destruct (delivery_candidate d' id) as [[[[e p] t] r]|] eqn:Hcand.
  - destruct Hq as (k & a & Hk & O1 & Ha & O2). cbn in Hk, O1, Ha, O2.
    assert (Hk0 : db_deliveries d0 !! k = None) by by eapply lookup_weaken_None.
    split; [by rewrite E3|by rewrite E4| | | |].
    + rewrite E1. etrans; [exact I3|]. by apply insert_subseteq.
    + rewrite O1. etrans; [exact I4|]. by apply insert_subseteq.
    + intros id' Hid' Hs. rewrite O1. destruct (decide (id' = id)) as [->|Hne].
      * exists k, (outbox_row c id e p t r). by rewrite lookup_insert_eq.
      * rewrite Hother in Hs by done. destruct (I5 id' Hid' Hs) as (k' & row' & Hk' & Hrow & Hdev).
        exists k', row'. split_and!; [done| |done]. rewrite lookup_insert_ne; [done|congruence].
    + intros k' row' Hk'. rewrite O1. destruct (decide (k' = k)) as [->|Hne].
      * rewrite lookup_insert_eq. intros [= <-]. split; [|by intros ? [= <-]].
        exists id, e, p, t, r. split_and!; [done..|]. exists a. by rewrite O2, lookup_insert_eq.
      * rewrite lookup_insert_ne by done. intros Hrow. destruct (I6 k' row' Hk' Hrow) as [Hq Hdev]. split; [|done].
        eapply queued_row_mono; [exact Hmono| |exact Hq]. rewrite O2. by apply insert_subseteq.
  - injection Hq as O1 O2. split; [by rewrite E3|by rewrite E4| | | |].
    + rewrite E1. etrans; [exact I3|]. by apply insert_subseteq.
    + by rewrite O1.
    + intros id' Hid' Hs. rewrite O1. destruct (decide (id' = id)) as [->|Hne].
      * rewrite Hcand in Hs. by apply is_Some_None in Hs.
      * rewrite Hother in Hs by done. by apply I5.
    + intros k' row' Hk'. rewrite O1. intros Hrow. destruct (I6 k' row' Hk' Hrow) as [Hq Hdev]. split; [|done].
      eapply queued_row_mono; [exact Hmono| |exact Hq]. by rewrite O2.
Qed.

Lemma batch_outbox es ps d d' : InsertDeviceEventBatch es c d = Ok (ps, d') -> outbox_inv d d'.
Proof using.
  intros (s' & E & <-)%run_Ok. revert E. apply (tx_for_inv _ (fun _ _ s => outbox_inv d (tx_db s))).
  - apply outbox_inv_refl.
  - intros _ e acc acc' s1 s2 HI [[Hi Ho]|(id & row & pr & Hid & Hi & Hq)]%insert_device_event_Ok.
    + by eapply outbox_inv_same.
    + by eapply outbox_inv_new.
Qed.

(** C40: the outbox is exact.  A committed event batch queues a delivery for exactly those
    of its new events that are active face authentications of a terminal with an enabled
    route; what is queued is that event's message for the route's destination and key,
    pending and due at once, with an attachment row beside it; and every delivery that
    was there before is untouched. *)
Theorem outbox_exact es ps d d' :
  InsertDeviceEventBatch es c d = Ok (ps, d') ->
  (forall k row, db_deliveries d !! k = Some row -> db_deliveries d' !! k = Some row) /\
  (forall id, db_device_events d !! id = None ->
     (is_Some (delivery_candidate d' id) <->
      exists k row, db_deliveries d !! k = None /\ db_deliveries d' !! k = Some row /\
        dr_device_event_id row = Some id)) /\
  (forall k row, db_deliveries d !! k = None -> db_deliveries d' !! k = Some row -> outbox_queued d' k row).
Proof using.
  intros [_ _ _ I4 I5 I6]%batch_outbox. split_and!.
  - intros k row Hrow. by eapply lookup_weaken.
  - intros id Hid. split; [by apply I5|]. intros (k & row & Hk & Hrow & Hdev).
    destruct (I6 k row Hk Hrow) as [(id' & e & p & t & r & Hdev' & Hc & _) _].
    rewrite Hdev in Hdev'. injection Hdev' as <-. eauto.
  - intros k row Hk Hrow. by apply I6.
Qed.
End outbox.
