(* ===== verification/DeliveryProofs.v ===== *)
(** The delivery queue and its worker: retry delays, receipts, and the leases
    that keep two workers from settling one delivery. *)

From Stdlib Require Import ZArith Lia Ascii String.
From stdpp Require Import base gmap strings list option sorting relations.
From S2P Require Import Prelude GoText GoTime GoJSON GoCrypto AccessControl StoreTypes Database StoreCore.
From S2P Require Import GoHTTP GoURL Deliveries Worker Attachments Backfills Archive StoreFrame CommandProofs OutboxProofs.

Local Open Scope string_scope.
Local Open Scope Z_scope.

(** ** Retry delays *)
Lemma retry_loop_spec n delay :
  0 < delay -> Z.min (300 * second) (retry_loop n delay) = Z.min (300 * second) (delay * 2 ^ Z.of_nat n).
Proof.
  revert delay. induction n as [|n IH]; intros delay Hd; [by rewrite Z.mul_1_r|].
  cbn [retry_loop]. replace (2 ^ Z.of_nat (S n)) with (2 * 2 ^ Z.of_nat n)
    by (rewrite Nat2Z.inj_succ, Z.pow_succ_r; lia).
  destruct (delay <? 300 * second) eqn:E.
  - rewrite IH by lia. f_equal. lia.
  - apply Z.ltb_ge in E. assert (0 < 2 ^ Z.of_nat n) by (apply Z.pow_pos_nonneg; lia).
    rewrite !Z.min_l; nia.
Qed.

Lemma RetryDelay_min attempts :
  RetryDelay attempts = Z.min (300 * second) (5 * second * 2 ^ Z.max 0 (attempts - 1)).
Proof.
  unfold RetryDelay. replace (Z.max 0 (attempts - 1)) with (Z.of_nat (Z.to_nat (attempts - 1))) by lia.
  rewrite <- retry_loop_spec by done. destruct (_ <? _) eqn:E; [apply Z.ltb_lt in E|apply Z.ltb_ge in E]; lia.
Qed.

(** ** Receipts *)
Definition receipt_names (attachmentID : string) : list string :=
  (["schemaVersion"; "eventId"; "receipt"]
   ++ (if bool_decide (attachmentID = "") then [] else ["attachmentId"]))%list.

(** The value a receipt must have under a name. *)
Definition receipt_value (eventID : string) (schemaVersion : Z) (attachmentID name : string) (v : json) : Prop :=
  if bool_decide (name = "schemaVersion") then decode_int 0 v = Some schemaVersion
  else if bool_decide (name = "eventId") then decode_string "" v = Some eventID
  else if bool_decide (name = "receipt") then decode_string "" v = Some "stored"
  else decode_string "" v = Some attachmentID.

Lemma if_Some {A} (b : bool) (x y : A) : (if b then Some x else None) = Some y <-> b = true /\ y = x.
Proof. destruct b; naive_solver. Qed.

Lemma text_true (o : option string) s :
  match o with Some x => bool_decide (x = s) | None => false end = true <-> o = Some s.
Proof. destruct o; [rewrite bool_decide_eq_true|]; naive_solver. Qed.

Lemma number_true (o : option Z) n : match o with Some x => x =? n | None => false end = true <-> o = Some n.
Proof. destruct o; [rewrite Z.eqb_eq|]; naive_solver. Qed.

Section receipts.
Context (eventID : string) (schemaVersion : Z) (attachmentID : string).
Implicit Types (m : string * (bytes * json)).

Definition member_ok m : Prop :=
  m.1 ∈ receipt_names attachmentID /\ receipt_value eventID schemaVersion attachmentID m.1 m.2.2.

Lemma receipt_member_Some seen m seen' :
  receipt_member eventID schemaVersion attachmentID seen m = Some seen' <->
  m.1 ∉ seen /\ member_ok m /\ seen' = m.1 :: seen.
Proof using.
  destruct m as [name [raw v]]. unfold receipt_member, member_ok, receipt_value, receipt_names. simpl.
  destruct (decide (name ∈ seen)) as [Hin|Hin]; [rewrite bool_decide_true by done; naive_solver|].
  rewrite (bool_decide_false (name ∈ seen)), if_Some by done.
  destruct (decide (name = "attachmentId")) as [->|H1].
  { simpl. rewrite andb_true_iff, text_true. case_bool_decide; set_solver. }
  rewrite (bool_decide_false (name = "attachmentId")) by done.
  destruct (decide (name = "schemaVersion")) as [->|H2]; [simpl; rewrite number_true; set_solver|].
  rewrite (bool_decide_false (name = "schemaVersion")) by done.
  destruct (decide (name = "eventId")) as [->|H3]; [simpl; rewrite text_true; set_solver|].
  rewrite (bool_decide_false (name = "eventId")) by done.
  destruct (decide (name = "receipt")) as [->|H4]; [simpl; rewrite text_true; set_solver|].
  rewrite (bool_decide_false (name = "receipt")) by done.
  split; [naive_solver|]. intros (_ & [Hn _] & _). exfalso. case_bool_decide; set_solver.
Qed.

Lemma receipt_members_Some seen ms seen' :
  receipt_members eventID schemaVersion attachmentID seen ms = Some seen' <->
  NoDup (ms.*1) /\ (forall n, n ∈ ms.*1 -> n ∉ seen) /\ Forall member_ok ms /\ seen' = (rev (ms.*1) ++ seen)%list.
Proof using.
  revert seen. induction ms as [|m ms IH]; intros seen; simpl.
  { split; [intros [= ->]|intros (_ & _ & _ & ->)]; [|done]. split_and!; [constructor|set_solver|constructor|done]. }
  split.
  - intros (seen1 & (H1 & H2 & ->)%receipt_member_Some & (I1 & I2 & I3 & ->)%IH)%bind_Some.
    split_and!.
    + apply NoDup_cons. set_solver.
    + set_solver.
    + by constructor.
    + by rewrite <- app_assoc.
  - intros ([Hm Hnd]%NoDup_cons & Hseen & [Hok Hoks]%Forall_cons & ->).
    assert (receipt_member eventID schemaVersion attachmentID seen m = Some (m.1 :: seen)) as ->.
    { apply receipt_member_Some. set_solver. }
    simpl. apply IH. split_and!; [done|set_solver|done|by rewrite <- app_assoc].
Qed.

(** C30: a receipt is accepted exactly when it is one JSON object with the expected
    members, each once and in any order, and nothing else: the schema version and event
    id of the message, the receipt "stored", and for an attachment its id. *)
Theorem receipt_exact body :
  validReceipt body eventID schemaVersion attachmentID = true <->
  exists ms, parse_document body = Some (JObject ms) /\ ms.*1 ≡ₚ receipt_names attachmentID /\
    Forall (fun m => receipt_value eventID schemaVersion attachmentID m.1 m.2.2) ms.
Proof using.
  assert (Hnd : NoDup (receipt_names attachmentID)).
  { unfold receipt_names. case_bool_decide; simpl; repeat constructor; set_solver. }
  assert (Hlen : length (receipt_names attachmentID) = if bool_decide (attachmentID = "") then 3%nat else 4%nat)
    by (unfold receipt_names; by case_bool_decide).
  unfold validReceipt. rewrite <- Hlen. split.
  - destruct (parse_document body) as [[]|]; try done.
    destruct (receipt_members _ _ _ _ _) as [seen|] eqn:E; [|done]. intros Hl%Nat.eqb_eq.
    apply receipt_members_Some in E as (H1 & _ & H3 & ->). exists members. split_and!; [done| |].
    + apply submseteq_length_Permutation.
      * apply NoDup_submseteq; [done|]. intros n (m & -> & Hm)%list_elem_of_fmap.
        rewrite list.Forall_forall in H3. by apply H3.
      * rewrite app_nil_r, length_rev in Hl. lia.
    + eapply Forall_impl; [exact H3|]. by intros m [_ ?].
  - intros (ms & -> & Hperm & Hall).
    assert (receipt_members eventID schemaVersion attachmentID [] ms = Some (rev (ms.*1) ++ [])%list) as ->.
    { apply receipt_members_Some. split_and!; [by rewrite Hperm|set_solver| |done].
      rewrite list.Forall_forall in *. intros m Hm. split; [|by apply Hall].
      rewrite <- Hperm. apply list_elem_of_fmap. eauto. }
    apply Nat.eqb_eq. rewrite app_nil_r, length_rev. by rewrite Hperm.
Qed.
End receipts.

(** ** Leases *)

(** A delivery keeps its message and its destination; its attempts only grow, and a
    delivered one never changes again. *)
Definition deliveries_le (d d' : DB) : Prop := forall id r,
  db_deliveries d !! id = Some r -> exists r', db_deliveries d' !! id = Some r' /\
    with_queue r' (dr_queue r) = r /\ qr_attempts (dr_queue r) <= qr_attempts (dr_queue r') /\
    (qr_status (dr_queue r) = DlvDelivered -> r' = r).

(** A picture keeps its event, and its message once it is built. *)
Definition attachments_le (d d' : DB) : Prop := forall id a,
  db_attachments d !! id = Some a -> exists a', db_attachments d' !! id = Some a' /\
    ar_event_delivery_id a' = ar_event_delivery_id a /\
    (is_Some (ar_request_body a) -> with_attachment_queue a' (ar_queue a) = a) /\
    qr_attempts (ar_queue a) <= qr_attempts (ar_queue a') /\
    (qr_status (ar_queue a) = DlvDelivered -> a' = a).

Definition outbox_le (d d' : DB) : Prop := deliveries_le d d' /\ attachments_le d d'.

#[export] Instance deliveries_le_preorder : PreOrder deliveries_le.
Proof.
  split.
  - intros d id r Hr. exists r. split_and!; [done|by destruct r|lia|done].
  - intros d1 d2 d3 H12 H23 id r Hr. destruct (H12 _ _ Hr) as (r2 & Hr2 & E2 & L2 & F2).
    destruct (H23 _ _ Hr2) as (r3 & Hr3 & E3 & L3 & F3). exists r3. split_and!; [done| |lia|].
    + rewrite <- E2, <- E3. done.
    + intros Hs. specialize (F2 Hs) as ->. auto.
Qed.

#[export] Instance attachments_le_preorder : PreOrder attachments_le.
Proof.
  split.
  - intros d id a Ha. exists a. split_and!; [done..|by destruct a|lia|done].
  - intros d1 d2 d3 H12 H23 id a Ha. destruct (H12 _ _ Ha) as (a2 & Ha2 & P2 & B2 & L2 & F2).
    destruct (H23 _ _ Ha2) as (a3 & Ha3 & P3 & B3 & L3 & F3). exists a3. split_and!; [done|congruence| |lia|].
    + intros Hb. specialize (B2 Hb) as E2. assert (Hb2 : is_Some (ar_request_body a2)) by (by rewrite <- E2 in Hb).
      specialize (B3 Hb2) as E3. rewrite <- E2, <- E3. done.
    + intros Hs. specialize (F2 Hs) as ->. auto.
Qed.

#[export] Instance outbox_le_preorder : PreOrder outbox_le.
Proof. split; [done|]. intros d1 d2 d3 [] []. split; by etrans. Qed.

(** An update of one queue row: by a claim, an outcome or a retry. *)
Definition queue_update (q q' : QueueRow) : Prop :=
  qr_attempts q <= qr_attempts q' /\ qr_status q <> DlvDelivered.

Lemma deliveries_insert d id r q :
  db_deliveries d !! id = Some r -> queue_update (dr_queue r) q ->
  deliveries_le d (on_deliveries <[id := with_queue r q]> d).
Proof.
  intros Hr [Hq Hs] i x Hx. cbn [on_deliveries db_deliveries]. destruct (decide (i = id)) as [->|Hne].
  - rewrite lookup_insert_eq. eexists. split; [done|]. rewrite Hr in Hx. injection Hx as <-. by destruct r.
  - rewrite lookup_insert_ne by done. exists x. split_and!; [done|by destruct x|lia|done].
Qed.

Lemma attachments_insert d id a q :
  db_attachments d !! id = Some a -> queue_update (ar_queue a) q ->
  attachments_le d (on_attachments <[id := with_attachment_queue a q]> d).
Proof.
  intros Ha [Hq Hs] i x Hx. cbn [on_attachments db_attachments]. destruct (decide (i = id)) as [->|Hne].
  - rewrite lookup_insert_eq. eexists. split; [done|]. rewrite Ha in Hx. injection Hx as <-. by destruct a.
  - rewrite lookup_insert_ne by done. exists x. split_and!; [done..|by destruct x|lia|done].
Qed.

Lemma same_deliveries d d' : db_deliveries d' = db_deliveries d -> deliveries_le d d'.
Proof. intros E id r Hr. exists r. rewrite E. split_and!; [done|by destruct r|lia|done]. Qed.

Lemma same_attachments d d' : db_attachments d' = db_attachments d -> attachments_le d d'.
Proof. intros E id a Ha. exists a. rewrite E. split_and!; [done..|by destruct a|lia|done]. Qed.

Lemma same_outbox d d' : outbox d' = outbox d -> outbox_le d d'.
Proof. intros [= E1 E2]. split; [by apply same_deliveries|by apply same_attachments]. Qed.

Lemma claimable_update now q : claimable now q = true -> queue_update q (Deliveries.claimed now q).
Proof. unfold claimable, queue_update. intros Hc. split; [simpl; lia|]. by destruct (qr_status q). Qed.

Lemma owned_update e now status code failure next q :
  owned e q = true -> queue_update q (finished now status code failure next q).
Proof.
  unfold owned, queue_update. intros [_ Hs%bool_decide_eq_true]%andb_true_iff. split; [simpl; lia|]. by rewrite Hs.
Qed.

Section leases.
Context `{GoParsers} `{CryptoLib}.

(** What happens to the two queues: claims, outcomes, manual retries, new events,
    backfills, and changes of the routes. *)
Inductive queue_step : DB -> DB -> Prop :=
| q_claim c d o d' : ClaimEventDelivery c d = Ok (o, d') -> queue_step d d'
| q_finish c d e status code failure next d' :
    FinishEventDelivery e status code failure next c d = Ok (tt, d') -> queue_step d d'
| q_retry c d id actor d' : RetryEventDelivery id actor c d = Ok (tt, d') -> queue_step d d'
| q_events c d es ps d' : InsertDeviceEventBatch es c d = Ok (ps, d') -> queue_step d d'
| q_backfill c d serial from until token actor n d' :
    QueueEventBackfill serial from until token actor c d = Ok (n, d') -> queue_step d d'
| q_claim_picture c d o d' : ClaimAttachment c d = Ok (o, d') -> queue_step d d'
| q_finish_picture c d e status code failure next d' :
    FinishAttachment e status code failure next c d = Ok (tt, d') -> queue_step d d'
| q_retry_picture c d id actor d' : RetryAttachmentDelivery id actor c d = Ok (tt, d') -> queue_step d d'
| q_backfill_pictures c d serial through token actor n d' :
    QueueAttachmentBackfill serial through token actor c d = Ok (n, d') -> queue_step d d'
| q_save_route c d route actor d' : SaveDeliveryRoute route actor c d = Ok (tt, d') -> queue_step d d'
| q_delete_route c d serial actor d' : DeleteDeliveryRoute serial actor c d = Ok (tt, d') -> queue_step d d'.

Lemma elem_of_order_by {A} (leb : A -> A -> bool) (l : list A) x : x ∈ order_by leb l <-> x ∈ l.
Proof using. unfold order_by. by rewrite merge_sort_Permutation. Qed.

(** A claim takes the due delivery with the lowest id and starts its next attempt. *)
Lemma claim_delivery_Ok c d o d' :
  ClaimEventDelivery c d = Ok (o, d') ->
  match o with
  | None => d' = d /\ forall id r, db_deliveries d !! id = Some r ->
      route_enabled d (dr_terminal_serial_number r) && claimable (cx_now c) (dr_queue r) = false
  | Some e => exists r, db_deliveries d !! ev_ID e = Some r /\
      claimable (cx_now c) (dr_queue r) = true /\
      ev_Attempts e = qr_attempts (dr_queue r) + 1 /\ ev_Body e = dr_request_body r /\
      d' = on_deliveries <[ev_ID e := with_queue r (Deliveries.claimed (cx_now c) (dr_queue r))]> d
  end.
Proof using.
  intros (s' & E & <-)%run_Ok. unfold ClaimEventDelivery_tx in E.
  assert (Hsel : forall id r, (id, r) ∈ claim_candidates d (cx_now c) <-> db_deliveries d !! id = Some r /\
    route_enabled d (dr_terminal_serial_number r) && claimable (cx_now c) (dr_queue r) = true).
  { intros id r. unfold claim_candidates. by rewrite elem_of_order_by, elem_of_select. }
  tx_invs E.
  - split; [done|]. intros id r Hr. apply not_true_is_false. intros Hc.
    assert (Hin : (id, r) ∈ ([] : list (Z * DeliveryRow))) by by apply Hsel. set_solver.
  - assert (Hin : (z, d0) ∈ (z, d0) :: l) by set_solver.
    apply Hsel in Hin as [Hr [_ Hc]%andb_true_iff]. exists d0. by split_and!.
Qed.

Lemma finish_Ok e status code failure next c d u d' :
  FinishEventDelivery e status code failure next c d = Ok (u, d') ->
  exists r, db_deliveries d !! ev_ID e = Some r /\ owned e (dr_queue r) = true /\
    d' = on_deliveries <[ev_ID e := with_queue r (finished (cx_now c) status code failure next (dr_queue r))]> d.
Proof using.
  intros (s' & E & <-)%run_Ok. unfold FinishEventDelivery_tx in E. tx_invs E. by exists d0.
Qed.

Lemma finish_attachment_Ok e status code failure next c d u d' :
  FinishAttachment e status code failure next c d = Ok (u, d') ->
  exists a, db_attachments d !! ev_ID e = Some a /\ owned e (ar_queue a) = true /\
    d' = on_attachments <[ev_ID e := with_attachment_queue a
           (finished (cx_now c) status code failure next (ar_queue a))]> d.
Proof using.
  intros (s' & E & <-)%run_Ok. unfold FinishAttachment_tx in E. tx_invs E. by eexists.
Qed.

(** The row of a picture with a body: the one it had, or the one built now. *)
Definition has_body (a : AttachmentRow) (body : bytes) (a' : AttachmentRow) : Prop :=
  ar_event_delivery_id a' = ar_event_delivery_id a /\ ar_request_body a' = Some body /\
  ar_queue a' = ar_queue a /\ (is_Some (ar_request_body a) -> a' = a).

Lemma attachment_body_Ok id a parent c s body s' :
  attachment_body id a parent c s = Ok (body, s') -> db_attachments (tx_db s) !! id = Some a ->
  exists a', has_body a body a' /\ tx_db s' = on_attachments <[id := a']> (tx_db s).
Proof using.
  intros E Ha. unfold attachment_body in E. destruct (ar_request_body a) as [b|] eqn:Hb.
  - injection E as <- <-. exists a. split; [by split_and!|]. destruct (tx_db s). unfold on_attachments. cbn in *.
    by rewrite insert_id.
  - assert (Hf : forall T (f : DB -> T), frame f (build_message parent)).
    { intros. unfold build_message. frame_auto. }
    apply tx_bind_Ok in E as (m & s1 & E1 & E). apply (Hf _ (fun d => d)) in E1.
    apply tx_bind_Ok in E as (u & s2 & [_ ->]%constraint_Ok & E).
    apply tx_bind_Ok in E as (u2 & s3 & [= _ <-] & [= <- <-]). cbn. rewrite E1.
    eexists. split; [|unfold on_attachments; cbn; by rewrite (alter_alt_Some _ _ _ _ Ha)].
    split_and!; [done..|]. rewrite Hb. by intros [? [=]].
Qed.

(** A claim takes the due picture with the lowest id whose event is delivered. *)
Lemma claim_attachment_Ok c d o d' :
  ClaimAttachment c d = Ok (o, d') ->
  match o with
  | None => d' = d
  | Some e => exists a parent endpoint a', db_attachments d !! ev_ID e = Some a /\
      db_deliveries d !! ar_event_delivery_id a = Some parent /\ qr_status (dr_queue parent) = DlvDelivered /\
      route_enabled d (dr_terminal_serial_number parent) = true /\ claimable (cx_now c) (ar_queue a) = true /\
      NetURL.Parse (dr_endpoint_url parent) = Some endpoint /\
      e = picture_delivery (ev_ID e) a parent endpoint (ev_Body e) /\ has_body a (ev_Body e) a' /\
      d' = on_attachments <[ev_ID e := with_attachment_queue a' (Deliveries.claimed (cx_now c) (ar_queue a))]> d
  end.
Proof using.
  intros (s' & E & <-)%run_Ok. unfold ClaimAttachment_tx in E.
  apply tx_bind_Ok in E as (now & s1 & [= <- <-] & E). apply tx_bind_Ok in E as (cs & s1 & [= <- <-] & E).
  cbn [tx_db] in E. destruct (attachment_candidates d (cx_now c)) as [|[id a] l] eqn:Hc; [by injection E as <- <-|].
  assert (Hin : (id, a) ∈ attachment_candidates d (cx_now c)) by (rewrite Hc; set_solver).
  unfold attachment_candidates in Hin. apply elem_of_order_by in Hin. rewrite elem_of_select in Hin.
  destruct Hin as [Ha Hp]. apply tx_bind_Ok in E as (found & s1 & [= <- <-] & E). cbn [tx_db] in E.
  destruct (parent_delivered d a) as [parent|] eqn:Hpar; [|done]. apply andb_true_iff in Hp as [Hr Hcl].
  apply bind_Some in Hpar as (parent' & Hpar & Hst). case_bool_decide; [|done]. injection Hst as ->.
  destruct (NetURL.Parse (dr_endpoint_url parent)) as [endpoint|] eqn:Hurl; [|done].
  apply tx_bind_Ok in E as (body & s1 & (a' & Hbody & Hdb)%attachment_body_Ok & E); [|done].
  apply tx_bind_Ok in E as (u & s2 & [= _ <-] & [= <- <-]). cbn [picture_delivery ev_ID ev_Body].
  exists a, parent, endpoint, a'. split_and!; try done. cbn. rewrite Hdb. unfold on_attachments. cbn.
  destruct Hbody as (_ & _ & Hq & _). by rewrite alter_insert_eq, Hq.
Qed.

Lemma claim_le c d o d' : ClaimEventDelivery c d = Ok (o, d') -> outbox_le d d'.
Proof using.
  intros E%claim_delivery_Ok. destruct o as [e|]; [|by destruct E as [-> _]].
  destruct E as (r & Hr & Hc & _ & _ & ->). split; [|by apply same_attachments].
  apply deliveries_insert; [done|by apply claimable_update].
Qed.

Lemma claim_attachment_le c d o d' : ClaimAttachment c d = Ok (o, d') -> outbox_le d d'.
Proof using.
  intros E%claim_attachment_Ok. destruct o as [e|]; [|by rewrite E].
  destruct E as (a & parent & endpoint & a' & Ha & _ & _ & _ & Hc & _ & _ & (P & B & Q & K) & ->).
  split; [by apply same_deliveries|]. apply claimable_update in Hc as [_ Hs].
  intros i x Hx. cbn. destruct (decide (i = ev_ID e)) as [->|Hne].
  - rewrite lookup_insert_eq. eexists. split; [done|]. rewrite Ha in Hx. injection Hx as <-.
    split_and!; [done| |simpl; lia|done]. intros Hb. rewrite (K Hb). by destruct a.
  - rewrite lookup_insert_ne by done. exists x. split_and!; [done..|by destruct x|lia|done].
Qed.

Abbreviation keeps := (respects outbox_le).

Lemma keeps_frame {A} (m : Txn A) : frame outbox m -> keeps m.
Proof using. apply respects_frame, same_outbox. Qed.

Lemma keeps_insert_delivery q row : keeps (insert_identity q db_deliveries on_deliveries row).
Proof using.
  intros c s id s' [Hid ->]%insert_identity_Ok; [|done]. split; [|by apply same_attachments].
  intros i x Hx. exists x. cbn. rewrite lookup_insert_ne by congruence. split_and!; [done|by destruct x|lia|done].
Qed.

Lemma keeps_insert_attachment q row : keeps (insert_identity q db_attachments on_attachments row).
Proof using.
  intros c s id s' [Hid ->]%insert_identity_Ok; [|done]. split; [by apply same_deliveries|].
  intros i x Hx. exists x. cbn. rewrite lookup_insert_ne by congruence. split_and!; [done..|by destruct x|lia|done].
Qed.

Lemma keeps_activity e : keeps (insertGatewayActivity e).
Proof using. apply keeps_frame. by apply frame_activity. Qed.

End leases.

(** Follows the structure of a transaction on the queues. *)
Create HintDb keeps.
#[export] Hint Resolve keeps_insert_delivery keeps_insert_attachment keeps_activity : keeps.
Ltac keeps_step :=
  lazymatch goal with
  | |- respects _ (mbind _ _) => apply respects_bind; [apply _| |intro]
  | |- respects _ (if ?b then _ else _) => destruct b
  | |- respects _ (match ?o with _ => _ end) => destruct o
  | |- respects _ (tx_for _ _ _) => apply respects_for; [apply _|intros]
  | |- respects _ _ => first [solve [auto with keeps] | apply keeps_frame; solve [frame_auto]]
  end; cbn beta iota zeta.
Ltac keeps_auto := intros; cbn beta iota zeta; repeat keeps_step.

Section steps.
Context `{GoParsers} `{CryptoLib}.
Abbreviation keeps := (respects outbox_le).

Lemma keeps_enqueueAttachment parent : keeps (enqueueAttachment parent).
Proof using. unfold enqueueAttachment. keeps_auto. Qed.
Local Hint Resolve keeps_enqueueAttachment : keeps.

Lemma keeps_enqueue id : keeps (enqueueEventDelivery id).
Proof using. unfold enqueueEventDelivery. keeps_auto. Qed.
Local Hint Resolve keeps_enqueue : keeps.

Lemma keeps_device_event acc e : keeps (insert_device_event acc e).
Proof using.
  assert (Hid : forall q row, keeps (insert_identity q db_device_events on_device_events row)).
  { intros. apply keeps_frame. unfold insert_identity, fresh_id. frame_auto. }
  assert (Ht : forall serial, keeps (terminal_exists serial)).
  { intros. apply keeps_frame. unfold terminal_exists. frame_auto. }
  assert (Hp : forall id format payload, keeps (insertAccessEventProjection id format payload)).
  { intros. apply keeps_frame. unfold insertAccessEventProjection. frame_auto. }
  unfold insert_device_event. keeps_auto.
Qed.

Lemma keeps_QueueEventBackfill serial from until token actor :
  keeps (QueueEventBackfill_tx serial from until token actor).
Proof using.
  assert (Hid : forall q row, keeps (insert_identity q db_backfills on_backfills row)).
  { intros. apply keeps_frame. unfold insert_identity, fresh_id. frame_auto. }
  assert (Hp : keeps (previewEventBackfill serial from until)).
  { apply keeps_frame. unfold previewEventBackfill. frame_auto. }
  unfold QueueEventBackfill_tx, queue_candidate. keeps_auto.
Qed.

Lemma keeps_QueueAttachmentBackfill serial through token actor :
  keeps (QueueAttachmentBackfill_tx serial through token actor).
Proof using.
  assert (Hp : keeps (previewAttachments serial through)).
  { apply keeps_frame. unfold previewAttachments. frame_auto. }
  unfold QueueAttachmentBackfill_tx. keeps_auto.
Qed.

Lemma retry_le id actor c d u d' : RetryEventDelivery id actor c d = Ok (u, d') -> outbox_le d d'.
Proof using.
  intros (s' & E & <-)%run_Ok. unfold RetryEventDelivery_tx in E. tx_invs E.
  apply keeps_activity in E0. etrans; [|exact E0]. cbn in Hm |- *. split; [|by apply same_attachments].
  apply deliveries_insert; [done|]. apply bool_decide_eq_true in Hb. split; [done|congruence].
Qed.

Lemma retry_attachment_le id actor c d u d' : RetryAttachmentDelivery id actor c d = Ok (u, d') -> outbox_le d d'.
Proof using.
  intros (s' & E & <-)%run_Ok. unfold RetryAttachmentDelivery_tx in E.
  apply tx_bind_Ok in E as (now & s1 & [= <- <-] & E). apply tx_bind_Ok in E as (found & s1 & [= <- <-] & E).
  cbn [tx_db] in E. destruct (db_attachments d !! id) as [a|] eqn:Ha; [|done].
  cbn [mbind option_bind] in E. destruct (db_deliveries d !! ar_event_delivery_id a) as [parent|]; [|done].
  cbn [mbind option_bind] in E. destruct (db_terminals d !! dr_terminal_serial_number parent) as [t|]; [|done].
  cbn [mbind option_bind] in E. destruct (bool_decide _) eqn:Hb; [|done]. apply bool_decide_eq_true in Hb.
  tx_invs E. apply keeps_activity in E0. etrans; [|exact E0]. split; [by apply same_deliveries|].
  apply attachments_insert; [done|]. split; [done|congruence].
Qed.

Lemma queue_step_le d d' : queue_step d d' -> outbox_le d d'.
Proof using.
  destruct 1 as [c d o d' E|c d e status code failure next d' E|c d id actor d' E|c d es ps d' E
    |c d serial from until token actor n d' E|c d o d' E|c d e status code failure next d' E|c d id actor d' E
    |c d serial through token actor n d' E|c d route actor d' E|c d serial actor d' E].
  - by eapply claim_le.
  - apply finish_Ok in E as (r & Hr & Ho & ->). split; [|by apply same_attachments].
    apply deliveries_insert; [done|by eapply owned_update].
  - by eapply retry_le.
  - apply run_Ok in E as (s' & E & <-).
    assert (K : keeps (tx_for insert_device_event es [])).
    { apply respects_for; [apply _|]. intros. apply keeps_device_event. }
    by apply K in E.
  - apply run_Ok in E as (s' & E & <-). by apply keeps_QueueEventBackfill in E.
  - by eapply claim_attachment_le.
  - apply finish_attachment_Ok in E as (a & Ha & Ho & ->). split; [by apply same_deliveries|].
    apply attachments_insert; [done|by eapply owned_update].
  - by eapply retry_attachment_le.
  - apply run_Ok in E as (s' & E & <-). by apply keeps_QueueAttachmentBackfill in E.
  - apply run_Ok in E as (s' & E & <-). revert E. assert (K : keeps (SaveDeliveryRoute_tx route actor)).
    { unfold SaveDeliveryRoute_tx. keeps_auto. }
    intros E. by apply K in E.
  - apply run_Ok in E as (s' & E & <-). revert E. assert (K : keeps (DeleteDeliveryRoute_tx serial actor)).
    { unfold DeleteDeliveryRoute_tx. keeps_auto. }
    intros E. by apply K in E.
Qed.

Lemma queue_steps_le d d' : rtc queue_step d d' -> outbox_le d d'.
Proof using. induction 1 as [|d1 d2 d3 S1 _ IH]; [done|]. etrans; [by apply queue_step_le|done]. Qed.
End steps.
