(* ===== verification/MessageProofs.v ===== *)
(** The delivered messages on the wire: what a receiver decodes from a queued body, and
    the receipts it may answer with. *)

From Stdlib Require Import ZArith Lia Ascii String.
From stdpp Require Import base gmap strings list option.
From S2P Require Import Prelude GoText GoTime GoJSON JSONProofs GoHTTP GoURL GoCrypto AccessControl StoreTypes Database.
From S2P Require Import StoreCore Deliveries Worker Attachments DeliveryProofs.

Local Open Scope string_scope.
Local Open Scope Z_scope.

(** ** Members *)
Fixpoint index_of (p : string -> bool) (names : list string) : option nat :=
  match names with
  | [] => None
  | n :: l => if p n then Some 0%nat else S <$> index_of p l
  end.

(** The place of the field a member name selects. *)
Definition name_index (names : list string) (key : string) : option nat :=
  match index_of (fun n => bool_decide (n = key)) names with
  | Some k => Some k
  | None => index_of (fun n => bool_decide (foldName n = foldName key)) names
  end.

Definition nth_field {A} (fields : list (field A)) (k : nat) : option (field A) := nth_error fields k.

Lemma find_index_of {A} (p : string -> bool) (fields : list (field A)) :
  List.find (fun f => p f.1) fields = index_of p (List.map fst fields) ≫= fun k => nth_field fields k.
Proof.
  induction fields as [|f l IH]; [done|]. simpl. destruct (p f.1); [done|]. rewrite IH.
  by destruct (index_of p (List.map fst l)).
Qed.

Lemma index_of_lookup {A} p (fields : list (field A)) k :
  index_of p (List.map fst fields) = Some k -> is_Some (nth_field fields k).
Proof.
  revert k. induction fields as [|f l IH]; intros k Hk; [done|]. simpl in Hk. destruct (p f.1); [by simplify_eq|].
  destruct (index_of p (List.map fst l)) as [k'|] eqn:E; [|done]. injection Hk as <-. by apply IH.
Qed.

Lemma find_field_index {A} (fields : list (field A)) key :
  find_field fields key = name_index (List.map fst fields) key ≫= fun k => nth_field fields k.
Proof.
  pose proof (find_index_of (fun n => bool_decide (n = key)) fields) as H1.
  pose proof (find_index_of (fun n => bool_decide (foldName n = foldName key)) fields) as H2.
  unfold find_field, name_index.
  destruct (index_of (fun n => bool_decide (n = key)) (List.map fst fields)) as [k|] eqn:E; cbn [mbind option_bind] in *.
  - destruct (index_of_lookup _ _ _ E) as [f Hf]. rewrite Hf in H1 |- *.
    refine (eq_trans (f_equal (fun o => match o with Some f => Some f | None => _ end) H1) _). done.
  - refine (eq_trans (f_equal (fun o => match o with Some f => Some f | None => _ end) H1) _). exact H2.
Qed.

Lemma decode_members_at {A} strict (fields : list (field A)) k acc name e f acc' rest :
  name_index (List.map fst fields) name = Some k -> nth_field fields k = Some f -> f.2 acc e = Some acc' ->
  decode_members strict fields acc ((name, e) :: rest) = decode_members strict fields acc' rest.
Proof.
  intros Hf Hk Hd. cbn [decode_members]. unfold decode_member. cbn [fst snd].
  rewrite find_field_index, Hf. cbn [mbind option_bind]. by rewrite Hk, Hd.
Qed.

(** A member the struct does not name. *)
Lemma decode_members_skip {A} (fields : list (field A)) acc name e rest :
  name_index (List.map fst fields) name = None ->
  decode_members false fields acc ((name, e) :: rest) = decode_members false fields acc rest.
Proof. intros Hf. cbn [decode_members]. unfold decode_member. cbn [fst snd]. by rewrite find_field_index, Hf. Qed.

Lemma int_read n : in_int64 n = true -> forall prev, decode_int prev (JNumber (itoa n)) = Some n.
Proof. intros Hn prev. simpl. by apply int_literal_itoa. Qed.

(** ** Times *)

(** Bytes a string literal carries as they are. *)
Definition plain (c : ascii) : bool :=
  (32 <=? byte_val c) && (byte_val c <? 128) && negb (bool_decide (c ∈ Print.quote :: bytes_of "\<>&")).

Lemma plain_itself c : plain c = true -> byte_val c < 128 /\ Print.escape_ascii c = [c].
Proof.
  pose (same c := (byte_val c <? 128) && bool_decide (Print.escape_ascii c = [c])). intros Hc.
  assert (Hall : implb (plain c) (same c) = true) by (apply (byte_cases (fun c => implb (plain c) (same c))); by vm_compute).
  rewrite Hc in Hall. apply andb_true_iff in Hall as [?%Z.ltb_lt ?%bool_decide_eq_true]. done.
Qed.

Lemma escape_plain l : Forall (fun c => plain c = true) l -> Print.escape 0 l = l.
Proof.
  induction 1 as [|c l Hc _ IH]; [done|]. cbn [Print.escape].
  destruct (plain_itself c Hc) as [H1 H2]. rewrite (proj2 (Z.ltb_lt _ _)) by done. by rewrite H2, IH.
Qed.

Lemma digits_plain w n : Forall (fun c => plain c = true) (GoTime.digits_of w n).
Proof.
  refine (list.Forall_impl _ _ _ (GoTime.digits_of_digits w n) _). intros c Hc.
  assert (Hall : implb (is_digit c) (plain c) = true).
  { apply (byte_cases (fun c => implb (is_digit c) (plain c))). by vm_compute. }
  by rewrite Hc in Hall.
Qed.

Lemma forallb_True_plain l : forallb plain l = true <-> Forall (fun c => plain c = true) l.
Proof. rewrite List.forallb_forall, list.Forall_forall. by setoid_rewrite list_elem_of_In. Qed.

Lemma forallb_app_intro {A} (p : A -> bool) l l' : forallb p l = true -> forallb p l' = true -> forallb p (l ++ l')%list = true.
Proof. intros H1 H2. by rewrite forallb_app, H1, H2. Qed.

Ltac plain_parts Hd :=
  repeat first [apply Hd | apply forallb_app_intro | apply andb_true_iff; split; [done|] | done].

Lemma rfc3339nano_plain t :
  0 <= c_year (civil_of t) < 10000 -> Forall (fun c => plain c = true) (bytes_of (Format_RFC3339Nano t)).
Proof.
  intros Hy. unfold Format_RFC3339Nano. rewrite bytes_of_string_of. apply forallb_True_plain.
  assert (Hd : forall w n, forallb plain (digits_of w n) = true) by (intros; apply forallb_True_plain, digits_plain).
  assert (Hfrac : forallb plain (trim_zeros (digits_of 9 (c_nano (civil_of t)))) = true).
  { specialize (Hd 9%nat (c_nano (civil_of t))). rewrite <- (trim_zeros_padded (digits_of 9 _)), forallb_app in Hd.
    by apply andb_true_iff in Hd as [? _]. }
  apply forallb_app_intro; [|apply forallb_app_intro].
  - unfold date_time_text. rewrite year_text_small by done. plain_parts Hd.
  - destruct (trim_zeros _); [done|]. apply andb_true_iff. split; [done|exact Hfrac].
  - unfold zone_text. destruct (_ =? 0); [done|]. destruct (_ <? 0); plain_parts Hd.
Qed.

(** A time that [MarshalJSON] prints in a zone of whole minutes. *)
Definition time_ok (t : Time) : bool := MarshalJSON_ok t && (t_offset t mod 60 =? 0).

Lemma time_ok_zone t : time_ok t = true -> zone_ok (t_offset t) /\ 0 <= c_year (civil_of t) < 10000.
Proof.
  unfold time_ok, MarshalJSON_ok. rewrite !andb_true_iff, !Z.leb_le, Z.ltb_lt, Z.eqb_eq. intros [[Hy Hz] Hm].
  split; [|lia]. exists (t_offset t / 60). split; Z.to_euclidean_division_equations; lia.
Qed.

Lemma time_read t : time_ok t = true -> unmarshal_time (Print.marshal (OString (Format_RFC3339Nano t))) = Some t.
Proof.
  intros [Hz Hy]%time_ok_zone. cbn [Print.marshal]. unfold Print.string_literal, unmarshal_time.
  rewrite escape_plain by (by apply rfc3339nano_plain). rewrite last_snoc, !bool_decide_true by done. cbn [andb].
  rewrite length_app. cbn [length]. rewrite Nat.add_sub, take_app_length, string_of_bytes_of.
  by apply rfc3339nano_roundtrip.
Qed.

(** ** Attendance messages *)

(** The message a receiver sees: ill-formed UTF-8 in its texts is U+FFFD. *)
Definition cleaned (m : EventMessage) : EventMessage :=
  mkEventMessage (em_SchemaVersion m) (clean_text (em_Source m)) (clean_text (em_EventID m))
    (clean_text (em_TerminalSerialNumber m)) (clean_text (em_PushSDKSerial m)) (em_MajorEventType m)
    (em_SubEventType m) (clean_text <$> em_EventState m) (em_OccurredAt m) (clean_text <$> em_EmployeeNumber m)
    (clean_text <$> em_EmployeeName m) (em_EventSerialNumber m).

(** Its numbers are Go integers, and its time has an exact text. *)
Definition message_ok (m : EventMessage) : bool :=
  in_int64 (em_SchemaVersion m) && in_int64 (em_MajorEventType m) && in_int64 (em_SubEventType m)
  && from_option in_int64 true (em_EventSerialNumber m) && from_option time_ok true (em_OccurredAt m).

Lemma unmarshal_members body ms :
  parse_document body = Some (JObject ms) ->
  unmarshal_EventMessage body = decode_members false EventMessage_fields zero_EventMessage ms.
Proof. intros H. unfold unmarshal_EventMessage, decode_exact. by rewrite H. Qed.

Lemma shallow j : (height j <= 9)%nat -> (height j <= Scan.maxNestingDepth)%nat.
Proof. unfold Scan.maxNestingDepth. lia. Qed.

(** One printed member after the other. *)
Ltac read_member k :=
  erewrite (decode_members_at _ EventMessage_fields k); [|vm_compute; reflexivity|reflexivity|];
  [|cbn -[decode_int]; rewrite ?int_read by done; reflexivity].

Abbreviation read_members := (List.map (fun m : string * jout => (clean_text m.1, (Print.marshal m.2, as_read m.2)))).

Lemma decode_members_app {A} strict (fields : list (field A)) acc ms ms' :
  decode_members strict fields acc (ms ++ ms')%list =
  acc' ← decode_members strict fields acc ms; decode_members strict fields acc' ms'.
Proof.
  revert acc. induction ms as [|m ms IH]; intros acc; [done|]. cbn [decode_members app].
  destruct (decode_member _ _ _ _); [|done]. apply IH.
Qed.

Lemma text_option_read o prev :
  decode_ptr "" decode_string prev (as_read (json_option OString o)) = Some (clean_text <$> o).
Proof. by destruct o. Qed.

Lemma int_option_read o prev : from_option in_int64 true o = true ->
  decode_ptr 0 decode_int prev (as_read (json_option OInt o)) = Some o.
Proof. destruct o as [n|]; [|done]. intros Hn. cbn -[decode_int]. by rewrite int_read. Qed.

Definition with_occurred (m : EventMessage) (o : option Time) : EventMessage :=
  mkEventMessage (em_SchemaVersion m) (em_Source m) (em_EventID m) (em_TerminalSerialNumber m) (em_PushSDKSerial m)
    (em_MajorEventType m) (em_SubEventType m) (em_EventState m) o (em_EmployeeNumber m) (em_EmployeeName m)
    (em_EventSerialNumber m).

Lemma time_option_read m o : from_option time_ok true o = true ->
  let j := json_option (fun t => OString (Format_RFC3339Nano t)) o in
  (match as_read j with
   | JNull => Some (with_occurred m None)
   | _ => t ← unmarshal_time (Print.marshal j); Some (with_occurred m (Some t))
   end) = Some (with_occurred m o).
Proof. destruct o as [t|]; [|done]. intros Ht. cbn [json_option from_option as_read]. by rewrite time_read. Qed.

Ltac read_option k H :=
  erewrite (decode_members_at _ EventMessage_fields k);
    [|vm_compute; reflexivity|reflexivity|unfold fld; cbn [snd]; rewrite H by done; reflexivity].

Lemma message_source_read version source : in_int64 version = true ->
  decode_members false EventMessage_fields zero_EventMessage
    (read_members (("schemaVersion", OInt version) :: if bool_decide (source = "") then [] else [("source", OString source)])) =
  Some (mkEventMessage version (clean_text source) "" "" "" 0 0 None None None None None).
Proof.
  intros Hv. case_bool_decide as Hs; cbn [List.map fst snd as_read]; read_member 0%nat; [by subst|]. by read_member 1%nat.
Qed.

Lemma message_read m : message_ok m = true -> unmarshal_EventMessage (json_Marshal (message_json m)) = Some (cleaned m).
Proof.
  destruct m as [version source event terminal serial major sub state at_ number name position].
  unfold message_ok. cbn [em_SchemaVersion em_MajorEventType em_SubEventType em_EventSerialNumber em_OccurredAt].
  rewrite !andb_true_iff. intros [[[[H1 H2] H3] H4] H5].
  erewrite unmarshal_members; [|rewrite marshal_parsed; [reflexivity|]].
  2: { apply shallow. unfold message_json. case_bool_decide; destruct state, at_, number, name, position; simpl; lia. }
  rewrite app_assoc, List.map_app, decode_members_app. change ([?a] ++ ?b)%list with (a :: b).
  cbn [em_SchemaVersion em_Source app]. rewrite message_source_read by done. cbn [mbind option_bind].
  cbn [List.map fst snd as_read].
  read_member 2%nat. read_member 3%nat. read_member 4%nat. read_member 5%nat. read_member 6%nat.
  read_option 7%nat (text_option_read state).
  erewrite (decode_members_at _ EventMessage_fields 8%nat); [|vm_compute; reflexivity|reflexivity|exact (time_option_read _ at_ H5)].
  read_option 9%nat (text_option_read number). read_option 10%nat (text_option_read name).
  read_option 11%nat (int_option_read position). done.
Qed.

(** ** Picture messages *)

(** A picture message read as an attendance message: the schema version, the source and the
    identifiers are at the same names; the rest is ignored. *)
Lemma attachment_message_read m : in_int64 (am_SchemaVersion m) = true ->
  unmarshal_EventMessage (json_Marshal (attachment_message_json m)) =
  Some (mkEventMessage (am_SchemaVersion m) (clean_text (am_Source m)) (clean_text (am_EventID m))
          (clean_text (am_TerminalSerialNumber m)) (clean_text (am_PushSDKSerial m)) 0 0 None None None None None).
Proof.
  destruct m as [version kind source event terminal serial attachment availability reason picture]. cbn [am_SchemaVersion].
  intros H1. erewrite unmarshal_members; [|rewrite marshal_parsed; [reflexivity|]].
  2: { apply shallow. unfold attachment_message_json. destruct reason, picture; simpl; lia. }
  cbn [List.map fst snd as_read]. read_member 0%nat.
  rewrite decode_members_skip by (vm_compute; reflexivity).
  read_member 1%nat. read_member 2%nat. read_member 3%nat. read_member 4%nat.
  rewrite !decode_members_skip by (vm_compute; reflexivity). done.
Qed.

(** ** Receipts *)

(** The receipt of a receiver that stored the message it decoded. *)
Definition receipt_text (picture : bool) (m : EventMessage) : bytes :=
  json_Marshal (OObject ([("schemaVersion", OInt (em_SchemaVersion m)); ("eventId", OString (em_EventID m));
                          ("receipt", OString "stored")]
                         ++ if picture then [("attachmentId", OString "Picture")] else []))%list.

Lemma receipt_valid picture m : in_int64 (em_SchemaVersion m) = true ->
  validReceipt (receipt_text picture m) (clean_text (em_EventID m)) (em_SchemaVersion m)
    (if picture then "Picture" else "") = true.
Proof.
  intros Hv. unfold validReceipt, receipt_text. rewrite marshal_parsed by (apply shallow; destruct picture; simpl; lia).
  cbn [as_read]. set (ms := List.map _ _).
  assert (Hn : ms.*1 = receipt_names (if picture then "Picture" else "")) by (by destruct picture).
  assert (Hr : receipt_members (clean_text (em_EventID m)) (em_SchemaVersion m) (if picture then "Picture" else "") [] ms
               = Some (rev ms.*1 ++ [])%list).
  { apply receipt_members_Some. rewrite Hn. split_and!; [by destruct picture; apply (bool_decide_unpack _)|set_solver| |done].
    unfold member_ok, receipt_value, ms.
    destruct picture; repeat constructor; try set_solver; cbn -[clean_text decode_int]; by rewrite ?int_read. }
  rewrite Hr, app_nil_r, length_rev, Hn. by destruct picture.
Qed.

Lemma string_literal_length s : (length (Print.string_literal s) <= 6 * String.length s + 2)%nat.
Proof.
  unfold Print.string_literal. cbn [length]. rewrite length_app. pose proof (escape_length (bytes_of s)) as H.
  rewrite length_bytes_of in H. simpl. lia.
Qed.

(** Receipts are read whole: an event id of up to 640 bytes fits the 4096 bytes the worker reads. *)
Lemma receipt_length picture m :
  em_SchemaVersion m = 1 \/ em_SchemaVersion m = 2 -> (String.length (em_EventID m) <= 640)%nat ->
  (length (receipt_text picture m) <= 4096)%nat.
Proof.
  intros Hv Hid. pose proof (string_literal_length (em_EventID m)) as Hs.
  enough (length (receipt_text picture m) <= length (Print.string_literal (em_EventID m)) + 100)%nat by lia. clear Hid Hs.
  unfold receipt_text, json_Marshal. destruct picture, Hv as [-> | ->]; cbn [app Print.marshal List.map Print.commas fst snd];
    repeat first [rewrite length_app | progress cbn [length]];
    generalize (length (Print.string_literal (em_EventID m))); intros n; vm_compute (length (Print.string_literal _));
    vm_compute (length (bytes_of _)); lia.
Qed.

Section judged.
Context `{CryptoLib} `{HTTPClient}.

(** A body the receiver can acknowledge. *)
Definition acknowledgeable (body : bytes) (m : EventMessage) : Prop :=
  unmarshal_EventMessage body = Some m /\ (em_SchemaVersion m = 1 \/ em_SchemaVersion m = 2) /\
  clean_text (em_EventID m) = em_EventID m /\ (String.length (em_EventID m) <= 640)%nat.

Lemma judge_stored d m : acknowledgeable (ev_Body d) m ->
  judge d {| ir_code := 200; ir_body := receipt_text (ev_Attachment d) m; ir_broken := false |} = (DlvDelivered, 200, "").
Proof.
  intros (Hm & Hv & Hc & Hl). pose proof (receipt_length (ev_Attachment d) m Hv Hl) as Hlen.
  assert (Hi : in_int64 (em_SchemaVersion m) = true) by (by destruct Hv as [-> | ->]).
  unfold judge, read_limited. cbn [ir_code ir_body ir_broken]. rewrite (proj2 (Nat.leb_gt _ _)) by lia.
  cbn [Z.eqb orb Z.leb Z.compare negb]. rewrite (proj2 (Nat.ltb_ge _ _)) by lia. rewrite Hm.
  pose proof (receipt_valid (ev_Attachment d) m Hi) as Hr. rewrite Hc in Hr. by rewrite Hr.
Qed.
End judged.

(** What the store queues can be acknowledged. *)
Lemma queued_acknowledgeable m :
  message_ok m = true -> em_SchemaVersion m = 1 \/ em_SchemaVersion m = 2 ->
  (String.length (clean_text (em_EventID m)) <= 640)%nat ->
  acknowledgeable (json_Marshal (message_json m)) (cleaned m).
Proof.
  intros Hok Hv Hl. split_and!; [by apply message_read|done| |done]. cbn [cleaned em_EventID]. apply clean_text_twice.
Qed.

Lemma attachment_acknowledgeable m :
  am_SchemaVersion m = 1 -> (String.length (clean_text (am_EventID m)) <= 640)%nat ->
  exists source, acknowledgeable (json_Marshal (attachment_message_json m)) source /\ em_EventID source = clean_text (am_EventID m).
Proof.
  intros Hv Hl. eexists. split; [split_and!; [apply attachment_message_read; by rewrite Hv|by left| |]|];
    cbn [em_EventID]; [apply clean_text_twice|done|done].
Qed.

(** The texts of a message are ASCII. *)
Definition message_ascii (m : EventMessage) : Prop :=
  Forall ascii_text ([em_Source m; em_EventID m; em_TerminalSerialNumber m; em_PushSDKSerial m]
    ++ option_list (em_EventState m) ++ option_list (em_EmployeeNumber m) ++ option_list (em_EmployeeName m))%list.

Lemma cleaned_ascii m : message_ascii m -> cleaned m = m.
Proof.
  unfold message_ascii. rewrite !Forall_app. intros (Ht & Hs & Hn & He).
  assert (Ho : forall o, Forall ascii_text (option_list o) -> clean_text <$> o = o).
  { intros [s|]; [|done]. inversion 1; subst. cbn -[clean_text]. by rewrite clean_text_ascii. }
  destruct m. unfold cleaned. cbn -[clean_text] in *. decompose_Forall. rewrite !Ho, !clean_text_ascii by done. done.
Qed.

(** C24: an attendance message survives the wire.  Whatever [json.Marshal] produced for a
    message whose time is in a zone of whole minutes and whose numbers are Go integers, the
    receiver's [json.Unmarshal] reads back as that message: every identifier, number, missing
    value and instant (to the nanosecond, in its zone), with ill-formed UTF-8 replaced by U+FFFD
    and nothing changed in an ASCII message; and the receipt the receiver prints for what it
    decoded is a valid receipt of the message. *)
Theorem message_roundtrip m body :
  message_ok m = true -> marshal_message m = Some body ->
  unmarshal_EventMessage body = Some (cleaned m) /\ (message_ascii m -> cleaned m = m) /\
  validReceipt (receipt_text false (cleaned m)) (em_EventID (cleaned m)) (em_SchemaVersion m) "" = true.
Proof.
  unfold marshal_message. intros Hok. destruct (from_option _ _ _); [|done]. intros [= <-].
  split_and!; [by apply message_read|apply cleaned_ascii|].
  pose proof (receipt_valid false (cleaned m)) as Hr. cbn [cleaned em_EventID em_SchemaVersion] in *.
  rewrite clean_text_twice in Hr. apply Hr. unfold message_ok in Hok. by rewrite !andb_true_iff in Hok; destruct Hok as [[[[]]]].
Qed.
