(* ===== verification/WorkerProofs.v ===== *)
(** The delivery worker drains its queue: with a receiver that stores what it can read,
    everything that is due is settled within the ticks the backlog needs, as delivered when
    its signing key is configured and its destination is a URL, and as failed otherwise.

    The loop is verified against an interface of its queue ([Settling], [SettlingLaws]): which
    rows wait, which are due, and what a claim followed by its settlement does.  The queue of
    attendance events and the queue of pictures implement it. *)

From Stdlib Require Import ZArith Lia Ascii String.
From stdpp Require Import base gmap strings list option relations.
From S2P Require Import Prelude GoText GoTime GoJSON JSONProofs GoHTTP GoURL GoCrypto AccessControl StoreTypes Database.
From S2P Require Import StoreCore Deliveries Worker Attachments DeliveryProofs MessageProofs.

Local Open Scope string_scope.
Local Open Scope Z_scope.

(** ** The interface *)

(** What can be sent at all: the key is configured and the destination is a URL. *)
Definition deliverable `{HTTPClient} (keys : gmap string string) (key url : string) : bool :=
  bool_decide (is_Some (keys !! key)) && http_NewRequest_ok url.

(** How an attempt ends when the receiver stores what it can read. *)
Definition outcome_of (hope : bool) : DeliveryStatus := if hope then DlvDelivered else DlvFailed.

(** The rows of a queue: the ones not settled, the due ones, the ones in a status, and the
    ones with a key and a destination. *)
Class Settling (Q : DeliveryQueue) := {
  sq_picture : bool;
  sq_now : q_ctx -> time;
  waiting : q_st -> gset Z;
  due : time -> q_st -> gset Z;
  ended : DeliveryStatus -> q_st -> gset Z;
  hopeful : q_st -> gset Z;
  ready : q_st -> Prop;                                       (* what waits has a message that can be acknowledged *)
  settled : Z -> DeliveryStatus -> q_st -> q_st -> Prop       (* this row was settled, and nothing else changed *)
}.

Definition final (status : DeliveryStatus) : Prop := status = DlvDelivered \/ status = DlvFailed.

Class SettlingLaws `{HTTPClient} (keys : gmap string string) (Q : DeliveryQueue) `{!Settling Q} := {
  due_waiting t s : due t s ⊆ waiting s;
  due_later t t' s : t <= t' -> due t s ⊆ due t' s;
  ended_waiting status s : final status -> ended status s ## waiting s;
  claim_settles c s : ready s ->
    claim_delivery c s = Ok (None, s) /\ due (sq_now c) s = ∅ \/
    exists e s1, claim_delivery c s = Ok (Some e, s1) /\ ev_ID e ∈ waiting s /\ ev_Attachment e = sq_picture /\
      (exists m, acknowledgeable (ev_Body e) m) /\
      bool_decide (ev_ID e ∈ hopeful s) = deliverable keys (ev_SigningKeyID e) (ev_EndpointURL e) /\
      forall status code failure c' next, final status ->
        exists s2, finish_delivery e status code failure next c' s1 = Ok (tt, s2) /\ settled (ev_ID e) status s s2;
  settled_ready id status s s' : settled id status s s' -> ready s -> ready s';
  settled_waiting id status s s' : settled id status s s' -> waiting s' = waiting s ∖ {[id]};
  settled_due t id status s s' : settled id status s s' -> due t s' = due t s ∖ {[id]};
  settled_hopeful id status s s' : settled id status s s' -> hopeful s' = hopeful s;
  settled_ended id status s s' : settled id status s s' -> ended status s' = ended status s ∪ {[id]};
  settled_others id status status' s s' : settled id status s s' -> status' <> status ->
    ended status' s' = ended status' s ∖ {[id]}
}.

(** ** Draining *)
Section draining.
Context `{CryptoLib} `{HTTPClient} (keys : gmap string string).
Context (Q : DeliveryQueue) `{!Settling Q} `{!SettlingLaws keys Q}.
Context (env : WorkerEnv (H := Q)) (t0 : time).

(** The receiver stores every message it can decode, and says so. *)
Context (Hreceiver : forall n request m, unmarshal_EventMessage (og_body request) = Some m ->
  client_Do n request = Some {| ir_code := 200; ir_body := receipt_text sq_picture m; ir_broken := false |}).
(** The database answers, the run is not cancelled, and the clock of the database is past [t0]. *)
Context (Hup : forall n, we_fault env n = false) (Hreply : forall n, we_lost env n = false)
        (Hrun : forall n, we_cancelled env n = false) (Hclock : forall n, t0 <= sq_now (we_ctx env n)).

(** What becomes of a row. *)
Definition fate (id : Z) (s : q_st) : DeliveryStatus := outcome_of (bool_decide (id ∈ hopeful s)).
Definition settles (s s' : q_st) : Prop := exists id, id ∈ waiting s /\ settled id (fate id s) s s'.

Lemma fate_final id s : final (fate id s).
Proof using. unfold fate, outcome_of, final. destruct (bool_decide _); auto. Qed.

Lemma send_outcome d unix n :
  ev_Attachment d = sq_picture -> (exists m, acknowledgeable (ev_Body d) m) ->
  (send keys d unix n).1.1 = outcome_of (deliverable keys (ev_SigningKeyID d) (ev_EndpointURL d)).
Proof using Hreceiver.
  intros Hatt (m & Hm). unfold send, deliverable. destruct (keys !! ev_SigningKeyID d) as [key|]; [|done].
  destruct (http_NewRequest_ok _); cbn [negb]; [|done].
  rewrite (Hreceiver n _ m) by apply Hm. pose proof (judge_stored d m Hm) as Hj. rewrite Hatt in Hj. by rewrite Hj.
Qed.

(** A tick settles as many rows as its budget, or leaves none that was due at [t0]. *)
Lemma drain_settles budget (w : WorkerState (H := Q)) : ready (ws_queue w) ->
  let s := ws_queue w in let '(stopped, w') := drain keys env budget w in let s' := ws_queue w' in
  stopped = false /\ ready s' /\ rtc settles s s' /\
  ((size (waiting s') + budget <= size (waiting s))%nat \/ due t0 s' = ∅).
Proof using All.
  revert w. induction budget as [|budget IH]; intros w Hs; cbn [drain].
  { split_and!; [done..|]. left. lia. }
  unfold queue_call at 1. rewrite Hup.
  destruct (claim_settles (we_ctx env (ws_calls w)) (ws_queue w) Hs)
    as [[Hc Hnone]|(e & s1 & Hc & Hid & Hatt & Hack & Hhope & Hfin)]; rewrite Hc, Hreply; cbn [ws_queue].
  { split_and!; [done..|]. right. pose proof (due_later _ _ (ws_queue w) (Hclock (ws_calls w))). set_solver. }
  unfold deliver. cbn [ws_clock ws_exchanges].
  pose proof (send_outcome e (Unix (we_now env (ws_clock w))) (ws_exchanges w) Hatt Hack) as Hout.
  rewrite <- Hhope in Hout. fold (fate (ev_ID e) (ws_queue w)) in Hout.
  destruct (send keys e _ _) as [[status code] failure]. cbn [fst] in Hout. subst status.
  unfold queue_call. cbn [ws_calls ws_queue ws_checks]. rewrite Hup, Hreply. set (next := _ + _).
  destruct (Hfin _ code failure (we_ctx env (S (ws_calls w))) next (fate_final (ev_ID e) (ws_queue w))) as (s2 & Hf & Hset).
  rewrite Hf. cbn [snd ws_checks ws_queue ws_calls ws_clock ws_exchanges]. rewrite Hrun. set (w2 := mkWorkerState _ _ _ _ _ _).
  specialize (IH w2). change (ws_queue w2) with s2 in IH. specialize (IH (settled_ready _ _ _ _ Hset Hs)).
  destruct (drain keys env budget w2) as [stopped w']. destruct IH as (Hst & Hr & Hsteps & Hend).
  split_and!; [done|done|by eapply rtc_l; [exists (ev_ID e)|]|]. destruct Hend as [Hend|]; [left|by right].
  rewrite (settled_waiting _ _ _ _ Hset), size_difference in Hend by set_solver. rewrite size_singleton in Hend.
  assert (0 < size (waiting (ws_queue w)))%nat; [|lia]. destruct (decide (size (waiting (ws_queue w)) = 0%nat)) as [E|]; [|lia].
  apply size_empty_inv in E. set_solver.
Qed.

(** A row that ended stays, and one that was due is still due or met its fate. *)
Lemma settles_ends t s s' : rtc settles s s' ->
  due t s' ⊆ due t s /\ (forall status, final status -> ended status s ⊆ ended status s') /\
  forall id, id ∈ due t s -> id ∈ due t s' \/ id ∈ ended (fate id s) s'.
Proof using All.
  induction 1 as [s|s s1 s' (id & Hw & Hset) _ (H1 & H2 & H3)]; [set_solver|].
  pose proof (settled_due t _ _ _ _ Hset) as Hd. rewrite Hd in H1, H3. split_and!; [set_solver|..].
  - intros status Hf. etrans; [|by apply H2]. destruct (decide (status = fate id s)) as [->|Hne].
    + rewrite (settled_ended _ _ _ _ Hset). set_solver.
    + rewrite (settled_others _ _ _ _ _ Hset Hne). pose proof (ended_waiting status s Hf). set_solver.
  - intros x Hx. destruct (decide (x = id)) as [->|Hne].
    + right. apply H2; [apply fate_final|]. rewrite (settled_ended _ _ _ _ Hset). set_solver.
    + specialize (H3 x). unfold fate in *. rewrite (settled_hopeful _ _ _ _ Hset) in H3. set_solver.
Qed.

Lemma run_settles k (w : WorkerState (H := Q)) :
  ready (ws_queue w) -> (size (waiting (ws_queue w)) <= 25 * k)%nat \/ due t0 (ws_queue w) = ∅ ->
  rtc settles (ws_queue w) (ws_queue (Run keys env k w)) /\ due t0 (ws_queue (Run keys env k w)) = ∅.
Proof using All.
  revert w. induction k as [|k IH]; intros w Hs Hsize; cbn [Run].
  { split; [done|]. destruct Hsize as [Hsize|]; [|done]. pose proof (due_waiting t0 (ws_queue w)) as Hd.
    assert (size (waiting (ws_queue w)) = 0%nat) as E%size_empty_inv by lia. set_solver. }
  pose proof (drain_settles 25 w Hs) as Hd. unfold tick. destruct (drain keys env 25 w) as [stopped w'].
  destruct Hd as (-> & Hr & Hset & Hend). destruct (IH w' Hr) as [Hset' Hq].
  - destruct Hend as [Hend|Hend]; [|by right]. destruct Hsize as [Hsize|Hq]; [left; lia|right].
    destruct (settles_ends t0 _ _ Hset) as (Hsub & _). set_solver.
  - split; [by etrans|done].
Qed.

(** Everything due when the ticks start meets its fate, by settlements alone. *)
Lemma due_ends k (w : WorkerState (H := Q)) :
  ready (ws_queue w) -> (size (waiting (ws_queue w)) <= 25 * k)%nat ->
  rtc settles (ws_queue w) (ws_queue (Run keys env k w)) /\
  forall id, id ∈ due t0 (ws_queue w) -> id ∈ ended (fate id (ws_queue w)) (ws_queue (Run keys env k w)).
Proof using All.
  intros Hs Hk. destruct (run_settles k w Hs (or_introl Hk)) as [Hset Hq]. split; [done|].
  intros id Hid. destruct (settles_ends t0 _ _ Hset) as (_ & _ & H3). destruct (H3 id Hid); set_solver.
Qed.
End draining.

(** ** Sets of rows *)
Definition ids_where {A} (p : A -> bool) (m : gmap Z A) : gset Z := dom (filter (fun kv => p kv.2 = true) m).

Lemma elem_of_ids {A} (p : A -> bool) (m : gmap Z A) id : id ∈ ids_where p m <-> exists a, m !! id = Some a /\ p a = true.
Proof.
  unfold ids_where. rewrite elem_of_dom. split.
  - intros [a Ha]. apply map_lookup_filter_Some in Ha as [? ?]. eauto.
  - intros (a & Ha & Hp). exists a. by apply map_lookup_filter_Some.
Qed.

Lemma ids_removed {A} (p : A -> bool) (m : gmap Z A) id a : p a = false -> ids_where p (<[id := a]> m) = ids_where p m ∖ {[id]}.
Proof.
  intros Hp. apply set_eq. intros i. rewrite elem_of_difference, !elem_of_ids, elem_of_singleton.
  destruct (decide (i = id)) as [->|Hne]; [rewrite lookup_insert_eq|rewrite lookup_insert_ne by done]; naive_solver congruence.
Qed.

Lemma ids_added {A} (p : A -> bool) (m : gmap Z A) id a : p a = true -> ids_where p (<[id := a]> m) = ids_where p m ∪ {[id]}.
Proof.
  intros Hp. apply set_eq. intros i. rewrite elem_of_union, !elem_of_ids, elem_of_singleton.
  destruct (decide (i = id)) as [->|Hne]; [rewrite lookup_insert_eq|rewrite lookup_insert_ne by done]; naive_solver congruence.
Qed.

Lemma ids_same {A} (p : A -> bool) (m : gmap Z A) id a a' :
  m !! id = Some a -> p a' = p a -> ids_where p (<[id := a']> m) = ids_where p m.
Proof.
  intros Ha Hp. apply set_eq. intros i. rewrite !elem_of_ids.
  destruct (decide (i = id)) as [->|Hne]; [rewrite lookup_insert_eq|by rewrite lookup_insert_ne by done].
  rewrite Ha. naive_solver congruence.
Qed.

Lemma claimable_later t now q : t <= now -> claimable t q = true -> claimable now q = true.
Proof.
  intros Ht. unfold claimable. destruct (qr_status q); [|destruct (qr_lease_until q)|..]; try done;
    rewrite !Z.leb_le; lia.
Qed.

Lemma claimable_unfinished t q : claimable t q = true -> unfinished q = true.
Proof. unfold claimable, unfinished. by destruct (qr_status q). Qed.

Definition in_status (status : DeliveryStatus) (q : QueueRow) : bool := bool_decide (qr_status q = status).

Lemma final_finished q : final (qr_status q) -> unfinished q = false /\ forall t, claimable t q = false.
Proof. unfold unfinished, claimable, final. by destruct (qr_status q); intros [|]. Qed.

Lemma final_unfinished status q : final status -> in_status status q = true -> unfinished q = true -> False.
Proof.
  intros Hf Hs%bool_decide_eq_true Hu. destruct (final_finished q) as [E _]; congruence.
Qed.

(** ** The queue of attendance events *)
Section events.
Context `{CryptoLib} `{HTTPClient} (keys : gmap string string).

Definition event_due (t : time) (d : DB) (r : DeliveryRow) : bool :=
  route_enabled d (dr_terminal_serial_number r) && claimable t (dr_queue r).

(** Its key is configured and its destination is a URL. *)
Definition event_deliverable (r : DeliveryRow) : bool := deliverable keys (dr_signing_key_id r) (dr_endpoint_url r).

(** One row was settled: its message and its destination are as they were. *)
Definition event_settled (id : Z) (status : DeliveryStatus) (d d' : DB) : Prop := exists r q,
  final status /\ db_deliveries d !! id = Some r /\ qr_status q = status /\
  d' = on_deliveries <[id := with_queue r q]> d.

(** The message of every delivery that is not settled decodes and its receipt fits. *)
Definition event_ready (d : DB) : Prop := forall id r, db_deliveries d !! id = Some r -> unfinished (dr_queue r) = true ->
  exists m, acknowledgeable (dr_request_body r) m.

#[local] Instance event_settling : Settling event_queue := {|
  sq_picture := false;
  sq_now := cx_now;
  waiting := fun d => ids_where (fun r => unfinished (dr_queue r)) (db_deliveries d);
  due := fun t d => ids_where (event_due t d) (db_deliveries d);
  ended := fun status d => ids_where (fun r => in_status status (dr_queue r)) (db_deliveries d);
  hopeful := fun d => ids_where event_deliverable (db_deliveries d);
  ready := event_ready;
  settled := event_settled
|}.

Lemma hopeful_row {A} (p : A -> bool) (m : gmap Z A) id a : m !! id = Some a -> bool_decide (id ∈ ids_where p m) = p a.
Proof using.
  intros Ha. destruct (p a) eqn:Hp; [apply bool_decide_eq_true|apply bool_decide_eq_false]; rewrite elem_of_ids;
    naive_solver congruence.
Qed.

Lemma claim_event_settles c d : event_ready d ->
  ClaimEventDelivery c d = Ok (None, d) /\ ids_where (event_due (cx_now c) d) (db_deliveries d) = ∅ \/
  exists e d1, ClaimEventDelivery c d = Ok (Some e, d1) /\
    ev_ID e ∈ ids_where (fun r => unfinished (dr_queue r)) (db_deliveries d) /\ ev_Attachment e = false /\
    (exists m, acknowledgeable (ev_Body e) m) /\
    bool_decide (ev_ID e ∈ ids_where event_deliverable (db_deliveries d)) =
      deliverable keys (ev_SigningKeyID e) (ev_EndpointURL e) /\
    forall status code failure c' next, final status ->
      exists d2, FinishEventDelivery e status code failure next c' d1 = Ok (tt, d2) /\ event_settled (ev_ID e) status d d2.
Proof using.
  intros Hready.
  assert (Hsel : forall id r, (id, r) ∈ claim_candidates d (cx_now c) <-> db_deliveries d !! id = Some r /\ event_due (cx_now c) d r = true).
  { intros id r. unfold claim_candidates, event_due. by rewrite elem_of_order_by, elem_of_select. }
  unfold ClaimEventDelivery, ClaimEventDelivery_tx. unfold run at 1 2, mbind, Tx_bind, sql_now, tx_ctx, db_get, tx_gets. cbn [tx_db].
  destruct (claim_candidates d (cx_now c)) as [|[id r] l] eqn:E; [left|right].
  - split; [done|]. apply set_eq. intros id. rewrite elem_of_ids. split; [|set_solver]. intros (r & Hr & Hd).
    assert (Hin : (id, r) ∈ ([] : list (Z * DeliveryRow))) by (by apply Hsel). set_solver.
  - assert (Hin : (id, r) ∈ (id, r) :: l) by set_solver. apply Hsel in Hin as [Hr Hd].
    apply andb_true_iff in Hd as [_ Hd%claimable_unfinished].
    eexists (Build_EventDelivery _ id _ _ _ _ _ _ _ _ _ _ _ _ _ _), _. split; [done|].
    cbn [ev_ID ev_Attachment ev_Body ev_SigningKeyID ev_EndpointURL].
    split; [apply elem_of_ids; eauto|]. split; [done|]. split; [by apply (Hready id r)|].
    split; [by rewrite (hopeful_row _ _ _ _ Hr)|]. intros status code failure c' next Hfinal.
    unfold FinishEventDelivery, FinishEventDelivery_tx, run, mbind, Tx_bind, sql_now, tx_ctx, db_get, tx_gets.
    cbn [tx_db on_deliveries db_deliveries ev_ID]. rewrite lookup_insert_eq. unfold owned. cbn. rewrite Z.eqb_refl. cbn.
    eexists. split; [done|]. exists r. eexists. split; [done|]. split; [done|].
    split; [|unfold on_deliveries; cbn; by rewrite insert_insert_eq]. done.
Qed.

#[local] Instance event_settling_laws : SettlingLaws keys event_queue.
Proof using.
  split.
  - intros t d id (r & Hr & [_ Hc%claimable_unfinished]%andb_true_iff)%elem_of_ids. apply elem_of_ids. eauto.
  - intros t t' d Ht id (r & Hr & [He Hc]%andb_true_iff)%elem_of_ids. apply elem_of_ids. exists r. split; [done|].
    apply andb_true_iff. split; [done|by eapply claimable_later].
  - intros status d Hf id (r & Hr & Hs)%elem_of_ids (r' & Hr' & Hu)%elem_of_ids. assert (r' = r) as -> by congruence.
    by eapply final_unfinished.
  - apply claim_event_settles.
  - intros id status d d' (r & q & Hf & Hr & <- & ->) Hready i x. cbn. apply final_finished in Hf as [Hu _].
    intros [[<- <-]|[_ Hx]]%lookup_insert_Some Hx'; [cbn in Hx'; congruence|by apply (Hready i)].
  - intros id status d d' (r & q & Hf & Hr & <- & ->). apply final_finished in Hf as [Hu _]. by apply ids_removed.
  - intros t id status d d' (r & q & Hf & Hr & <- & ->). apply final_finished in Hf as [_ Hc]. apply ids_removed.
    unfold event_due. cbn. by rewrite Hc, andb_false_r.
  - intros id status d d' (r & q & Hf & Hr & <- & ->). cbn. by eapply ids_same.
  - intros id status d d' (r & q & Hf & Hr & <- & ->). apply ids_added. by apply bool_decide_eq_true.
  - intros id status status' d d' (r & q & Hf & Hr & <- & ->) Hne. apply ids_removed. by apply bool_decide_eq_false.
Qed.

(** Settling changes the queue columns alone. *)
Lemma event_kept id d d' r : rtc (settles event_queue) d d' -> db_deliveries d !! id = Some r ->
  exists r', db_deliveries d' !! id = Some r' /\ with_queue r' (dr_queue r) = r.
Proof using.
  intros Hsteps. revert r. induction Hsteps as [d|d d1 d' (i & _ & x & q & _ & Hx & _ & ->) _ IH]; intros r Hr.
  { exists r. split; [done|by destruct r]. }
  destruct (decide (i = id)) as [->|Hne].
  - rewrite Hr in Hx. injection Hx as <-. destruct (IH (with_queue r q)) as (r' & Hr' & E); [cbn; by rewrite lookup_insert_eq|].
    exists r'. split; [done|]. destruct r, r'. unfold with_queue in *. cbn in *. congruence.
  - apply IH. cbn. by rewrite lookup_insert_ne.
Qed.

(** C29: the worker drains its queue.  While the database answers, the run is not cancelled
    and the receiver stores every message it can decode, [k] ticks of [Run] settle every
    delivery that is due when they start, with its message and destination as they were
    queued: as delivered when its signing key is configured and its destination is a URL
    [net/http] accepts, as failed otherwise.  Provided 25 k covers the deliveries that are
    not settled, and the message of each of these decodes and has an identifier of at most
    640 bytes ([event_ready]); no delivery is starved, not even by ones that come due
    meanwhile or cannot be sent. *)
Theorem due_deliveries_delivered (env : WorkerEnv) t0 k (w : WorkerState) id r :
  (forall n request m, unmarshal_EventMessage (og_body request) = Some m ->
     client_Do n request = Some {| ir_code := 200; ir_body := receipt_text false m; ir_broken := false |}) ->
  (forall n, we_fault env n = false) -> (forall n, we_lost env n = false) -> (forall n, we_cancelled env n = false) ->
  (forall n, t0 <= cx_now (we_ctx env n)) ->
  event_ready (ws_queue w) ->
  (size (ids_where (fun r => unfinished (dr_queue r)) (db_deliveries (ws_queue w))) <= 25 * k)%nat ->
  db_deliveries (ws_queue w) !! id = Some r -> event_due t0 (ws_queue w) r = true ->
  exists r', db_deliveries (ws_queue (Run keys env k w)) !! id = Some r' /\ with_queue r' (dr_queue r) = r /\
    qr_status (dr_queue r') =
      if bool_decide (is_Some (keys !! dr_signing_key_id r)) && http_NewRequest_ok (dr_endpoint_url r)
      then DlvDelivered else DlvFailed.
Proof using.
  intros Hreceiver Hup Hreply Hrun Hclock Hready Hk Hr Hd.
  destruct (@due_ends _ _ keys event_queue event_settling event_settling_laws env t0 Hreceiver Hup Hreply Hrun Hclock k w Hready Hk) as [Hsteps Hdue].
  destruct (event_kept id _ _ r Hsteps Hr) as (r' & Hr' & E). exists r'. split; [done|]. split; [done|].
  assert (Hin : id ∈ due t0 (ws_queue w)) by (apply elem_of_ids; eauto).
  apply Hdue, elem_of_ids in Hin as (x & Hx & Hs%bool_decide_eq_true). assert (x = r') as -> by congruence.
  rewrite Hs. unfold fate. cbn [hopeful event_settling]. by rewrite (hopeful_row _ _ _ _ Hr).
Qed.
End events.

(** ** The queue of pictures *)
Section pictures.
Context `{GoParsers} `{CryptoLib} `{HTTPClient} (keys : gmap string string).

Definition picture_due (t : time) (d : DB) (a : AttachmentRow) : bool :=
  match parent_delivered d a with
  | Some parent => route_enabled d (dr_terminal_serial_number parent) && claimable t (ar_queue a)
  | None => false
  end.

(** The message of a picture, from its event and, for an event of the PushSDK, the archived
    payload of that event. *)
Definition picture_message (d : DB) (parent : DeliveryRow) : option AttachmentMessage :=
  event ← unmarshal_EventMessage (dr_request_body parent);
  if bool_decide (em_SchemaVersion event = 1 \/ em_Source event = "pushsdk") then
    '(e, payload) ← archived_payload d parent;
    payload ← payload;
    Some (attachment_message event (DeliveryPicture (de_data_format e) payload))
  else Some (attachment_message event (None, "not_provided", None)).

(** The body of a picture is stored and can be acknowledged, or can be built. *)
Definition picture_buildable (d : DB) (parent : DeliveryRow) : Prop := exists event,
  unmarshal_EventMessage (dr_request_body parent) = Some event /\
  (String.length (clean_text (em_EventID event)) <= 640)%nat /\ is_Some (picture_message d parent).

(** Of every picture that is not settled and whose event was delivered: the destination of the
    event parses, and the message decodes or can be built, and its receipt fits. *)
Definition picture_ready (d : DB) : Prop := forall id a parent,
  db_attachments d !! id = Some a -> unfinished (ar_queue a) = true -> parent_delivered d a = Some parent ->
  is_Some (NetURL.Parse (dr_endpoint_url parent)) /\
  match ar_request_body a with
  | Some body => exists m, acknowledgeable body m
  | None => picture_buildable d parent
  end.

(** The key of its event is configured and the destination for its pictures is a URL. *)
Definition picture_deliverable (d : DB) (a : AttachmentRow) : bool :=
  match parent_delivered d a with
  | Some parent =>
      match NetURL.Parse (dr_endpoint_url parent) with
      | Some endpoint => deliverable keys (dr_signing_key_id parent) (NetURL.String_ (attachment_endpoint endpoint))
      | None => false
      end
  | None => false
  end.

(** The body a picture is sent with: the one it had, or the one built from its event. *)
Definition picture_body (d : DB) (a : AttachmentRow) (body : bytes) : Prop :=
  match ar_request_body a with
  | Some b => body = b
  | None => exists parent m, parent_delivered d a = Some parent /\ picture_message d parent = Some m /\
      body = json_Marshal (attachment_message_json m)
  end.

(** One picture was settled. *)
Definition picture_settled (id : Z) (status : DeliveryStatus) (d d' : DB) : Prop := exists a a' body q,
  final status /\ db_attachments d !! id = Some a /\ has_body a body a' /\ picture_body d a body /\ qr_status q = status /\
  d' = on_attachments <[id := with_attachment_queue a' q]> d.

#[local] Instance picture_settling : Settling attachment_queue :=
  Build_Settling attachment_queue true cx_now
    (fun d => ids_where (fun a => unfinished (ar_queue a)) (db_attachments d))
    (fun t d => ids_where (picture_due t d) (db_attachments d))
    (fun status d => ids_where (fun a => in_status status (ar_queue a)) (db_attachments d))
    (fun d => ids_where (picture_deliverable d) (db_attachments d))
    picture_ready picture_settled.

Lemma availability_known format payload : availability_check (DeliveryPicture format payload).1.2 = true.
Proof using.
  assert (Hc : forall count raw, availability_check (classify_picture count raw).1.2 = true).
  { intros count raw. unfold classify_picture. by repeat case_match. }
  assert (Hr : forall parts raw r, picture_raw raw parts = inl r -> availability_check r.1.2 = true).
  { induction parts as [|p parts IH]; intros raw r; cbn [picture_raw]; [done|]. destruct (negb _); [apply IH|].
    destruct (_ || bool_decide _); [by intros [= <-]|apply IH]. }
  unfold DeliveryPicture. destruct (Extract format payload) as [p|]; [|done]. cbv beta zeta.
  match goal with |- context [if ?b then unavailable _ else _] => destruct b end; [done|].
  destruct (bool_decide _); [|apply Hc]. destruct (_ ≫= _) as [parts|]; [|done].
  destruct (picture_raw None parts) as [r|[[|]|]] eqn:E; [by eapply Hr|done|apply Hc..].
Qed.

(** The message of a picture is built, and can be acknowledged. *)
Lemma build_message_Ok parent c s : picture_buildable (tx_db s) parent ->
  exists m, picture_message (tx_db s) parent = Some m /\ build_message parent c s = Ok (m, s) /\
    availability_check (am_Availability m) = true /\
    exists source, acknowledgeable (json_Marshal (attachment_message_json m)) source.
Proof using.
  intros (event & Hevent & Hlen & m & Hm). exists m. split; [done|]. unfold build_message, picture_message in *.
  rewrite Hevent in *. cbn [mbind option_bind] in Hm.
  assert (Hack : forall p, exists source, acknowledgeable (json_Marshal (attachment_message_json (attachment_message event p))) source).
  { intros [[? ?] ?]. destruct (attachment_acknowledgeable (attachment_message event (o, s0, o0))) as (source & ? & _); [done|done|].
    by exists source. }
  assert (bool_decide ((if em_SchemaVersion event =? 1 then "pushsdk" else em_Source event) = "pushsdk") =
          bool_decide (em_SchemaVersion event = 1 \/ em_Source event = "pushsdk")) as ->.
  { apply bool_decide_ext. destruct (Z.eqb_spec (em_SchemaVersion event) 1); naive_solver. }
  destruct (bool_decide _).
  - unfold mbind at 1, Tx_bind, db_get, tx_gets. destruct (archived_payload _ _) as [[e [payload|]]|]; try done.
    apply (inj Some) in Hm. subst m. split; [reflexivity|]. split; [|apply Hack].
    pose proof (availability_known (de_data_format e) payload) as Ha. by destruct (DeliveryPicture _ _) as [[? ?] ?].
  - apply (inj Some) in Hm. subst m. split; [reflexivity|]. split; [reflexivity|apply Hack].
Qed.

Lemma attachment_body_ready id a parent c s :
  parent_delivered (tx_db s) a = Some parent ->
  match ar_request_body a with
  | Some body => exists m, acknowledgeable body m
  | None => picture_buildable (tx_db s) parent
  end -> exists body s', attachment_body id a parent c s = Ok (body, s') /\ picture_body (tx_db s) a body /\
    exists m, acknowledgeable body m.
Proof using.
  intros Hp. unfold attachment_body, picture_body. destruct (ar_request_body a) as [body|]; [intros Hm; by exists body, s|].
  intros (m & Hbuilt & Hm & Ha & Hack)%(build_message_Ok _ c). unfold mbind at 1, Tx_bind at 1. rewrite Hm. unfold constraint. rewrite Ha.
  eexists _, _. split; [done|]. split; [by exists parent, m|done].
Qed.

Lemma claim_picture_settles c d : picture_ready d ->
  ClaimAttachment c d = Ok (None, d) /\ ids_where (picture_due (cx_now c) d) (db_attachments d) = ∅ \/
  exists e d1, ClaimAttachment c d = Ok (Some e, d1) /\
    ev_ID e ∈ ids_where (fun a => unfinished (ar_queue a)) (db_attachments d) /\ ev_Attachment e = true /\
    (exists m, acknowledgeable (ev_Body e) m) /\
    bool_decide (ev_ID e ∈ ids_where (picture_deliverable d) (db_attachments d)) =
      deliverable keys (ev_SigningKeyID e) (ev_EndpointURL e) /\
    forall status code failure c' next, final status ->
      exists d2, FinishAttachment e status code failure next c' d1 = Ok (tt, d2) /\ picture_settled (ev_ID e) status d d2.
Proof using.
  intros Hready.
  assert (Hsel : forall id a, (id, a) ∈ attachment_candidates d (cx_now c) <->
    db_attachments d !! id = Some a /\ picture_due (cx_now c) d a = true).
  { intros id a. unfold attachment_candidates, picture_due. by rewrite elem_of_order_by, elem_of_select. }
  unfold ClaimAttachment, ClaimAttachment_tx. unfold run at 1 2.
  rewrite (tx_bind_step sql_now _ _ _ (cx_now c) _ eq_refl), (tx_bind_step (db_get _) _ _ _ _ _ eq_refl). cbn [tx_db].
  destruct (attachment_candidates d (cx_now c)) as [|[id a] l] eqn:E; [left|right].
  - split; [done|]. apply set_eq. intros id. rewrite elem_of_ids. split; [|set_solver]. intros (a & Ha & Hd).
    assert (Hin : (id, a) ∈ ([] : list (Z * AttachmentRow))) by (by apply Hsel). set_solver.
  - assert (Hin : (id, a) ∈ (id, a) :: l) by set_solver. apply Hsel in Hin as [Ha Hd]. unfold picture_due in Hd.
    destruct (parent_delivered d a) as [parent|] eqn:Hp; [|done]. apply andb_true_iff in Hd as [_ Hd%claimable_unfinished].
    destruct (Hready id a parent Ha Hd Hp) as ([endpoint Hurl] & Hbody).
    rewrite (tx_bind_step (db_get _) _ _ _ _ _ eq_refl). cbn [tx_db]. rewrite Hp, Hurl.
    destruct (attachment_body_ready id a parent c (mkTxState d 0 0) Hp Hbody) as (body & s1 & Hb & Hpb & Hm).
    rewrite (tx_bind_step _ _ _ _ _ _ Hb), (tx_bind_step (db_set _) _ _ _ _ _ eq_refl).
    destruct (attachment_body_Ok id a parent c _ body s1 Hb Ha) as (a' & Ha' & Hdb).
    eexists (picture_delivery id a parent endpoint body), _. split; [done|].
    cbn [picture_delivery ev_ID ev_Attachment ev_Body ev_SigningKeyID ev_EndpointURL].
    split; [apply elem_of_ids; eauto|]. split; [done|]. split; [done|].
    split; [rewrite (hopeful_row _ _ _ _ Ha); unfold picture_deliverable; by rewrite Hp, Hurl|].
    intros status code failure c' next Hfinal.
    unfold FinishAttachment, FinishAttachment_tx, run, mbind, Tx_bind, sql_now, tx_ctx, db_get, tx_gets.
    cbn [tx_db on_attachments db_attachments picture_delivery ev_ID].
    rewrite Hdb. cbn [tx_db on_attachments db_attachments]. rewrite alter_insert_eq, lookup_insert_eq. unfold owned.
    cbn [with_attachment_queue ar_queue claimed qr_attempts qr_status picture_delivery ev_Attempts].
    destruct (proj1 (proj2 (proj2 Ha'))). rewrite Z.eqb_refl, bool_decide_true by done. cbn [andb].
    eexists. split; [done|]. exists a, a', body, (finished (cx_now c') status code failure next (claimed (cx_now c) (ar_queue a'))).
    split_and!; [done..|].
    unfold on_attachments. cbn. by rewrite alter_insert_eq, insert_insert_eq.
Qed.

(** The event of a picture stays the one it is. *)
Lemma deliverable_kept d a body a' q :
  has_body a body a' -> picture_deliverable d (with_attachment_queue a' q) = picture_deliverable d a.
Proof using. intros (H2 & _). unfold picture_deliverable, parent_delivered. cbn. by rewrite H2. Qed.

#[local] Instance picture_settling_laws : SettlingLaws keys attachment_queue.
Proof using.
  split.
  - intros t d id (a & Ha & Hd)%elem_of_ids. apply elem_of_ids. exists a. split; [done|]. unfold picture_due in Hd.
    destruct (parent_delivered d a); [|done]. by apply andb_true_iff in Hd as [_ ?%claimable_unfinished].
  - intros t t' d Ht id (a & Ha & Hd)%elem_of_ids. apply elem_of_ids. exists a. split; [done|]. unfold picture_due in *.
    destruct (parent_delivered d a); [|done]. apply andb_true_iff in Hd as [He Hc]. apply andb_true_iff.
    split; [done|by eapply claimable_later].
  - intros status d Hf id (a & Ha & Hs)%elem_of_ids (a2 & Ha2 & Hu)%elem_of_ids. assert (a2 = a) as -> by congruence.
    by eapply final_unfinished.
  - apply claim_picture_settles.
  - intros id status d d' (a & a' & body & q & Hf & Ha & _ & _ & <- & ->) Hready i x parent. cbn.
    apply final_finished in Hf as [Hu _].
    intros [[<- <-]|[_ Hx]]%lookup_insert_Some Hx'; [cbn in Hx'; congruence|by apply (Hready i)].
  - intros id status d d' (a & a' & body & q & Hf & Ha & _ & _ & <- & ->). apply final_finished in Hf as [Hu _].
    by apply ids_removed.
  - intros t id status d d' (a & a' & body & q & Hf & Ha & _ & _ & <- & ->). apply final_finished in Hf as [_ Hc].
    apply (ids_removed (picture_due t d)). unfold picture_due. cbn. rewrite Hc. case_match; [by rewrite andb_false_r|done].
  - intros id status d d' (a & a' & body & q & Hf & Ha & Hb & _ & <- & ->).
    apply (ids_same (picture_deliverable d) _ id a); [done|]. by eapply deliverable_kept.
  - intros id status d d' (a & a' & body & q & Hf & Ha & _ & _ & <- & ->). apply ids_added. by apply bool_decide_eq_true.
  - intros id status status' d d' (a & a' & body & q & Hf & Ha & _ & _ & <- & ->) Hne. apply ids_removed.
    by apply bool_decide_eq_false.
Qed.

(** Settling leaves the event of a picture and a stored body, and a settled picture has the
    body it is to be sent with. *)
Definition picture_kept (d : DB) (a a' : AttachmentRow) : Prop :=
  ar_event_delivery_id a' = ar_event_delivery_id a /\
  (is_Some (ar_request_body a) -> with_attachment_queue a' (ar_queue a) = a) /\
  (a' = a \/ exists body, ar_request_body a' = Some body /\ picture_body d a body).

Lemma pictures_kept id d d' a : rtc (settles attachment_queue) d d' -> db_attachments d !! id = Some a ->
  exists a', db_attachments d' !! id = Some a' /\ picture_kept d a a'.
Proof using.
  intros Hsteps. revert a.
  induction Hsteps as [d|d d1 d' (i & _ & x & x' & body & q & _ & Hx & (H2 & H3 & _ & H4) & Hpb & Hq & ->) _ IH]; intros a Ha.
  { exists a. split; [done|]. split_and!; [done|by destruct a|by left]. }
  destruct (decide (i = id)) as [->|Hne].
  - rewrite Ha in Hx. injection Hx as <-. destruct (IH (with_attachment_queue x' q)) as (a' & Ha' & E1 & E2 & E3).
    { cbn. by rewrite lookup_insert_eq. }
    cbn in E1, E2. rewrite H3 in E2. specialize (E2 ltac:(eauto)).
    assert (Hbody : ar_request_body a' = Some body) by (destruct a', x'; unfold with_attachment_queue in *; cbn in *; congruence).
    exists a'. split; [done|]. split_and!; [congruence| |right; eauto].
    intros Hb. specialize (H4 Hb). subst x'. destruct a', a. unfold with_attachment_queue in *. cbn in *. congruence.
  - destruct (IH a) as (a' & Ha' & E1 & E2 & E3); [cbn; by rewrite lookup_insert_ne|].
    exists a'. split; [done|]. by split_and!.
Qed.

(** C32: the worker drains the queue of pictures.  While the database answers, the run is not
    cancelled and the receiver stores every message it can decode, [k] ticks settle every
    picture that is due when they start (its event is delivered and its route enabled): as
    delivered when the signing key of the event is configured and the destination for its
    pictures is a URL [net/http] accepts, as failed otherwise.  A picture that had no message
    gets the one built from its event and the archived payload; a message stored by an
    earlier attempt is sent again as it was.  Provided 25 k covers the pictures that are not
    settled, and [picture_ready]: of each of these whose event was delivered, the event's
    destination parses, and its message decodes or can be built, with an identifier of at
    most 640 bytes. *)
Theorem due_pictures_delivered (env : WorkerEnv (H := attachment_queue)) t0 k (w : WorkerState (H := attachment_queue))
    id a parent endpoint :
  (forall n request m, unmarshal_EventMessage (og_body request) = Some m ->
     client_Do n request = Some {| ir_code := 200; ir_body := receipt_text true m; ir_broken := false |}) ->
  (forall n, we_fault env n = false) -> (forall n, we_lost env n = false) -> (forall n, we_cancelled env n = false) ->
  (forall n, t0 <= cx_now (we_ctx env n)) ->
  picture_ready (ws_queue w) ->
  (size (ids_where (fun a => unfinished (ar_queue a)) (db_attachments (ws_queue w))) <= 25 * k)%nat ->
  db_attachments (ws_queue w) !! id = Some a -> picture_due t0 (ws_queue w) a = true ->
  parent_delivered (ws_queue w) a = Some parent -> NetURL.Parse (dr_endpoint_url parent) = Some endpoint ->
  exists a' body, db_attachments (ws_queue (Run keys env k w)) !! id = Some a' /\
    ar_event_delivery_id a' = ar_event_delivery_id a /\
    qr_status (ar_queue a') =
      (if bool_decide (is_Some (keys !! dr_signing_key_id parent)) &&
          http_NewRequest_ok (NetURL.String_ (attachment_endpoint endpoint))
       then DlvDelivered else DlvFailed) /\
    ar_request_body a' = Some body /\
    match ar_request_body a with
    | Some stored => body = stored
    | None => exists m, picture_message (ws_queue w) parent = Some m /\ body = json_Marshal (attachment_message_json m)
    end.
Proof using.
  intros Hreceiver Hup Hreply Hrun Hclock Hready Hk Ha Hd Hp Hurl.
  destruct (@due_ends _ _ keys attachment_queue picture_settling picture_settling_laws env t0 Hreceiver Hup Hreply Hrun Hclock k w Hready Hk) as [Hsteps Hdue].
  destruct (pictures_kept id _ _ a Hsteps Ha) as (a' & Ha' & H2 & _ & H4).
  assert (Hin : id ∈ ids_where (picture_due t0 (ws_queue w)) (db_attachments (ws_queue w))) by (apply elem_of_ids; eauto).
  apply Hdue, elem_of_ids in Hin as (x & Hx & Hs%bool_decide_eq_true). assert (x = a') as -> by congruence.
  assert (exists body, ar_request_body a' = Some body /\ picture_body (ws_queue w) a body) as (body & Hb & Hpb).
  { destruct H4 as [->|]; [|done]. unfold picture_due in Hd. rewrite Hp in Hd. apply andb_true_iff in Hd as [_ Hc].
    destruct (final_finished (ar_queue a)) as [_ Hf]; [rewrite Hs; apply fate_final|]. by rewrite Hf in Hc. }
  exists a', body. split_and!; [done|done| |done|].
  - rewrite Hs. unfold fate. cbn [hopeful picture_settling]. rewrite (hopeful_row _ _ _ _ Ha).
    unfold picture_deliverable. by rewrite Hp, Hurl.
  - unfold picture_body in Hpb. destruct (ar_request_body a); [done|]. destruct Hpb as (p & m & Hp' & Hm & ->).
    assert (p = parent) as -> by congruence. eauto.
Qed.
End pictures.
