(* ===== verification/BackfillProofs.v ===== *)
(** Backfills: what is queued is exactly what was previewed under the token, each
    event once, and a second attempt finds nothing left. *)

From Stdlib Require Import ZArith Lia Ascii String.
From stdpp Require Import base gmap strings list option sorting.
From S2P Require Import Prelude GoText GoTime GoJSON GoHTTP GoCrypto AccessControl StoreTypes Database StoreCore.
From S2P Require Import Deliveries Worker Attachments Backfills Archive CommandQueue SyncRuns Commands StoreFrame.
From S2P Require Import CommandProofs OutboxProofs DeliveryProofs.

Local Open Scope string_scope.
Local Open Scope Z_scope.

(** ** The rows that reach the queued check *)

(** The identities of valid live rows seen so far, after one more row. *)
Definition seen_after (seen : gset sharedIdentity) (r : archive_row) : gset sharedIdentity :=
  match shared_identity (ar_message r) with
  | Some s => if bool_decide (ar_source r = "pushsdk") then {[s]} ∪ seen else seen
  | None => seen
  end.

(** A retained row whose event is among the live ones. *)
Definition duplicate_of (seen : gset sharedIdentity) (r : archive_row) : bool :=
  bool_decide (ar_source r = "isapi")
  && match shared_identity (ar_message r) with Some s => bool_decide (s ∈ seen) | None => false end.

(** The valid rows that are not duplicates. *)
Fixpoint reached (seen : gset sharedIdentity) (rows : list archive_row) : list archive_row :=
  match rows with
  | [] => []
  | r :: rest =>
      if negb (validBackfillMessage (ar_message r)) || duplicate_of seen r then reached seen rest
      else r :: reached (seen_after seen r) rest
  end.

Definition candidate_of (r : archive_row) : backfillCandidate :=
  {| bc_Source := ar_source r; bc_ID := ar_id r; bc_Body := json_Marshal (message_json (ar_message r)) |}.

Definition fresh_rows (rows : list archive_row) : list archive_row :=
  List.filter (fun r => negb (ar_queued r)) (reached ∅ rows).

(** One row: not reached, queued already, or one more candidate. *)
Lemma backfill_row_candidates acc r acc' :
  backfill_row acc r = Ok acc' ->
  if negb (validBackfillMessage (ar_message r)) || duplicate_of (acc_pushsdk acc) r
  then acc_candidates acc' = acc_candidates acc /\ acc_pushsdk acc' = acc_pushsdk acc
  else acc_candidates acc' = (acc_candidates acc ++ if ar_queued r then [] else [candidate_of r])%list /\
       acc_pushsdk acc' = seen_after (acc_pushsdk acc) r.
Proof.
  unfold backfill_row, duplicate_of, seen_after. destruct (validBackfillMessage _); cbn [negb orb]; [|by intros [= <-]].
  destruct (bool_decide (ar_source r = "isapi") && _); [by intros [= <-]|].
  destruct (ar_queued r); [intros [= <-]; simpl; by rewrite app_nil_r|].
  unfold marshal_message. destruct (from_option _ _ _); [|done]. by intros [= <-].
Qed.

Lemma fold_candidates rows acc acc' :
  foldR backfill_row rows acc = Ok acc' ->
  acc_candidates acc' =
  (acc_candidates acc ++ (candidate_of <$> List.filter (fun r => negb (ar_queued r)) (reached (acc_pushsdk acc) rows)))%list.
Proof.
  revert acc. induction rows as [|r rows IH]; intros acc; cbn [foldR reached]; [intros [= <-]; by rewrite app_nil_r|].
  unfold mbind, result_bind. destruct (backfill_row acc r) as [acc1|] eqn:E; [|done]. intros ->%IH.
  apply backfill_row_candidates in E. destruct (_ || _); destruct E as [-> ->]; [done|].
  cbn [List.filter]. destruct (ar_queued r); cbn [negb fmap list_fmap]; [by rewrite app_nil_r|].
  by rewrite <- app_assoc.
Qed.

Lemma preview_candidates rows acc :
  foldR backfill_row rows empty_acc = Ok acc -> acc_candidates acc = candidate_of <$> fresh_rows rows.
Proof. by intros ->%fold_candidates. Qed.

(** Where a row comes from: its archive and its id. *)
Definition row_key (r : archive_row) : string * Z := (ar_source r, ar_id r).
Definition candidate_key (c : backfillCandidate) : string * Z := (bc_Source c, bc_ID c).

Lemma reached_sublist seen rows : reached seen rows `sublist_of` rows.
Proof.
  revert seen. induction rows as [|r rows IH]; intros seen; simpl; [done|].
  destruct (_ || _); by constructor.
Qed.

(** The same row under another clock zone, and perhaps queued meanwhile. *)
Definition rezone (zone : time -> Z) (m : EventMessage) : EventMessage :=
  mkEventMessage (em_SchemaVersion m) (em_Source m) (em_EventID m) (em_TerminalSerialNumber m) (em_PushSDKSerial m)
    (em_MajorEventType m) (em_SubEventType m) (em_EventState m)
    ((fun t => mkTime (t_ns t) (zone (t_ns t))) <$> em_OccurredAt m)
    (em_EmployeeNumber m) (em_EmployeeName m) (em_EventSerialNumber m).
Definition later_row (zone : time -> Z) (queued : string * Z -> bool) (r : archive_row) : archive_row :=
  {| ar_source := ar_source r; ar_id := ar_id r; ar_message := rezone zone (ar_message r);
     ar_queued := ar_queued r || queued (row_key r) |}.

Lemma rezone_valid zone m : validBackfillMessage (rezone zone m) = validBackfillMessage m.
Proof. unfold validBackfillMessage. simpl. by destruct (em_OccurredAt m). Qed.

Lemma rezone_shared zone m : shared_identity (rezone zone m) = shared_identity m.
Proof. unfold shared_identity. simpl. destruct (em_EventSerialNumber m); [|done]. simpl. by destruct (em_OccurredAt m). Qed.

Lemma reached_later zone queued seen rows :
  reached seen (later_row zone queued <$> rows) = later_row zone queued <$> reached seen rows.
Proof.
  revert seen. induction rows as [|r rows IH]; intros seen; simpl; [done|].
  rewrite rezone_valid. unfold duplicate_of, seen_after. simpl. rewrite rezone_shared.
  destruct (_ || _); simpl; [done|]. by rewrite IH.
Qed.

(** Once the fresh rows are queued, nothing is fresh any more. *)
Lemma nothing_fresh zone queued rows :
  (forall r, r ∈ fresh_rows rows -> queued (row_key r) = true) -> fresh_rows (later_row zone queued <$> rows) = [].
Proof.
  unfold fresh_rows. rewrite reached_later. intros Hq. apply elem_of_nil_inv. intros r' Hr.
  apply list_elem_of_In, filter_In in Hr as [Hr Hn]. apply list_elem_of_In, list_elem_of_fmap in Hr as (r & -> & Hr).
  simpl in Hn. apply negb_true_iff, orb_false_iff in Hn as [Hn Hk]. rewrite Hq in Hk; [done|].
  apply list_elem_of_In, filter_In. split; [by apply list_elem_of_In|by rewrite Hn].
Qed.

(** ** Reading the archive again *)
Definition archive_tables (d : DB) :=
  (db_device_events d, db_projections d, db_retained d, db_terminals d, db_routes d).

Definition live_queued (d : DB) (id : Z) : bool :=
  exists_row (fun _ x => bool_decide (dr_device_event_id x = Some id)) (db_deliveries d).
Definition retained_queued (d : DB) (id : Z) : bool :=
  exists_row (fun _ x => bool_decide (dr_retained_event_id x = Some id)) (db_deliveries d).

Lemma omap_fmap_ext {A B} (f g : A -> option B) (h : B -> B) (l : list A) :
  (forall x, x ∈ l -> g x = h <$> f x) -> omap g l = h <$> omap f l.
Proof.
  intros Hfg. induction l as [|x l IH]; [done|]. simpl. rewrite Hfg by set_solver.
  specialize (IH ltac:(set_solver)). destruct (f x); simpl; [f_equal|]; exact IH.
Qed.

Lemma archive_rows_later d d' zone zone' serial from until (queued : string * Z -> bool) :
  archive_tables d' = archive_tables d ->
  (forall id, live_queued d' id = live_queued d id || queued ("pushsdk", id)) ->
  (forall id, retained_queued d' id = retained_queued d id || queued ("isapi", id)) ->
  archive_rows d' zone' serial from until = later_row zone' queued <$> archive_rows d zone serial from until.
Proof.
  intros [= E1 E2 E3 E4 _] Hlive Hret. unfold archive_rows. rewrite E4.
  destruct (db_terminals d !! serial) as [t|]; [|done]. unfold sql_limit. rewrite fmap_take, fmap_app. do 2 f_equal.
  - unfold live_rows. rewrite E1, E2. apply omap_fmap_ext. intros [id e] _.
    destruct (db_projections d !! id) as [row|]; [|done]. simpl. destruct (pr_projection row) as [p|]; [|done]. simpl.
    destruct (_ && _); [|done]. simpl. unfold later_row, rezone, backfill_message, row_key. simpl.
    fold (live_queued d' id) (live_queued d id). rewrite Hlive. by destruct (pj_OccurredAt p).
  - unfold retained_rows. rewrite E3. apply omap_fmap_ext. intros [id e] _.
    destruct (_ && _); [|done]. simpl. unfold later_row, rezone, backfill_message, row_key. simpl.
    fold (retained_queued d' id) (retained_queued d id). rewrite Hret. by destruct (pj_OccurredAt (re_projection e)).
Qed.

Lemma archive_row_source d zone serial from until r :
  r ∈ archive_rows d zone serial from until -> ar_source r = "pushsdk" \/ ar_source r = "isapi".
Proof.
  unfold archive_rows. destruct (db_terminals d !! serial) as [t|]; [|set_solver]. unfold sql_limit.
  intros (i & Hr%list_elem_of_lookup_2 & _)%elem_of_take.
  apply elem_of_app in Hr as [Hr|Hr]; apply list_elem_of_omap in Hr as ([id e] & _ & Hr).
  - left. destruct (db_projections d !! id) as [row|]; [|done]. simpl in Hr.
    destruct (pr_projection row); [|done]. simpl in Hr. destruct (_ && _); [|done]. by injection Hr as <-.
  - right. cbv zeta in Hr. destruct (_ && _); [|done]. by injection Hr as <-.
Qed.

(** ** Queueing *)

(** The delivery of a candidate. *)
Definition candidate_row (c : TxCtx) (serial : string) (batch : Z) (route : DeliveryRoute) (b : backfillCandidate)
    : DeliveryRow :=
  mkDeliveryRow (if bool_decide (bc_Source b = "pushsdk") then Some (bc_ID b) else None)
    (if bool_decide (bc_Source b = "pushsdk") then None else Some (bc_ID b)) (Some batch) serial
    (rt_EndpointURL route) (rt_SigningKeyID route) (bc_Body b) (new_queue_row (cx_now c)).

Section queue.
Context (c : TxCtx) (serial : string) (batch : Z) (route : DeliveryRoute).

(** The tables after the candidates [done] were queued: one delivery with its attachment
    row for each of them, and nothing else. *)
Record candidates_queued (d0 : DB) (done : list backfillCandidate) (d : DB) : Prop := {
  cq_tables : archive_tables d = archive_tables d0;
  cq_old : db_deliveries d0 ⊆ db_deliveries d;
  cq_size : size (db_deliveries d) = (size (db_deliveries d0) + length done)%nat;
  cq_each : forall b, b ∈ done -> exists k a, db_deliveries d0 !! k = None /\
    db_deliveries d !! k = Some (candidate_row c serial batch route b) /\
    db_attachments d !! a = Some (attachment_row c k);
  cq_only : forall k row, db_deliveries d0 !! k = None -> db_deliveries d !! k = Some row ->
    exists b, b ∈ done /\ row = candidate_row c serial batch route b
}.

Lemma queue_candidate_Ok b s u s' :
  queue_candidate serial batch route b c s = Ok (u, s') ->
  exists k a, db_deliveries (tx_db s) !! k = None /\ db_attachments (tx_db s) !! a = None /\
    archive_tables (tx_db s') = archive_tables (tx_db s) /\
    db_deliveries (tx_db s') = <[k := candidate_row c serial batch route b]> (db_deliveries (tx_db s)) /\
    db_attachments (tx_db s') = <[a := attachment_row c k]> (db_attachments (tx_db s)).
Proof using.
  unfold queue_candidate. intros E.
  apply tx_bind_Ok in E as (taken & s1 & [= <- <-] & E). apply tx_bind_Ok in E as (u1 & s1 & [_ ->]%constraint_Ok & E).
  apply tx_bind_Ok in E as (now & s1 & [= <- <-] & E).
  apply tx_bind_Ok in E as (k & s1 & [Hk Hs]%insert_identity_Ok & E); [|done].
  assert (Ht : frame archive_tables (enqueueAttachment k)).
  { unfold enqueueAttachment, insert_identity, fresh_id. frame_auto. }
  pose proof (Ht _ _ _ _ E) as Htab. apply enqueueAttachment_Ok in E as (_ & Hd & a & Ha & Hat).
  rewrite Hs in Htab, Hd, Ha, Hat. exists k, a. by split_and!.
Qed.

Lemma candidates_queued_step d0 done b s u s' :
  candidates_queued d0 done (tx_db s) -> queue_candidate serial batch route b c s = Ok (u, s') ->
  candidates_queued d0 (done ++ [b]) (tx_db s').
Proof using.
  intros [I1 I2 I3 I4 I5] (k & a & Hk & Ha & Ht & Hd & Hat)%queue_candidate_Ok.
  assert (Hk0 : db_deliveries d0 !! k = None) by by eapply lookup_weaken_None.
  split.
  - by rewrite Ht.
  - rewrite Hd. etrans; [exact I2|]. by apply insert_subseteq.
  - rewrite Hd, map_size_insert_None, I3, length_app by done. simpl. lia.
  - intros b' [Hb|Hb]%elem_of_app.
    + destruct (I4 b' Hb) as (k' & a' & Hk' & Hrow & Ha'). exists k', a'.
      rewrite Hd, Hat, !lookup_insert_ne by congruence. done.
    + apply list_elem_of_singleton in Hb as ->. exists k, a. by rewrite Hd, Hat, !lookup_insert_eq.
  - intros k' row Hk'. rewrite Hd. intros [[<- <-]|[_ Hrow]]%lookup_insert_Some.
    + exists b. split; [set_solver|done].
    + destruct (I5 k' row Hk' Hrow) as (b' & Hb & ->). exists b'. split; [set_solver|done].
Qed.

Lemma queue_loop_Ok bs s u s' :
  tx_for (fun _ b => queue_candidate serial batch route b) bs tt c s = Ok (u, s') ->
  candidates_queued (tx_db s) bs (tx_db s').
Proof using.
  apply (tx_for_inv _ (fun done _ s1 => candidates_queued (tx_db s) done (tx_db s1))).
  - split; [done..|simpl; lia|set_solver|congruence].
  - intros done b u1 u2 s1 s2 HI E. by eapply candidates_queued_step.
Qed.
End queue.

(** Which archived events have a delivery after the loop. *)
Lemma queued_live c serial batch route d0 done d id :
  candidates_queued c serial batch route d0 done d ->
  live_queued d id = live_queued d0 id || bool_decide (("pushsdk", id) ∈ candidate_key <$> done).
Proof.
  intros [_ Hold _ Heach Honly]. apply eq_true_iff_eq. unfold live_queued.
  rewrite orb_true_iff, !exists_row_true, bool_decide_eq_true. setoid_rewrite bool_decide_eq_true. split.
  - intros (k & row & Hrow & Hid). destruct (db_deliveries d0 !! k) as [row0|] eqn:E0.
    + left. exists k, row0. split; [done|]. eapply lookup_weaken in E0; [|exact Hold]. congruence.
    + right. destruct (Honly k row E0 Hrow) as (b & Hb & ->). simpl in Hid. case_bool_decide as Hs; [|done].
      injection Hid as <-. apply list_elem_of_fmap. exists b. split; [|done]. unfold candidate_key. by rewrite Hs.
  - intros [(k & row & Hrow & Hid)|(b & Hkey & Hb)%list_elem_of_fmap].
    + exists k, row. split; [|done]. by eapply lookup_weaken.
    + destruct (Heach b Hb) as (k & a & _ & Hrow & _). unfold candidate_key in Hkey. injection Hkey as Hs ->.
      exists k. eexists. split; [exact Hrow|]. simpl. by rewrite <- Hs.
Qed.

Lemma queued_retained c serial batch route d0 done d id :
  candidates_queued c serial batch route d0 done d ->
  (forall b, b ∈ done -> bc_Source b = "pushsdk" \/ bc_Source b = "isapi") ->
  retained_queued d id = retained_queued d0 id || bool_decide (("isapi", id) ∈ candidate_key <$> done).
Proof.
  intros [_ Hold _ Heach Honly] Hsrc. apply eq_true_iff_eq. unfold retained_queued.
  rewrite orb_true_iff, !exists_row_true, bool_decide_eq_true. setoid_rewrite bool_decide_eq_true. split.
  - intros (k & row & Hrow & Hid). destruct (db_deliveries d0 !! k) as [row0|] eqn:E0.
    + left. exists k, row0. split; [done|]. eapply lookup_weaken in E0; [|exact Hold]. congruence.
    + right. destruct (Honly k row E0 Hrow) as (b & Hb & ->). simpl in Hid. case_bool_decide as Hs; [done|].
      injection Hid as <-. apply list_elem_of_fmap. exists b. split; [|done]. unfold candidate_key.
      destruct (Hsrc b Hb) as [?| ->]; done.
  - intros [(k & row & Hrow & Hid)|(b & Hkey & Hb)%list_elem_of_fmap].
    + exists k, row. split; [|done]. by eapply lookup_weaken.
    + destruct (Heach b Hb) as (k & a & _ & Hrow & _). unfold candidate_key in Hkey. injection Hkey as Hs ->.
      exists k. eexists. split; [exact Hrow|]. simpl. by rewrite <- Hs.
Qed.

Section backfill.
Context `{CryptoLib}.

(** A preview, taken apart. *)
Lemma preview_Ok serial from until c s p s' :
  previewEventBackfill serial from until c s = Ok (p, s') ->
  s' = s /\ exists r, db_routes (tx_db s) !! serial = Some r /\ ro_enabled r = true /\
    let rows := archive_rows (tx_db s) (cx_zone c) serial (t_ns from) (t_ns until) in
    zlen rows <= 10000 /\ bp_candidates p = candidate_of <$> fresh_rows rows /\
    bp_Eligible p = zlen (bp_candidates p) /\
    rt_EndpointURL (bp_Route p) = ro_endpoint_url r /\ rt_SigningKeyID (bp_Route p) = ro_signing_key_id r.
Proof using.
  intros E. unfold previewEventBackfill in E. apply tx_bind_Ok in E as (found & s1 & [= <- <-] & E).
  destruct (db_routes (tx_db s) !! serial) as [r|]; [|done]. cbn in E.
  destruct (ro_enabled r) eqn:Hen; [|done]. cbn in E.
  apply tx_bind_Ok in E as (zone & s1 & [= <- <-] & E). apply tx_bind_Ok in E as (rows & s1 & [= <- <-] & E).
  destruct (foldR _ _ _) as [acc|] eqn:Hf; [|done].
  destruct (10000 <? _) eqn:Hlen; [done|]. apply Z.ltb_ge in Hlen. destruct (manifest_ok _); [|done].
  injection E as <- <-. split; [done|].
  rewrite take_ge in Hf by (unfold zlen in Hlen; lia). apply preview_candidates in Hf.
  exists r. cbv zeta. cbn [with_token preview_of bp_candidates bp_Eligible bp_Route rt_EndpointURL rt_SigningKeyID].
  rewrite Hf. by split_and!.
Qed.

(** After a backfill of a range, a preview of it has no candidate. *)
Lemma queued_nothing_left c serial batch route from until d bs d' zone :
  let rows := archive_rows d (cx_zone c) serial from until in
  bs = candidate_of <$> fresh_rows rows -> candidates_queued c serial batch route d bs d' ->
  fresh_rows (archive_rows d' zone serial from until) = [].
Proof using.
  intros rows -> Hq.
  assert (Hsrc : forall b, b ∈ candidate_of <$> fresh_rows rows -> bc_Source b = "pushsdk" \/ bc_Source b = "isapi").
  { intros b (r & -> & Hr)%list_elem_of_fmap. simpl. apply (archive_row_source d (cx_zone c) serial from until).
    apply list_elem_of_In, filter_In in Hr as [Hr%list_elem_of_In _]. fold rows.
    eapply elem_of_submseteq; [exact Hr|]. apply sublist_submseteq, reached_sublist. }
  rewrite (archive_rows_later d d' (cx_zone c) zone serial from until
    (fun k => bool_decide (k ∈ candidate_key <$> (candidate_of <$> fresh_rows rows)))).
  - apply nothing_fresh. intros r Hr. apply bool_decide_eq_true, list_elem_of_fmap. exists (candidate_of r).
    split; [done|]. apply list_elem_of_fmap. by exists r.
  - apply Hq.
  - intros id. by eapply queued_live.
  - intros id. by eapply queued_retained.
Qed.

(** What a committed backfill did. *)
Lemma QueueEventBackfill_Ok serial from until token actor c d batch n d' :
  QueueEventBackfill serial from until token actor c d = Ok ((batch, n), d') ->
  exists p, PreviewEventBackfill serial from until c d = Ok (p, d) /\ bp_Token p = token /\
    bp_candidates p = candidate_of <$> fresh_rows (archive_rows d (cx_zone c) serial (t_ns from) (t_ns until)) /\
    n = zlen (bp_candidates p) /\ 0 < n /\
    candidates_queued c serial batch (bp_Route p) d (bp_candidates p) d' /\
    db_backfills d' !! batch = Some {| bf_terminal_serial_number := serial;
      bf_starts_at := to_micros (t_ns from); bf_ends_at := to_micros (t_ns until); bf_preview_sha256 := token;
      bf_queued_count := n; bf_created_by := actor |}.
Proof using.
  intros (s' & E & <-)%run_Ok. unfold QueueEventBackfill_tx in E.
  apply tx_bind_Ok in E as (known & s1 & [= <- <-] & E). destruct (negb _); [done|].
  apply tx_bind_Ok in E as (p & s1 & Ep & E). pose proof (preview_Ok _ _ _ _ _ _ _ Ep) as (-> & r & _ & _ & Hp).
  cbv zeta in Hp. destruct Hp as (_ & Hc & He & _ & _). cbn [tx_db] in Hc.
  destruct (negb _) eqn:Htok; [done|]. apply negb_false_iff, bool_decide_eq_true in Htok.
  destruct (bp_Eligible p =? 0) eqn:H0; [done|]. apply Z.eqb_neq in H0.
  apply tx_bind_Ok in E as (u1 & s1 & [Hpos ->]%constraint_Ok & E). apply andb_true_iff in Hpos as [_ Hpos%Z.ltb_lt].
  apply tx_bind_Ok in E as (u2 & s1 & [_ ->]%admin_exists_Ok & E).
  apply tx_bind_Ok in E as (b & s1 & [Hb Hs1]%insert_identity_Ok & E); [|done].
  apply tx_bind_Ok in E as (u3 & s2 & Hloop & E). apply tx_bind_Ok in E as (ev & s3 & Hact & [= <- <- <-]).
  assert (Hbf : frame db_backfills (tx_for (fun _ x => queue_candidate serial b (bp_Route p) x) (bp_candidates p) tt)).
  { unfold queue_candidate, enqueueAttachment, insert_identity, fresh_id. frame_auto. }
  apply Hbf in Hloop as Hbf'. apply queue_loop_Ok in Hloop.
  pose proof (frame_activity db_backfills ltac:(done) _ _ _ _ _ Hact) as F1.
  pose proof (frame_activity outbox ltac:(done) _ _ _ _ _ Hact) as [= F2 F3].
  pose proof (frame_activity archive_tables ltac:(done) _ _ _ _ _ Hact) as F4.
  exists p. split_and!; try done.
  - unfold PreviewEventBackfill, run. by rewrite Ep.
  - destruct Hloop as [I1 I2 I3 I4 I5]. rewrite Hs1 in I1, I2, I3, I4, I5. cbn in I1, I2, I3, I4, I5.
    split; rewrite ?F2, ?F3, ?F4; done.
  - rewrite F1, Hbf', Hs1. cbn. by rewrite lookup_insert_eq.
Qed.

(** C34: a backfill queues what was previewed.  When a backfill is queued, the preview of
    the same range has the given token at that moment; exactly its candidates get a
    delivery, one each, with the previewed bytes for the route's destination and key,
    pending, with an attachment row; every earlier delivery is as it was and the batch is
    recorded under the administrator.  Queueing the range again, with any token, is
    refused: nothing is delivered twice. *)
Theorem backfill_queues_preview serial from until token actor c d batch n d' :
  QueueEventBackfill serial from until token actor c d = Ok ((batch, n), d') ->
  exists p, PreviewEventBackfill serial from until c d = Ok (p, d) /\ bp_Token p = token /\
    n = zlen (bp_candidates p) /\ 0 < n /\
    candidates_queued c serial batch (bp_Route p) d (bp_candidates p) d' /\
    db_backfills d' !! batch = Some {| bf_terminal_serial_number := serial;
      bf_starts_at := to_micros (t_ns from); bf_ends_at := to_micros (t_ns until); bf_preview_sha256 := token;
      bf_queued_count := n; bf_created_by := actor |} /\
    (forall token' actor' c' x, QueueEventBackfill serial from until token' actor' c' d' <> Ok x).
Proof using.
  intros (p & Hp & Ht & Hc & Hn & Hpos & Hq & Hb)%QueueEventBackfill_Ok. exists p. split_and!; try done.
  intros token' actor' c' [[b' n'] d2] (p' & _ & _ & Hc' & -> & Hpos' & _)%QueueEventBackfill_Ok.
  rewrite (queued_nothing_left _ _ _ _ _ _ _ _ _ _ Hc Hq) in Hc'. by rewrite Hc' in Hpos'.
Qed.

(** ** Attachments *)

(** The attachment rows after those of the deliveries [done] were queued. *)
Record attachments_queued (c : TxCtx) (d0 : DB) (done : list Z) (d : DB) : Prop := {
  aq_deliveries : db_deliveries d = db_deliveries d0;
  aq_tables : archive_tables d = archive_tables d0;
  aq_old : db_attachments d0 ⊆ db_attachments d;
  aq_size : size (db_attachments d) = (size (db_attachments d0) + length done)%nat;
  aq_each : forall id, id ∈ done -> exists a, db_attachments d0 !! a = None /\
    db_attachments d !! a = Some (attachment_row c id);
  aq_only : forall a row, db_attachments d0 !! a = None -> db_attachments d !! a = Some row ->
    exists id, id ∈ done /\ row = attachment_row c id
}.

Lemma attachments_loop_Ok ids c s u s' :
  tx_for (fun _ id => enqueueAttachment id) ids tt c s = Ok (u, s') -> attachments_queued c (tx_db s) ids (tx_db s').
Proof using.
  apply (tx_for_inv _ (fun done _ s1 => attachments_queued c (tx_db s) done (tx_db s1))).
  - split; [done..|simpl; lia|set_solver|congruence].
  - intros done id u1 u2 s1 s2 [I1 I2 I3 I4 I5 I6] E.
    assert (Ht : frame archive_tables (enqueueAttachment id)).
    { unfold enqueueAttachment, insert_identity, fresh_id. frame_auto. }
    apply Ht in E as Htab. apply enqueueAttachment_Ok in E as (_ & Hd & a & Ha & Hat).
    assert (Ha0 : db_attachments (tx_db s) !! a = None) by by eapply lookup_weaken_None.
    split; [by rewrite Hd|by rewrite Htab|rewrite Hat; etrans; [exact I3|by apply insert_subseteq]| | |].
    + rewrite Hat, map_size_insert_None, I4, length_app by done. simpl. lia.
    + intros id' [Hin|Hin]%elem_of_app.
      * destruct (I5 id' Hin) as (a' & H0 & H1). exists a'. rewrite Hat, lookup_insert_ne by congruence. done.
      * apply list_elem_of_singleton in Hin as ->. exists a. by rewrite Hat, lookup_insert_eq.
    + intros a' row H0. rewrite Hat. intros [[<- <-]|[_ Hrow]]%lookup_insert_Some; [exists id; set_solver|].
      destruct (I6 a' row H0 Hrow) as (id' & Hin & ->). exists id'. set_solver.
Qed.

Lemma previewAttachments_Ok serial through c s p s' :
  previewAttachments serial through c s = Ok (p, s') ->
  s' = s /\ ap_ThroughDeliveryID p = (if through =? 0 then last_delivery (tx_db s) serial else through) /\
  let rows := attachment_backfill_rows (tx_db s) serial (ap_ThroughDeliveryID p) in
  zlen rows <= 5000 /\ ap_IDs p = rows.*1 /\ ap_Eligible p = zlen (ap_IDs p).
Proof using.
  intros E. unfold previewAttachments in E. apply tx_bind_Ok in E as (found & s1 & [= <- <-] & E).
  destruct (db_routes (tx_db s) !! serial) as [r|]; [|done]. destruct (negb _); [done|].
  apply tx_bind_Ok in E as (th & s1 & Eth & E).
  assert (s1 = s /\ th = if through =? 0 then last_delivery (tx_db s) serial else through) as [-> Hth]
    by (destruct (through =? 0); injection Eth as <- <-; done).
  apply tx_bind_Ok in E as (rows & s1 & [= <- <-] & E). destruct (5000 <? _) eqn:Hlen; [done|].
  apply Z.ltb_ge in Hlen. injection E as <- <-. split_and!; [done..|]. unfold zlen. simpl. by rewrite length_fmap.
Qed.

Lemma backfill_rows_nil d serial through :
  (forall id r, db_deliveries d !! id = Some r -> lacks_attachment d serial through id r = false) ->
  attachment_backfill_rows d serial through = [].
Proof using.
  intros Hno. unfold attachment_backfill_rows, sql_limit.
  assert (order_by id_leb (select (lacks_attachment d serial through) (db_deliveries d)) = []) as ->; [|done].
  apply elem_of_nil_inv. intros [id r]. rewrite elem_of_order_by, elem_of_select. intros [Hr Hl].
  by rewrite (Hno id r Hr) in Hl.
Qed.

(** Every delivery that lacks an attachment is among the rows, unless there are too many. *)
Lemma backfill_rows_all d serial through id r :
  zlen (attachment_backfill_rows d serial through) <= 5000 -> db_deliveries d !! id = Some r ->
  lacks_attachment d serial through id r = true -> id ∈ (attachment_backfill_rows d serial through).*1.
Proof using.
  unfold attachment_backfill_rows, sql_limit, zlen. set (l := order_by _ _). intros Hlen Hr Hl.
  rewrite length_take in Hlen. rewrite take_ge by lia. apply list_elem_of_fmap. exists (id, r). split; [done|].
  unfold l. by rewrite elem_of_order_by, elem_of_select.
Qed.

Lemma QueueAttachmentBackfill_Ok serial through token actor c d n d' :
  QueueAttachmentBackfill serial through token actor c d = Ok (n, d') ->
  exists p, PreviewAttachmentBackfill serial through c d = Ok (p, d) /\ ap_Token p = token /\
    ap_ThroughDeliveryID p = (if through =? 0 then last_delivery d serial else through) /\
    zlen (attachment_backfill_rows d serial (ap_ThroughDeliveryID p)) <= 5000 /\
    ap_IDs p = (attachment_backfill_rows d serial (ap_ThroughDeliveryID p)).*1 /\
    n = zlen (ap_IDs p) /\ 0 < n /\ attachments_queued c d (ap_IDs p) d'.
Proof using.
  intros (s' & E & <-)%run_Ok. unfold QueueAttachmentBackfill_tx in E.
  apply tx_bind_Ok in E as (known & s1 & [= <- <-] & E). destruct (negb _); [done|].
  apply tx_bind_Ok in E as (p & s1 & Ep & E). pose proof (previewAttachments_Ok _ _ _ _ _ _ Ep) as (-> & Hth & Hp).
  cbv zeta in Hp. destruct Hp as (Hlen & Hids & He). cbn [tx_db] in Hth, Hlen, Hids.
  destruct (negb _) eqn:Htok; [done|]. apply negb_false_iff, bool_decide_eq_true in Htok.
  destruct (ap_Eligible p =? 0) eqn:H0; [done|]. apply Z.eqb_neq in H0.
  apply tx_bind_Ok in E as (u3 & s2 & Hloop%attachments_loop_Ok & E).
  apply tx_bind_Ok in E as (ev & s3 & Hact & [= <- <-]).
  pose proof (frame_activity outbox ltac:(done) _ _ _ _ _ Hact) as [= F2 F3].
  pose proof (frame_activity archive_tables ltac:(done) _ _ _ _ _ Hact) as F4.
  exists p. split_and!; try done.
  - unfold PreviewAttachmentBackfill, run. by rewrite Ep.
  - unfold zlen in *. lia.
  - destruct Hloop as [I1 I2 I3 I4 I5 I6]. split; rewrite ?F2, ?F3, ?F4; done.
Qed.

(** C35: a photo backfill queues an attachment row for exactly the delivered events of the
    terminal, up to the bound, that have none, one each, as previewed under the token;
    events are not delivered again, and queueing again finds nothing to do. *)
Theorem attachment_backfill_exact serial through token actor c d n d' :
  QueueAttachmentBackfill serial through token actor c d = Ok (n, d') ->
  exists p, PreviewAttachmentBackfill serial through c d = Ok (p, d) /\ ap_Token p = token /\
    n = zlen (ap_IDs p) /\ 0 < n <= 5000 /\
    (forall id, id ∈ ap_IDs p <-> exists r, db_deliveries d !! id = Some r /\
       lacks_attachment d serial (ap_ThroughDeliveryID p) id r = true) /\
    attachments_queued c d (ap_IDs p) d' /\
    (forall token' actor' c' x, QueueAttachmentBackfill serial through token' actor' c' d' <> Ok x).
Proof using.
  intros (p & Hp & Ht & Hth & Hlen & Hids & Hn & Hpos & Hq)%QueueAttachmentBackfill_Ok. exists p.
  assert (Hall : forall id, id ∈ ap_IDs p <-> exists r, db_deliveries d !! id = Some r /\
     lacks_attachment d serial (ap_ThroughDeliveryID p) id r = true).
  { intros id. rewrite Hids. split; [|intros (r & Hr & Hl); by eapply backfill_rows_all].
    intros ([id' r] & -> & Hin)%list_elem_of_fmap. unfold attachment_backfill_rows, sql_limit in Hin.
    apply elem_of_take in Hin as (i & Hin%list_elem_of_lookup_2 & _).
    rewrite elem_of_order_by, elem_of_select in Hin. eauto. }
  split_and!; try done.
  { rewrite Hn, Hids. unfold zlen in *. by rewrite length_fmap. }
  destruct Hq as [I1 I2 I3 _ I5 _].
  intros token' actor' c' [n' d2] (p' & _ & _ & Hth' & _ & Hids' & -> & Hpos' & _)%QueueAttachmentBackfill_Ok.
  assert (ap_ThroughDeliveryID p' = ap_ThroughDeliveryID p) as E.
  { rewrite Hth, Hth'. unfold last_delivery. by rewrite I1. }
  rewrite E, backfill_rows_nil in Hids'; [by rewrite Hids' in Hpos'|].
  intros id r Hr. rewrite I1 in Hr. apply not_true_is_false. intros Hl.
  unfold lacks_attachment in Hl. apply andb_true_iff in Hl as [Hl Hno%negb_true_iff].
  rewrite exists_row_false in Hno.
  assert (Hold : forall a x, db_attachments d !! a = Some x -> (ar_event_delivery_id x =? id) = false).
  { intros a x Ha. apply (Hno a). by eapply lookup_weaken. }
  destruct (I5 id) as (a & _ & Ha).
  - apply Hall. exists r. split; [done|]. unfold lacks_attachment. rewrite Hl. simpl. apply negb_true_iff.
    rewrite exists_row_false. exact Hold.
  - specialize (Hno a _ Ha). simpl in Hno. by rewrite Z.eqb_refl in Hno.
Qed.
End backfill.
