(* ===== verification/SchemaProofs.v ===== *)
(** Every transaction of the store leaves a database that the schema admits.

    PostgreSQL refuses a statement that violates its schema.  The model checks the clauses a
    request can violate ([constraint], [terminal_exists], [admin_exists]); this file shows
    that the code never comes near the others: a database that was built by the store
    satisfies every clause of db/schema.sql, after every transaction.

    The UNIQUE clause of the pages of a retained-event run needs more than the schema: of the
    commands of a run at most one is open, and it asks for the last page ([paging_ok]). *)

From Stdlib Require Import ZArith Lia Ascii String.
From stdpp Require Import base gmap strings list option sorting relations.
From S2P Require Import Prelude GoText GoTime GoJSON GoCrypto GoHTTP GoURL AccessControl Config Crypto StoreTypes Wire Database.
From S2P Require Import StoreCore Deliveries Worker Attachments Backfills Archive CommandQueue SyncRuns Commands Admin.
From S2P Require Import Schema StoreFrame AdminProofs CommandProofs SyncProofs OutboxProofs DeliveryProofs BackfillProofs.

Local Open Scope string_scope.
Local Open Scope Z_scope.

(** ** Tables that grow *)
Definition grows {K V} `{Countable K} (m m' : gmap K V) : Prop := forall k, is_Some (m !! k) -> is_Some (m' !! k).

#[global] Instance grows_preorder {K V} `{Countable K} : PreOrder (@grows K V _ _).
Proof. split; [by intros m k|]. intros m1 m2 m3 H1 H2 k Hk. by apply H2, H1. Qed.

Lemma grows_insert {K V} `{Countable K} k v (m : gmap K V) : grows m (<[k := v]> m).
Proof. intros i Hi. rewrite lookup_insert_is_Some. destruct (decide (k = i)); auto. Qed.

Lemma grows_alter {K V} `{Countable K} f k (m : gmap K V) : grows m (alter f k m).
Proof. intros i Hi. by rewrite lookup_alter_is_Some. Qed.

Lemma grows_fmap {K V} `{Countable K} (f : V -> V) (m : gmap K V) : grows m (f <$> m).
Proof. intros i Hi. rewrite lookup_fmap. by apply fmap_is_Some. Qed.

Create HintDb schema.
#[export] Hint Resolve grows_insert grows_alter grows_fmap : schema.

Lemma references_grows {K V} `{Countable K} (m m' : gmap K V) k : grows m m' -> references m k -> references m' k.
Proof. intros Hg. apply Hg. Qed.

Lemma references_opt_grows {K V} `{Countable K} (m m' : gmap K V) o : grows m m' -> references_opt m o -> references_opt m' o.
Proof. intros Hg. destruct o; [apply Hg|done]. Qed.

Lemma numbered_le {V} n n' (m : gmap Z V) : n <= n' -> numbered n m -> numbered n' m.
Proof. intros Hn Hm. eapply map_Forall_impl; [exact Hm|]. intros id v. cbn. lia. Qed.

(** What a later database still has: every referenced row, and every number given out. *)
Record extends (d d' : DB) : Prop := {
  ex_terminals : grows (db_terminals d) (db_terminals d');
  ex_device_events : grows (db_device_events d) (db_device_events d');
  ex_admin_users : grows (db_admin_users d) (db_admin_users d');
  ex_commands : grows (db_commands d) (db_commands d');
  ex_sync_runs : grows (db_sync_runs d) (db_sync_runs d');
  ex_retained : grows (db_retained d) (db_retained d');
  ex_backfills : grows (db_backfills d) (db_backfills d');
  ex_deliveries : grows (db_deliveries d) (db_deliveries d');
  ex_next_id : forall q, next_id d q <= next_id d' q
}.

(** A table nobody touched stays within the schema. *)
Section unchanged.
Context (d d' : DB) (Hex : extends d d').

Ltac unchanged E := rewrite E;
  lazymatch goal with
  | |- numbered _ _ => by eapply numbered_le; [apply Hex|]
  | H : map_Forall _ ?m |- map_Forall _ ?m => eapply map_Forall_impl; [exact H|]
  | |- _ => idtac
  end.
Ltac weaken := intros; cbn beta in *; destruct_and?; split_and?; try done;
  try (by eapply references_grows; [apply Hex|]); try (by eapply references_opt_grows; [apply Hex|]).

Lemma terminals_same : db_terminals d' = db_terminals d -> terminals_ok d -> terminals_ok d'.
Proof using. unfold terminals_ok. by intros ->. Qed.

Lemma sessions_same : db_sessions d' = db_sessions d -> sessions_ok d -> sessions_ok d'.
Proof using Hex. unfold sessions_ok. intros E Hok. unchanged E. weaken. Qed.

Lemma activities_same : db_activities d' = db_activities d -> activities_ok d -> activities_ok d'.
Proof using Hex.
  unfold activities_ok. intros -> [Hr Hn]. split; [|done]. eapply list.Forall_impl; [exact Hr|].
  intros e (H1 & H2 & H3 & H4). pose proof (ex_next_id _ _ Hex GatewayActivitiesID). split_and!; [done..|lia|].
  destruct H4 as [?|H4]; [by left|right]. by eapply references_grows; [apply Hex|].
Qed.

Lemma device_events_same : db_device_events d' = db_device_events d -> device_events_ok d -> device_events_ok d'.
Proof using Hex. unfold device_events_ok. intros E (H1 & H2 & H3). split_and!; unchanged E; [weaken|done]. Qed.

Lemma projections_same : db_projections d' = db_projections d -> projections_ok d -> projections_ok d'.
Proof using Hex. unfold projections_ok. intros E Hok. unchanged E. weaken. Qed.

Lemma commands_same : db_commands d' = db_commands d -> commands_ok d -> commands_ok d'.
Proof using Hex. unfold commands_ok, command_row_ok. intros E Hok. unchanged E. weaken. Qed.

Lemma sync_runs_same : db_sync_runs d' = db_sync_runs d -> sync_runs_ok d -> sync_runs_ok d'.
Proof using Hex. unfold sync_runs_ok, sync_row_ok. intros E (H1 & H2). split; unchanged E; [weaken|done]. Qed.

Lemma sync_links_same : db_sync_links d' = db_sync_links d -> sync_links_ok d -> sync_links_ok d'.
Proof using Hex. unfold sync_links_ok, link_row_ok. intros E (H1 & H2). split; unchanged E; [weaken|done]. Qed.

Lemma retained_same : db_retained d' = db_retained d -> retained_ok d -> retained_ok d'.
Proof using Hex. unfold retained_ok, retained_row_ok. intros E (H1 & H2 & H3). split_and!; unchanged E; [weaken|done]. Qed.

Lemma routes_same : db_routes d' = db_routes d -> routes_ok d -> routes_ok d'.
Proof using Hex. unfold routes_ok. intros E Hok. unchanged E. weaken. Qed.

Lemma backfills_same : db_backfills d' = db_backfills d -> backfills_ok d -> backfills_ok d'.
Proof using Hex. unfold backfills_ok. intros E (H1 & H2). split; unchanged E. weaken. Qed.

Lemma deliveries_same : db_deliveries d' = db_deliveries d -> deliveries_ok d -> deliveries_ok d'.
Proof using Hex. unfold deliveries_ok, delivery_row_ok. intros E (H1 & H2 & H3 & H4). split_and!; unchanged E; [weaken|done|done]. Qed.

Lemma attachments_same : db_attachments d' = db_attachments d -> attachments_ok d -> attachments_ok d'.
Proof using Hex. unfold attachments_ok, attachment_row_ok. intros E (H1 & H2 & H3). split_and!; unchanged E; [weaken|done]. Qed.

Lemma admin_users_same : db_admin_users d' = db_admin_users d -> admin_users_ok d -> admin_users_ok d'.
Proof using Hex. unfold admin_users_ok. intros E (H1 & H2). split; unchanged E; done. Qed.

Lemma admin_sessions_same : db_admin_sessions d' = db_admin_sessions d -> admin_sessions_ok d -> admin_sessions_ok d'.
Proof using Hex. unfold admin_sessions_ok. intros E (H1 & H2 & H3). split_and!; unchanged E; [weaken|done]. Qed.
End unchanged.
#[export] Hint Resolve terminals_same sessions_same activities_same device_events_same projections_same commands_same
  sync_runs_same sync_links_same retained_same routes_same backfills_same deliveries_same attachments_same
  admin_users_same admin_sessions_same : schema.

(** ** The pages of a run *)
Definition open_command (d : DB) (uuid : string) : Prop :=
  exists r, db_commands d !! uuid = Some r /\ command_open r = true.

(** A command of the run that was asked before the page of [l]. *)
Definition link_before (l' l : SyncLinkRow) : Prop :=
  sl_phase l' = PhaseTime \/
  sl_phase l = PhasePage /\ exists p' p, sl_search_result_position l' = Some p' /\ sl_search_result_position l = Some p /\ p' < p.

(** The last command of its run: every other one is settled and came before. *)
Definition frontier (d : DB) (uuid : string) (l : SyncLinkRow) : Prop := forall uuid' l',
  db_sync_links d !! uuid' = Some l' -> sl_sync_run_uuid l' = sl_sync_run_uuid l -> uuid' <> uuid ->
  ~ open_command d uuid' /\ link_before l' l.

Record paging_ok (d : DB) : Prop := {
  pg_frontier uuid l : db_sync_links d !! uuid = Some l -> open_command d uuid -> frontier d uuid l;
  pg_awaiting uuid l r : db_sync_links d !! uuid = Some l -> db_sync_runs d !! sl_sync_run_uuid l = Some r ->
    sy_status r = SyncAwaitingTime -> sl_phase l = PhaseTime
}.

Definition store_inv (d : DB) : Prop := schema_ok d /\ paging_ok d.

Lemma empty_store_inv : store_inv empty_DB.
Proof.
  split; [|by split]. split; repeat split; try apply map_Forall_empty; try done; try apply NoDup_nil_2.
Qed.

Lemma frontier_later d d' uuid l :
  db_sync_links d' = db_sync_links d -> (forall u, open_command d' u -> open_command d u) ->
  frontier d uuid l -> frontier d' uuid l.
Proof. intros El Ho Hf u' l'. rewrite El. intros Hl Hr Hne. destruct (Hf u' l' Hl Hr Hne). naive_solver. Qed.

Lemma paging_same d d' :
  db_sync_links d' = db_sync_links d -> db_commands d' = db_commands d -> db_sync_runs d' = db_sync_runs d ->
  paging_ok d -> paging_ok d'.
Proof.
  intros El Ec Er [Hf Ha].
  assert (Ho : forall u, open_command d' u <-> open_command d u) by (intros; unfold open_command; by rewrite Ec).
  split; rewrite El, ?Er; [|apply Ha]. intros u l Hl Hu%Ho. eapply frontier_later; [done|apply Ho|by apply Hf].
Qed.

(** ** One table at a time *)
Ltac extends_tac := constructor; first [assumption | done | reflexivity | by auto with schema | done].
Ltac same_table Hex Hs :=
  first [ eapply (terminals_same _ _); [reflexivity|apply Hs]
        | eapply (sessions_same _ _ Hex); [reflexivity|apply Hs] | eapply (activities_same _ _ Hex); [reflexivity|apply Hs]
        | eapply (device_events_same _ _ Hex); [reflexivity|apply Hs] | eapply (projections_same _ _ Hex); [reflexivity|apply Hs]
        | eapply (commands_same _ _ Hex); [reflexivity|apply Hs] | eapply (sync_runs_same _ _ Hex); [reflexivity|apply Hs]
        | eapply (sync_links_same _ _ Hex); [reflexivity|apply Hs] | eapply (retained_same _ _ Hex); [reflexivity|apply Hs]
        | eapply (routes_same _ _ Hex); [reflexivity|apply Hs] | eapply (backfills_same _ _ Hex); [reflexivity|apply Hs]
        | eapply (deliveries_same _ _ Hex); [reflexivity|apply Hs] | eapply (attachments_same _ _ Hex); [reflexivity|apply Hs]
        | eapply (admin_users_same _ _ Hex); [reflexivity|apply Hs] | eapply (admin_sessions_same _ _ Hex); [reflexivity|apply Hs] ].

(** Closes the goals about tables the update leaves alone. *)
Ltac one_table :=
  lazymatch goal with
  | Hi : store_inv ?d |- store_inv ?d' =>
      let Hs := fresh "Hs" in let Hp := fresh "Hp" in let Hex := fresh "Hex" in
      destruct Hi as [Hs Hp]; assert (Hex : extends d d') by extends_tac;
      split; [split; first [assumption | same_table Hex Hs | idtac]
             | first [assumption | apply (paging_same d); [reflexivity..|exact Hp] | idtac]]
  end.

Section updates.
Context (d : DB) (Hinv : store_inv d).

Lemma inv_terminals f : grows (db_terminals d) (f (db_terminals d)) -> terminals_ok (on_terminals f d) ->
  store_inv (on_terminals f d).
Proof using Hinv. intros Hg Hok. one_table. Qed.

Lemma inv_sessions f : sessions_ok (on_sessions f d) -> store_inv (on_sessions f d).
Proof using Hinv. intros Hok. one_table. Qed.

Lemma inv_activities f : activities_ok (on_activities f d) -> store_inv (on_activities f d).
Proof using Hinv. intros Hok. one_table. Qed.

Lemma next_id_insert q id q' : next_id d q <= id -> next_id d q' <= next_id (on_next_id <[q := id + 1]> d) q'.
Proof using. unfold next_id. cbn. intros Hid. destruct (decide (q = q')) as [->|]; [rewrite lookup_insert_eq; cbn; lia|].
  by rewrite lookup_insert_ne. Qed.

Lemma inv_next_id q id : next_id d q <= id -> store_inv (on_next_id <[q := id + 1]> d).
Proof using Hinv.
  intros Hid. assert (Hext : forall q', next_id d q' <= next_id (on_next_id <[q := id + 1]> d) q')
    by (intros; by apply next_id_insert). one_table.
Qed.

Lemma inv_device_events f : grows (db_device_events d) (f (db_device_events d)) -> device_events_ok (on_device_events f d) ->
  store_inv (on_device_events f d).
Proof using Hinv. intros Hg Hok. one_table. Qed.

Lemma inv_projections f : projections_ok (on_projections f d) -> store_inv (on_projections f d).
Proof using Hinv. intros Hok. one_table. Qed.

Lemma inv_retained f : grows (db_retained d) (f (db_retained d)) -> retained_ok (on_retained f d) ->
  store_inv (on_retained f d).
Proof using Hinv. intros Hg Hok. one_table. Qed.

Lemma inv_routes f : routes_ok (on_routes f d) -> store_inv (on_routes f d).
Proof using Hinv. intros Hok. one_table. Qed.

Lemma inv_backfills f : grows (db_backfills d) (f (db_backfills d)) -> backfills_ok (on_backfills f d) ->
  store_inv (on_backfills f d).
Proof using Hinv. intros Hg Hok. one_table. Qed.

Lemma inv_deliveries f : grows (db_deliveries d) (f (db_deliveries d)) -> deliveries_ok (on_deliveries f d) ->
  store_inv (on_deliveries f d).
Proof using Hinv. intros Hg Hok. one_table. Qed.

Lemma inv_attachments f : attachments_ok (on_attachments f d) -> store_inv (on_attachments f d).
Proof using Hinv. intros Hok. one_table. Qed.

Lemma inv_admin_users f : grows (db_admin_users d) (f (db_admin_users d)) -> admin_users_ok (on_admin_users f d) ->
  store_inv (on_admin_users f d).
Proof using Hinv. intros Hg Hok. one_table. Qed.

Lemma inv_admin_sessions f : admin_sessions_ok (on_admin_sessions f d) -> store_inv (on_admin_sessions f d).
Proof using Hinv. intros Hok. one_table. Qed.

(** A command that is open now was open, or belongs to no run. *)
Lemma inv_commands f : grows (db_commands d) (f (db_commands d)) -> commands_ok (on_commands f d) ->
  (forall u, open_command (on_commands f d) u -> open_command d u \/ db_sync_links d !! u = None) ->
  store_inv (on_commands f d).
Proof using Hinv.
  intros Hg Hok Ho. one_table. destruct Hp as [Hf Ha]. split; [|exact Ha]. intros u l Hl Hu u' l' Hl' Hr Hne. cbn in Hl, Hl'.
  destruct (Ho u Hu) as [Hu'|?]; [|congruence]. destruct (Hf u l Hl Hu' u' l' Hl' Hr Hne) as [Hn Hb]. split; [|done].
  intros [?|?]%Ho; [done|congruence].
Qed.

(** A run that awaits the clock did so before, or has no command yet. *)
Lemma inv_sync_runs f : grows (db_sync_runs d) (f (db_sync_runs d)) -> sync_runs_ok (on_sync_runs f d) ->
  (forall run r, f (db_sync_runs d) !! run = Some r -> sy_status r = SyncAwaitingTime ->
     (exists r0, db_sync_runs d !! run = Some r0 /\ sy_status r0 = SyncAwaitingTime) \/
     forall u l, db_sync_links d !! u = Some l -> sl_sync_run_uuid l <> run) ->
  store_inv (on_sync_runs f d).
Proof using Hinv.
  intros Hg Hok Hw. one_table. destruct Hp as [Hf Ha]. split; [exact Hf|]. intros u l r Hl Hr Hst. cbn in Hl, Hr.
  destruct (Hw _ _ Hr Hst) as [(r0 & Hr0 & Hs0)|Hno]; [by eapply Ha|by destruct (Hno u l)].
Qed.

Lemma inv_sync_links f : sync_links_ok (on_sync_links f d) -> paging_ok (on_sync_links f d) -> store_inv (on_sync_links f d).
Proof using Hinv. intros Hok Hpg. one_table. Qed.
End updates.

(** ** Rows *)
Lemma unique_insert {K V X} `{Countable K} (key : V -> option X) (m : gmap K V) k v :
  unique_by key m -> (forall k' v' x, m !! k' = Some v' -> k' <> k -> key v' = Some x -> key v <> Some x) ->
  unique_by key (<[k := v]> m).
Proof.
  intros Hu Hn k1 k2 v1 v2 x.
  intros [[<- <-]|[? H1]]%lookup_insert_Some [[<- <-]|[? H2]]%lookup_insert_Some E1 E2; [done| | |by eapply Hu].
  - by destruct (Hn k2 v2 x H2).
  - by destruct (Hn k1 v1 x H1).
Qed.

(** A row replaced by one with the same key. *)
Lemma unique_update {K V X} `{Countable K} (key : V -> option X) (m : gmap K V) k v0 v :
  unique_by key m -> m !! k = Some v0 -> key v = key v0 -> unique_by key (<[k := v]> m).
Proof. intros Hu Hk E. apply unique_insert; [done|]. intros k' v' x Hk' Hne Ex Ey. rewrite E in Ey. apply Hne. by eapply Hu. Qed.

Lemma unique_fmap {K V X} `{Countable K} (key : V -> option X) (f : V -> V) (m : gmap K V) :
  (forall v x, key (f v) = Some x -> key v = Some x) -> unique_by key m -> unique_by key (f <$> m).
Proof.
  intros Hf Hu k1 k2 v1 v2 x. rewrite !lookup_fmap_Some. intros (w1 & <- & H1) (w2 & <- & H2) E1 E2. eapply Hu; eauto.
Qed.

Lemma unique_filter {K V X} `{Countable K} (key : V -> option X) (P : K * V -> Prop) `{!forall x, Decision (P x)} (m : gmap K V) :
  unique_by key m -> unique_by key (filter P m).
Proof. intros Hu k1 k2 v1 v2 x [H1 _]%map_lookup_filter_Some [H2 _]%map_lookup_filter_Some. by eapply Hu. Qed.

(** No other row has the key: the check a statement makes before it writes. *)
Lemma unique_new {K V X} `{Countable K} (key : V -> option X) (m : gmap K V) k v (p : V -> bool) :
  (forall v' x, key v = Some x -> key v' = Some x -> p v' = true) ->
  unique_by key m -> exists_row (fun _ v' => p v') m = false -> unique_by key (<[k := v]> m).
Proof.
  intros Hp Hu Hno. apply unique_insert; [done|]. intros k' v' x Hk' _ E1 E2. rewrite exists_row_false in Hno.
  specialize (Hno k' v' Hk'). by rewrite (Hp v' x E2 E1) in Hno.
Qed.

Lemma rows_filter {K V} `{Countable K} (Q : K -> V -> Prop) (P : K * V -> Prop) `{!forall x, Decision (P x)} (m : gmap K V) :
  map_Forall Q m -> map_Forall Q (filter P m).
Proof. intros Hm k v [Hk _]%map_lookup_filter_Some. by apply Hm. Qed.

Lemma numbered_insert {V} n (m : gmap Z V) id v : id < n -> numbered n m -> numbered n (<[id := v]> m).
Proof. intros Hid Hm. by apply map_Forall_insert_2. Qed.

(** A number just given out is below the next one. *)
Lemma next_id_given d q id : id < next_id (on_next_id <[q := id + 1]> d) q.
Proof. unfold next_id. cbn. rewrite lookup_insert_eq. cbn. lia. Qed.
#[export] Hint Resolve next_id_given : schema.

(** The row of an identity column gets a number its sequence had not passed. *)
Lemma identity_Ok {V} q (table : DB -> gmap Z V) update row c s id s' :
  insert_identity q table update row c s = Ok (id, s') ->
  next_id (tx_db s) q <= id /\ tx_db s' = update <[id := row]> (on_next_id <[q := id + 1]> (tx_db s)).
Proof.
  intros (i & s1 & [Hid ->]%fresh_id_Ok & E)%tx_bind_Ok.
  apply tx_bind_Ok in E as (b & s4 & [= <- <-] & E). apply tx_bind_Ok in E as (u' & s5 & [_ ->]%constraint_Ok & E).
  apply tx_bind_Ok in E as (u'' & s6 & [= <-] & [= <- <-]). subst. by cbn [tx_db].
Qed.

(** The loop rule for what the elements of the list have in common. *)
Lemma tx_for_mem {E C S A B} (f : B -> A -> Tx E C S B) (I : B -> S -> Prop) l c s acc b s' :
  I acc s -> (forall x acc acc' s s', x ∈ l -> I acc s -> f acc x c s = Ok (acc', s') -> I acc' s') ->
  tx_for f l acc c s = Ok (b, s') -> I b s'.
Proof.
  revert s acc. induction l as [|x l IH]; intros s acc HI Hstep; simpl; [by intros [= <- <-]|].
  intros (acc' & s1 & E1 & E2)%tx_bind_Ok. eapply (IH s1 acc'); [|by intros y a1 a2 t1 t2 Hy; apply Hstep; right|done].
  eapply Hstep; [by left|done|exact E1].
Qed.

(** ** Transactions that keep the invariant *)
Definition inv_kept (d d' : DB) : Prop := store_inv d -> store_inv d'.
#[global] Instance inv_kept_preorder : PreOrder inv_kept.
Proof. split; [by intros d ?|]. intros d1 d2 d3 H1 H2 H. by apply H2, H1. Qed.

Abbreviation sound := (respects inv_kept).

Lemma sound_reads {A} (m : Txn A) : frame (fun d => d) m -> sound m.
Proof. intros Hm c s a s' E. by rewrite (Hm c s a s' E). Qed.

Create HintDb sound.
Ltac sound_step :=
  lazymatch goal with
  | |- respects _ (mbind _ _) => apply respects_bind; [apply _| |intro]
  | |- respects _ (if ?b then _ else _) => destruct b
  | |- respects _ (match ?o with _ => _ end) => destruct o
  | |- respects _ (tx_for _ _ _) => apply respects_for; [apply _|intros]
  | |- respects _ (tx_attempt _) => apply respects_attempt; [apply _|]
  | |- respects _ _ => first [solve [auto with sound] | apply sound_reads; solve [frame_auto]]
  end; cbn beta iota zeta.
Ltac sound_auto := intros; cbn beta iota zeta; repeat sound_step.

(** ** Activities and terminals *)
Lemma inv_activity d id e now : store_inv d -> next_id d GatewayActivitiesID <= id -> kind_check (activity.Kind e) = true -> activity.Message e <> "" ->
  activity.Terminal e = "" \/ is_Some (db_terminals d !! activity.Terminal e) ->
  store_inv (on_activities (fun l => l ++ [set_id_at e id now])%list (on_next_id <[GatewayActivitiesID := id + 1]> d)).
Proof.
  intros Hinv Hid Hk Hm Ht. pose proof (inv_next_id d Hinv _ id Hid) as Hinv'. apply inv_activities; [done|].
  destruct (ok_activities _ (proj1 Hinv)) as [Hrows Hids]. destruct (ok_activities _ (proj1 Hinv')) as [Hrows' _].
  split; cbn.
  - apply Forall_app. split; [exact Hrows'|]. apply list.Forall_singleton. unfold activity_row_ok. cbn. split_and!; [done|done|apply next_id_given|done].
  - rewrite fmap_app. apply list.NoDup_app. split_and!; [done| |apply NoDup_singleton]. cbn.
    intros x (e' & Ee & He')%list_elem_of_fmap Ex%list_elem_of_singleton.
    rewrite list.Forall_forall in Hrows. destruct (Hrows _ He') as (_ & _ & Hlt & _). lia.
Qed.

Lemma sound_activity e : sound (insertGatewayActivity e).
Proof.
  intros c s a s' E Hinv. unfold insertGatewayActivity in E.
  tx_invs E; lazymatch goal with H : fresh_id _ _ _ = Ok _ |- _ => apply fresh_id_Ok in H as [Hid ->] end;
    cbn [tx_db]; apply inv_activity; try done; try by apply bool_decide_eq_false in Hb0.
  - left. by apply bool_decide_eq_true in Hb1.
  - by right.
Qed.
#[export] Hint Resolve sound_activity : sound.

(** The status of a known terminal. *)
Lemma inv_status d serial r status seen err : store_inv d -> db_terminals d !! serial = Some r ->
  status_check status = true -> store_inv (on_terminals <[serial := set_status status seen err r]> d).
Proof.
  intros Hinv Hr Hst. apply inv_terminals; [done|apply grows_insert|].
  destruct (ok_terminals _ (proj1 Hinv)) as [Hrows Hu]. split; cbn; [|by eapply unique_update].
  apply map_Forall_insert_2; [|done]. specialize (Hrows serial r Hr). unfold terminal_row_ok in *. cbn.
  apply andb_true_iff in Hrows as [Hrows _]. by rewrite Hrows, Hst.
Qed.

Lemma sound_Transition serial status lastError event : sound (TransitionTerminalState_tx serial status lastError event).
Proof.
  intros c s a s' E Hinv. unfold TransitionTerminalState_tx in E. tx_invs E. apply sound_activity in E. apply E.
  by apply inv_status.
Qed.

Lemma sound_Seed `{CryptoLib} terminals : sound (SeedConfiguredTerminals_tx terminals).
Proof.
  unfold SeedConfiguredTerminals_tx. apply respects_for; [apply _|]. intros u t c s a s' E Hinv. tx_invs E.
  unfold terminal_check in E0. rewrite !andb_true_iff, negb_true_iff in E0. destruct E0 as (((((Hno & H1) & H2) & H3) & H4) & H5).
  apply inv_terminals; [done|apply grows_insert|]. destruct (ok_terminals _ (proj1 Hinv)) as [Hrows Hu]. split; cbn.
  - apply map_Forall_insert_2; [|done]. unfold terminal_row_ok. by rewrite H1, H2, H3, H4, H5.
  - apply unique_insert; [done|]. intros k v x Hk Hne [= <-] [= Ex]. rewrite exists_row_false in Hno.
    specialize (Hno k v Hk). by rewrite bool_decide_false, bool_decide_true in Hno.
Qed.

Lemma sound_delete_session serial : sound (db_set (on_sessions (delete serial))).
Proof.
  intros c s a s' [= _ <-] Hinv. apply inv_sessions; [done|]. unfold sessions_ok. cbn.
  apply map_Forall_delete, (ok_sessions _ (proj1 Hinv)).
Qed.
#[export] Hint Resolve sound_delete_session : sound.

Lemma sound_Upsert session : sound (UpsertPushSDKSession_tx session).
Proof.
  intros c s a s' E Hinv. unfold UpsertPushSDKSession_tx in E.
  assert (Hset : terminal_exists (ps_TerminalSerialNumber session) c s = Ok (tt, s) -> session_check (row_of_session session) = true ->
    store_inv (on_sessions <[ps_TerminalSerialNumber session := row_of_session session]> (tx_db s))).
  { intros [Ht _]%terminal_exists_Ok Hc. apply inv_sessions; [done|]. unfold sessions_ok. cbn.
    apply map_Forall_insert_2; [done|]. apply (ok_sessions _ (proj1 Hinv)). }
  apply tx_bind_Ok in E as (u & s1 & Ht & E). pose proof (terminal_exists_Ok _ _ _ _ _ Ht) as [[r Hr] ->]. destruct u.
  tx_invs E; [|by apply Hset]. specialize (Hset Ht E0).
  match goal with |- store_inv (tx_db {| tx_db := on_terminals (alter ?f ?k) ?d |}) =>
    replace (on_terminals (alter f k) d) with (on_terminals <[k := f r]> d)
      by (unfold on_terminals; cbn; by rewrite (alter_alt_Some _ _ _ _ Hr)) end.
  apply (inv_status (on_sessions _ _)); [done|done|].
  destruct (ok_terminals _ (proj1 Hinv)) as [Hrows _]. specialize (Hrows _ _ Hr). unfold terminal_row_ok in Hrows.
  by apply andb_true_iff in Hrows as [_ ?].
Qed.

Lemma sound_Expire serial reason : sound (ExpirePushSDKLoginChallenge_tx serial reason).
Proof.
  unfold ExpirePushSDKLoginChallenge_tx. sound_step; [by apply sound_delete_session|].
  intros c s o s' E Hinv. tx_invs E; [done| |done]. apply sound_activity in E0. apply E0. by apply inv_status.
Qed.

(** ** The archive *)
Lemma inv_device_event d id row : store_inv d -> next_id d DeviceEventsID <= id -> is_Some (db_terminals d !! de_terminal_serial_number row) ->
  data_format_check (de_data_format row) = true ->
  exists_row (fun _ r => same_event (de_terminal_serial_number row) (de_vendor_event_id row) r) (db_device_events d) = false ->
  store_inv (on_device_events <[id := row]> (on_next_id <[DeviceEventsID := id + 1]> d)).
Proof.
  intros Hinv Hid Ht Hf Hno. apply inv_device_events; [by apply inv_next_id|apply grows_insert|].
  destruct (ok_device_events _ (proj1 (inv_next_id d Hinv _ id Hid))) as (Hrows & Hu & Hn). split_and!; cbn.
  - by apply map_Forall_insert_2.
  - eapply unique_new; [|done|exact Hno]. intros v x [= <-] [= E1 E2]. unfold same_event. by rewrite !bool_decide_true.
  - apply numbered_insert; [apply next_id_given|done].
Qed.

Lemma inv_projection d id r : store_inv d -> is_Some (db_device_events d !! id) -> 0 < pr_schema_version r ->
  opt_ok columns_ok (pr_projection r) = true -> store_inv (on_projections <[id := r]> d).
Proof.
  intros Hinv He Hv Hc. apply inv_projections; [done|]. unfold projections_ok. cbn.
  apply map_Forall_insert_2; [done|apply (ok_projections _ (proj1 Hinv))].
Qed.

Lemma sound_projection `{GoParsers} id format payload c s u s' :
  insertAccessEventProjection id format payload c s = Ok (u, s') -> is_Some (db_device_events (tx_db s) !! id) ->
  inv_kept (tx_db s) (tx_db s').
Proof.
  intros E He Hinv. unfold insertAccessEventProjection in E. tx_invs E; by apply inv_projection.
Qed.

Lemma sound_backfill_batch `{GoParsers} c d n d' : backfill_batch c d = Ok (n, d') -> inv_kept d d'.
Proof.
  intros (s' & E & <-)%run_Ok Hinv. tx_invs E.
  assert (Hrows : forall id r, (id, r) ∈ backfill_rows d -> is_Some (db_device_events d !! id)).
  { intros id r Hin. unfold backfill_rows, sql_limit in Hin. apply elem_of_take in Hin as (i & Hin%list_elem_of_lookup_2 & _).
    apply elem_of_order_by, elem_of_select in Hin as [Hin _]. eauto. }
  eapply (tx_for_mem _ (fun _ s => store_inv (tx_db s) /\ db_device_events (tx_db s) = db_device_events d)) in E0;
    [by destruct E0|done|].
  intros [id r] u1 u2 s1 s2 Hin [Hi Hd] Ep. assert (Hf : db_device_events (tx_db s2) = db_device_events (tx_db s1)).
  { revert Ep. apply (fun f => f c s1 u2 s2 : frame db_device_events _). unfold insertAccessEventProjection. frame_auto. }
  split; [|congruence]. eapply sound_projection; [exact Ep| |done]. rewrite Hd. by eapply Hrows.
Qed.

(** ** The outbox *)
Lemma inv_delivery d id row : store_inv d -> next_id d EventDeliveriesID <= id -> delivery_row_ok d row ->
  (forall k r x, db_deliveries d !! k = Some r -> dr_device_event_id r = Some x -> dr_device_event_id row <> Some x) ->
  (forall k r x, db_deliveries d !! k = Some r -> dr_retained_event_id r = Some x -> dr_retained_event_id row <> Some x) ->
  store_inv (on_deliveries <[id := row]> (on_next_id <[EventDeliveriesID := id + 1]> d)).
Proof.
  intros Hinv Hid Hrow Hu1 Hu2. apply inv_deliveries; [by apply inv_next_id|apply grows_insert|].
  destruct (ok_deliveries _ (proj1 (inv_next_id d Hinv _ id Hid))) as (Hrows & U1 & U2 & Hn). split_and!; cbn.
  - by apply map_Forall_insert_2.
  - apply unique_insert; [done|]. intros k v x Hk _. by apply (Hu1 k).
  - apply unique_insert; [done|]. intros k v x Hk _. by apply (Hu2 k).
  - apply numbered_insert; [apply next_id_given|done].
Qed.

Lemma inv_attachment d id row : store_inv d -> next_id d AttachmentDeliveriesID <= id -> attachment_row_ok d row ->
  exists_row (fun _ a => ar_event_delivery_id a =? ar_event_delivery_id row) (db_attachments d) = false ->
  store_inv (on_attachments <[id := row]> (on_next_id <[AttachmentDeliveriesID := id + 1]> d)).
Proof.
  intros Hinv Hid Hrow Hno. apply inv_attachments; [by apply inv_next_id|].
  destruct (ok_attachments _ (proj1 (inv_next_id d Hinv _ id Hid))) as (Hrows & Hu & Hn). split_and!; cbn.
  - by apply map_Forall_insert_2.
  - eapply unique_new; [|done|exact Hno]. intros v x [= <-] [= E]. cbn. by apply Z.eqb_eq.
  - apply numbered_insert; [apply next_id_given|done].
Qed.

Lemma sound_enqueueAttachment parent c s u s' : enqueueAttachment parent c s = Ok (u, s') ->
  is_Some (db_deliveries (tx_db s) !! parent) -> inv_kept (tx_db s) (tx_db s').
Proof.
  intros E Hp Hinv. unfold enqueueAttachment in E. tx_invs E. apply identity_Ok in E1 as [Hid ->].
  apply negb_true_iff in E0. by apply inv_attachment.
Qed.

(** A new delivery with its attachment row. *)
Lemma sound_delivery row c s id s1 u s' : insert_identity EventDeliveriesID db_deliveries on_deliveries row c s = Ok (id, s1) ->
  enqueueAttachment id c s1 = Ok (u, s') -> delivery_row_ok (tx_db s) row ->
  (forall k r x, db_deliveries (tx_db s) !! k = Some r -> dr_device_event_id r = Some x -> dr_device_event_id row <> Some x) ->
  (forall k r x, db_deliveries (tx_db s) !! k = Some r -> dr_retained_event_id r = Some x -> dr_retained_event_id row <> Some x) ->
  inv_kept (tx_db s) (tx_db s').
Proof.
  intros [Hid E]%identity_Ok Ea Hrow H1 H2 Hinv. eapply sound_enqueueAttachment; [exact Ea| |]; rewrite E.
  - cbn. by rewrite lookup_insert_eq.
  - by apply inv_delivery.
Qed.

Lemma sound_enqueueEventDelivery id : sound (enqueueEventDelivery id).
Proof.
  intros c s u s' E Hinv. unfold enqueueEventDelivery in E. apply tx_bind_Ok in E as (found & s0 & [= <- <-] & E).
  destruct (delivery_candidate (tx_db s) id) as [[[[e p] t] r]|] eqn:Hc; [|by injection E as <- <-].
  unfold delivery_candidate in Hc. apply bind_Some in Hc as (e' & He & Hc). apply bind_Some in Hc as (row & _ & Hc).
  apply bind_Some in Hc as (p' & _ & Hc). apply bind_Some in Hc as (t' & Ht & Hc). apply bind_Some in Hc as (r' & _ & Hc).
  destruct (_ && _); [|done]. injection Hc as -> -> -> ->.
  apply tx_bind_Ok in E as (at_ & s1 & E1 & E). assert (s1 = s) as -> by (destruct (pj_OccurredAt p); by tx_invs E1).
  destruct (marshal_message _); [|done]. tx_invs E. apply negb_true_iff in E0. rewrite exists_row_false in E0.
  eapply sound_delivery; [eassumption|exact E| |..|done].
  - unfold delivery_row_ok. cbn. split_and!; [by eexists|by eexists|done..].
  - intros k x y Hx Ey [= <-]. specialize (E0 k x Hx). cbn in E0. by rewrite Ey, bool_decide_true in E0.
  - done.
Qed.
#[export] Hint Resolve sound_enqueueEventDelivery : sound.

Lemma sound_device_event `{GoParsers} ps event : sound (insert_device_event ps event).
Proof.
  intros c s a s' E Hinv. unfold insert_device_event in E.
  apply tx_bind_Ok in E as (u1 & s1 & [Hf ->]%constraint_Ok & E).
  apply tx_bind_Ok in E as (u2 & s1 & [Ht ->]%terminal_exists_Ok & E).
  apply tx_bind_Ok in E as (dup & s1 & [= <- <-] & E). apply tx_bind_Ok in E as (u3 & s1 & E1 & E).
  assert (Hs1 : store_inv (tx_db s1)).
  { destruct (exists_row _ _) eqn:Hno; [by injection E1 as _ <-|].
    apply tx_bind_Ok in E1 as (now & s2 & [= <- <-] & E1). apply tx_bind_Ok in E1 as (id & s2 & [Hid E2]%identity_Ok & E1).
    apply tx_bind_Ok in E1 as (u4 & s3 & E3 & E1). apply sound_enqueueEventDelivery in E1. apply E1.
    eapply sound_projection; [exact E3| |]; rewrite E2; [cbn; by rewrite lookup_insert_eq|by apply inv_device_event]. }
  destruct (exists_row _ _); tx_invs E; apply sound_activity in E0; by apply E0.
Qed.

(** A queue row replaced by one of the same delivery. *)
Lemma inv_delivery_queue d id r q : store_inv d -> db_deliveries d !! id = Some r -> 0 <= qr_attempts q ->
  store_inv (on_deliveries <[id := with_queue r q]> d).
Proof.
  intros Hinv Hr Hq. apply inv_deliveries; [done|apply grows_insert|].
  destruct (ok_deliveries _ (proj1 Hinv)) as (Hrows & U1 & U2 & Hn). split_and!; cbn; try by eapply unique_update.
  - apply map_Forall_insert_2; [|done]. destruct (Hrows id r Hr) as (H1 & H2 & H3 & H4 & H5 & _). by split_and!.
  - apply numbered_insert; [|done]. by eapply Hn.
Qed.

Lemma inv_attachment_row d id a a' : store_inv d -> db_attachments d !! id = Some a ->
  ar_event_delivery_id a' = ar_event_delivery_id a -> opt_ok availability_check (ar_availability a') = true ->
  0 <= qr_attempts (ar_queue a') -> store_inv (on_attachments <[id := a']> d).
Proof.
  intros Hinv Ha Hid Hav Hq. apply inv_attachments; [done|].
  destruct (ok_attachments _ (proj1 Hinv)) as (Hrows & U & Hn). split_and!; cbn.
  - apply map_Forall_insert_2; [|done]. destruct (Hrows id a Ha) as (H1 & _). split_and!; [by rewrite Hid|done..].
  - eapply unique_update; [done|exact Ha|]. by rewrite Hid.
  - apply numbered_insert; [|done]. by eapply Hn.
Qed.

Lemma delivery_attempts d id r : store_inv d -> db_deliveries d !! id = Some r -> 0 <= qr_attempts (dr_queue r).
Proof. intros Hinv Hr. destruct (ok_deliveries _ (proj1 Hinv)) as (Hrows & _). apply (Hrows id r Hr). Qed.

Lemma attachment_row d id a : store_inv d -> db_attachments d !! id = Some a ->
  opt_ok availability_check (ar_availability a) = true /\ 0 <= qr_attempts (ar_queue a).
Proof. intros Hinv Ha. destruct (ok_attachments _ (proj1 Hinv)) as (Hrows & _). apply (Hrows id a Ha). Qed.

Lemma sound_claim c d o d' : ClaimEventDelivery c d = Ok (o, d') -> inv_kept d d'.
Proof.
  intros E%claim_delivery_Ok Hinv. destruct o as [e|]; [|by destruct E as [-> _]].
  destruct E as (r & Hr & _ & _ & _ & ->). apply inv_delivery_queue; [done..|].
  pose proof (delivery_attempts _ _ _ Hinv Hr). cbn. lia.
Qed.

Lemma sound_finish e status code failure next c d u d' :
  FinishEventDelivery e status code failure next c d = Ok (u, d') -> inv_kept d d'.
Proof.
  intros (r & Hr & _ & ->)%finish_Ok Hinv. apply inv_delivery_queue; [done..|]. cbn. by eapply delivery_attempts.
Qed.

Lemma sound_retry id actor : sound (RetryEventDelivery_tx id actor).
Proof.
  intros c s u s' E Hinv. unfold RetryEventDelivery_tx in E. tx_invs E. apply sound_activity in E0. apply E0.
  apply inv_delivery_queue; [done..|]. cbn. by eapply delivery_attempts.
Qed.

Lemma sound_finish_attachment `{GoParsers} `{CryptoLib} e status code failure next c d u d' :
  FinishAttachment e status code failure next c d = Ok (u, d') -> inv_kept d d'.
Proof.
  intros (a & Ha & _ & ->)%finish_attachment_Ok Hinv. destruct (attachment_row _ _ _ Hinv Ha).
  by eapply inv_attachment_row.
Qed.

Lemma sound_retry_attachment id actor : sound (RetryAttachmentDelivery_tx id actor).
Proof.
  intros c s u s' E Hinv. unfold RetryAttachmentDelivery_tx in E.
  apply tx_bind_Ok in E as (now & s1 & [= <- <-] & E). apply tx_bind_Ok in E as (found & s1 & [= <- <-] & E).
  destruct (_ ≫= _) as [[a parent]|] eqn:Hf; [|done]. apply bind_Some in Hf as (a' & Ha & Hf).
  apply bind_Some in Hf as (p' & _ & Hf). apply bind_Some in Hf as (t & _ & [= -> ->]).
  tx_invs E. apply sound_activity in E0. apply E0. destruct (attachment_row _ _ _ Hinv Ha). by eapply inv_attachment_row.
Qed.

Lemma on_attachments_alter (d : DB) f id a : db_attachments d !! id = Some a ->
  on_attachments (alter f id) d = on_attachments <[id := f a]> d.
Proof. intros Ha. unfold on_attachments. by rewrite (alter_alt_Some _ _ _ _ Ha). Qed.

Lemma sound_attachment_body `{GoParsers} `{CryptoLib} id a parent c s body s' :
  attachment_body id a parent c s = Ok (body, s') -> db_attachments (tx_db s) !! id = Some a ->
  inv_kept (tx_db s) (tx_db s') /\ exists a', db_attachments (tx_db s') !! id = Some a'.
Proof.
  intros E Ha. unfold attachment_body in E. destruct (ar_request_body a) as [b|]; [injection E as <- <-; split; [done|eauto]|].
  assert (Hf : frame (fun d => d) (build_message parent)) by (unfold build_message; frame_auto).
  apply tx_bind_Ok in E as (m & s1 & E1%Hf & E). cbn beta in E1.
  apply tx_bind_Ok in E as (u & s2 & [Hav ->]%constraint_Ok & E). apply tx_bind_Ok in E as (u2 & s3 & [= _ <-] & [= <- <-]).
  cbn [tx_db]. rewrite E1, (on_attachments_alter _ _ _ _ Ha). split; [|cbn; rewrite lookup_insert_eq; eauto].
  intros Hinv. destruct (attachment_row _ _ _ Hinv Ha). by eapply inv_attachment_row.
Qed.

Lemma sound_claim_attachment `{GoParsers} `{CryptoLib} : sound ClaimAttachment_tx.
Proof.
  intros c s o s' E Hinv. unfold ClaimAttachment_tx in E.
  apply tx_bind_Ok in E as (now & s1 & [= <- <-] & E). apply tx_bind_Ok in E as (cs & s1 & [= <- <-] & E).
  destruct (attachment_candidates _ _) as [|[id a] l] eqn:Hc; [by injection E as _ <-|].
  assert (Hin : (id, a) ∈ attachment_candidates (tx_db s) (cx_now c)) by (rewrite Hc; set_solver).
  unfold attachment_candidates in Hin. apply elem_of_order_by, elem_of_select in Hin as [Ha _].
  apply tx_bind_Ok in E as (found & s1 & [= <- <-] & E). destruct (parent_delivered _ a) as [parent|]; [|by injection E as _ <-].
  destruct (NetURL.Parse _) as [endpoint|]; [|done]. apply tx_bind_Ok in E as (body & s1 & E1 & E).
  destruct (sound_attachment_body _ _ _ _ _ _ _ E1 Ha) as [Hk (a' & Ha')]. specialize (Hk Hinv).
  apply tx_bind_Ok in E as (u & s2 & [= _ <-] & [= <- <-]). cbn [tx_db]. rewrite (on_attachments_alter _ _ _ _ Ha').
  destruct (attachment_row _ _ _ Hk Ha'). eapply inv_attachment_row; [done|exact Ha'|done..|]. cbn. lia.
Qed.

(** ** Routes and backfills *)
Lemma sound_SaveDeliveryRoute route actor : sound (SaveDeliveryRoute_tx route actor).
Proof.
  intros c s u s' E Hinv. unfold SaveDeliveryRoute_tx in E. tx_invs E. apply sound_activity in E1. apply E1.
  apply inv_routes; [done|]. unfold routes_ok. cbn. apply map_Forall_insert_2; [|apply (ok_routes _ (proj1 Hinv))].
  split; [|done]. by apply negb_false_iff, bool_decide_eq_true in Hb.
Qed.

Lemma sound_DeleteDeliveryRoute serial actor : sound (DeleteDeliveryRoute_tx serial actor).
Proof.
  intros c s u s' E Hinv. unfold DeleteDeliveryRoute_tx in E. tx_invs E. apply sound_activity in E0. apply E0.
  apply inv_routes; [done|]. unfold routes_ok. cbn. apply map_Forall_delete, (ok_routes _ (proj1 Hinv)).
Qed.

Lemma archive_row_exists d zone serial from until r : r ∈ archive_rows d zone serial from until ->
  (ar_source r = "pushsdk" /\ is_Some (db_device_events d !! ar_id r)) \/
  (ar_source r = "isapi" /\ is_Some (db_retained d !! ar_id r)).
Proof.
  unfold archive_rows. destruct (db_terminals d !! serial) as [t|]; [|set_solver]. unfold sql_limit.
  intros (i & Hr%list_elem_of_lookup_2 & _)%elem_of_take.
  apply elem_of_app in Hr as [Hr|Hr]; apply list_elem_of_omap in Hr as ([id e] & He%elem_of_order_by%elem_of_map_to_list & Hr).
  - left. destruct (db_projections d !! id) as [row|]; [|done]. simpl in Hr.
    destruct (pr_projection row); [|done]. simpl in Hr. destruct (_ && _); [|done]. injection Hr as <-. eauto.
  - right. cbv zeta in Hr. destruct (_ && _); [|done]. injection Hr as <-. eauto.
Qed.

Lemma previewed_exists `{CryptoLib} serial from until c s p s' b : previewEventBackfill serial from until c s = Ok (p, s') ->
  b ∈ bp_candidates p ->
  (bc_Source b = "pushsdk" /\ is_Some (db_device_events (tx_db s) !! bc_ID b)) \/
  (bc_Source b = "isapi" /\ is_Some (db_retained (tx_db s) !! bc_ID b)).
Proof.
  intros (_ & r & _ & _ & _ & Hc & _)%preview_Ok. rewrite Hc. intros (x & -> & Hx)%list_elem_of_fmap. cbn.
  apply list_elem_of_In, filter_In in Hx as [Hx%list_elem_of_In _]. eapply archive_row_exists, elem_of_submseteq; [exact Hx|].
  apply sublist_submseteq, reached_sublist.
Qed.

Lemma queue_candidate_sound c serial batch route b s u s' : queue_candidate serial batch route b c s = Ok (u, s') ->
  is_Some (db_terminals (tx_db s) !! serial) -> is_Some (db_backfills (tx_db s) !! batch) ->
  (bc_Source b = "pushsdk" /\ is_Some (db_device_events (tx_db s) !! bc_ID b)) \/
  (bc_Source b = "isapi" /\ is_Some (db_retained (tx_db s) !! bc_ID b)) ->
  inv_kept (tx_db s) (tx_db s').
Proof.
  intros E Ht Hbatch Hb Hinv. unfold queue_candidate in E.
  apply tx_bind_Ok in E as (taken & s1 & [= <- <-] & E). apply tx_bind_Ok in E as (u1 & s1 & [Hno%negb_true_iff ->]%constraint_Ok & E).
  apply tx_bind_Ok in E as (now & s1 & [= <- <-] & E). apply tx_bind_Ok in E as (id & s1 & E1 & E).
  rewrite exists_row_false in Hno.
  eapply sound_delivery; [exact E1|exact E| | | |done].
  - unfold delivery_row_ok. cbn. destruct Hb as [[-> He]|[-> He]]; [rewrite bool_decide_true by done|rewrite bool_decide_false by done];
      split_and!; try done; split; try done; by intros [].
  - cbn. intros k r x Hr Er Ex. specialize (Hno k r Hr). rewrite Ex, Er in Hno. apply orb_false_iff in Hno as [Hno _].
    by rewrite !bool_decide_true in Hno.
  - cbn. intros k r x Hr Er Ex. specialize (Hno k r Hr). rewrite Ex, Er in Hno. apply orb_false_iff in Hno as [_ Hno].
    by rewrite !bool_decide_true in Hno.
Qed.

Lemma sound_QueueEventBackfill `{CryptoLib} serial from until token actor :
  sound (QueueEventBackfill_tx serial from until token actor).
Proof.
  intros c s a s' E Hinv. unfold QueueEventBackfill_tx in E.
  apply tx_bind_Ok in E as (known & s1 & [= <- <-] & E). destruct (negb _) eqn:Hk; [done|].
  apply negb_false_iff, bool_decide_eq_true in Hk. apply tx_bind_Ok in E as (p & s1 & Ep & E).
  assert (s1 = s) as -> by by eapply preview_Ok. destruct (negb _); [done|]. destruct (_ =? 0); [done|].
  apply tx_bind_Ok in E as (u1 & s1 & [[Hr%Z.ltb_lt Hq%Z.ltb_lt]%andb_true_iff ->]%constraint_Ok & E).
  apply tx_bind_Ok in E as (u2 & s1 & [Ha ->]%admin_exists_Ok & E). apply tx_bind_Ok in E as (batch & s1 & [Hid E1]%identity_Ok & E).
  apply tx_bind_Ok in E as (u3 & s2 & E2 & E). tx_invs E. apply sound_activity in E0. apply E0. clear E0.
  set (I (_ : unit) s := store_inv (tx_db s) /\ archive_tables (tx_db s) = archive_tables (tx_db s1) /\
                  db_backfills (tx_db s) = db_backfills (tx_db s1)).
  enough (I tt s2) by by destruct H0. revert E2.
  assert (Hs1 : archive_tables (tx_db s1) = archive_tables (tx_db s)) by by rewrite E1. injection Hs1 as T1 T2 T3 T4 T5.
  apply (tx_for_mem _ I).
  - split_and!; [|done..]. rewrite E1. apply inv_backfills; [by apply inv_next_id|apply grows_insert|].
    destruct (ok_backfills _ (proj1 (inv_next_id _ Hinv _ _ Hid))) as (Hrows & Hn). split; cbn.
    + by apply map_Forall_insert_2.
    + apply numbered_insert; [apply next_id_given|done].
  - intros b v1 v2 s3 s4 Hin (Hi & Ht & Hbf) Eq. pose proof (queue_candidate_Ok _ _ _ _ _ _ _ _ Eq) as (k & x & _ & _ & Ht' & _).
    split_and!; [|congruence|].
    + injection Ht as V1 V2 V3 V4 V5. eapply queue_candidate_sound; [exact Eq|..|done].
      * by rewrite V4, T4.
      * rewrite Hbf, E1. cbn. by rewrite lookup_insert_eq.
      * rewrite V1, V3, T1, T3. by eapply previewed_exists.
    + rewrite <- Hbf. revert Eq. apply (fun f => f c s3 v2 s4 : frame db_backfills _).
      unfold queue_candidate, enqueueAttachment, insert_identity, fresh_id. frame_auto.
Qed.

Lemma sound_QueueAttachmentBackfill `{CryptoLib} serial through token actor :
  sound (QueueAttachmentBackfill_tx serial through token actor).
Proof.
  intros c s a s' E Hinv. unfold QueueAttachmentBackfill_tx in E.
  apply tx_bind_Ok in E as (known & s1 & [= <- <-] & E). destruct (negb _); [done|].
  apply tx_bind_Ok in E as (p & s1 & (-> & _ & _ & Hids & _)%previewAttachments_Ok & E).
  destruct (negb _); [done|]. destruct (_ =? 0); [done|]. apply tx_bind_Ok in E as (u & s2 & E1 & E).
  tx_invs E. apply sound_activity in E0. apply E0.
  eapply (tx_for_mem _ (fun _ s3 => store_inv (tx_db s3) /\ db_deliveries (tx_db s3) = db_deliveries (tx_db s)));
    [done| |exact E1].
  intros id v1 v2 s3 s4 Hin [Hi Hd] Eq. pose proof (enqueueAttachment_Ok _ _ _ _ _ Eq) as (_ & Hd' & _). split; [|congruence].
  eapply sound_enqueueAttachment; [exact Eq| |done]. rewrite Hd. rewrite Hids in Hin.
  apply list_elem_of_fmap in Hin as ([i r] & -> & Hin). unfold attachment_backfill_rows, sql_limit in Hin.
  apply elem_of_take in Hin as (n & Hin%list_elem_of_lookup_2 & _). apply elem_of_order_by, elem_of_select in Hin as [Hin _]. eauto.
Qed.

(** ** Administrators *)
Lemma inv_admin_user d id row : store_inv d -> next_id d AdminUsersID <= id ->
  (forall k u, db_admin_users d !! k = Some u -> au_username u <> au_username row) ->
  store_inv (on_admin_users <[id := row]> (on_next_id <[AdminUsersID := id + 1]> d)).
Proof.
  intros Hinv Hid Hno. apply inv_admin_users; [by apply inv_next_id|apply grows_insert|].
  destruct (ok_admin_users _ (proj1 (inv_next_id d Hinv _ id Hid))) as (Hu & Hn). split; cbn.
  - apply unique_insert; [done|]. intros k v x Hk _ [= <-] [= E]. by apply (Hno k v Hk).
  - apply numbered_insert; [apply next_id_given|done].
Qed.

Lemma inv_admin_session d id row : store_inv d -> next_id d AdminSessionsID <= id -> is_Some (db_admin_users d !! as_admin_user_id row) ->
  exists_row (fun _ s => bool_decide (as_token_hash s = as_token_hash row)) (db_admin_sessions d) = false ->
  store_inv (on_admin_sessions <[id := row]> (on_next_id <[AdminSessionsID := id + 1]> d)).
Proof.
  intros Hinv Hid Hu Hno. apply inv_admin_sessions; [by apply inv_next_id|].
  destruct (ok_admin_sessions _ (proj1 (inv_next_id d Hinv _ id Hid))) as (Hrows & Ht & Hn). split_and!; cbn.
  - by apply map_Forall_insert_2.
  - eapply unique_new; [|done|exact Hno]. intros v x [= <-] [= E]. by apply bool_decide_eq_true.
  - apply numbered_insert; [apply next_id_given|done].
Qed.

Lemma sound_CreateSession user hash expires event : sound (CreateSessionWithActivity_tx user hash expires event).
Proof.
  intros c s a s' E Hinv. unfold CreateSessionWithActivity_tx in E. tx_invs E. apply identity_Ok in E2 as [Hid E2].
  apply sound_activity in E. apply E. rewrite E2. apply negb_true_iff in E1. by apply inv_admin_session.
Qed.

Lemma sound_filter_sessions (P : Z * AdminSessionRow -> Prop) `{!forall x, Decision (P x)} : sound (db_set (on_admin_sessions (filter P))).
Proof.
  intros c s a s' [= _ <-] Hinv. apply inv_admin_sessions; [done|].
  destruct (ok_admin_sessions _ (proj1 Hinv)) as (Hrows & Ht & Hn). split_and!; cbn.
  - by apply rows_filter.
  - by apply unique_filter.
  - by apply rows_filter.
Qed.

(** Administrators whom nothing refers to can go. *)
Lemma inv_remove_users d f : store_inv d -> admin_users_ok (on_admin_users f d) ->
  (let gone id := is_Some (db_admin_users d !! id) -> is_Some (f (db_admin_users d) !! id) in
   (forall k r id, db_commands d !! k = Some r -> cr_created_by_admin_user_id r = Some id -> gone id) /\
   (forall k r id, db_sync_runs d !! k = Some r -> sy_created_by_admin_user_id r = Some id -> gone id) /\
   (forall k r, db_routes d !! k = Some r -> gone (ro_updated_by r)) /\
   (forall k b, db_backfills d !! k = Some b -> gone (bf_created_by b)) /\
   (forall k s, db_admin_sessions d !! k = Some s -> gone (as_admin_user_id s))) ->
  store_inv (on_admin_users f d).
Proof.
  intros [Hs Hp] Hok (G1 & G2 & G3 & G4 & G5). split; [|by apply (paging_same d)]. split; try exact (ok_terminals _ Hs); try exact (ok_device_events _ Hs); try exact Hok; try exact (ok_activities _ Hs);
    try exact (ok_sessions _ Hs); try exact (ok_projections _ Hs); try exact (ok_sync_links _ Hs); try exact (ok_retained _ Hs);
    try exact (ok_deliveries _ Hs); try exact (ok_attachments _ Hs).
  - destruct (ok_admin_sessions _ Hs) as (H1 & H2 & H3). split_and!; [|done..]. intros k x Hx. by apply (G5 k x Hx), (H1 k x Hx).
  - intros k r Hr. destruct (ok_commands _ Hs k r Hr) as (H1 & H2 & H3). destruct_and?; split_and!; try done.
    unfold references_opt in *. destruct (cr_created_by_admin_user_id r) eqn:E; [|done]. by apply (G1 k r _ Hr E).
  - destruct (ok_sync_runs _ Hs) as [H1 H2]. split; [|done]. intros k r Hr. destruct (H1 k r Hr) as (R1 & R2 & R3 & R4).
    destruct_and?; split_and!; try done. unfold references_opt in *. destruct (sy_created_by_admin_user_id r) eqn:E; [|done].
    by apply (G2 k r _ Hr E).
  - intros k r Hr. destruct (ok_routes _ Hs k r Hr) as [H1 H2]. split; [done|]. by apply (G3 k r Hr).
  - destruct (ok_backfills _ Hs) as [H1 H2]. split; [|done]. intros k b Hb. destruct (H1 k b Hb) as (B1 & B2 & B3 & B4).
    split_and!; [done..|]. by apply (G4 k b Hb).
Qed.

Lemma forgotten {V} (m : gmap Z V) p o : references_opt m o -> references_opt m (forget_admin p o).
Proof. destruct o as [id|]; cbn; [|done]. by destruct (p id). Qed.

Lemma inv_commands_forget d p : store_inv d -> store_inv (on_commands (fmap (command_forgets p)) d).
Proof.
  intros Hinv. apply inv_commands; [done|apply grows_fmap| |].
  - intros k r. cbn. rewrite lookup_fmap_Some. intros (r0 & <- & Hr0).
    destruct (ok_commands _ (proj1 Hinv) k r0 Hr0) as (H1 & H2 & H3). destruct_and?; split_and!; try done; by apply forgotten.
  - intros u (r & Hr & Ho). left. cbn in Hr. rewrite lookup_fmap_Some in Hr. destruct Hr as (r0 & <- & Hr0). by exists r0.
Qed.

Lemma inv_runs_forget d p : store_inv d -> store_inv (on_sync_runs (fmap (run_forgets p)) d).
Proof.
  intros Hinv. apply inv_sync_runs; [done|apply grows_fmap| |].
  - destruct (ok_sync_runs _ (proj1 Hinv)) as [Hrows Hu]. split; cbn; [|by apply unique_fmap].
    intros k r. rewrite lookup_fmap_Some. intros (r0 & <- & Hr0).
    destruct (Hrows k r0 Hr0) as (H1 & H2 & H3 & H4). destruct_and?; split_and!; try done; by apply forgotten.
  - intros run r. rewrite lookup_fmap_Some. intros (r0 & <- & Hr0) Hw. left. by exists r0.
Qed.

Lemma sound_delete_admins gone : sound (delete_admins gone).
Proof.
  intros c s a s' E Hinv. unfold delete_admins in E. tx_invs E. cbn [tx_db] in *.
  apply negb_true_iff, orb_false_iff in E0 as [Hro Hbf]. rewrite exists_row_false in Hro. rewrite exists_row_false in Hbf.
  set (p id := match db_admin_users (tx_db s) !! id with Some u => gone u | None => false end) in *.
  assert (Hkeep : forall id, p id = false -> is_Some (db_admin_users (tx_db s) !! id) ->
    is_Some (filter (fun x => gone x.2 = false) (db_admin_users (tx_db s)) !! id)).
  { intros id Hp [u Hu]. exists u. apply map_lookup_filter_Some. split; [done|]. unfold p in Hp. by rewrite Hu in Hp. }
  set (d1 := on_admin_sessions (filter (fun x => p (as_admin_user_id x.2) = false))
               (on_commands (fmap (command_forgets p)) (on_sync_runs (fmap (run_forgets p)) (tx_db s)))).
  change (store_inv (on_admin_users (filter (fun x => gone x.2 = false)) d1)).
  assert (Hd1 : store_inv d1).
  { apply (sound_filter_sessions (fun x => p (as_admin_user_id x.2) = false) c (mkTxState _ 0 0) tt (mkTxState _ 0 0) eq_refl).
    by apply inv_commands_forget, inv_runs_forget. }
  assert (Hforget : forall o id, forget_admin p o = Some id -> p id = false).
  { intros [i|] id; cbn; [|done]. destruct (p i) eqn:Hi; [done|]. by intros [= <-]. }
  apply inv_remove_users; [done| |cbn; split_and!].
  - destruct (ok_admin_users _ (proj1 Hinv)) as [Hu Hn]. split; cbn; [by apply unique_filter|by apply rows_filter].
  - intros k r id. rewrite lookup_fmap_Some. intros (r0 & <- & _) E%Hforget. by apply Hkeep.
  - intros k r id. rewrite lookup_fmap_Some. intros (r0 & <- & _) E%Hforget. by apply Hkeep.
  - intros k r Hr. apply Hkeep. by eapply Hro.
  - intros k b Hb. apply Hkeep. by eapply Hbf.
  - intros k x [_ Hx]%map_lookup_filter_Some. by apply Hkeep.
Qed.

Lemma sound_Reconcile `{Bcrypt} username password : sound (ReconcileConfiguredAdministrator_tx username password).
Proof.
  unfold ReconcileConfiguredAdministrator_tx. apply respects_bind; [apply _|apply sound_delete_admins|]. intros u c s a s' E Hinv.
  assert (Hh : frame (fun d => d) (hash_password password)) by (unfold hash_password; frame_auto).
  apply tx_bind_Ok in E as (found & s1 & [= <- <-] & E). destruct (admin_by_name (tx_db s) username) as [[id u']|] eqn:Hf.
  - destruct (negb _); [|by injection E as _ <-]. apply tx_bind_Ok in E as (hash & s1 & Eh & [= _ <-]). cbn [tx_db].
    rewrite (Hh _ _ _ _ Eh). apply inv_admin_users; [done|apply grows_insert|].
    apply head_select in Hf as [Hu Hname%bool_decide_eq_true].
    destruct (ok_admin_users _ (proj1 Hinv)) as [Huniq Hn]. split; cbn.
    + eapply unique_update; [done|exact Hu|cbn; by rewrite Hname].
    + apply numbered_insert; [by eapply Hn|done].
  - apply tx_bind_Ok in E as (hash & s1 & Eh & E). apply tx_bind_Ok in E as (id & s2 & [Hid E2]%identity_Ok & [= _ <-]).
    rewrite E2. rewrite admin_by_name_None in Hf. pose proof (Hh _ _ _ _ Eh) as E1. cbn beta in E1. rewrite E1 in Hid |- *.
    by apply inv_admin_user.
Qed.

(** ** Commands *)

(** Each command is replaced by one that satisfies its clauses; none is opened again. *)
Lemma inv_commands_rows d f : store_inv d -> grows (db_commands d) (f (db_commands d)) ->
  (forall k r', f (db_commands d) !! k = Some r' -> exists r, db_commands d !! k = Some r /\
     (command_row_ok d k r -> command_row_ok d k r') /\ (command_open r' = true -> command_open r = true)) ->
  store_inv (on_commands f d).
Proof.
  intros Hinv Hg Hrows. apply inv_commands; [done|done| |].
  - intros k r' Hr'. destruct (Hrows k r' Hr') as (r & Hr & Hok & _). by apply Hok, (ok_commands _ (proj1 Hinv)).
  - intros u (r' & Hr' & Ho'). destruct (Hrows u r' Hr') as (r & Hr & _ & Ho). left. exists r. auto.
Qed.

(** The columns a state change leaves alone. *)
Lemma command_row_state d uuid r r' : command_row_ok d uuid r -> command_request r' = command_request r ->
  cr_created_by_username r' = cr_created_by_username r -> cr_created_by_admin_user_id r' = cr_created_by_admin_user_id r ->
  command_state_check r' = true -> opt_ok supportedDataFormat (cr_response_data_format r') = true -> command_row_ok d uuid r'.
Proof.
  unfold command_request. intros (H1 & H2 & H3 & _) [= E1 E2 E3 E4 E5 E6 E7] E8 E9 Hs Hf.
  unfold command_row_ok, command_check in *. rewrite E1, E2, E3, E4, E5, E6, E7, E8, E9. by split_and!.
Qed.

Lemma expired_row d now uuid r : command_row_ok d uuid r -> command_open r = true -> command_row_ok d uuid (command_expired now r).
Proof.
  intros Hok Ho. assert (Hs : command_state_check r = true) by apply Hok. assert (Hf := Hok). destruct Hf as (_ & _ & _ & _ & Hf).
  apply (command_row_state d uuid r); [done..| |done]. unfold command_state_check, command_open in *. cbn.
  destruct (cr_status r); try done; by rewrite !andb_true_iff in Hs; destruct_and!; rewrite !andb_true_iff.
Qed.

Lemma sent_row d now uuid r : command_row_ok d uuid r -> cr_status r = CmdQueued -> command_row_ok d uuid (command_sent now r).
Proof.
  intros Hok Hq. assert (Hs : command_state_check r = true) by apply Hok. assert (Hf := Hok). destruct Hf as (_ & _ & _ & _ & Hf).
  apply (command_row_state d uuid r); [done..| |done]. unfold command_state_check in *. rewrite Hq in Hs. cbn.
  rewrite !andb_true_iff in Hs. destruct_and!. by rewrite !andb_true_iff.
Qed.

Lemma inv_expire_rows d now serial : store_inv d -> store_inv (on_commands (expire_rows now serial) d).
Proof.
  intros Hinv. apply inv_commands_rows; [done|apply grows_fmap|]. intros k r'. unfold expire_rows. rewrite lookup_fmap_Some.
  intros (r & <- & Hr). exists r. split; [done|]. destruct (overdue now serial r) eqn:Ho; [|done]. split; [|done].
  intros Hok. apply expired_row; [done|]. unfold overdue in Ho. by rewrite !andb_true_iff in Ho; destruct_and!.
Qed.

(** ** Runs *)
Lemma inv_sync_run d run r r' : store_inv d -> db_sync_runs d !! run = Some r -> sync_row_ok d run r' ->
  sy_terminal_serial_number r' = sy_terminal_serial_number r ->
  (sync_active (sy_status r') = true -> sync_active (sy_status r) = true) ->
  (sy_status r' = SyncAwaitingTime -> sy_status r = SyncAwaitingTime) ->
  store_inv (on_sync_runs <[run := r']> d).
Proof.
  intros Hinv Hr Hrow Ht Ha Hw. destruct (ok_sync_runs _ (proj1 Hinv)) as [Hrows Hu].
  apply inv_sync_runs; [done|apply grows_insert| |].
  - split; cbn; [by apply map_Forall_insert_2|]. apply unique_insert; [done|]. intros k v x Hk Hne Ev Ex. apply Hne.
    eapply Hu; [exact Hk|exact Hr|exact Ev|]. cbn in *. destruct (sync_active (sy_status r')); [|done]. by rewrite Ha, <- Ht.
  - intros run' x [[<- <-]|[_ Hx]]%lookup_insert_Some Hs; left; eauto.
Qed.

(** The columns a run keeps for life. *)
Definition run_identity (r : SyncRow) :=
  (sy_terminal_serial_number r, sy_created_by_admin_user_id r, sy_created_by_username r, sy_search_id r).

Lemma sync_row_state d run r r' : sync_row_ok d run r -> run_identity r' = run_identity r ->
  0 <= sy_pages_completed r' -> 0 <= sy_records_imported r' -> 0 <= sy_records_duplicate r' -> lifecycle_check r' = true ->
  sync_row_ok d run r'.
Proof.
  intros (H1 & H2 & H3 & H4 & H5 & _) [= E1 E2 E3 E4] P1 P2 P3 Hl. unfold sync_row_ok. rewrite E1, E2, E3, E4.
  exact (conj H1 (conj H2 (conj H3 (conj H4 (conj H5 (conj P1 (conj P2 (conj P3 Hl)))))))).
Qed.

Lemma run_row_ok d run r : store_inv d -> db_sync_runs d !! run = Some r -> sync_row_ok d run r.
Proof. intros Hinv Hr. destruct (ok_sync_runs _ (proj1 Hinv)) as [Hrows _]. by apply Hrows. Qed.

Lemma sound_fail run reason : sound (failAccessEventSync run reason).
Proof.
  intros c s a s' E Hinv. unfold failAccessEventSync in E. tx_invs E; try done. apply sound_activity in E0. apply E0.
  eapply inv_sync_run; [done|exact Hm| |done..].
  pose proof (run_row_ok _ _ _ Hinv Hm) as Hrow. apply (sync_row_state _ _ s0); try done; apply Hrow.
Qed.
#[export] Hint Resolve sound_fail : sound.

Lemma sound_expireOverdue serial : sound (expireOverdueISAPICommandsTx serial).
Proof.
  unfold expireOverdueISAPICommandsTx, report_expired, failExpiredAccessEventSyncCommand. sound_auto.
  intros c s u s' [= _ <-] Hinv. by apply inv_expire_rows.
Qed.
#[export] Hint Resolve sound_expireOverdue : sound.

Lemma sound_Claim serial limit : sound (ClaimISAPICommands_tx serial limit).
Proof.
  unfold ClaimISAPICommands_tx. destruct (_ || _); [sound_auto|]. sound_step; [auto with sound|]. sound_step; [sound_auto|].
  intros c s x s' E Hinv. apply tx_bind_Ok in E as (rows & s1 & [= <- <-] & E). apply tx_bind_Ok in E as (u & s1 & [= _ <-] & E).
  assert (Hr : forall acts, sound (tx_for (report_sent serial) acts a)) by (intros; unfold report_sent; sound_auto).
  tx_invs E. apply Hr in E0. apply E0. cbn [tx_db]. apply inv_commands_rows; [done| |].
  - intros k Hk. rewrite mark_sent_lookup by apply NoDup_claimed. destruct (bool_decide _); [by apply fmap_is_Some|done].
  - intros k r'. rewrite mark_sent_lookup by apply NoDup_claimed. case_bool_decide as Hin; [|by eauto].
    apply list_elem_of_fmap in Hin as ([u' r0] & -> & Hin). apply elem_of_claimed in Hin as [Hr0 Hc]. cbn in *.
    rewrite Hr0. intros [= <-]. exists r0. split; [done|]. unfold claimable in Hc. rewrite !andb_true_iff in Hc.
    destruct Hc as [[_ Hq%bool_decide_eq_true] _]. split; [intros Hok; by apply sent_row|]. unfold command_open. by rewrite Hq.
Qed.

(** A link names an existing command. *)
Lemma unknown_command_unlinked d uuid : store_inv d -> db_commands d !! uuid = None -> db_sync_links d !! uuid = None.
Proof.
  intros Hinv Hno. apply eq_None_not_Some. intros [l Hl]. destruct (ok_sync_links _ (proj1 Hinv)) as [Hrows _].
  destruct (Hrows uuid l Hl) as ([r Hr] & _). congruence.
Qed.

(** Queueing: the new command belongs to no run, and opens no other. *)
Lemma queue_sound input c s command act s' : queueISAPICommandTx input c s = Ok ((command, act), s') ->
  store_inv (tx_db s) -> store_inv (tx_db s') /\ db_sync_links (tx_db s') = db_sync_links (tx_db s) /\
  db_sync_runs (tx_db s') = db_sync_runs (tx_db s) /\ db_sync_links (tx_db s') !! ic_UUID command = None /\
  is_Some (db_commands (tx_db s') !! ic_UUID command) /\
  forall u l, db_sync_links (tx_db s) !! u = Some l -> open_command (tx_db s') u -> open_command (tx_db s) u.
Proof.
  intros E Hinv. pose proof (queue_Ok _ _ _ _ _ _ E) as (Hnew & Hcs & Hcheck & _).
  pose proof (frame_queueISAPICommandTx db_sync_runs ltac:(done) ltac:(done) input c s (command, act) s' E) as Hruns.
  pose proof (frame_queueISAPICommandTx db_sync_links ltac:(done) ltac:(done) input c s (command, act) s' E) as Hlinks.
  pose proof (unknown_command_unlinked _ _ Hinv Hnew) as Hnolink.
  assert (Hopen : forall u l, db_sync_links (tx_db s) !! u = Some l -> open_command (tx_db s') u -> open_command (tx_db s) u).
  { intros u l Hl (r & Hr & Ho). rewrite Hcs in Hr. apply lookup_insert_Some in Hr as [[<- _]|[_ Hr]]; [congruence|by exists r]. }
  split_and!; [|done|done|by rewrite Hlinks|rewrite Hcs, lookup_insert_eq; eauto|done].
  unfold queueISAPICommandTx in E. tx_invs E.
  assert (Hu : frame (fun d => d) newISAPICommandUUID) by (unfold newISAPICommandUUID; frame_auto).
  apply Hu in E0. cbn beta in E0. apply sound_activity in E3. apply E3. rewrite E0 in *. clear E3.
  apply inv_commands; [done|apply grows_insert| |].
  - intros k r. cbn. intros [[<- <-]|[_ Hr]]%lookup_insert_Some; [|by apply (ok_commands _ (proj1 Hinv))].
    apply andb_true_iff in E1 as [_ E1]. unfold command_row_ok. cbn. split_and!; [by eexists|done..].
  - intros u (r & Hr & Ho). cbn in Hr. apply lookup_insert_Some in Hr as [[<- _]|[_ Hr]]; [by right|left; by exists r].
Qed.

Lemma sound_queue input : sound (queueISAPICommandTx input).
Proof. intros c s [command act] s' E Hinv. by eapply queue_sound. Qed.
#[export] Hint Resolve sound_queue : sound.

Lemma sound_QueueISAPICommand input : sound (QueueISAPICommand_tx input).
Proof. unfold QueueISAPICommand_tx. sound_auto. Qed.

(** ** Links *)
Lemma inv_link d uuid l r : store_inv d -> is_Some (db_commands d !! uuid) -> db_sync_links d !! uuid = None ->
  db_sync_runs d !! sl_sync_run_uuid l = Some r -> (sy_status r = SyncAwaitingTime -> sl_phase l = PhaseTime) ->
  match sl_phase l, sl_search_result_position l with
  | PhaseTime, None => True
  | PhasePage, Some p => 0 <= p <= 150000
  | _, _ => False
  end ->
  (forall u' l', db_sync_links d !! u' = Some l' -> sl_sync_run_uuid l' = sl_sync_run_uuid l ->
     ~ open_command d u' /\ link_before l' l) ->
  store_inv (on_sync_links <[uuid := l]> d).
Proof.
  intros Hinv Hc Hnew Hr Hw Hshape Hold. destruct (ok_sync_links _ (proj1 Hinv)) as [Hrows Hu].
  destruct (proj2 Hinv) as [Hf Ha]. apply inv_sync_links; [done| |].
  - split; cbn; [apply map_Forall_insert_2; [|done]; split_and!; [done|by eexists|done]|].
    apply unique_insert; [done|]. intros k v [run p] Hk _ Ev Ex. unfold page_key in *.
    destruct (sl_phase v) eqn:Hpv; [done|]. destruct (sl_phase l) eqn:Hpl; [done|].
    destruct (sl_search_result_position v) as [pv|] eqn:Epv; [|done]. destruct (sl_search_result_position l) as [pl|] eqn:Epl; [|done].
    injection Ev as <- <-. injection Ex as Erun ->.
    destruct (Hold k v Hk (eq_sym Erun)) as [_ [Hb|(_ & p1 & p2 & E1 & E2 & Hlt)]]; [congruence|]. simplify_eq. lia.
  - split; cbn.
    + intros u x [[<- <-]|[Hne Hx]]%lookup_insert_Some Ho u' l' Hl' Hrun Hne'; cbn in Hl'.
      * rewrite lookup_insert_ne in Hl' by done. by apply Hold.
      * apply lookup_insert_Some in Hl' as [[<- <-]|[_ Hl']]; [|by apply (Hf u x Hx Ho)].
        by destruct (Hold u x Hx (eq_sym Hrun)) as [[] _].
    + intros u x rx [[<- <-]|[Hne Hx]]%lookup_insert_Some Hrx Hst; [|by eapply Ha]. apply Hw. congruence.
Qed.

(** All commands of a run are settled and ask for pages before [p]. *)
Definition run_settled (d : DB) (run : string) (p : Z) : Prop := forall u l,
  db_sync_links d !! u = Some l -> sl_sync_run_uuid l = run ->
  ~ open_command d u /\ (sl_phase l = PhaseTime \/ exists p', sl_search_result_position l = Some p' /\ p' < p).

Lemma run_settled_later d d' run p : db_sync_links d' = db_sync_links d ->
  (forall u l, db_sync_links d !! u = Some l -> open_command d' u -> open_command d u) ->
  run_settled d run p -> run_settled d' run p.
Proof. intros El Ho Hs u l. rewrite El. intros Hl Hr. destruct (Hs u l Hl Hr) as [Hn Hp]. split; [|done]. intros Hu. by eapply Hn, Ho. Qed.

(** Queue the next command of a settled run and link it. *)
Lemma next_command_sound input run p c s command act s1 u s' :
  queueISAPICommandTx input c s = Ok ((command, act), s1) ->
  link_command (ic_UUID command) run PhasePage (Some p) c s1 = Ok (u, s') ->
  store_inv (tx_db s) -> run_settled (tx_db s) run p ->
  sy_status <$> db_sync_runs (tx_db s) !! run = Some SyncRunning -> store_inv (tx_db s').
Proof.
  intros Eq El Hinv Hset Hrun. destruct (queue_sound _ _ _ _ _ _ Eq Hinv) as (Hinv1 & Hl1 & Hr1 & Hnew & Hc & Ho).
  unfold link_command in El. tx_invs El. apply andb_true_iff in E as [E1%Z.leb_le E2%Z.leb_le]. cbn [tx_db].
  destruct (db_sync_runs (tx_db s) !! run) as [r|] eqn:Hr; [|done]. injection Hrun as Hrun.
  eapply (inv_link _ _ _ r); [done|done|done|cbn; by rewrite Hr1|congruence|done|].
  intros u' l' Hl' Hr'. destruct (run_settled_later _ (tx_db s1) _ _ Hl1 Ho Hset u' l' Hl' Hr') as [Hn Hb]. split; [done|].
  destruct Hb as [?|(p' & Ep & Hlt)]; [by left|right]. split; [done|]. eauto.
Qed.

(** ** Retained events *)
Section retained.
Context `{GoParsers} `{CryptoLib} `{!CryptoLaws}.

(** What is known of a record of a page. *)
Definition record_ok (record : retainedEventRecord) : Prop :=
  length (rec_Fingerprint record) = 32%nat /\ 1 <= pj_MajorEventType (rec_Projection record) <= 5 /\
  0 <= pj_SubEventType (rec_Projection record) /\ is_Some (pj_OccurredAt (rec_Projection record)).

Lemma page_records_ok page records : page_records page = Some records -> Forall record_ok records.
Proof using Type*.
  unfold page_records. intros E%mapM_Some_1. induction E as [|raw record raws l Hx _ IH]; [done|]. constructor; [|exact IH].
  destruct (ExtractRetainedEvent raw) as [p|] eqn:Ep; [|done]. injection Hx as <-. unfold ExtractRetainedEvent in Ep.
  repeat case_match; simplify_eq. rewrite !orb_false_iff in *. destruct_and!. rewrite !Z.ltb_ge in *. unfold record_ok. cbn.
  split_and!; [apply length_sha256|lia..|by eexists].
Qed.

Lemma stored_columns p : columns_ok (stored_projection p) = columns_ok p.
Proof using. done. Qed.

Lemma retained_sound command uuid n record c s n' s' : insert_retained command uuid n record c s = Ok (n', s') ->
  record_ok record -> is_Some (db_terminals (tx_db s) !! sc_Terminal command) ->
  is_Some (db_sync_runs (tx_db s) !! sc_RunUUID command) -> is_Some (db_commands (tx_db s) !! uuid) ->
  inv_kept (tx_db s) (tx_db s').
Proof using Type*.
  intros E (R1 & R2 & R3 & [at_ R4]) Ht Hr Hc Hinv. unfold insert_retained in E. tx_invs E; [done|].
  apply andb_true_iff in E0 as [Hcol Hne%negb_true_iff%bool_decide_eq_false]. apply identity_Ok in E1 as [Hid ->].
  apply inv_retained; [by apply inv_next_id|apply grows_insert|].
  destruct (ok_retained _ (proj1 (inv_next_id _ Hinv _ _ Hid))) as (Hrows & Hu & Hn). split_and!; cbn.
  - apply map_Forall_insert_2; [|done]. unfold retained_row_ok. cbn. rewrite R4. split_and!; try done; lia.
  - eapply unique_new; [|done|exact Hb]. intros v x [= <-] [= E1 E2]. unfold retained_key. by rewrite !bool_decide_true.
  - apply numbered_insert; [apply next_id_given|done].
Qed.

(** The tables a page result reads while its records are stored. *)
Definition page_tables (d : DB) := (db_terminals d, db_sync_runs d, db_commands d, db_sync_links d).

Lemma insertRetained_sound command uuid records c s n s' : insertRetainedAccessEvents command uuid records c s = Ok (n, s') ->
  Forall record_ok records -> is_Some (db_terminals (tx_db s) !! sc_Terminal command) ->
  is_Some (db_sync_runs (tx_db s) !! sc_RunUUID command) -> is_Some (db_commands (tx_db s) !! uuid) ->
  store_inv (tx_db s) -> store_inv (tx_db s') /\ page_tables (tx_db s') = page_tables (tx_db s).
Proof using Type*.
  intros E Hrec Ht Hr Hc Hinv. unfold insertRetainedAccessEvents in E. tx_invs E.
  eapply (tx_for_mem _ (fun _ s1 => store_inv (tx_db s1) /\ page_tables (tx_db s1) = page_tables (tx_db s))); [done| |exact E0].
  intros record n1 n2 s1 s2 Hin [Hi Hp] E. assert (Hf : frame page_tables (insert_retained command uuid n1 record)).
  { unfold insert_retained, insert_identity, fresh_id. frame_auto. }
  split; [|by rewrite (Hf _ _ _ _ E)]. injection Hp as T1 T2 T3 T4. rewrite list.Forall_forall in Hrec.
  eapply retained_sound; [exact E|by apply Hrec|by rewrite ?T1, ?T2, ?T3..|done].
Qed.

(** ** Results of sync commands *)

(** The command whose result arrives: settled, and the last one of its run. *)
Definition last_command (d : DB) (uuid : string) (l : SyncLinkRow) : Prop :=
  db_sync_links d !! uuid = Some l /\ is_Some (db_commands d !! uuid) /\ ~ open_command d uuid /\ frontier d uuid l.

Lemma last_command_same d d' uuid l : db_sync_links d' = db_sync_links d -> db_commands d' = db_commands d ->
  last_command d uuid l -> last_command d' uuid l.
Proof using.
  intros El Ec (K1 & K2 & K3 & K4). unfold last_command, open_command in *. rewrite El, Ec. split_and!; [done..|].
  eapply frontier_later; [done|unfold open_command; by rewrite Ec|done].
Qed.

Lemma last_command_settled d uuid l p : last_command d uuid l ->
  (forall u' l', db_sync_links d !! u' = Some l' -> sl_sync_run_uuid l' = sl_sync_run_uuid l -> sl_phase l' = PhaseTime) \/
  (exists q, sl_phase l = PhasePage /\ sl_search_result_position l = Some q /\ q < p) ->
  run_settled d (sl_sync_run_uuid l) p.
Proof using.
  intros (Hl & _ & Hno & Hf) Hp u' l' Hl' Hr. destruct (decide (u' = uuid)) as [->|Hne].
  - rewrite Hl in Hl'. injection Hl' as <-. split; [done|]. destruct Hp as [Hp|(q & _ & E & Hlt)]; [left; by apply (Hp uuid)|right; eauto].
  - destruct (Hf u' l' Hl' Hr Hne) as [Hn Hb]. split; [done|]. destruct Hp as [Hp|(q & _ & E & Hlt)]; [left; by apply (Hp u')|].
    destruct Hb as [?|(_ & p' & q' & E1 & E2 & Hlt')]; [by left|right]. exists p'. split; [done|]. simplify_eq. lia.
Qed.

Lemma on_sync_runs_alter (d : DB) f run r : db_sync_runs d !! run = Some r ->
  on_sync_runs (alter f run) d = on_sync_runs <[run := f r]> d.
Proof using. intros Hr. unfold on_sync_runs. by rewrite (alter_alt_Some _ _ _ _ Hr). Qed.

Lemma lifecycle_awaiting r : lifecycle_check r = true -> sy_status r = SyncAwaitingTime ->
  sy_failure r = None /\ sy_completed_at r = None.
Proof using.
  unfold lifecycle_check. intros Hl E. rewrite E, !andb_true_iff, !bool_decide_eq_true in Hl. by destruct_and!.
Qed.

Lemma lifecycle_running r : lifecycle_check r = true -> sy_status r = SyncRunning ->
  is_Some (sy_search_started_at r) /\ is_Some (sy_search_ended_at r) /\ sy_failure r = None /\ sy_completed_at r = None.
Proof using.
  unfold lifecycle_check. intros Hl E. rewrite E, !andb_true_iff, !bool_decide_eq_true in Hl. by destruct_and!.
Qed.

Context (uuid : string) (command : accessEventSyncCommand) (l : SyncLinkRow) (r : SyncRow).
Context (Erun : sc_RunUUID command = sl_sync_run_uuid l) (Estatus : sc_Status command = sy_status r).

Lemma started_run d started ended : store_inv d -> db_sync_runs d !! sc_RunUUID command = Some r ->
  sy_status r = SyncAwaitingTime ->
  store_inv (on_sync_runs (alter (run_started started ended) (sc_RunUUID command)) d).
Proof using.
  intros Hinv Hr Hw. rewrite (on_sync_runs_alter _ _ _ r Hr). pose proof (run_row_ok _ _ _ Hinv Hr) as Hrow.
  assert (Hl : lifecycle_check r = true) by apply Hrow. destruct (lifecycle_awaiting r Hl Hw) as [Ef Ec].
  eapply inv_sync_run; [done|exact Hr| |done|by rewrite Hw|done].
  apply (sync_row_state _ _ r); try done; try apply Hrow. unfold lifecycle_check. cbn. by rewrite Ef, Ec.
Qed.

Lemma complete_time_sound source c s acts s' : completeAccessEventSyncTime command source c s = Ok (acts, s') ->
  db_sync_runs (tx_db s) !! sc_RunUUID command = Some r -> last_command (tx_db s) uuid l -> inv_kept (tx_db s) (tx_db s').
Proof using Erun Estatus.
  intros E Hr Hlast Hinv. unfold completeAccessEventSyncTime in E. destruct (negb _) eqn:Hs; [by apply sound_fail in E; apply E|].
  apply negb_false_iff, bool_decide_eq_true in Hs. rewrite Estatus in Hs.
  destruct (ParseTerminalTime source) as [now|]; [|by apply sound_fail in E; apply E].
  destruct (NewRetainedEventSearchRequest _ _ _) as [request|]; [|by apply sound_fail in E; apply E].
  destruct (sc_CreatedByID command) as [admin|]; [|by apply sound_fail in E; apply E].
  apply tx_bind_Ok in E as (u1 & s1 & [= _ <-] & E). apply tx_bind_Ok in E as (clock & s1 & [= <- <-] & E).
  match type of E with context [mkTxState ?d' _ _] => set (d1 := d') in E; pose proof (started_run (tx_db s) _ _ Hinv Hr Hs : store_inv d1) as Hinv1 end.
  apply tx_bind_Ok in E as (queued & s1 & E1%attempt_Ok & E). destruct queued as [[next act]|]; [|subst s1; by apply sound_fail in E; apply E].
  apply tx_bind_Ok in E as (u2 & s2 & E2 & E). tx_invs E. apply sound_activity in E0. apply E0.
  eapply next_command_sound; [exact E1|exact E2|exact Hinv1| |unfold d1; cbn; by rewrite lookup_alter_eq, Hr].
  cbn [tx_db]. rewrite Erun. apply (last_command_settled d1 uuid); [by apply (last_command_same (tx_db s))|left].
  intros u' l' Hl' Hr'. eapply (pg_awaiting _ (proj2 Hinv) u' l' r); [exact Hl'| |done]. by rewrite Hr', <- Erun.
Qed.

Lemma advanced_run d total pages imported duplicates : store_inv d -> db_sync_runs d !! sc_RunUUID command = Some r ->
  sy_status r = SyncRunning -> 0 <= pages -> 0 <= imported -> 0 <= duplicates ->
  store_inv (on_sync_runs (alter (run_advanced total pages imported duplicates) (sc_RunUUID command)) d).
Proof using.
  intros Hinv Hr Hs P1 P2 P3. rewrite (on_sync_runs_alter _ _ _ r Hr). pose proof (run_row_ok _ _ _ Hinv Hr) as Hrow.
  assert (Hl : lifecycle_check r = true) by apply Hrow.
  eapply inv_sync_run; [done|exact Hr| |done..]. apply (sync_row_state _ _ r); try done.
  unfold lifecycle_check in Hl |- *. cbn. rewrite Hs in Hl |- *. exact Hl.
Qed.

Lemma completed_run d total pages imported duplicates at_ : store_inv d -> db_sync_runs d !! sc_RunUUID command = Some r ->
  sy_status r = SyncRunning -> 1 <= pages -> 0 <= imported -> 0 <= duplicates -> imported + duplicates = total ->
  store_inv (on_sync_runs (alter (run_completed total pages imported duplicates at_) (sc_RunUUID command)) d).
Proof using.
  intros Hinv Hr Hs P1 P2 P3 Htot. rewrite (on_sync_runs_alter _ _ _ r Hr). pose proof (run_row_ok _ _ _ Hinv Hr) as Hrow.
  assert (Hl : lifecycle_check r = true) by apply Hrow. destruct (lifecycle_running r Hl Hs) as (L1 & L2 & L3 & _).
  eapply inv_sync_run; [done|exact Hr| |done..]. apply (sync_row_state _ _ r); try done; [cbn; lia|].
  unfold lifecycle_check. cbn. rewrite !bool_decide_true by (done || congruence). cbn.
  by rewrite (proj2 (Z.leb_le _ _)) by done.
Qed.

Context (Epos : sc_Position command = sl_search_result_position l) (Ephase : sl_phase l = PhasePage).

Lemma next_page_sound ended position position' total pages imported duplicates act c s acts s' :
  next_page command ended position' total pages imported duplicates act c s = Ok (acts, s') ->
  db_sync_runs (tx_db s) !! sc_RunUUID command = Some r -> sy_status r = SyncRunning -> last_command (tx_db s) uuid l ->
  sc_Position command = Some position -> position < position' -> 0 <= pages -> 0 <= imported -> 0 <= duplicates ->
  inv_kept (tx_db s) (tx_db s').
Proof using Erun Epos Ephase.
  intros E Hr Hs Hlast Hpos Hlt P1 P2 P3 Hinv. unfold next_page in E.
  destruct (sc_CreatedByID command) as [admin|]; [|by apply sound_fail in E; apply E].
  apply tx_bind_Ok in E as (ended' & s1 & [= <- <-] & E).
  destruct (NewRetainedEventSearchRequest _ _ _) as [request|]; [|done].
  apply tx_bind_Ok in E as (u1 & s1 & [= _ <-] & E). apply tx_bind_Ok in E as (clock & s1 & [= <- <-] & E).
  match type of E with context [mkTxState ?d' _ _] => set (d1 := d') in E;
    pose proof (advanced_run (tx_db s) total pages imported duplicates Hinv Hr Hs P1 P2 P3 : store_inv d1) as Hinv1 end.
  apply tx_bind_Ok in E as (queued & s1 & E1%attempt_Ok & E). destruct queued as [[next act']|]; [|subst s1; by apply sound_fail in E; apply E].
  apply tx_bind_Ok in E as (u2 & s2 & E2 & E). tx_invs E.
  eapply next_command_sound; [exact E1|exact E2|exact Hinv1| |unfold d1; cbn; by rewrite lookup_alter_eq, Hr; cbn; rewrite Hs].
  cbn [tx_db]. rewrite Erun. apply (last_command_settled d1 uuid); [by apply (last_command_same (tx_db s))|right].
  exists position. by rewrite <- Epos.
Qed.

Context (Eterminal : sc_Terminal command = sy_terminal_serial_number r)
        (Epages : sc_PagesCompleted command = sy_pages_completed r)
        (Eimported : sc_Imported command = sy_records_imported r) (Eduplicate : sc_Duplicate command = sy_records_duplicate r).

Lemma complete_page_sound source at_ c s acts s' : completeAccessEventSyncPage command uuid source at_ c s = Ok (acts, s') ->
  db_sync_runs (tx_db s) !! sc_RunUUID command = Some r -> last_command (tx_db s) uuid l -> inv_kept (tx_db s) (tx_db s').
Proof using All.
  intros E Hr Hlast Hinv. unfold completeAccessEventSyncPage in E.
  assert (Hfail : forall reason s1 s2 a, failAccessEventSync (sc_RunUUID command) reason c s1 = Ok (a, s2) ->
    store_inv (tx_db s1) -> store_inv (tx_db s2)) by (intros * Ef; by apply sound_fail in Ef).
  destruct (sc_Position command) as [position|] eqn:Hpos in E; [|by eapply Hfail].
  destruct (sc_SearchStarted command); [|by eapply Hfail]. destruct (sc_SearchEnded command) as [ended|]; [|by eapply Hfail].
  destruct (negb _) eqn:Hs; [by eapply Hfail|]. apply negb_false_iff, bool_decide_eq_true in Hs. rewrite Estatus in Hs.
  destruct (ParseRetainedEventPage source) as [page|] eqn:Hpage; [|by eapply Hfail].
  destruct (page_problem command position page) eqn:Hprob; [by eapply Hfail|].
  destruct (page_records page) as [records|] eqn:Hrec; [|by eapply Hfail].
  apply ParseRetainedEventPage_spec in Hpage as (_ & Hnum & _). apply page_problem_None in Hprob as (_ & _ & _ & _ & Hmore & _).
  apply tx_bind_Ok in E as ([inserted duplicate] & s1 & E1 & E). pose proof (insertRetained_counts _ _ _ _ _ _ _ _ E1) as (_ & C1 & C2).
  pose proof (run_row_ok _ _ _ Hinv Hr) as (_ & Ht & _ & _ & _ & R1 & R2 & R3 & _).
  destruct (insertRetained_sound _ _ _ _ _ _ _ E1 (page_records_ok _ _ Hrec) ltac:(by rewrite Eterminal) ltac:(by eexists)
              (proj1 (proj2 Hlast)) Hinv) as [Hinv1 Hp]. injection Hp as T1 T2 T3 T4.
  apply tx_bind_Ok in E as (pageActivity & s2 & E2 & E). assert (Hinv2 : store_inv (tx_db s2)) by (apply sound_activity in E2; by apply E2).
  assert (Hlog : page_tables (tx_db s2) = page_tables (tx_db s1)) by (by apply (frame_activity page_tables) in E2).
  injection Hlog as V1 V2 V3 V4. assert (Hr2 : db_sync_runs (tx_db s2) !! sc_RunUUID command = Some r) by by rewrite V2, T2.
  assert (Hlast2 : last_command (tx_db s2) uuid l) by (apply (last_command_same (tx_db s)); congruence || done).
  destruct (bool_decide (rp_ResponseStatus page = "MORE")) eqn:Hst.
  - apply bool_decide_eq_true in Hst. destruct (Hmore Hst) as [Hne _].
    eapply next_page_sound; [exact E|exact Hr2|done|done|done|lia..|done].
  - destruct (negb (_ =? _)) eqn:Htot; [by eapply Hfail|]. apply negb_false_iff, Z.eqb_eq in Htot.
    tx_invs E. apply sound_activity in E0. apply E0. apply completed_run; [done|done|done|lia..].
Qed.
End retained.

Section completion.
Context `{GoParsers} `{CryptoLib} `{!CryptoLaws}.

Lemma complete_sync_sound terminal result at_ c s acts s' :
  completeAccessEventSyncCommand terminal result at_ c s = Ok (acts, s') ->
  (forall l, db_sync_links (tx_db s) !! icr_UUID result = Some l -> last_command (tx_db s) (icr_UUID result) l) ->
  inv_kept (tx_db s) (tx_db s').
Proof using Type*.
  intros E Hlast Hinv. unfold completeAccessEventSyncCommand in E. apply tx_bind_Ok in E as (found & s1 & [= <- <-] & E).
  destruct (sync_command (tx_db s) (icr_UUID result)) as [command|] eqn:Hc; [|by injection E as _ <-].
  destruct (negb _); [done|]. destruct (negb _); [done|].
  destruct (b64_DecodeString _) as [source|]; [|by apply sound_fail in E; apply E].
  unfold sync_command in Hc. apply bind_Some in Hc as (l & Hl & (r & Hr & [= <-])%bind_Some). specialize (Hlast l Hl).
  cbn [sc_Phase] in E. destruct (sl_phase l) eqn:Hphase.
  - refine (complete_time_sound (icr_UUID result) _ l r _ _ _ _ _ _ _ E _ _ Hinv); done.
  - match type of E with context [if ?b then _ else _] => destruct b end; [by apply sound_fail in E; apply E|].
    refine (complete_page_sound (icr_UUID result) _ l r _ _ _ _ _ _ _ _ _ _ _ _ _ _ E _ _ Hinv); done.
Qed.

Lemma completed_row d now format data uuid r : command_row_ok d uuid r ->
  command_state_check (command_completed now format data r) = true -> opt_ok supportedDataFormat format = true ->
  command_row_ok d uuid (command_completed now format data r).
Proof using. intros Hok Hs Hf. by apply (command_row_state d uuid r). Qed.

Lemma sound_complete_one terminal acts result : sound (complete_one terminal acts result).
Proof using Type*.
  intros c s a s' E Hinv. unfold complete_one in E. tx_invs E; [|done].
  apply andb_true_iff in E0 as [Hcheck Hf].
  match type of E1 with insertGatewayActivity _ _ (mkTxState ?d' _ _) = _ => set (d1 := d') in E1 end.
  lazymatch type of E2 with completeAccessEventSyncCommand _ _ _ _ ?x = _ => rename x into s1 end.
  pose proof (ok_commands _ (proj1 Hinv) _ _ Hm) as Hrow. cbn beta in Hrow.
  assert (Hd1 : store_inv d1).
  { apply inv_commands_rows; [done|apply grows_insert|]. intros k r'. intros [[<- <-]|[_ Hr]]%lookup_insert_Some; [|by eauto].
    eexists. split; [exact Hm|]. split; [|done]. intros _. by apply completed_row. }
  pose proof (sound_activity _ _ _ _ _ E1 Hd1) as Hs1. eapply complete_sync_sound; [exact E2| |exact Hs1].
  assert (Hlog : page_tables (tx_db s1) = page_tables d1) by (by apply (frame_activity page_tables) in E1).
  injection Hlog as _ _ T3 T4. intros l Hl. rewrite T4 in Hl. apply (last_command_same d1); [done|done|].
  assert (Hopen : open_command (tx_db s) (icr_UUID result)) by (eexists; split; [exact Hm|by unfold command_open; rewrite Hm0]).
  split_and!; [done|cbn; rewrite lookup_insert_eq; eauto| |].
  - intros (x & Hx & Ho). cbn in Hx. rewrite lookup_insert_eq in Hx. by injection Hx as <-.
  - apply (frontier_later (tx_db s)); [done| |by apply (pg_frontier _ (proj2 Hinv))].
    intros u (x & Hx & Ho). cbn in Hx. apply lookup_insert_Some in Hx as [[<- <-]|[_ Hx]]; [done|by exists x].
Qed.

Lemma sound_Complete terminal results : sound (CompleteISAPICommands_tx terminal results).
Proof using Type*.
  assert (forall acts r, sound (complete_one terminal acts r)) by apply sound_complete_one.
  unfold CompleteISAPICommands_tx. sound_auto.
Qed.
End completion.

(** ** Starting a run *)
Lemma uuid_length s : commandUUID s = true -> text_length s = 36.
Proof.
  unfold commandUUID, strings_Split. intros Hu. pose proof (split_bytes_join "-"%char (bytes_of s)) as Hj.
  destruct (split_bytes _ _ _) as [|a [|b [|x [|y [|z [|? ?]]]]]]; try done. cbn in Hu. rewrite !andb_true_iff, !class_exactly_spec in Hu.
  rewrite !bytes_of_string_of in Hu. destruct Hu as [[[[[H1 C1] [H2 C2]] [H3 C3]] [H4 C4]] [H5 C5]].
  rewrite text_length_ascii.
  2: { rewrite <- Hj. cbn. repeat (apply Forall_app; split; [|constructor; [done|]]);
       (eapply list.Forall_impl; [done|apply lower_hex_ascii]). }
  unfold slen. rewrite <- (length_bytes_of s), <- Hj. cbn. repeat (rewrite length_app; cbn). lia.
Qed.

Lemma sound_QueueAccessEventSync terminal identity : sound (QueueAccessEventSync_tx terminal identity).
Proof.
  unfold QueueAccessEventSync_tx. destruct (_ || _) eqn:Hid; [sound_auto|]. sound_step; [auto with sound|].
  apply orb_false_iff in Hid as [_ Hname%bool_decide_eq_false].
  intros c s x s' E Hinv. apply tx_bind_Ok in E as (known & s1 & [= <- <-] & E).
  destruct (db_terminals (tx_db s) !! terminal) as [t|] eqn:Ht; [|done]. destruct (negb _); [done|].
  apply tx_bind_Ok in E as (active & s1 & [= <- <-] & E). destruct (exists_row _ _) eqn:Hact; [done|].
  rewrite exists_row_false in Hact. apply tx_bind_Ok in E as (run & s1 & Eu & E).
  assert (Hf : frame (fun d => d) newISAPICommandUUID) by (unfold newISAPICommandUUID; frame_auto).
  apply Hf in Eu. cbn beta in Eu. apply tx_bind_Ok in E as (now & s2 & [= <- <-] & E).
  apply tx_bind_Ok in E as (taken & s2 & [= <- <-] & E). apply tx_bind_Ok in E as (u1 & s2 & [Hk ->]%constraint_Ok & E).
  apply andb_true_iff in Hk as [Hnew%negb_true_iff%bool_decide_eq_false%eq_None_not_Some Huuid].
  apply tx_bind_Ok in E as (u2 & s2 & [Hadmin ->]%admin_exists_Ok & E). apply tx_bind_Ok in E as (u3 & s2 & [= _ <-] & E).
  apply tx_bind_Ok in E as (clock & s2 & [= <- <-] & E). apply tx_bind_Ok in E as ([command act] & s2 & Eq & E).
  apply tx_bind_Ok in E as (u4 & s3 & El & E). tx_invs E. apply sound_activity in E0. apply E0. clear E0. cbn [tx_db] in Eq.
  rewrite Eu in *. clear Eu Hf.
  match type of Eq with queueISAPICommandTx _ _ (mkTxState ?d' _ _) = _ => set (d1 := d') in Eq end.
  assert (Hfresh : forall u l, db_sync_links (tx_db s) !! u = Some l -> sl_sync_run_uuid l <> run).
  { intros u l Hl <-. destruct (ok_sync_links _ (proj1 Hinv)) as [Hrows _]. destruct (Hrows u l Hl) as (_ & [r Hr] & _). congruence. }
  assert (Hd1 : store_inv d1).
  { apply inv_sync_runs; [done|apply grows_insert| |].
    - destruct (ok_sync_runs _ (proj1 Hinv)) as [Hrows Hu]. split; cbn.
      + apply map_Forall_insert_2; [|done]. unfold sync_row_ok. cbn. rewrite (uuid_length _ Huuid). split_and!; try done; by eexists.
      + apply unique_insert; [done|]. intros k v x Hk _ Ev [= <-]. specialize (Hact k v Hk). unfold run_active in Hact.
        destruct (sync_active (sy_status v)); [|done]. injection Ev as Ev. by rewrite bool_decide_true in Hact.
    - intros run' r [[<- _]|[_ Hr]]%lookup_insert_Some Hw; [by right|left; eauto]. }
  destruct (queue_sound _ _ _ _ _ _ Eq Hd1) as (Hinv2 & Hl2 & Hr2 & Hnone & Hc2 & _).
  unfold link_command in El. tx_invs El. cbn [tx_db] in *.
  eapply (inv_link _ _ _ _ Hinv2 Hc2 Hnone); [cbn; rewrite Hr2; cbn; by rewrite lookup_insert_eq|done|done|].
  intros u l Hl Hr. rewrite Hl2 in Hl. by destruct (Hfresh u l).
Qed.

(** ** The database *)
Section database.
Context `{GoParsers} `{CryptoLib} `{!CryptoLaws} `{Bcrypt}.

Lemma kept_committed {A} (m : Tx store_error TxCtx DB A) c d d' :
  (forall a d1, m c d = Ok (a, d1) -> inv_kept d d1) -> committed m c d = Some d' -> inv_kept d d'.
Proof using. unfold committed. intros Hm. destruct (m c d) as [[a d1]|]; [|done]. intros [= <-]. by apply (Hm a). Qed.

Lemma sound_run {A} (m : Txn A) c d a d' : sound m -> run m c d = Ok (a, d') -> inv_kept d d'.
Proof using. intros Hm (s' & E & <-)%run_Ok. by apply Hm in E. Qed.

Lemma sound_committed {A} (m : Txn A) c d d' : sound m -> committed (run m) c d = Some d' -> inv_kept d d'.
Proof using. intros Hm. apply kept_committed. intros a d1. by apply sound_run. Qed.

Lemma sound_perform op c d d' : perform op c d = Some d' -> inv_kept d d'.
Proof using Type*.
  assert (Hdel : forall h, sound (db_set (on_admin_sessions (filter (fun x => as_token_hash x.2 <> h)))))
    by (intros; apply sound_filter_sessions).
  destruct op; cbn [perform];
    first [ apply kept_committed; intros; first [by eapply sound_backfill_batch | by eapply sound_claim | by eapply sound_finish
              | by eapply sound_finish_attachment ]
          | apply sound_committed ].
  - apply sound_activity.
  - apply sound_Seed.
  - apply sound_Reconcile.
  - apply sound_Transition.
  - apply sound_Upsert.
  - apply sound_Expire.
  - apply sound_delete_session.
  - apply respects_for; [apply _|]. intros. apply sound_device_event.
  - apply sound_CreateSession.
  - unfold DeleteSessionWithActivity_tx. sound_auto.
  - sound_step; [sound_auto|]. apply sound_filter_sessions.
  - apply sound_QueueISAPICommand.
  - apply sound_expireOverdue.
  - apply sound_Claim.
  - apply sound_Complete.
  - apply sound_QueueAccessEventSync.
  - apply sound_SaveDeliveryRoute.
  - apply sound_DeleteDeliveryRoute.
  - apply sound_retry.
  - apply sound_claim_attachment.
  - apply sound_retry_attachment.
  - apply sound_QueueEventBackfill.
  - apply sound_QueueAttachmentBackfill.
Qed.

Lemma replay_inv h d : store_inv d -> store_inv (replay h d).
Proof using Type*.
  revert d. induction h as [|[op c] h IH]; intros d Hinv; [done|]. cbn. apply IH. unfold step_history. cbn.
  destruct (perform op c d) as [d'|] eqn:E; [|done]. by eapply sound_perform.
Qed.

(** Whatever methods of the store run, in any order, at any times and with any arguments. *)
Lemma history_admitted h : store_inv (replay h empty_DB).
Proof using Type*. apply replay_inv, empty_store_inv. Qed.
End database.
