(* ===== verification/WorkerSystem.v ===== *)
(** The delivery workers as a concurrent system: any number of workers on both queues, of one
    process or of several, with the rest of the gateway writing to the same database between
    their calls, outcomes that get lost and workers that stop at any point.

    A worker claims a row, sends it, and settles it, three steps of its own; what holds it
    together is the attempt number of a claim, which no other claim of that row gets. *)

From Stdlib Require Import ZArith Lia Ascii String.
From stdpp Require Import base gmap strings list option relations.
From S2P Require Import Prelude GoText GoTime GoJSON GoHTTP GoURL GoCrypto AccessControl Config Crypto StoreTypes Wire Database.
From S2P Require Import StoreCore Deliveries Worker Attachments Backfills Archive CommandQueue SyncRuns Commands Admin.
From S2P Require Import Schema StoreFrame CommandProofs OutboxProofs DeliveryProofs.

Local Open Scope string_scope.
Local Open Scope Z_scope.

(** ** Rows of the two queues *)
Definition queue_row (picture : bool) (id : Z) (d : DB) : option QueueRow :=
  if picture then ar_queue <$> db_attachments d !! id else dr_queue <$> db_deliveries d !! id.

(** A claimed delivery carries the message of its row, to the destination of its event and
    under its key. *)
Definition addressed (picture : bool) (e : EventDelivery) (d : DB) : Prop :=
  if picture then exists a event endpoint,
    db_attachments d !! ev_ID e = Some a /\ ar_request_body a = Some (ev_Body e) /\
    db_deliveries d !! ar_event_delivery_id a = Some event /\ NetURL.Parse (dr_endpoint_url event) = Some endpoint /\
    ev_EndpointURL e = NetURL.String_ (attachment_endpoint endpoint) /\ ev_SigningKeyID e = dr_signing_key_id event
  else exists r, db_deliveries d !! ev_ID e = Some r /\ dr_request_body r = ev_Body e /\
    dr_endpoint_url r = ev_EndpointURL e /\ dr_signing_key_id r = ev_SigningKeyID e.

Lemma row_le picture id d d' q : outbox_le d d' -> queue_row picture id d = Some q ->
  exists q', queue_row picture id d' = Some q' /\ qr_attempts q <= qr_attempts q' /\ (qr_status q = DlvDelivered -> q' = q).
Proof.
  intros [Hd Ha]. destruct picture; cbn; intros (r & Hr & ->)%fmap_Some.
  - destruct (Ha _ _ Hr) as (r' & Hr' & _ & _ & L & F). exists (ar_queue r'). rewrite Hr'. split_and!; [done..|].
    intros Hs. by rewrite (F Hs).
  - destruct (Hd _ _ Hr) as (r' & Hr' & _ & L & F). exists (dr_queue r'). rewrite Hr'. split_and!; [done..|].
    intros Hs. by rewrite (F Hs).
Qed.

Lemma addressed_le picture e d d' : outbox_le d d' -> addressed picture e d -> addressed picture e d'.
Proof.
  intros [Hd Ha]. assert (Hdest : forall id r, db_deliveries d !! id = Some r -> exists r', db_deliveries d' !! id = Some r' /\
    dr_request_body r' = dr_request_body r /\ dr_endpoint_url r' = dr_endpoint_url r /\ dr_signing_key_id r' = dr_signing_key_id r).
  { intros id r Hr. destruct (Hd _ _ Hr) as (r' & Hr' & <- & _). by exists r'. }
  destruct picture; cbn.
  - intros (a & event & endpoint & Hr & Hb & He & Hp & Hu & Hk). destruct (Hdest _ _ He) as (event' & He' & _ & E1 & E2).
    destruct (Ha _ _ Hr) as (a' & Ha' & P & B & _). specialize (B ltac:(by rewrite Hb)). exists a', event', endpoint.
    split_and!; [done| |by rewrite P|by rewrite E1|done|by rewrite E2].
    rewrite <- Hb, <- B. done.
  - intros (r & Hr & E1 & E2 & E3). destruct (Hdest _ _ Hr) as (r' & Hr' & ? & ? & ?). exists r'. split_and!; congruence.
Qed.

(** ** What the rest of the gateway does to the queues *)

(** It delivers nothing. *)
Definition beside_le (d d' : DB) : Prop := outbox_le d d' /\ forall picture id q',
  queue_row picture id d' = Some q' -> qr_status q' = DlvDelivered -> queue_row picture id d = Some q'.

#[local] Instance beside_le_preorder : PreOrder beside_le.
Proof.
  split; [done|]. intros d1 d2 d3 [L1 N1] [L2 N2]. split; [by etrans|]. intros p id q Hq Hs. apply N1; [|done]. by apply N2.
Qed.

Abbreviation beside_keeps := (respects beside_le).

Lemma beside_same d d' : outbox d' = outbox d -> beside_le d d'.
Proof.
  intros E. split; [by apply same_outbox|]. injection E as E1 E2. intros p id q'. unfold queue_row. by rewrite E1, E2.
Qed.

Lemma beside_frame {A} (m : Txn A) : frame outbox m -> beside_keeps m.
Proof. apply respects_frame, beside_same. Qed.

Lemma beside_insert_delivery q row : qr_status (dr_queue row) = DlvPending ->
  beside_keeps (insert_identity q db_deliveries on_deliveries row).
Proof.
  intros Hrow c s id s' E. split; [exact (keeps_insert_delivery _ _ _ _ _ _ E)|].
  apply insert_identity_Ok in E as [Hid ->]; [|done].
  intros [] i q'; cbn; [done|]. intros (r & Hr & ->)%fmap_Some Hs.
  apply lookup_insert_Some in Hr as [[_ <-]|[_ Hr]]; [congruence|by rewrite Hr].
Qed.

Lemma beside_insert_attachment q row : qr_status (ar_queue row) = DlvPending ->
  beside_keeps (insert_identity q db_attachments on_attachments row).
Proof.
  intros Hrow c s id s' E. split; [exact (keeps_insert_attachment _ _ _ _ _ _ E)|].
  apply insert_identity_Ok in E as [Hid ->]; [|done].
  intros [] i q'; cbn; [|done]. intros (r & Hr & ->)%fmap_Some Hs.
  apply lookup_insert_Some in Hr as [[_ <-]|[_ Hr]]; [congruence|by rewrite Hr].
Qed.

Create HintDb beside.
#[export] Hint Extern 1 (respects _ (insert_identity _ db_deliveries _ _)) => by apply beside_insert_delivery : beside.
#[export] Hint Extern 1 (respects _ (insert_identity _ db_attachments _ _)) => by apply beside_insert_attachment : beside.
Ltac beside_step :=
  lazymatch goal with
  | |- respects _ (mbind _ _) => apply respects_bind; [apply _| |intro]
  | |- respects _ (if ?b then _ else _) => destruct b
  | |- respects _ (match ?o with _ => _ end) => destruct o
  | |- respects _ (tx_for _ _ _) => apply respects_for; [apply _|intros]
  | |- respects _ _ => first [solve [auto with beside] | apply beside_frame; solve [frame_auto]]
  end; cbn beta iota zeta.
Ltac beside_auto := intros; cbn beta iota zeta; repeat beside_step.

Section beside.
Context `{GoParsers} `{CryptoLib} `{Bcrypt}.

Lemma frame_outbox_activity e : frame outbox (insertGatewayActivity e).
Proof using. by apply frame_activity. Qed.
Lemma frame_outbox_identity {V} q (table : DB -> gmap Z V) update row :
  (forall g d, outbox (update g d) = outbox d) -> frame outbox (insert_identity q table update row).
Proof using. intros Hu. by apply frame_insert_identity. Qed.
Lemma frame_outbox_fresh q : frame outbox (fresh_id q).
Proof using. by apply frame_fresh_id. Qed.
Lemma frame_outbox_expire serial : frame outbox (expireOverdueISAPICommandsTx serial).
Proof using. by apply frame_expireOverdue. Qed.
Lemma frame_outbox_queue input : frame outbox (queueISAPICommandTx input).
Proof using. by apply frame_queueISAPICommandTx. Qed.
Lemma frame_outbox_link uuid run phase position : frame outbox (link_command uuid run phase position).
Proof using. by apply frame_link. Qed.
Local Hint Resolve frame_outbox_activity frame_outbox_fresh frame_outbox_expire frame_outbox_queue
  frame_outbox_link : frame.
Local Hint Extern 1 (frame outbox (insert_identity _ _ _ _)) => apply frame_outbox_identity; reflexivity : frame.

Lemma beside_enqueueAttachment parent : beside_keeps (enqueueAttachment parent).
Proof using. unfold enqueueAttachment. beside_auto. Qed.
Local Hint Resolve beside_enqueueAttachment : beside.

Lemma beside_device_event acc e : beside_keeps (insert_device_event acc e).
Proof using. unfold insert_device_event, insertAccessEventProjection, enqueueEventDelivery, terminal_exists. beside_auto. Qed.
Local Hint Resolve beside_device_event : beside.

(** A manual retry of a failed row. *)
Lemma beside_retry id actor : beside_keeps (RetryEventDelivery_tx id actor).
Proof using.
  intros c s u s' E. unfold RetryEventDelivery_tx in E. tx_invs E.
  apply (beside_frame _ (frame_outbox_activity _)) in E0. etrans; [|exact E0]. cbn in Hm |- *. apply bool_decide_eq_true in Hb.
  split; [split; [|by apply same_attachments]; apply deliveries_insert; [done|]; split; [done|congruence]|].
  intros [] i q'; cbn; [done|]. intros (r & Hr & ->)%fmap_Some Hs.
  apply lookup_insert_Some in Hr as [[_ <-]|[_ Hr]]; [done|by rewrite Hr].
Qed.

Lemma beside_retry_attachment id actor : beside_keeps (RetryAttachmentDelivery_tx id actor).
Proof using.
  intros c s u s' E. unfold RetryAttachmentDelivery_tx in E.
  apply tx_bind_Ok in E as (now & s1 & [= <- <-] & E). apply tx_bind_Ok in E as (found & s1 & [= <- <-] & E).
  destruct (db_attachments (tx_db s) !! id) as [a|] eqn:Ha; [|done].
  cbn [mbind option_bind] in E. destruct (db_deliveries (tx_db s) !! ar_event_delivery_id a) as [parent|]; [|done].
  cbn [mbind option_bind] in E. destruct (db_terminals (tx_db s) !! dr_terminal_serial_number parent) as [t|]; [|done].
  cbn [mbind option_bind] in E. destruct (bool_decide _) eqn:Hb; [|done]. apply bool_decide_eq_true in Hb.
  tx_invs E. apply (beside_frame _ (frame_outbox_activity _)) in E0. etrans; [|exact E0].
  split; [split; [by apply same_deliveries|]; apply attachments_insert; [done|]; split; [done|congruence]|].
  intros [] i q'; cbn; [|done]. intros (r & Hr & ->)%fmap_Some Hs.
  apply lookup_insert_Some in Hr as [[_ <-]|[_ Hr]]; [done|by rewrite Hr].
Qed.

(** The methods that are not steps of a worker. *)
Definition beside (op : store_op) : bool :=
  match op with
  | OpClaimEventDelivery | OpFinishEventDelivery _ _ _ _ _ | OpClaimAttachment | OpFinishAttachment _ _ _ _ _ => false
  | _ => true
  end.

Lemma beside_committed {A} (m : Txn A) c d d' : beside_keeps m -> committed (run m) c d = Some d' -> beside_le d d'.
Proof using.
  unfold committed. intros Hm. destruct (run m c d) as [[a d1]|] eqn:E; [|done]. intros [= <-].
  apply run_Ok in E as (s' & E & <-). by apply Hm in E.
Qed.

Lemma beside_perform op c d d' : beside op = true -> perform op c d = Some d' -> beside_le d d'.
Proof using.
  destruct op; try done; intros _; cbn [perform]; apply beside_committed.
  all: try apply beside_retry; try apply beside_retry_attachment.
  all: try by (apply beside_frame; first [apply frame_outbox_activity | apply frame_ClaimISAPICommands | apply frame_CompleteISAPICommands]).
  all: unfold SeedConfiguredTerminals_tx, ReconcileConfiguredAdministrator_tx, delete_admins, hash_password,
    TransitionTerminalState_tx, UpsertPushSDKSession_tx, ExpirePushSDKLoginChallenge_tx, CreateSessionWithActivity_tx,
    DeleteSessionWithActivity_tx, QueueISAPICommand_tx, QueueAccessEventSync_tx, SaveDeliveryRoute_tx, DeleteDeliveryRoute_tx,
    QueueEventBackfill_tx, queue_candidate, previewEventBackfill, QueueAttachmentBackfill_tx, previewAttachments,
    insertAccessEventProjection, terminal_exists, newISAPICommandUUID; beside_auto.
Qed.
End beside.

(** ** The system *)

(** The destination of a claimed event. *)
Lemma claim_destination c d e d' : ClaimEventDelivery c d = Ok (Some e, d') ->
  addressed false e d' /\ ev_Attachment e = false.
Proof.
  intros (s' & E & <-)%run_Ok. unfold ClaimEventDelivery_tx in E. tx_invs E; [done|].
  split; [|done].
  eexists. cbn. rewrite lookup_insert_eq. by split_and!.
Qed.

(** What a worker holds: a claimed delivery, and the outcome once it was sent. *)
Record Job := mkJob { j_picture : bool; j_delivery : EventDelivery; j_outcome : option (DeliveryStatus * Z * string) }.
(** One run of [send]; its number is its place in the log. *)
Record Exchange := mkExchange { x_picture : bool; x_delivery : EventDelivery; x_unix : Z }.
(** The database, the workers that hold a claim, and everything that was sent. *)
Record System := mkSystem { sm_db : DB; sm_jobs : gmap nat Job; sm_log : list Exchange }.

Definition claim_from (picture : bool) `{CryptoLib} `{GoParsers} : Tx store_error TxCtx DB (option EventDelivery) :=
  if picture then ClaimAttachment else ClaimEventDelivery.
Definition settle (picture : bool) (e : EventDelivery) (status : DeliveryStatus) (code : Z) (failure : string) (next : time)
    : Tx store_error TxCtx DB unit :=
  if picture then FinishAttachment e status code failure next else FinishEventDelivery e status code failure next.

(** The attempt a claim stands for. *)
Definition ticket (picture : bool) (e : EventDelivery) : bool * Z * Z := (picture, ev_ID e, ev_Attempts e).

Section system.
Context `{GoParsers} `{CryptoLib} `{Bcrypt} `{HTTPClient} (keys : gmap string string).

Inductive system_step : System -> System -> Prop :=
| sys_claim i picture c e d' s :
    sm_jobs s !! i = None -> claim_from picture c (sm_db s) = Ok (Some e, d') ->
    system_step s (mkSystem d' (<[i := mkJob picture e None]> (sm_jobs s)) (sm_log s))
| sys_nothing_due picture c d' s :
    claim_from picture c (sm_db s) = Ok (None, d') -> system_step s (mkSystem d' (sm_jobs s) (sm_log s))
| sys_send i picture e unix s :
    sm_jobs s !! i = Some (mkJob picture e None) ->
    system_step s (mkSystem (sm_db s) (<[i := mkJob picture e (Some (send keys e unix (length (sm_log s))))]> (sm_jobs s))
                     (sm_log s ++ [mkExchange picture e unix])%list)
| sys_settle i picture e status code failure next c d' s :
    sm_jobs s !! i = Some (mkJob picture e (Some (status, code, failure))) ->
    settle picture e status code failure next c (sm_db s) = Ok (tt, d') ->
    system_step s (mkSystem d' (delete i (sm_jobs s)) (sm_log s))
| sys_lose i s :
    (* the outcome is refused or the database is away; the reply of the claim got lost; or the
       worker stops, before or after it sent *)
    system_step s (mkSystem (sm_db s) (delete i (sm_jobs s)) (sm_log s))
| sys_beside op c d' s :
    beside op = true -> perform op c (sm_db s) = Some d' -> system_step s (mkSystem d' (sm_jobs s) (sm_log s)).

(** The exchange a delivery needs: status 200 and a short, valid receipt for the message. *)
Definition acknowledged (n : nat) (x : Exchange) : Prop := exists key response message,
  keys !! ev_SigningKeyID (x_delivery x) = Some key /\
  client_Do n (signed_request (x_delivery x) key (x_unix x)) = Some response /\ ir_code response = 200 /\
  (length (ir_body response) <= 4096)%nat /\ unmarshal_EventMessage (ev_Body (x_delivery x)) = Some message /\
  validReceipt (ir_body response) (em_EventID message) (em_SchemaVersion message)
    (if x_picture x then "Picture" else "") = true.

(** ** Steps *)
Lemma claim_from_Ok picture c d e d' : claim_from picture c d = Ok (Some e, d') ->
  beside_le d d' /\ addressed picture e d' /\ ev_Attachment e = picture /\
  exists q q', queue_row picture (ev_ID e) d = Some q /\ ev_Attempts e = qr_attempts q + 1 /\
    queue_row picture (ev_ID e) d' = Some q' /\ qr_attempts q' = ev_Attempts e.
Proof using.
  destruct picture; cbn [claim_from]; intros E.
  - pose proof (claim_attachment_le _ _ _ _ E) as Hle.
    apply claim_attachment_Ok in E as (a & event & endpoint & a' & Ha & He & _ & _ & Hc & Hu & Hf & (P & B & Q & _) & ->).
    split_and!.
    + split; [done|]. intros [] i q'; cbn; [|done]. intros (r & Hr & ->)%fmap_Some Hs.
      apply lookup_insert_Some in Hr as [[_ <-]|[_ Hr]]; [done|by rewrite Hr].
    + exists (with_attachment_queue a' (Deliveries.claimed (cx_now c) (ar_queue a))), event, endpoint. cbn.
      rewrite lookup_insert_eq, P, He. split_and!; try done; by rewrite Hf.
    + by rewrite Hf.
    + exists (ar_queue a), (Deliveries.claimed (cx_now c) (ar_queue a)). cbn. rewrite Ha, lookup_insert_eq.
      split_and!; [done| |done|]; by rewrite Hf.
  - pose proof (claim_le _ _ _ _ E) as Hle. pose proof (claim_destination _ _ _ _ E) as Hd.
    apply claim_delivery_Ok in E as (r & Hr & Hc & Hat & _ & ->). split_and!; [|by apply Hd..|].
    + split; [done|]. intros [] i q'; cbn; [done|]. intros (x & Hx & ->)%fmap_Some Hs.
      apply lookup_insert_Some in Hx as [[_ <-]|[_ Hx]]; [done|by rewrite Hx].
    + exists (dr_queue r), (Deliveries.claimed (cx_now c) (dr_queue r)). cbn. rewrite Hr, lookup_insert_eq. by split_and!.
Qed.

Lemma claim_nothing picture c d d' : claim_from picture c d = Ok (None, d') -> d' = d.
Proof using. destruct picture; cbn [claim_from]; [by intros E%claim_attachment_Ok|by intros [E _]%claim_delivery_Ok]. Qed.

Lemma settle_Ok picture e status code failure next c d d' :
  settle picture e status code failure next c d = Ok (tt, d') ->
  outbox_le d d' /\ forall p id q', queue_row p id d' = Some q' -> qr_status q' = DlvDelivered ->
    queue_row p id d = Some q' \/ p = picture /\ id = ev_ID e /\ status = DlvDelivered /\ qr_attempts q' = ev_Attempts e.
Proof using.
  destruct picture; cbn [settle].
  - intros (a & Ha & Ho & ->)%finish_attachment_Ok. split.
    { split; [by apply same_deliveries|]. apply attachments_insert; [done|by eapply owned_update]. }
    intros [] i q'; cbn; [|by left]. intros (r & Hr & ->)%fmap_Some Hs.
    apply lookup_insert_Some in Hr as [[<- <-]|[_ Hr]]; [right|left; by rewrite Hr].
    apply andb_true_iff in Ho as [Ho%Z.eqb_eq _]. done.
  - intros (r & Hr & Ho & ->)%finish_Ok. split.
    { split; [|by apply same_attachments]. apply deliveries_insert; [done|by eapply owned_update]. }
    intros [] i q'; cbn; [by left|]. intros (x & Hx & ->)%fmap_Some Hs.
    apply lookup_insert_Some in Hx as [[<- <-]|[_ Hx]]; [right|left; by rewrite Hx].
    apply andb_true_iff in Ho as [Ho%Z.eqb_eq _]. done.
Qed.

(** A run of [send] that delivers was acknowledged. *)
Lemma send_acknowledged picture e unix n code failure :
  ev_Attachment e = picture -> send keys e unix n = (DlvDelivered, code, failure) ->
  acknowledged n (mkExchange picture e unix).
Proof using.
  intros <-. unfold send. intros E. destruct (keys !! ev_SigningKeyID e) as [key|] eqn:Hkey; [|done]. destruct (negb _); [done|].
  destruct (client_Do n _) as [response|] eqn:Hdo; [|done]. unfold judge in E.
  destruct (_ || _); [done|]. destruct (ir_code response =? 200) eqn:Hcode; [|done]. apply Z.eqb_eq in Hcode.
  cbn [negb] in E. unfold read_limited in E.
  destruct (4097 <=? length (ir_body response))%nat eqn:Hlen.
  { apply Nat.leb_le in Hlen. rewrite length_take in E.
    destruct (4096 <? 4097 `min` length (ir_body response))%nat eqn:Hbig; [done|]. apply Nat.ltb_ge in Hbig. lia. }
  destruct (ir_broken response); [done|]. destruct (4096 <? length (ir_body response))%nat eqn:Hbig; [done|].
  apply Nat.ltb_ge in Hbig. destruct (unmarshal_EventMessage (ev_Body e)) as [message|] eqn:Hm; [|done].
  destruct (validReceipt _ _ _ _) eqn:Hv; [|done]. exists key, response, message. by split_and!.
Qed.

(** ** The invariant *)

(** A claim that was made: its row has its message and has had its attempt. *)
Definition issued (d : DB) (picture : bool) (e : EventDelivery) : Prop :=
  addressed picture e d /\ ev_Attachment e = picture /\
  exists q, queue_row picture (ev_ID e) d = Some q /\ ev_Attempts e <= qr_attempts q.

Definition x_ticket (x : Exchange) : bool * Z * Z := ticket (x_picture x) (x_delivery x).
Definition j_ticket (j : Job) : bool * Z * Z := ticket (j_picture j) (j_delivery j).

Record system_inv (d0 : DB) (s : System) : Prop := {
  inv_jobs : map_Forall (fun _ j => issued (sm_db s) (j_picture j) (j_delivery j)) (sm_jobs s);
  inv_log : Forall (fun x => issued (sm_db s) (x_picture x) (x_delivery x)) (sm_log s);
  inv_exclusive : forall i1 i2 j1 j2, sm_jobs s !! i1 = Some j1 -> sm_jobs s !! i2 = Some j2 ->
    j_ticket j1 = j_ticket j2 -> i1 = i2;
  inv_unsent : map_Forall (fun _ j => j_outcome j = None -> j_ticket j ∉ x_ticket <$> sm_log s) (sm_jobs s);
  inv_once : NoDup (x_ticket <$> sm_log s);
  inv_outcome : map_Forall (fun _ j => forall o, j_outcome j = Some o -> exists n unix,
    sm_log s !! n = Some (mkExchange (j_picture j) (j_delivery j) unix) /\ o = send keys (j_delivery j) unix n) (sm_jobs s);
  inv_delivered : forall picture id q, queue_row picture id (sm_db s) = Some q -> qr_status q = DlvDelivered ->
    queue_row picture id d0 = Some q \/
    exists n x, sm_log s !! n = Some x /\ x_ticket x = (picture, id, qr_attempts q) /\ acknowledged n x
}.

Lemma issued_le d d' picture e : outbox_le d d' -> issued d picture e -> issued d' picture e.
Proof using.
  intros Hle (A & B & q & Hq & L). split_and!; [by eapply addressed_le|done|].
  destruct (row_le _ _ _ _ _ Hle Hq) as (q' & Hq' & L' & _). exists q'. split; [done|lia].
Qed.

(** Only the database changed. *)
Lemma system_inv_database d0 s d' : beside_le (sm_db s) d' -> system_inv d0 s -> system_inv d0 (mkSystem d' (sm_jobs s) (sm_log s)).
Proof using.
  intros [Hle Hnew] [I1 I2 I3 I4 I5 I6 I7]. split; cbn; try done.
  - intros i j Hj. by eapply issued_le, I1.
  - eapply Forall_impl; [exact I2|]. intros x. by apply issued_le.
  - intros p id q Hq Hs. apply I7; [|done]. by apply Hnew.
Qed.

(** A worker gave up. *)
Lemma inv_release d0 s i : system_inv d0 s -> system_inv d0 (mkSystem (sm_db s) (delete i (sm_jobs s)) (sm_log s)).
Proof using.
  intros [I1 I2 I3 I4 I5 I6 I7]. split; cbn; try done; try by apply map_Forall_delete.
  intros i1 i2 j1 j2 [_ Hj1]%lookup_delete_Some [_ Hj2]%lookup_delete_Some. by apply I3.
Qed.

Lemma inv_claim d0 s i picture c e d' : system_inv d0 s -> sm_jobs s !! i = None ->
  claim_from picture c (sm_db s) = Ok (Some e, d') ->
  system_inv d0 (mkSystem d' (<[i := mkJob picture e None]> (sm_jobs s)) (sm_log s)).
Proof using.
  intros Hinv Hi (Hle & Had & Hat & q & q' & Hq & Hn & Hq' & Hn')%claim_from_Ok.
  (* no earlier claim has this ticket *)
  assert (Hfresh : forall p x, issued (sm_db s) p x -> ticket p x <> ticket picture e).
  { intros p x (_ & _ & y & Hy & L) E. unfold ticket in E. injection E as -> E1 E2. rewrite E1 in Hy.
    assert (y = q) as -> by congruence. lia. }
  destruct (system_inv_database d0 s d' Hle Hinv) as [I1 I2 I3 I4 I5 I6 I7]. destruct Hinv as [J1 J2 _ _ _ _ _]. cbn in *.
  split; cbn; try done; try (apply map_Forall_insert_2; [|done]); cbn.
  - split_and!; [done..|]. exists q'. split; [done|lia].
  - intros i1 i2 j1 j2 [[<- <-]|[N1 Hj1]]%lookup_insert_Some [[<- <-]|[N2 Hj2]]%lookup_insert_Some E; [done|..|by eapply I3].
    + destruct (Hfresh _ _ (J1 _ _ Hj2)). done.
    + by destruct (Hfresh _ _ (J1 _ _ Hj1)).
  - intros _ (x & E & Hx)%list_elem_of_fmap. rewrite list.Forall_forall in J2. by destruct (Hfresh _ _ (J2 _ Hx)).
  - done.
Qed.

Lemma inv_send d0 s i picture e unix : system_inv d0 s -> sm_jobs s !! i = Some (mkJob picture e None) ->
  system_inv d0 (mkSystem (sm_db s) (<[i := mkJob picture e (Some (send keys e unix (length (sm_log s))))]> (sm_jobs s))
                   (sm_log s ++ [mkExchange picture e unix])%list).
Proof using.
  intros [I1 I2 I3 I4 I5 I6 I7] Hi. pose proof (I1 _ _ Hi) as Hiss. cbn in Hiss.
  assert (Hlog : x_ticket <$> (sm_log s ++ [mkExchange picture e unix])%list = ((x_ticket <$> sm_log s) ++ [ticket picture e])%list)
    by by rewrite fmap_app.
  assert (Hlater : forall n x, sm_log s !! n = Some x -> (sm_log s ++ [mkExchange picture e unix])%list !! n = Some x).
  { intros n x Hx. by apply lookup_app_l_Some. }
  split; cbn.
  - by apply map_Forall_insert_2.
  - apply Forall_app. split; [done|]. by apply Forall_singleton.
  - intros i1 i2 j1 j2 [[<- <-]|[N1 Hj1]]%lookup_insert_Some [[<- <-]|[N2 Hj2]]%lookup_insert_Some E; [done|..|by eapply I3].
    + by apply (I3 _ _ _ _ Hi Hj2).
    + by apply (I3 _ _ _ _ Hj1 Hi).
  - intros i' j [[<- <-]|[N Hj]]%lookup_insert_Some; [done|]. intros Ho. rewrite Hlog, elem_of_app, list_elem_of_singleton.
    intros [Hx|E]; [by apply (I4 _ _ Hj Ho)|]. by apply N, (I3 _ _ _ _ Hi Hj).
  - rewrite Hlog. apply list.NoDup_app. split_and!; [done| |apply NoDup_singleton].
    intros x Hx ->%list_elem_of_singleton. by apply (I4 _ _ Hi).
  - apply map_Forall_insert_2; cbn.
    + intros o [= <-]. exists (length (sm_log s)), unix. split; [|done]. by rewrite lookup_app_r, Nat.sub_diag.
    + intros i' j Hj o Ho. destruct (I6 _ _ Hj o Ho) as (n & u & Hn & E). exists n, u. auto.
  - intros p id q Hq Hs. destruct (I7 _ _ _ Hq Hs) as [|(n & x & Hn & Hx)]; [by left|]. right. exists n, x. auto.
Qed.

Lemma inv_settle d0 s i picture e status code failure next c d' :
  system_inv d0 s -> sm_jobs s !! i = Some (mkJob picture e (Some (status, code, failure))) ->
  settle picture e status code failure next c (sm_db s) = Ok (tt, d') ->
  system_inv d0 (mkSystem d' (delete i (sm_jobs s)) (sm_log s)).
Proof using.
  intros Hinv Hi [Hle Hnew]%settle_Ok. destruct (inv_release d0 s i Hinv) as [I1 I2 I3 I4 I5 I6 I7].
  destruct (inv_jobs _ _ Hinv _ _ Hi) as (_ & Hat & _). destruct (inv_outcome _ _ Hinv _ _ Hi _ eq_refl) as (n & unix & Hn & Ho).
  cbn in *. split; cbn; try done.
  - intros i' j Hj. by eapply issued_le, I1.
  - eapply Forall_impl; [exact I2|]. intros x. by apply issued_le.
  - intros p id q Hq Hs. destruct (Hnew _ _ _ Hq Hs) as [Hold|(-> & -> & -> & Ha)]; [by apply I7|].
    right. exists n, (mkExchange picture e unix). split_and!; [done|by rewrite Ha|]. by eapply send_acknowledged.
Qed.

Lemma system_inv_step d0 s s' : system_step s s' -> system_inv d0 s -> system_inv d0 s'.
Proof using.
  destruct 1 as [i p c e d' s Hi E|p c d' s E|i p e unix s Hi|i p e st code f next c d' s Hi E|i s|op c d' s Hb E]; intros Hinv.
  - by eapply inv_claim.
  - apply claim_nothing in E as ->. by apply system_inv_database.
  - by apply inv_send.
  - by eapply inv_settle.
  - by apply inv_release.
  - apply system_inv_database; [|done]. by eapply beside_perform.
Qed.

Lemma system_inv_start d0 : system_inv d0 (mkSystem d0 ∅ []).
Proof using. split; cbn; try apply map_Forall_empty; [constructor|done|constructor|by left]. Qed.

(** C31: delivered means acknowledged, once per attempt.  Whatever any number of workers and
    the rest of the gateway do to the database between each other's steps, with outcomes that
    get lost and workers that stop: an event or a picture that became delivered was sent, in
    the very attempt its row counts, as the message and to the destination the row stands
    for, and was answered with status 200 and a valid receipt of at most 4096 bytes; no
    attempt is ever sent twice; and every attempt that was sent is counted by its row. *)
Theorem delivered_was_acknowledged d0 s :
  rtc system_step (mkSystem d0 ∅ []) s ->
  (forall picture id q, queue_row picture id (sm_db s) = Some q -> qr_status q = DlvDelivered ->
     queue_row picture id d0 = Some q \/
     exists n x, sm_log s !! n = Some x /\ x_ticket x = (picture, id, qr_attempts q) /\
       addressed picture (x_delivery x) (sm_db s) /\ acknowledged n x) /\
  NoDup (x_ticket <$> sm_log s) /\
  (forall x, x ∈ sm_log s -> exists q, queue_row (x_picture x) (ev_ID (x_delivery x)) (sm_db s) = Some q /\
     ev_Attempts (x_delivery x) <= qr_attempts q).
Proof using.
  intros Hs. assert (Hinv : system_inv d0 s).
  { pose proof (system_inv_start d0) as Hstart. induction Hs as [|s1 s2 s3 Hst _ IH]; [done|]. apply IH. by eapply system_inv_step. }
  destruct Hinv as [_ I2 _ _ I5 _ I7]. rewrite list.Forall_forall in I2. split_and!; [|done|].
  - intros p id q Hq Hst. destruct (I7 _ _ _ Hq Hst) as [|(n & x & Hn & Hx & Hack)]; [by left|]. right. exists n, x.
    split_and!; [done..| |done]. destruct (I2 x) as (Had & _); [by eapply list_elem_of_lookup_2|].
    by injection Hx as <- _ _.
  - intros x Hx. by destruct (I2 x Hx) as (_ & _ & ?).
Qed.

(** ** The loop of a worker is one schedule of the system *)
Definition shared_queue (picture : bool) : DeliveryQueue :=
  {| q_st := DB; q_ctx := TxCtx; claim_delivery := claim_from picture; finish_delivery := settle picture |}.

Lemma shared_event_queue : shared_queue false = event_queue.
Proof using. reflexivity. Qed.
Lemma shared_attachment_queue : shared_queue true = attachment_queue.
Proof using. reflexivity. Qed.

Section loop.
Context (picture : bool).
#[local] Instance the_queue : DeliveryQueue := shared_queue picture.
Context (env : WorkerEnv) (jobs : gmap nat Job) (i : nat) (Hi : jobs !! i = None).

(** The system a worker and its colleagues are in between its claims. *)
Definition around (w : WorkerState) (log : list Exchange) : System := mkSystem (ws_queue w) jobs log.
Definition scheduled (w w' : WorkerState) : Prop := forall log, ws_exchanges w = length log ->
  exists log', rtc system_step (around w log) (around w' log') /\ ws_exchanges w' = length log'.

#[local] Instance scheduled_preorder : PreOrder scheduled.
Proof using.
  split; [by intros w log Hl; exists log|]. intros w1 w2 w3 S1 S2 log Hl. destruct (S1 _ Hl) as (l2 & R1 & L2).
  destruct (S2 _ L2) as (l3 & R2 & L3). exists l3. split; [by etrans|done].
Qed.

(** A claimed delivery, from its claim to its settlement or its loss. *)
Lemma deliver_scheduled e w log : ws_exchanges w = length log ->
  exists log', rtc system_step (mkSystem (ws_queue w) (<[i := mkJob picture e None]> jobs) log)
                 (around (deliver keys env e w) log') /\ ws_exchanges (deliver keys env e w) = length log'.
Proof using Hi.
  intros Hl. unfold deliver. set (unix := Unix _). destruct (send keys e unix _) as [[status code] failure] eqn:Hsend.
  set (next := _ + _). set (w1 := mkWorkerState _ _ _ _ _ _). rewrite Hl in Hsend.
  exists (log ++ [mkExchange picture e unix])%list.
  assert (Hlen : S (ws_exchanges w) = length (log ++ [mkExchange picture e unix])%list) by (rewrite length_app; cbn; lia).
  set (s1 := mkSystem (ws_queue w) (<[i := mkJob picture e (Some (status, code, failure))]> jobs) (log ++ [mkExchange picture e unix])%list).
  assert (Hsent : system_step (mkSystem (ws_queue w) (<[i := mkJob picture e None]> jobs) log) s1).
  { pose proof (sys_send i picture e unix (mkSystem (ws_queue w) (<[i := mkJob picture e None]> jobs) log)) as Hst. cbn in Hst.
    rewrite Hsend, insert_insert_eq in Hst. apply Hst. apply lookup_insert_eq. }
  assert (Hdel : delete i (sm_jobs s1) = jobs) by (by apply delete_insert_id).
  assert (Hlost : system_step s1 (mkSystem (ws_queue w) jobs (sm_log s1))).
  { pose proof (sys_lose i s1) as Hst. by rewrite Hdel in Hst. }
  unfold queue_call. destruct (we_fault env (ws_calls w1)).
  { split; [|done]. eapply rtc_l; [exact Hsent|]. apply rtc_once, Hlost. }
  destruct (finish_delivery e status code failure next _ _) as [[[] d']|err] eqn:E.
  - split; [|done]. eapply rtc_l; [exact Hsent|]. apply rtc_once.
    pose proof (sys_settle i picture e status code failure next _ d' s1 (lookup_insert_eq _ _ _) E) as Hst.
    by rewrite Hdel in Hst.
  - split; [|done]. eapply rtc_l; [exact Hsent|]. apply rtc_once, Hlost.
Qed.

Lemma drain_scheduled budget w : scheduled w (drain keys env budget w).2.
Proof using Hi.
  revert w. induction budget as [|budget IH]; intros w; cbn [drain]; [done|]. intros log Hl.
  destruct (queue_call env claim_delivery w) as [r w1] eqn:Ec. unfold queue_call in Ec.
  destruct (we_fault env (ws_calls w)); [injection Ec as <- <-; exists log; split; [apply rtc_refl|exact Hl]|].
  destruct (claim_delivery _ _) as [[[e|] d']|err] eqn:E; injection Ec as <- <-.
  3: { exists log. split; [apply rtc_refl|exact Hl]. }
  2: { exists log. destruct (we_lost env _); (split; [|exact Hl]); eapply rtc_once, (sys_nothing_due picture), E. }
  assert (Hclaim : system_step (around w log) (mkSystem d' (<[i := mkJob picture e None]> jobs) log))
    by exact (sys_claim i picture _ e d' (around w log) Hi E).
  destruct (we_lost env (ws_calls w)).
  { (* the claim stands, nobody works on it *)
    exists log. split; [|exact Hl]. eapply rtc_l; [exact Hclaim|]. apply rtc_once.
    pose proof (sys_lose i (mkSystem d' (<[i := mkJob picture e None]> jobs) log)) as Hst. cbn in Hst.
    by rewrite delete_insert_id in Hst by done. }
  set (w1 := mkWorkerState _ d' _ _ _ _).
  destruct (deliver_scheduled e w1 log Hl) as (log2 & R2 & L2).
  set (w2 := deliver keys env e w1) in *. set (w3 := mkWorkerState _ _ _ _ _ (S (ws_checks w2))).
  assert (R3 : rtc system_step (around w log) (around w3 log2)).
  { eapply rtc_l; [exact Hclaim|exact R2]. }
  destruct (we_cancelled env (ws_checks w2)); [exists log2; split; [exact R3|exact L2]|].
  destruct (IH w3 log2 L2) as (log' & R & Hlen). exists log'. split; [by etrans|done].
Qed.

Lemma Run_scheduled ticks w : scheduled w (Run keys env ticks w).
Proof using Hi.
  revert w. induction ticks as [|ticks IH]; intros w; cbn [Run]; [done|]. unfold tick.
  pose proof (drain_scheduled 25 w) as Hd. destruct (drain keys env 25 w) as [[] w']; [done|]. etrans; [exact Hd|apply IH].
Qed.
End loop.
End system.
