(* ===== verification/World.v ===== *)
(** The process the protocol service runs in: the store interface it calls, its
    environment (clock, random source, database availability), the shared state
    of the process, and the primitive effects.

    [ServiceStore] is the Go interface [serviceStore] of service.go.  Every
    operation is a transaction: it returns a value and the new database, or an
    error and leaves the database as it was.  [ServiceStoreLaws] is what the
    service relies on; the theorems about the service are proved against it. *)

From Stdlib Require Import ZArith Lia Ascii String.
From stdpp Require Import base gmap strings list option.
From S2P Require Import Prelude GoText GoCrypto Config Crypto StoreTypes Wire.

Local Open Scope string_scope.
Local Open Scope Z_scope.

(** ** The store interface *)
Class ServiceStore := {
  st : Type;                    (* a database state *)
  st_ctx : Type;                (* what one call reads besides: its clocks and random bytes *)
  PushSDKSessions : Tx store_error st_ctx st (list PushSDKSession);
  UpsertPushSDKSession : PushSDKSession -> Tx store_error st_ctx st unit;
  DeletePushSDKSession : string -> Tx store_error st_ctx st unit;
  ExpirePushSDKLoginChallenge : string -> string -> Tx store_error st_ctx st (option activity.Event);
  TransitionTerminalState :
    string -> string -> option string -> activity.Event -> Tx store_error st_ctx st activity.Event;
  RecordGatewayActivity : activity.Event -> Tx store_error st_ctx st activity.Event;
  ExpireOverdueISAPICommands : Tx store_error st_ctx st (list activity.Event);
  ClaimISAPICommands :
    string -> Z -> Tx store_error st_ctx st (list ISAPICommandDelivery * list activity.Event);
  CompleteISAPICommands :
    string -> list ISAPICommandResult -> Tx store_error st_ctx st (list activity.Event * bool);
  InsertDeviceEventBatch :
    list NewDeviceEvent -> Tx store_error st_ctx st (list DeviceEventPersistence)
}.

(** What the service sees of a database: the checkpoint of each terminal, the
    committed activities, and the archived events: (terminal, event id) with the
    format and the payload. *)
Class StoreViews `{ServiceStore} := {
  checkpoints : st -> gmap string PushSDKSession;
  committed : st -> list activity.Event;
  archived : st -> gset ((string * string) * (string * string))
}.

(** A call that leaves the checkpoints and only adds to the other two views. *)
Definition grows `{StoreViews} (d d' : st) : Prop :=
  (forall e, e ∈ committed d -> e ∈ committed d') /\ archived d ⊆ archived d'.

Definition event_key (e : NewDeviceEvent) : string * string :=
  (nde_TerminalSerialNumber e, nde_VendorEventID e).
Definition event_content (e : NewDeviceEvent) : string * string := (nde_DataFormat e, nde_PayloadBase64 e).

Class ServiceStoreLaws `{StoreViews} : Prop := {
  PushSDKSessions_law : forall c d l d',
    PushSDKSessions c d = Ok (l, d') ->
    d' = d /\ NoDup (ps_TerminalSerialNumber <$> l) /\
    (forall s, s ∈ l <-> checkpoints d !! ps_TerminalSerialNumber s = Some s) /\
    (forall k s, checkpoints d !! k = Some s -> ps_TerminalSerialNumber s = k);
  UpsertPushSDKSession_law : forall s c d d',
    UpsertPushSDKSession s c d = Ok (tt, d') ->
    checkpoints d' = <[ps_TerminalSerialNumber s := checkpointed s]> (checkpoints d) /\ grows d d';
  DeletePushSDKSession_law : forall k c d d',
    DeletePushSDKSession k c d = Ok (tt, d') ->
    checkpoints d' = delete k (checkpoints d) /\ grows d d';
  ExpirePushSDKLoginChallenge_law : forall k reason c d o d',
    ExpirePushSDKLoginChallenge k reason c d = Ok (o, d') ->
    checkpoints d' = delete k (checkpoints d) /\ grows d d' /\
    (forall e, o = Some e -> e ∈ committed d');
  TransitionTerminalState_law : forall k status last_error ev c d stored d',
    TransitionTerminalState k status last_error ev c d = Ok (stored, d') ->
    checkpoints d' = checkpoints d /\ grows d d' /\ stored ∈ committed d';
  UpsertPushSDKSession_archive : forall s c d d',
    UpsertPushSDKSession s c d = Ok (tt, d') -> archived d' = archived d;
  TransitionTerminalState_archive : forall k status last_error ev c d stored d',
    TransitionTerminalState k status last_error ev c d = Ok (stored, d') -> archived d' = archived d;
  RecordGatewayActivity_law : forall ev c d stored d',
    RecordGatewayActivity ev c d = Ok (stored, d') ->
    checkpoints d' = checkpoints d /\ grows d d' /\ stored ∈ committed d';
  ExpireOverdueISAPICommands_law : forall c d l d',
    ExpireOverdueISAPICommands c d = Ok (l, d') ->
    checkpoints d' = checkpoints d /\ grows d d' /\ Forall (.∈ committed d') l;
  ClaimISAPICommands_law : forall k limit c d ds l d',
    ClaimISAPICommands k limit c d = Ok ((ds, l), d') ->
    checkpoints d' = checkpoints d /\ grows d d' /\ Forall (.∈ committed d') l /\ zlen ds <= limit;
  CompleteISAPICommands_law : forall k rs c d l pending d',
    CompleteISAPICommands k rs c d = Ok ((l, pending), d') ->
    checkpoints d' = checkpoints d /\ grows d d' /\ Forall (.∈ committed d') l;
  InsertDeviceEventBatch_law : forall es c d ps d',
    InsertDeviceEventBatch es c d = Ok (ps, d') ->
    checkpoints d' = checkpoints d /\ grows d d' /\ length ps = length es /\
    Forall (fun p => dep_Activity p ∈ committed d') ps /\
    (* every event is archived, and what is new in the archive is an event of the batch *)
    (forall e, e ∈ es -> exists v, (event_key e, v) ∈ archived d') /\
    (forall x, x ∈ archived d' -> x ∈ archived d \/
       exists e, e ∈ es /\ x = (event_key e, event_content e) /\ forall v, (event_key e, v) ∉ archived d)
}.

(** ** Errors of the service *)
Inductive error :=
| EProtocol (p : ProtocolError)
| EStore (e : store_error)
| EText (message : string)
| EWrap (message : string) (e : error)     (* fmt.Errorf("...: %w", err) *)
| EJoin (es : list error)                  (* errors.Join *)
| EPanic (message : string)
| EFuel.                                   (* a loop that has not ended *)

(** [errors.As(err, &protocol)] on the errors the handlers return. *)
Fixpoint as_protocol (e : error) : option ProtocolError :=
  match e with
  | EProtocol p => Some p
  | EWrap _ e' => as_protocol e'
  | _ => None
  end.

(** ** Sessions *)
Abbreviation PayloadMode := string (only parsing).
Definition PlaintextPayload : PayloadMode := "plaintext".
Definition EncryptedPayload : PayloadMode := "encrypted".
Definition IsEncrypted (m : PayloadMode) : bool := bool_decide (m = EncryptedPayload).

(** A session; its mutex is subsumed by the lock of its terminal. *)
Record Session := mkSession {
  s_Terminal : Terminal;
  s_Salt : string;
  s_LoginChallenge : string;
  s_NextChallenge : string;
  s_Iterations : Z;
  s_PayloadMode : PayloadMode;
  s_CreatedAt : time;
  s_NextChallengeAt : time;
  s_Authenticated : bool;
  s_Online : bool
}.

(** ** Metrics *)
Record Metrics := mkMetrics {
  m_Requests : gmap (string * string) Z;
  m_EventsReceived : gmap string Z;
  m_EventsPersisted : Z;
  m_EventsRejected : Z;
  m_SessionsActive : Z
}.
Definition zero_Metrics : Metrics := mkMetrics ∅ ∅ 0 0 0.

Definition inc_label `{Countable K} (k : K) (m : gmap K Z) : gmap K Z := <[k := m !!! k + 1]> m.

(** ** The environment and the state of the process *)

(** Everything the process observes from outside, numbered by occurrence: what
    the n-th reading of the clock, of the random source and the n-th database
    call meet.  A [true] fault is a database call that fails before it commits; a call
    that is lost commits, but its reply does not arrive (the connection breaks or the
    context of the request ends between COMMIT and its answer), and the caller sees an
    error. *)
Record Env `{ServiceStore} := {
  env_now : nat -> time;
  env_rand : rand_source;
  env_fault : nat -> bool;
  env_lost : nat -> bool;
  env_ctx : nat -> st_ctx
}.

Abbreviation loc := nat (only parsing).

(** Sessions are shared objects: [entries] maps a PushSDK serial to a location of
    the heap, and handlers keep locations across calls. *)
Record World `{ServiceStore} := mkWorld {
  w_db : st;
  w_entries : gmap string loc;
  w_heap : gmap loc Session;
  w_next : loc;
  w_published : list activity.Event;
  w_metrics : Metrics;
  w_clock : nat;
  w_reads : nat;
  w_calls : nat
}.

Section effects.
Context `{ServiceStore} (env : Env).

Local Abbreviation M := (M error World).

Definition set_db (d : st) (w : World) : World :=
  mkWorld _ d (w_entries w) (w_heap w) (w_next w) (w_published w) (w_metrics w)
    (w_clock w) (w_reads w) (w_calls w).
Definition set_entries (m : gmap string loc) (w : World) : World :=
  mkWorld _ (w_db w) m (w_heap w) (w_next w) (w_published w) (w_metrics w)
    (w_clock w) (w_reads w) (w_calls w).
Definition set_heap (h : gmap loc Session) (next : loc) (w : World) : World :=
  mkWorld _ (w_db w) (w_entries w) h next (w_published w) (w_metrics w)
    (w_clock w) (w_reads w) (w_calls w).
Definition set_metrics (f : Metrics -> Metrics) (w : World) : World :=
  mkWorld _ (w_db w) (w_entries w) (w_heap w) (w_next w) (w_published w) (f (w_metrics w))
    (w_clock w) (w_reads w) (w_calls w).
Definition add_published (e : activity.Event) (w : World) : World :=
  mkWorld _ (w_db w) (w_entries w) (w_heap w) (w_next w) (w_published w ++ [e])%list (w_metrics w)
    (w_clock w) (w_reads w) (w_calls w).
Definition advance (clock reads calls : nat) (w : World) : World :=
  mkWorld _ (w_db w) (w_entries w) (w_heap w) (w_next w) (w_published w) (w_metrics w)
    clock reads calls.

(** [time.Now().UTC()] *)
Definition time_Now : M time := fun w =>
  (Ok (env_now env (w_clock w)), advance (S (w_clock w)) (w_reads w) (w_calls w) w).

(** [randomAlphaNumeric(64)]: 64 reads are enough when each has an acceptable byte. *)
Definition random_token : M string := fun w =>
  let '(r, next) := randomAlphaNumeric 64 (env_rand env) (w_reads w) 64 in
  (match r with RDone s => Ok s | RFail => Err (EText "read random bytes") | RFuel => Err EFuel end,
   advance (w_clock w) next (w_calls w) w).

Definition random_challenge : M string := fun w =>
  (ok_or (randomCustomChallenge (env_rand env) (w_reads w)) (EText "read random bytes"),
   advance (w_clock w) (S (w_reads w)) (w_calls w) w).

(** A call of the store: it can fail before it commits, and it can commit without the
    caller learning of it. *)
Definition call {A} (op : Tx store_error st_ctx st A) : M A := fun w =>
  let w' := advance (w_clock w) (w_reads w) (S (w_calls w)) w in
  if env_fault env (w_calls w) then (Err (EStore ErrDatabase), w')
  else match op (env_ctx env (w_calls w)) (w_db w) with
       | Ok (a, d) => (if env_lost env (w_calls w) then Err (EStore ErrDatabase) else Ok a, set_db d w')
       | Err e => (Err (EStore e), w')
       end.

(** No commit goes unacknowledged. *)
Definition replies_arrive : Prop := forall n, env_lost env n = false.

(** [hub.Publish] *)
Definition Publish (e : activity.Event) : M unit := modify (add_published e).

(** Dereferencing a session pointer, and allocating and updating a session. *)
Definition load (l : loc) : M Session := fun w =>
  (ok_or (w_heap w !! l) (EPanic "nil pointer dereference"), w).
Definition save (l : loc) (s : Session) : M unit :=
  modify (fun w => set_heap (<[l := s]> (w_heap w)) (w_next w) w).
Definition new_session (s : Session) : M loc := fun w =>
  (Ok (w_next w), set_heap (<[w_next w := s]> (w_heap w)) (S (w_next w)) w).

Definition SessionsActive_Inc : M unit :=
  modify (set_metrics (fun m => mkMetrics (m_Requests m) (m_EventsReceived m) (m_EventsPersisted m)
                                  (m_EventsRejected m) (m_SessionsActive m + 1))).
Definition SessionsActive_Dec : M unit :=
  modify (set_metrics (fun m => mkMetrics (m_Requests m) (m_EventsReceived m) (m_EventsPersisted m)
                                  (m_EventsRejected m) (m_SessionsActive m - 1))).
Definition SessionsActive_Set (n : Z) : M unit :=
  modify (set_metrics (fun m => mkMetrics (m_Requests m) (m_EventsReceived m) (m_EventsPersisted m)
                                  (m_EventsRejected m) n)).
Definition Requests_Inc (action outcome : string) : M unit :=
  modify (set_metrics (fun m => mkMetrics (inc_label (action, outcome) (m_Requests m)) (m_EventsReceived m)
                                  (m_EventsPersisted m) (m_EventsRejected m) (m_SessionsActive m))).
Definition EventsReceived_Inc (format : string) : M unit :=
  modify (set_metrics (fun m => mkMetrics (m_Requests m) (inc_label format (m_EventsReceived m))
                                  (m_EventsPersisted m) (m_EventsRejected m) (m_SessionsActive m))).
Definition EventsPersisted_Inc : M unit :=
  modify (set_metrics (fun m => mkMetrics (m_Requests m) (m_EventsReceived m) (m_EventsPersisted m + 1)
                                  (m_EventsRejected m) (m_SessionsActive m))).
Definition EventsRejected_Inc : M unit :=
  modify (set_metrics (fun m => mkMetrics (m_Requests m) (m_EventsReceived m) (m_EventsPersisted m)
                                  (m_EventsRejected m + 1) (m_SessionsActive m))).
End effects.

(** ** What goes on beside the protocol service

    The administration API and the delivery workers share the process and the database
    with it: they count clock readings, random reads and calls, change what the service
    does not see of the database, and publish what they committed. *)
Record calm `{StoreViews} (w w' : World) : Prop := {
  calm_entries : w_entries w' = w_entries w;
  calm_heap : w_heap w' = w_heap w;
  calm_next : w_next w' = w_next w;
  calm_metrics : w_metrics w' = w_metrics w;
  calm_checkpoints : checkpoints (w_db w') = checkpoints (w_db w);
  calm_grows : grows (w_db w) (w_db w');
  calm_published : exists more, w_published w' = (w_published w ++ more)%list /\ Forall (.∈ committed (w_db w')) more
}.

Section calm_facts.
Context `{StoreViews}.

Lemma calm_refl w : calm w w.
Proof. split; try done. exists []. split; [by rewrite app_nil_r|constructor]. Qed.

Lemma calm_advance w0 w i j k : calm w0 w -> calm w0 (advance i j k w).
Proof. by intros []. Qed.

Lemma calm_publish w0 w e : calm w0 w -> e ∈ committed (w_db w) -> calm w0 (add_published e w).
Proof.
  intros [He Hh Hn Hm Hc Hg (more & Hp & Hmore)] Hin. split; try done. cbn [add_published w_published w_db].
  exists (more ++ [e])%list. rewrite Hp, app_assoc. split; [done|]. apply Forall_app. by repeat constructor.
Qed.

Lemma grows_refl d : grows d d.
Proof. by split. Qed.

Lemma grows_trans d1 d2 d3 : grows d1 d2 -> grows d2 d3 -> grows d1 d3.
Proof. intros [A1 B1] [A2 B2]. split; [auto|by etrans]. Qed.

Lemma calm_database w d i j k :
  checkpoints d = checkpoints (w_db w) -> grows (w_db w) d -> calm w (set_db d (advance i j k w)).
Proof. intros Hc Hg. split; try done. exists []. split; [by rewrite app_nil_r|constructor]. Qed.

Lemma calm_trans w1 w2 w3 : calm w1 w2 -> calm w2 w3 -> calm w1 w3.
Proof.
  intros [E1 H1 N1 M1 C1 G1 (m1 & P1 & F1)] [E2 H2 N2 M2 C2 G2 (m2 & P2 & F2)].
  split; try congruence; [by eapply grows_trans|].
  exists (m1 ++ m2)%list. rewrite P2, P1, app_assoc. split; [done|]. apply Forall_app. split; [|done].
  destruct G2 as [G2 _]. rewrite list.Forall_forall in *. auto.
Qed.

(** A call that leaves the checkpoints, and the publication of what it committed. *)
Lemma wp_call_calm {A} (env : Env) (op : Tx store_error st_ctx st A) (evs : A -> list activity.Event) w
    (Q : result error A -> World -> Prop) :
  (forall ctx a d, op ctx (w_db w) = Ok (a, d) ->
     checkpoints d = checkpoints (w_db w) /\ grows (w_db w) d /\ Forall (.∈ committed d) (evs a)) ->
  (forall err w', calm w w' -> w_reads w' = w_reads w -> Q (Err err) w') ->
  (forall a w', calm w w' -> w_reads w' = w_reads w -> Forall (.∈ committed (w_db w')) (evs a) -> Q (Ok a) w') ->
  wp (call env op) Q w.
Proof.
  intros Hop Herr Hok. unfold wp, call.
  destruct (env_fault env (w_calls w)); [by apply Herr; [apply calm_advance, calm_refl|]|].
  destruct (op _ _) as [[a d]|e] eqn:E; [|by apply Herr; [apply calm_advance, calm_refl|]].
  destruct (Hop _ _ _ E) as (Hck & Hgrow & Hevs).
  destruct (env_lost env (w_calls w)); [apply Herr|apply Hok]; try done; by apply calm_database.
Qed.

Lemma wp_publish_calm evs w0 w (Q : result error unit -> World -> Prop) :
  calm w0 w -> Forall (.∈ committed (w_db w)) evs ->
  (forall w', calm w0 w' -> w_reads w' = w_reads w -> Q (Ok tt) w') -> wp (for_each Publish evs) Q w.
Proof.
  intros Hw Hevs HQ.
  apply wp_for_each with (I := fun w' => calm w0 w' /\ w_db w' = w_db w /\ w_reads w' = w_reads w);
    [done| |by intros w' (? & _ & ?); apply HQ].
  intros e w' Hin (Hc & Hd & Hr). apply wp_modify. split_and!; [|done|done]. apply calm_publish; [done|].
  rewrite Hd. rewrite list.Forall_forall in Hevs. by apply Hevs.
Qed.
End calm_facts.
