(* ===== verification/StoreInstance.v ===== *)
(** The PostgreSQL store as an implementation of the interface the protocol
    service calls: the instance of [ServiceStore], its views, and the proof of
    [ServiceStoreLaws]. *)

From Stdlib Require Import ZArith Lia Ascii String.
From stdpp Require Import base gmap strings list option sorting.
From S2P Require Import Prelude GoText GoTime GoCrypto AccessControl Config Crypto StoreTypes Wire Database.
From S2P Require Import StoreCore Deliveries Archive CommandQueue SyncRuns Commands StoreFrame World.

Local Open Scope string_scope.
Local Open Scope Z_scope.

Section instance.
Context `{GoParsers} `{CryptoLib}.

#[export] Instance gateway_store : ServiceStore := {|
  st := DB;
  st_ctx := TxCtx;
  World.PushSDKSessions := StoreCore.PushSDKSessions;
  World.UpsertPushSDKSession := StoreCore.UpsertPushSDKSession;
  World.DeletePushSDKSession := StoreCore.DeletePushSDKSession;
  World.ExpirePushSDKLoginChallenge := StoreCore.ExpirePushSDKLoginChallenge;
  World.TransitionTerminalState := StoreCore.TransitionTerminalState;
  World.RecordGatewayActivity := StoreCore.RecordGatewayActivity;
  World.ExpireOverdueISAPICommands := Commands.ExpireOverdueISAPICommands;
  World.ClaimISAPICommands := Commands.ClaimISAPICommands;
  World.CompleteISAPICommands := Commands.CompleteISAPICommands;
  World.InsertDeviceEventBatch := Archive.InsertDeviceEventBatch
|}.

(** An archived event as the interface shows it. *)
Definition event_view (r : DeviceEventRow) : (string * string) * (string * string) :=
  ((de_terminal_serial_number r, de_vendor_event_id r), (de_data_format r, default "" (de_payload_base64 r))).
Definition events_view (m : gmap Z DeviceEventRow) : gset ((string * string) * (string * string)) :=
  list_to_set ((fun r => event_view r.2) <$> map_to_list m).

#[export] Instance gateway_views : StoreViews := {|
  checkpoints := fun d => map_imap (fun k r => Some (session_of_row k r)) (db_sessions d);
  committed := db_activities;
  archived := fun d => events_view (db_device_events d)
|}.

(** ** The archive *)
Lemma elem_of_events_view x m : x ∈ events_view m <-> exists id r, m !! id = Some r /\ x = event_view r.
Proof using.
  unfold events_view. rewrite elem_of_list_to_set, list_elem_of_fmap. split.
  - intros ([id r] & -> & Hin%elem_of_map_to_list). eauto.
  - intros (id & r & Hm & ->). exists (id, r). split; [done|]. by apply elem_of_map_to_list.
Qed.

Lemma events_view_insert id r m :
  m !! id = None -> events_view (<[id := r]> m) = {[event_view r]} ∪ events_view m.
Proof using.
  intros Hid. apply set_eq. intros x. rewrite elem_of_union, elem_of_singleton, !elem_of_events_view.
  split.
  - intros (i & r' & Hi & ->). apply lookup_insert_Some in Hi as [[<- ->]|[Hne Hi]]; eauto.
  - intros [->|(i & r' & Hi & ->)].
    + exists id, r. by rewrite lookup_insert_eq.
    + exists i, r'. rewrite lookup_insert_ne; [done|]. congruence.
Qed.

Lemma same_event_iff e (m : gmap Z DeviceEventRow) :
  exists_row (fun _ r => same_event (nde_TerminalSerialNumber e) (nde_VendorEventID e) r) m = true <->
  exists v, (event_key e, v) ∈ events_view m.
Proof using.
  unfold exists_row. rewrite existsb_exists. setoid_rewrite elem_of_events_view. split.
  - intros ([id r] & Hin & Heq). apply list_elem_of_In, elem_of_map_to_list in Hin.
    unfold same_event in Heq. apply andb_true_iff in Heq as [E1%bool_decide_eq_true E2%bool_decide_eq_true].
    eexists _, id, r. split; [done|]. unfold event_view, event_key. simpl in *. by rewrite E1, E2.
  - intros (v & id & r & Hm & [= E1 E2 ->]). exists (id, r). split.
    + by apply list_elem_of_In, elem_of_map_to_list.
    + unfold same_event. simpl. rewrite E1, E2. by rewrite !bool_decide_true.
Qed.

(** The projection and the delivery of a new event touch neither the sessions nor the archive. *)
Definition core (d : DB) := (db_sessions d, db_device_events d).

Lemma frame_core_tail id format payload :
  frame core (insertAccessEventProjection id format payload;; enqueueEventDelivery id).
Proof using.
  unfold insertAccessEventProjection, enqueueEventDelivery, enqueueAttachment, insert_identity, fresh_id.
  frame_auto.
Qed.

Lemma frame_log_tail id format payload :
  frame db_activities (insertAccessEventProjection id format payload;; enqueueEventDelivery id).
Proof using.
  unfold insertAccessEventProjection, enqueueEventDelivery, enqueueAttachment, insert_identity. frame_auto.
Qed.

Lemma no_log_core : no_log core.
Proof using. done. Qed.

Lemma activity_committed e c s a s' :
  insertGatewayActivity e c s = Ok (a, s') ->
  core (tx_db s') = core (tx_db s) /\ appends (tx_db s) (tx_db s') /\ a ∈ db_activities (tx_db s').
Proof using.
  intros E. split; [by eapply (frame_activity core no_log_core)|].
  destruct (reports_activity e c s a s' E) as [A1 L1]. split; [done|].
  specialize (L1 (Forall_nil_2 _)). by inversion L1.
Qed.

(** One iteration: the event is archived already, or it is added to the archive. *)
Lemma insert_device_event_spec acc e c s ps s' :
  insert_device_event acc e c s = Ok (ps, s') ->
  db_sessions (tx_db s') = db_sessions (tx_db s) /\
  appends (tx_db s) (tx_db s') /\
  (exists p, ps = acc ++ [p] /\ dep_Activity p ∈ db_activities (tx_db s'))%list /\
  let view s := events_view (db_device_events (tx_db s)) in
  ((exists v, (event_key e, v) ∈ view s) /\ view s' = view s \/
   (forall v, (event_key e, v) ∉ view s) /\
   view s' = {[(event_key e, event_content e)]} ∪ view s).
Proof using.
  intros E. unfold insert_device_event in E. tx_invs E; cbv zeta beta.
  - apply activity_committed in E2 as ([= -> ->] & A1 & L1). split_and!; eauto.
    left. split; [|done]. by apply same_event_iff.
  - apply tx_bind_Ok in E2 as (id & s2 & [Hid Hs2]%insert_identity_Ok & E2); [|done].
    apply activity_committed in E3 as ([= -> ->] & A1 & L1).
    pose proof (frame_core_tail _ _ _ _ _ _ _ E2) as [= -> ->].
    pose proof (frame_log_tail _ _ _ _ _ _ _ E2) as Hlog. rewrite Hs2 in *. split_and!; eauto.
    + eapply appends_trans; [|exact A1]. exists []. rewrite app_nil_r, Hlog. done.
    + right. split.
      * intros v Hv. assert (exists v, (event_key e, v) ∈ events_view (db_device_events (tx_db s1))) as Hex
          by eauto. apply same_event_iff in Hex. congruence.
      * cbn. by rewrite events_view_insert.
Qed.

Definition batch_inv (d : DB) (es : list NewDeviceEvent) (ps : list DeviceEventPersistence) (s : TxState) : Prop :=
  let view d := events_view (db_device_events d) in
  db_sessions (tx_db s) = db_sessions d /\
  appends d (tx_db s) /\
  view d ⊆ view (tx_db s) /\
  length ps = length es /\
  Forall (fun p => dep_Activity p ∈ db_activities (tx_db s)) ps /\
  (forall e, e ∈ es -> exists v, (event_key e, v) ∈ view (tx_db s)) /\
  (forall x, x ∈ view (tx_db s) -> x ∈ view d \/
     exists e, e ∈ es /\ x = (event_key e, event_content e) /\ forall v, (event_key e, v) ∉ view d).

Lemma batch_inv_step d es e ps ps' c s s' :
  batch_inv d es ps s -> insert_device_event ps e c s = Ok (ps', s') -> batch_inv d (es ++ [e])%list ps' s'.
Proof using.
  intros (I1 & I2 & I3 & I4 & I5 & I6 & I7) E.
  apply insert_device_event_spec in E as (S1 & S2 & (p & -> & Hp) & Hview). cbv zeta beta in *.
  assert (Hsub : events_view (db_device_events (tx_db s)) ⊆ events_view (db_device_events (tx_db s')))
    by (destruct Hview as [[_ ->]|[_ ->]]; set_solver).
  split_and!.
  - congruence.
  - by eapply appends_trans.
  - set_solver.
  - rewrite !length_app. simpl. lia.
  - apply Forall_app. split; [|by repeat constructor].
    destruct S2 as [more S2]. eapply Forall_impl; [exact I5|]. intros q Hq. rewrite S2. set_solver.
  - intros e' [He'|He'%list_elem_of_singleton]%elem_of_app.
    + destruct (I6 e' He') as [v Hv]. exists v. set_solver.
    + subst e'. destruct Hview as [[[v Hv] ->]|[_ ->]]; [eauto|].
      eexists. by apply elem_of_union_l, elem_of_singleton.
  - intros x Hx. destruct Hview as [[_ Hv]|[Hnew Hv]]; rewrite Hv in Hx.
    + destruct (I7 x Hx) as [|(e' & He' & Hk & Hn)]; [by left|]. right. exists e'. set_solver.
    + apply elem_of_union in Hx as [->%elem_of_singleton|Hx].
      * right. exists e. split_and!; [set_solver|done|]. intros v Hv'. apply (Hnew v). by apply I3.
      * destruct (I7 x Hx) as [|(e' & He' & Hk & Hn)]; [by left|]. right. exists e'. set_solver.
Qed.

Lemma InsertDeviceEventBatch_spec es c d ps d' :
  Archive.InsertDeviceEventBatch es c d = Ok (ps, d') ->
  exists s', tx_db s' = d' /\ batch_inv d es ps s'.
Proof using.
  intros (s' & E & <-)%run_Ok. exists s'. split; [done|]. revert E.
  apply (tx_for_inv _ (batch_inv d)).
  - split_and!; simpl; try done; [apply appends_refl|set_solver|auto].
  - intros. by eapply batch_inv_step.
Qed.

(** ** The laws *)
Lemma checkpoints_sessions d d' : db_sessions d' = db_sessions d -> checkpoints d' = checkpoints d.
Proof using. simpl. by intros ->. Qed.

Lemma lookup_checkpoints d k : checkpoints d !! k = session_of_row k <$> db_sessions d !! k.
Proof using. simpl. rewrite map_lookup_imap. by destruct (db_sessions d !! k). Qed.

Lemma grows_of (d d' : DB) : appends d d' -> db_device_events d' = db_device_events d -> grows d d'.
Proof using.
  intros [more A1] E. split; simpl.
  - intros e He. rewrite A1. set_solver.
  - by rewrite E.
Qed.

(** A transaction that keeps [core] and reports its activities. *)
Lemma quiet_law {A} (m : Txn A) acts c d a d' :
  frame core m -> reports [] m acts -> run m c d = Ok (a, d') ->
  checkpoints d' = checkpoints d /\ grows d d' /\ Forall (.∈ committed d') (acts a).
Proof using.
  intros Hf Hr (s' & E & <-)%run_Ok. pose proof (Hf _ _ _ _ E) as [= E1 E2].
  destruct (Hr _ _ _ _ E) as [A1 L1]. split_and!.
  - by apply checkpoints_sessions.
  - by apply grows_of.
  - apply L1. constructor.
Qed.

Lemma session_row_roundtrip s : session_of_row (ps_TerminalSerialNumber s) (row_of_session s) = checkpointed s.
Proof using. by destruct s. Qed.

Lemma session_row_inj k r s : session_of_row k r = checkpointed s -> r = row_of_session s.
Proof using.
  destruct r. unfold session_of_row, checkpointed, row_of_session. cbn -[to_micros].
  intros E. injection E. intros. by subst.
Qed.

Lemma sessions_list d c l d' :
  StoreCore.PushSDKSessions c d = Ok (l, d') ->
  d' = d /\ l ≡ₚ ((fun r => session_of_row r.1 r.2) <$> map_to_list (db_sessions d)).
Proof using.
  intros (s' & E & <-)%run_Ok. tx_invs E. split; [done|]. apply merge_sort_Permutation.
Qed.

Lemma PushSDKSessions_ok c d l d' :
  StoreCore.PushSDKSessions c d = Ok (l, d') ->
  d' = d /\ NoDup (ps_TerminalSerialNumber <$> l) /\
  (forall s, s ∈ l <-> checkpoints d !! ps_TerminalSerialNumber s = Some s) /\
  (forall k s, checkpoints d !! k = Some s -> ps_TerminalSerialNumber s = k).
Proof using.
  intros [-> Hperm]%sessions_list. split_and!; [done|..].
  - rewrite Hperm, <- list_fmap_compose. apply (NoDup_fst_map_to_list (db_sessions d)).
  - intros s. rewrite Hperm, list_elem_of_fmap, lookup_checkpoints. split.
    + intros ([k r] & -> & Hin%elem_of_map_to_list). simpl. by rewrite Hin.
    + intros (r & Hr & Hs)%fmap_Some. exists (ps_TerminalSerialNumber s, r).
      split; [done|]. by apply elem_of_map_to_list.
  - intros k s. rewrite lookup_checkpoints. by intros (r & _ & ->)%fmap_Some.
Qed.

Lemma UpsertPushSDKSession_ok s c d d' :
  StoreCore.UpsertPushSDKSession s c d = Ok (tt, d') ->
  checkpoints d' = <[ps_TerminalSerialNumber s := checkpointed s]> (checkpoints d) /\ grows d d'.
Proof using.
  intros (s' & E & <-)%run_Ok. unfold UpsertPushSDKSession_tx in E. tx_invs E.
  all: split; [|apply grows_of; [by exists []; rewrite app_nil_r|done]].
  all: apply map_eq; intros k; rewrite lookup_checkpoints; cbn [tx_db on_sessions on_terminals db_sessions].
  all: destruct (decide (k = ps_TerminalSerialNumber s)) as [->|Hne].
  all: rewrite ?lookup_insert_eq, ?lookup_insert_ne, ?lookup_checkpoints by done; simpl.
  all: by rewrite ?session_row_roundtrip.
Qed.

Lemma checkpoints_delete d k :
  checkpoints (on_sessions (delete k) d) = delete k (checkpoints d).
Proof using.
  apply map_eq. intros k'. rewrite lookup_checkpoints. cbn [on_sessions db_sessions].
  destruct (decide (k = k')) as [->|Hne].
  - by rewrite !lookup_delete_eq.
  - by rewrite !lookup_delete_ne, lookup_checkpoints.
Qed.

Lemma DeletePushSDKSession_ok k c d d' :
  StoreCore.DeletePushSDKSession k c d = Ok (tt, d') ->
  checkpoints d' = delete k (checkpoints d) /\ grows d d'.
Proof using.
  intros (s' & E & <-)%run_Ok. tx_invs E. cbn [tx_db]. rewrite checkpoints_delete. split; [done|].
  by apply grows_of; [exists []; rewrite app_nil_r|].
Qed.

(** [ExpirePushSDKLoginChallenge] after its first statement. *)
Lemma ExpirePushSDKLoginChallenge_ok k reason c d o d' :
  StoreCore.ExpirePushSDKLoginChallenge k reason c d = Ok (o, d') ->
  checkpoints d' = delete k (checkpoints d) /\ grows d d' /\ (forall e, o = Some e -> e ∈ committed d').
Proof using.
  intros (s' & E & <-)%run_Ok. unfold ExpirePushSDKLoginChallenge_tx in E.
  apply tx_bind_Ok in E as (u & s1 & [= <- <-] & E).
  set (s1 := mkTxState _ _ _) in E.
  match type of E with ?m c s1 = _ =>
    assert (Hf : frame core m) by (frame_auto; by apply frame_activity);
    assert (Hr : reports [] m (fun o => from_option (fun e => [e]) [] o)) by reports_auto
  end.
  apply Hf in E as E1. apply Hr in E as [A1 L1]. injection E1 as E1 E2. split_and!.
  - rewrite <- checkpoints_delete. by apply checkpoints_sessions.
  - apply grows_of; [|done]. eapply appends_trans; [|exact A1]. exists []. by rewrite app_nil_r.
  - intros e ->. specialize (L1 (Forall_nil_2 _)). by inversion L1.
Qed.

Lemma TransitionTerminalState_ok k status last_error ev c d stored d' :
  StoreCore.TransitionTerminalState k status last_error ev c d = Ok (stored, d') ->
  checkpoints d' = checkpoints d /\ grows d d' /\ stored ∈ committed d'.
Proof using.
  intros E. apply (quiet_law _ (fun e => [e])) in E as (E1 & E2 & E3).
  - split_and!; [done..|]. by inversion E3.
  - unfold TransitionTerminalState_tx. frame_auto. by apply frame_activity.
  - unfold TransitionTerminalState_tx. reports_auto.
Qed.

Lemma RecordGatewayActivity_ok ev c d stored d' :
  StoreCore.RecordGatewayActivity ev c d = Ok (stored, d') ->
  checkpoints d' = checkpoints d /\ grows d d' /\ stored ∈ committed d'.
Proof using.
  intros E. apply (quiet_law _ (fun e => [e])) in E as (E1 & E2 & E3).
  - split_and!; [done..|]. by inversion E3.
  - by apply frame_activity.
  - apply reports_activity.
Qed.

Lemma ExpireOverdueISAPICommands_ok c d l d' :
  Commands.ExpireOverdueISAPICommands c d = Ok (l, d') ->
  checkpoints d' = checkpoints d /\ grows d d' /\ Forall (.∈ committed d') l.
Proof using.
  apply (quiet_law _ id); [by apply frame_expireOverdue|apply reports_expireOverdue].
Qed.

Lemma ClaimISAPICommands_bound k limit c d ds l d' :
  Commands.ClaimISAPICommands k limit c d = Ok ((ds, l), d') -> zlen ds <= limit.
Proof using.
  intros (s' & E & _)%run_Ok. unfold ClaimISAPICommands_tx in E. tx_invs E.
  unfold zlen. rewrite length_fmap. unfold claimed, sql_limit. rewrite length_take. lia.
Qed.

Lemma ClaimISAPICommands_ok k limit c d ds l d' :
  Commands.ClaimISAPICommands k limit c d = Ok ((ds, l), d') ->
  checkpoints d' = checkpoints d /\ grows d d' /\ Forall (.∈ committed d') l /\ zlen ds <= limit.
Proof using.
  intros E. pose proof (ClaimISAPICommands_bound _ _ _ _ _ _ _ E) as Hb.
  apply (quiet_law _ snd) in E as (E1 & E2 & E3).
  - done.
  - by apply frame_ClaimISAPICommands.
  - apply reports_ClaimISAPICommands.
Qed.

Lemma CompleteISAPICommands_ok k rs c d l pending d' :
  Commands.CompleteISAPICommands k rs c d = Ok ((l, pending), d') ->
  checkpoints d' = checkpoints d /\ grows d d' /\ Forall (.∈ committed d') l.
Proof using.
  apply (quiet_law _ fst); [by apply frame_CompleteISAPICommands|apply reports_CompleteISAPICommands].
Qed.

Lemma UpsertPushSDKSession_archives s c d d' :
  StoreCore.UpsertPushSDKSession s c d = Ok (tt, d') -> archived d' = archived d.
Proof using. intros (s' & E & <-)%run_Ok. unfold UpsertPushSDKSession_tx in E. by tx_invs E. Qed.

Lemma TransitionTerminalState_archives k status last_error ev c d stored d' :
  StoreCore.TransitionTerminalState k status last_error ev c d = Ok (stored, d') -> archived d' = archived d.
Proof using.
  intros (s' & E & <-)%run_Ok.
  assert (Hf : frame core (TransitionTerminalState_tx k status last_error ev))
    by (unfold TransitionTerminalState_tx; frame_auto; by apply frame_activity).
  pose proof (Hf _ _ _ _ E) as [= _ E2]. simpl. by rewrite E2.
Qed.

Lemma InsertDeviceEventBatch_ok es c d ps d' :
  Archive.InsertDeviceEventBatch es c d = Ok (ps, d') ->
  checkpoints d' = checkpoints d /\ grows d d' /\ length ps = length es /\
  Forall (fun p => dep_Activity p ∈ committed d') ps /\
  (forall e, e ∈ es -> exists v, (event_key e, v) ∈ archived d') /\
  (forall x, x ∈ archived d' -> x ∈ archived d \/
     exists e, e ∈ es /\ x = (event_key e, event_content e) /\ forall v, (event_key e, v) ∉ archived d).
Proof using.
  intros (s' & <- & I1 & [more I2] & I3 & I4 & I5 & I6 & I7)%InsertDeviceEventBatch_spec.
  split_and!; try done; [by apply checkpoints_sessions|].
  split; [|done]. intros e He. simpl. rewrite I2. set_solver.
Qed.

(** The store keeps every promise of the interface. *)
#[export] Instance gateway_laws : ServiceStoreLaws := {|
  PushSDKSessions_law := PushSDKSessions_ok;
  UpsertPushSDKSession_law := UpsertPushSDKSession_ok;
  DeletePushSDKSession_law := DeletePushSDKSession_ok;
  ExpirePushSDKLoginChallenge_law := ExpirePushSDKLoginChallenge_ok;
  TransitionTerminalState_law := TransitionTerminalState_ok;
  UpsertPushSDKSession_archive := UpsertPushSDKSession_archives;
  TransitionTerminalState_archive := TransitionTerminalState_archives;
  RecordGatewayActivity_law := RecordGatewayActivity_ok;
  ExpireOverdueISAPICommands_law := ExpireOverdueISAPICommands_ok;
  ClaimISAPICommands_law := ClaimISAPICommands_ok;
  CompleteISAPICommands_law := CompleteISAPICommands_ok;
  InsertDeviceEventBatch_law := InsertDeviceEventBatch_ok
|}.
End instance.
