(* ===== verification/APIInput.v ===== *)
(** internal/httpapi: how the administration API reads a request: the session cookie,
    JSON bodies, query parameters, and the validation of ISAPI commands and delivery
    endpoints.

    Error messages the code builds with a [%q] verb keep the verb.  Where a query has
    several bad parameters the code reports one of them in the order of a Go map; the
    model takes the order of [map_to_list]. *)

From Stdlib Require Import ZArith Lia Ascii String.
From stdpp Require Import base gmap strings list option.
From S2P Require Import Prelude GoText GoTime GoJSON GoHTTP GoURL GoConv GoNet AccessControl Wire.
From S2P Require Import CommandQueue Queries.

Local Open Scope string_scope.
Local Open Scope Z_scope.

(** A request of the administration API, and the identity [withSession] puts into its
    context. *)
Record APIRequest := mkAPIRequest {
  api_http : Request;
  api_RawPath : string;            (* URL.RawPath *)
  api_ContentLength : Z;           (* -1 when it is not known *)
  api_Cookies : list string;       (* Header["Cookie"] *)
  api_Origin : string;
  api_ForwardedProto : string;     (* Header.Get("X-Forwarded-Proto") *)
  api_Host : string;
  api_TLS : bool;
  api_RemoteAddr : string;
  api_identity : option AdminIdentity
}.

Definition WithIdentity (identity : AdminIdentity) (r : APIRequest) : APIRequest :=
  mkAPIRequest (api_http r) (api_RawPath r) (api_ContentLength r) (api_Cookies r) (api_Origin r)
    (api_ForwardedProto r) (api_Host r) (api_TLS r) (api_RemoteAddr r) (Some identity).
Definition administratorIdentity (r : APIRequest) : option AdminIdentity := api_identity r.

Definition query (r : APIRequest) : gmap string (list string) := URL.Query (req_RawQuery (api_http r)).

(** ** Sessions *)
Definition sessionCookie : string := "pushsdk_admin_session".

Definition sessionToken (request : APIRequest) : option string :=
  match Cookies.Cookie sessionCookie (api_Cookies request) with
  | Some v => if bool_decide (v = "") then None else Some v
  | None => None
  end.

Definition sameOrigin (request : APIRequest) : bool :=
  if bool_decide (api_Origin request = "") then false else
  let proto := if bool_decide (api_ForwardedProto request = "")
               then (if api_TLS request then "https" else "http")
               else api_ForwardedProto request in
  bool_decide (api_Origin request = proto +:+ "://" +:+ api_Host request).

(** ** JSON bodies *)
Definition is_json (request : APIRequest) : bool :=
  match Mime.ParseMediaType (req_ContentType (api_http request)) with
  | Some (contentType, _) => bool_decide (contentType = "application/json")
  | None => false
  end.

(** A literal at the end of what could be read is complete only at the end of the body. *)
Definition unfinished_literal (j : json) (rest : bytes) : bool :=
  match j with
  | JArray _ | JObject _ => false
  | _ => bool_decide (rest = [])
  end.

(** The first value of a decoder with [DisallowUnknownFields], and the check that
    nothing follows; the body is read through a [LimitReader], which ends at its limit
    before it meets the error of a body that breaks off later. *)
Definition decode_limited {A} (limit : Z) (d : decoder A) (zero : A) (request : Request) : result string A :=
  let body := take (Z.to_nat limit) (req_Body request) in
  let broken := req_Broken request && (zlen (req_Body request) <? limit) in
  match Scan.first_value body with
  | Scan.POk j rest =>
      if broken && unfinished_literal j rest then Err "invalid JSON request" else
      match d zero j with
      | None => Err "invalid JSON request"
      | Some v => if bool_decide (Scan.skip_ws rest = []) && negb broken then Ok v
                  else Err "request contains a trailing JSON value"
      end
  | _ => Err "invalid JSON request"
  end.

Definition decodeJSON {A} (d : decoder A) (zero : A) (request : APIRequest) : result string A :=
  if negb (is_json request) then Err "Content-Type must be application/json"
  else decode_limited 4097 d zero (api_http request).

Definition maxISAPICommandBytes : Z := Z.shiftl 8 20.
(** [base64.StdEncoding.EncodedLen] *)
Definition EncodedLen (n : Z) : Z := (n + 2) / 3 * 4.
Definition maxJSONBytes : Z := EncodedLen maxISAPICommandBytes + 8192.

Definition decodeISAPICommandJSON {A} (d : decoder A) (zero : A) (request : APIRequest) : result string A :=
  if negb (is_json request) then Err "Content-Type must be application/json"
  else if maxJSONBytes <? api_ContentLength request then
    Err "ISAPI command request must not exceed the 8 MiB command-data limit"
  else decode_limited (maxJSONBytes + 1) d zero (api_http request).

Record loginInput := mkLoginInput { li_Username : string; li_Password : string }.
Definition loginInput_fields : list (field loginInput) :=
  [ fld "username" li_Username (fun r v => mkLoginInput v (li_Password r)) decode_string;
    fld "password" li_Password (fun r v => mkLoginInput (li_Username r) v) decode_string ].

(** ** Query parameters *)
Definition pagination (request : APIRequest) : result string (Z * Z) :=
  let q := query request in
  limit ← (let raw := URL.Get q "limit" in
           if bool_decide (raw = "") then Ok 50 else
           match ParseInt raw with
           | Some n => if (n <? 1) || (200 <? n) then Err "limit must be an integer from 1 to 200" else Ok n
           | None => Err "limit must be an integer from 1 to 200"
           end);
  offset ← (let raw := URL.Get q "offset" in
            if bool_decide (raw = "") then Ok 0 else
            match ParseInt raw with
            | Some n => if n <? 0 then Err "offset must be a non-negative integer" else Ok n
            | None => Err "offset must be a non-negative integer"
            end);
  Ok (limit, offset).

(** The loop over the parameters: only [allowed] names, each once. *)
Definition check_parameters (what : string) (allowed : list string) (q : gmap string (list string)) : result string unit :=
  foldR (fun _ (kv : string * list string) =>
    if negb (bool_decide (kv.1 ∈ allowed)) then Err ("unsupported " +:+ what +:+ " query parameter %q")
    else if negb (length kv.2 =? 1)%nat then Err (kv.1 +:+ " must appear at most once")
    else Ok tt) (map_to_list q) tt.

(** [values[key]] and its first value. *)
Definition parameter (q : gmap string (list string)) (key : string) : option string := q !! key ≫= head.

Definition deviceEventQuery (request : APIRequest) (limit offset : Z) : result string DeviceEventQuery :=
  let values := query request in
  check_parameters "events" ["limit"; "offset"; "category"; "subtype"; "terminal"; "source"] values;;
  major ← match parameter values "category" with
          | Some category =>
              if bool_decide (category = "all") then Ok None
              else match MajorEventTypeForCategory category with
                   | Some major => Ok (Some major)
                   | None => Err "category must be one of all, alarm, exception, operation, or event"
                   end
          | None => Ok None
          end;
  sub ← match parameter values "subtype" with
        | Some subtype =>
            if bool_decide (major = None) then Err "subtype requires a category"
            else match ParseInt subtype with
                 | Some value => if value <? 0 then Err "subtype must be a non-negative integer" else Ok (Some value)
                 | None => Err "subtype must be a non-negative integer"
                 end
        | None => Ok None
        end;
  terminal ← match parameter values "terminal" with
             | Some terminal => if bool_decide (terminal = "") then Err "terminal must not be empty" else Ok terminal
             | None => Ok ""
             end;
  source ← match parameter values "source" with
           | Some source =>
               if bool_decide (source = "all") then Ok ""
               else if bool_decide (source = "pushsdk") || bool_decide (source = "isapi") then Ok source
               else Err "source must be one of all, pushsdk, or isapi"
           | None => Ok ""
           end;
  Ok {| dq_Limit := limit; dq_Offset := offset; dq_MajorEventType := major; dq_SubEventType := sub;
        dq_Terminal := terminal; dq_Source := source |}.

Definition isapiCommandTerminalFilter (request : APIRequest) : result string string :=
  let values := query request in
  check_parameters "ISAPI command" ["limit"; "offset"; "terminal"] values;;
  match parameter values "terminal" with
  | Some terminal => if bool_decide (terminal = "") then Err "terminal must not be empty" else Ok terminal
  | None => Ok ""
  end.

(** ** ISAPI commands *)
Definition visible (c : ascii) : bool := negb ((byte_val c <=? 32) || (127 <=? byte_val c)).

Definition validateISAPIURL (raw : string) : result string unit :=
  let l := bytes_of raw in
  if (slen raw <? 8) || (4096 <? slen raw) || negb (NetURL.has_prefix (bytes_of "/ISAPI/") l) then
    Err "url must be an absolute /ISAPI/ path from 8 to 4096 bytes"
  else if (1 <? zlen (List.filter (fun c => bool_decide (c = "?"%char)) l)) || bool_decide ("#"%char ∈ l) then
    Err "url must not contain an ambiguous query or fragment"
  else if negb (forallb visible l) then Err "url must contain only visible ASCII bytes"
  else
    let path := (URL.cut "?"%char l).1.1 in
    if existsb (fun s => bool_decide (s = []) || bool_decide (s = bytes_of ".") || bool_decide (s = bytes_of ".."))
         (split_bytes "/"%char [] (if NetURL.has_prefix (bytes_of "/ISAPI/") path then drop 7 path else path))
    then Err "url path must contain explicit non-relative segments"
    else Ok tt.

Record isapiCommandInput := mkISAPICommandInput {
  ii_Method : string;
  ii_URL : string;
  ii_DataFormat : string;
  ii_TextData : option string;
  ii_DataBase64 : option string;
  ii_ExpiresInSeconds : option Z
}.
Definition zero_isapiCommandInput := mkISAPICommandInput "" "" "" None None None.

Definition isapiCommandInput_fields : list (field isapiCommandInput) :=
  [ fld "method" ii_Method (fun r v => mkISAPICommandInput v (ii_URL r) (ii_DataFormat r) (ii_TextData r)
      (ii_DataBase64 r) (ii_ExpiresInSeconds r)) decode_string;
    fld "url" ii_URL (fun r v => mkISAPICommandInput (ii_Method r) v (ii_DataFormat r) (ii_TextData r)
      (ii_DataBase64 r) (ii_ExpiresInSeconds r)) decode_string;
    fld "dataFormat" ii_DataFormat (fun r v => mkISAPICommandInput (ii_Method r) (ii_URL r) v (ii_TextData r)
      (ii_DataBase64 r) (ii_ExpiresInSeconds r)) decode_string;
    fld "textData" ii_TextData (fun r v => mkISAPICommandInput (ii_Method r) (ii_URL r) (ii_DataFormat r) v
      (ii_DataBase64 r) (ii_ExpiresInSeconds r)) (decode_ptr "" decode_string);
    fld "dataBase64" ii_DataBase64 (fun r v => mkISAPICommandInput (ii_Method r) (ii_URL r) (ii_DataFormat r)
      (ii_TextData r) v (ii_ExpiresInSeconds r)) (decode_ptr "" decode_string);
    fld "expiresInSeconds" ii_ExpiresInSeconds (fun r v => mkISAPICommandInput (ii_Method r) (ii_URL r)
      (ii_DataFormat r) (ii_TextData r) (ii_DataBase64 r) v) (decode_ptr 0 decode_int) ].

Record parsedISAPICommandInput := mkParsedInput {
  pi_Method : string;
  pi_URL : string;
  pi_DataFormat : string;
  pi_Data : bytes;
  pi_ExpiresInSeconds : Z
}.

(** The data of a command, by its format. *)
Definition command_data (input : isapiCommandInput) : result string bytes :=
  let format := ii_DataFormat input in
  if bool_decide (format = "noData") then
    match ii_TextData input, ii_DataBase64 input with
    | None, None => Ok []
    | _, _ => Err "noData commands must not include textData or dataBase64"
    end
  else if bool_decide (format = "jsonData") || bool_decide (format = "xmlData") then
    match ii_TextData input, ii_DataBase64 input with
    | Some text, None =>
        if bool_decide (text = "") then
          Err (format +:+ " commands require non-empty textData and must not include dataBase64")
        else Ok (bytes_of text)
    | _, _ => Err (format +:+ " commands require non-empty textData and must not include dataBase64")
    end
  else if bool_decide (format = "boundaryData") then
    match ii_TextData input, ii_DataBase64 input with
    | None, Some data =>
        if bool_decide (data = "") then
          Err "boundaryData commands require non-empty dataBase64 and must not include textData"
        else match b64_DecodeString data with
             | Some decoded => if bool_decide (b64_EncodeToString decoded = data) then Ok decoded
                               else Err "boundaryData dataBase64 must be canonical standard base64"
             | None => Err "boundaryData dataBase64 must be canonical standard base64"
             end
    | _, _ => Err "boundaryData commands require non-empty dataBase64 and must not include textData"
    end
  else Err "dataFormat must be jsonData, xmlData, boundaryData, or noData".

Definition is_method (m : string) : bool :=
  bool_decide (m = "GET") || bool_decide (m = "POST") || bool_decide (m = "PUT") || bool_decide (m = "DELETE").

Definition parse_command (input : isapiCommandInput) : result string parsedISAPICommandInput :=
  match ii_ExpiresInSeconds input with
  | None => Err "expiresInSeconds must be an integer from 1 to 3600"
  | Some seconds =>
      if (seconds <? 1) || (3600 <? seconds) then Err "expiresInSeconds must be an integer from 1 to 3600"
      else if negb (is_method (ii_Method input)) then Err "method must be GET, POST, PUT, or DELETE"
      else
        validateISAPIURL (ii_URL input);;
        data ← command_data input;
        if maxISAPICommandBytes <? zlen data then Err "ISAPI command data must not exceed 8 MiB"
        else Ok (mkParsedInput (ii_Method input) (ii_URL input) (ii_DataFormat input) data seconds)
  end.

Definition parseISAPICommandInput (request : APIRequest) : result string parsedISAPICommandInput :=
  input ← decodeISAPICommandJSON (decode_struct true isapiCommandInput_fields) zero_isapiCommandInput request;
  parse_command input.

(** ** Deliveries *)
Definition validDeliveryEndpoint (value : string) : bool :=
  match NetURL.Parse value with
  | None => false
  | Some u => bool_decide (NetURL.Scheme u = bytes_of "https") && negb (bool_decide (NetURL.Hostname u = []))
              && bool_decide (NetURL.User u = None) && bool_decide (NetURL.Fragment u = [])
              && bool_decide (NetURL.Opaque u = []) && (slen value <=? 2048)
  end.

Record routeInput := mkRouteInput { ri_EndpointURL : string; ri_SigningKeyID : string; ri_Enabled : option bool }.
Definition routeInput_fields : list (field routeInput) :=
  [ fld "endpointUrl" ri_EndpointURL (fun r v => mkRouteInput v (ri_SigningKeyID r) (ri_Enabled r)) decode_string;
    fld "signingKeyId" ri_SigningKeyID (fun r v => mkRouteInput (ri_EndpointURL r) v (ri_Enabled r)) decode_string;
    fld "enabled" ri_Enabled (fun r v => mkRouteInput (ri_EndpointURL r) (ri_SigningKeyID r) v)
      (decode_ptr false decode_bool) ].

Record backfillInput := mkBackfillInput { bi_StartsAt : string; bi_EndsAt : string; bi_PreviewToken : string }.
Definition backfillInput_fields : list (field backfillInput) :=
  [ fld "startsAt" bi_StartsAt (fun r v => mkBackfillInput v (bi_EndsAt r) (bi_PreviewToken r)) decode_string;
    fld "endsAt" bi_EndsAt (fun r v => mkBackfillInput (bi_StartsAt r) v (bi_PreviewToken r)) decode_string;
    fld "previewToken" bi_PreviewToken (fun r v => mkBackfillInput (bi_StartsAt r) (bi_EndsAt r) v) decode_string ].

Definition max_backfill_range : duration := 31 * 24 * 60 * minute.

(** The range of an event backfill: at most 31 days, with explicit offsets. *)
Definition backfill_range (input : backfillInput) : option (Time * Time) :=
  if has_suffix (bi_StartsAt input) "-00:00" || has_suffix (bi_EndsAt input) "-00:00" then None else
  from ← Parse_RFC3339 (bi_StartsAt input);
  until ← Parse_RFC3339 (bi_EndsAt input);
  if negb (t_ns from <? t_ns until) || (max_backfill_range <? t_ns until - t_ns from)
  then None else Some (from, until).

Record attachmentInput := mkAttachmentInput { xi_ThroughDeliveryID : Z; xi_PreviewToken : string }.
Definition attachmentInput_fields : list (field attachmentInput) :=
  [ fld "throughDeliveryId" xi_ThroughDeliveryID (fun r v => mkAttachmentInput v (xi_PreviewToken r)) decode_int;
    fld "previewToken" xi_PreviewToken (fun r v => mkAttachmentInput (xi_ThroughDeliveryID r) v) decode_string ].

(** A path value that is a positive identifier. *)
Definition positive_id (s : string) : option Z :=
  match ParseInt s with Some n => if n <? 1 then None else Some n | None => None end.
