(* ===== verification/AdminAPI.v ===== *)
(** internal/httpapi: the handlers of the administration API, [withSession], and the
    routes [Register] puts into the mux, on the process of World.v with the
    PostgreSQL store.

    An answer holds the value the code hands to [writeJSON] (APIBody.v has its text).
    Static files, the Prometheus handler and the WebSocket handshake are answers of
    their own: what they send is decided by net/http, promhttp and gorilla/websocket;
    Monitor.v has the connection after the handshake. *)

From Stdlib Require Import ZArith Lia Ascii String.
From stdpp Require Import base gmap strings list option sorting.
From S2P Require Import Prelude GoText GoTime GoJSON GoHTTP GoURL GoConv GoNet GoCrypto AccessControl Config Crypto.
From S2P Require Import StoreTypes Wire Database StoreCore Deliveries Worker Attachments Backfills Archive.
From S2P Require Import CommandQueue SyncRuns Commands Queries Admin StoreFrame World StoreInstance APIInput.

Local Open Scope string_scope.
Local Open Scope Z_scope.

(** ** Answers *)
Record SetCookie := mkSetCookie {
  ck_Name : string;
  ck_Value : string;
  ck_MaxAge : Z;
  ck_Secure : bool             (* Path=/, HttpOnly and SameSite=Strict always *)
}.

Inductive value :=
| VError (message : string)
| VStatus (status : string)
| VOverview (o : Overview)
| VDeviceEvents (page : DeviceEventPage)
| VEventPayload (payload : DeviceEventPayload) (picture : option Picture)
| VActivities (activities : list activity.Event) (total : Z)
| VCommand (c : ISAPICommand)
| VCommands (commands : list ISAPICommand) (total : Z)
| VCommandPayload (payload : ISAPICommand * string * option string)
| VSyncRun (r : AccessEventSyncRun)
| VConfiguration (routes : list DeliveryRoute) (signingKeyIds : list string)
| VRoute (r : DeliveryRoute)
| VRouteRemoved (serial : string)
| VDeliveries (deliveries : list EventDelivery) (total : Z)
| VAttachments (deliveries : list AttachmentDelivery) (total : Z)
| VRetried (id : Z)
| VBackfillPreview (p : BackfillPreview)
| VBackfillQueued (id count : Z)
| VAttachmentPreview (p : AttachmentBackfillPreview)
| VAttachmentsQueued (count : Z).

Inductive Answer :=
| AJSON (status : Z) (cookie : option SetCookie) (v : value)     (* Cache-Control: no-store *)
| AProtocol (r : Response)                                       (* written by the PushSDK service *)
| ANotFound                                                      (* http.NotFound *)
| ARedirect (status : Z) (location : string)
| AIndex                                                         (* WebDir/index.html *)
| AAsset (name : string)                                         (* a file below WebDir *)
| AMetrics                                                       (* promhttp *)
| ASocket (history : list activity.Event)                        (* an open monitor socket *)
| ARefused.                                                      (* the handshake or its history failed *)

(** The status of an answer of the API itself. *)
Definition answer_status (a : Answer) : option Z :=
  match a with
  | AJSON s _ _ => Some s
  | AProtocol r => Some (resp_Status r)
  | ANotFound => Some 404
  | ARedirect s _ => Some s
  | _ => None
  end.

(** [errors.Is(err, target)] and [err.Error()] for the errors of the store. *)
Fixpoint errors_Is (err : error) (target : store_error) : bool :=
  match err with
  | EStore e => bool_decide (e = target)
  | EWrap _ e => errors_Is e target
  | _ => false
  end.

Definition error_text (e : store_error) : string :=
  if bool_decide (e = ErrNoRows) then "no rows in result set"
  else if bool_decide (e = ErrISAPICommandTerminalNotFound) then "ISAPI command terminal is not registered"
  else if bool_decide (e = ErrISAPICommandTerminalOffline) then "ISAPI command terminal is offline"
  else if bool_decide (e = ErrAccessEventSyncTerminalNotFound) then "retained event sync terminal is not registered"
  else if bool_decide (e = ErrAccessEventSyncTerminalOffline) then "retained event sync terminal is offline"
  else if bool_decide (e = ErrAccessEventSyncInProgress) then "a retained event sync is already active for this terminal"
  else if bool_decide (e = ErrBackfillPreviewChanged) then "the archive or destination changed; preview the backfill again"
  else if bool_decide (e = ErrBackfillRouteDisabled) then "an enabled destination is required for backfill"
  else if bool_decide (e = ErrBackfillTooLarge) then
    "select a smaller range; a backfill can contain at most 10000 source records"
  else if bool_decide (e = ErrBackfillEmpty) then "no undelivered eligible events in this preview"
  else if bool_decide (e = ErrDeliveryRouteBusy) then "pending deliveries must finish before changing the endpoint or key"
  else if bool_decide (e = ErrDeliveryRouteUnfinished) then
    "finish or resolve unfinished deliveries before removing this destination"
  else if bool_decide (e = ErrUnknownArchiveEventSource) then "unknown event archive source"
  else match e with ErrText m => m | _ => "" end.

(** The first of several errors an error is, with the status of its answer. *)
Definition answer_for (cases : list (store_error * Z)) (err : error) : option (Z * string) :=
  (fun c => (c.2, error_text c.1)) <$> List.find (fun c => errors_Is err c.1) cases.

(** [base64.RawURLEncoding] *)
Definition url_char (c : ascii) : ascii :=
  if byte_val c =? 43 then "-"%char else if byte_val c =? 47 then "_"%char else c.
Definition RawURLEncoding (b : bytes) : string :=
  string_of (url_char <$> List.filter (fun c => negb (bool_decide (c = b64_pad))) (b64_encode b)).

(** [path.Ext(p) == ""] *)
Fixpoint no_extension (l : bytes) : bool :=     (* over the reversed path *)
  match l with
  | [] => true
  | c :: l' => if bool_decide (c = "/"%char) then true
               else if bool_decide (c = "."%char) then false else no_extension l'
  end.

Definition New (cfg : Config) : result string (list Netip.Prefix) :=
  foldR (fun prefixes cidr =>
    match Netip.ParsePrefix cidr with
    | Some p => Ok (prefixes ++ [p])%list
    | None => Err "METRICS_ALLOW_CIDRS %q: %w"
    end) (MetricsCIDRs cfg) [].

Definition monitorHistoryLimit : Z := 100.

Section api.
Context `{GoParsers} `{CryptoLib} `{Bcrypt}.
(** [Upgrade] is whether gorilla/websocket accepts the handshake of a request whose
    origin has been checked. *)
Context (env : Env) (cfg : Config) (metricsNets : list Netip.Prefix) (Upgrade : APIRequest -> bool).

Local Abbreviation M := (M error World).
Definition handler : Type := APIRequest -> (string -> string) -> M Answer.

Definition writeJSON (status : Z) (v : value) : M Answer := mret (AJSON status None v).
Definition writeError (status : Z) (message : string) : M Answer := writeJSON status (VError message).
Definition internalError : M Answer := writeError 500 "internal server error".

(** A call whose error is answered by [internalError] or by one of [cases]. *)
Definition attempt {A} (cases : list (store_error * Z)) (op : Tx store_error TxCtx DB A) (k : A -> M Answer) : M Answer :=
  r ← try_ (call env op);
  match r with
  | Ok a => k a
  | Err err => match answer_for cases err with
               | Some (status, message) => writeError status message
               | None => internalError
               end
  end.

(** A check whose error is a 400 answer. *)
Definition checked {A} (r : result string A) (k : A -> M Answer) : M Answer :=
  match r with Ok a => k a | Err message => writeError 400 message end.

Definition with_identity (request : APIRequest) (missing : M Answer) (k : AdminIdentity -> M Answer) : M Answer :=
  match administratorIdentity request with Some identity => k identity | None => missing end.

Definition with_terminal (serial : string) (k : Terminal -> M Answer) : M Answer :=
  match TerminalBySerialNumber cfg serial with Some terminal => k terminal | None => writeError 404 "unknown terminal" end.

(** ** Open routes *)
Definition health : handler := fun _ _ => writeJSON 200 (VStatus "ok").

Definition ready : handler := fun _ _ =>
  r ← try_ (call env load_Overview);
  match r with
  | Ok _ => writeJSON 200 (VStatus "ready")
  | Err _ => writeError 503 "database is unavailable"
  end.

Definition redirectRoot : handler := fun request _ =>
  if negb (bool_decide (req_Path (api_http request) = "/")) then mret ANotFound
  else if negb (bool_decide (req_Method (api_http request) = "GET")) then writeError 405 "method must be GET"
  else mret (ARedirect 308 "/app/").

Definition webApp : handler := fun request _ =>
  let path := bytes_of (req_Path (api_http request)) in
  let relativePath := if NetURL.has_prefix (bytes_of "/app/") path then drop 5 path else path in
  if bool_decide (relativePath = []) || no_extension (reverse relativePath) then mret AIndex
  else mret (AAsset (string_of relativePath)).

Definition privateMetrics : handler := fun request _ =>
  match SplitHostPort (api_RemoteAddr request) with
  | None => writeError 403 "metrics access denied"
  | Some host =>
      match Netip.ParseAddr host with
      | None => writeError 403 "metrics access denied"
      | Some address => if existsb (fun allowed => Netip.Contains allowed address) metricsNets then mret AMetrics
                        else writeError 403 "metrics access denied"
      end
  end.

(** ** Signing in and out *)
Definition randomToken : M string := fun w =>
  (match ReadFull (env_rand env) (w_reads w) 32 with
   | Some b => Ok (RawURLEncoding b)
   | None => Err (EText "read random bytes")
   end, advance (w_clock w) (S (w_reads w)) (w_calls w) w).

Definition login : handler := fun request _ =>
  checked (decodeJSON (decode_struct true loginInput_fields) (mkLoginInput "" "") request) (fun input =>
  if bool_decide (li_Username input = "") || bool_decide (li_Password input = "") then
    writeError 400 "username and password are required"
  else
  attempt [] (VerifyAdmin (li_Username input) (li_Password input)) (fun verified =>
  match verified with
  | None => writeError 401 "invalid credentials"
  | Some userID =>
      r ← try_ randomToken;
      match r with
      | Err _ => internalError
      | Ok rawToken =>
          now ← time_Now env;
          attempt [] (CreateSessionWithActivity userID (sha256_Sum256 (bytes_of rawToken)) (now + SessionTTL cfg)
                        (activity.event activity.KindAdminLogin "" "administrator session opened" ∅)) (fun stored =>
          Publish stored;;
          mret (AJSON 200 (Some (mkSetCookie sessionCookie rawToken (whole_seconds (SessionTTL cfg)) (CookieSecure cfg)))
                  (VStatus "authenticated")))
      end
  end)).

Definition logout : handler := fun request _ =>
  match sessionToken request with
  | None => writeError 401 "authentication required"
  | Some token =>
      attempt [] (DeleteSessionWithActivity (sha256_Sum256 (bytes_of token))
                    (activity.event activity.KindAdminLogout "" "administrator session closed" ∅)) (fun stored =>
      Publish stored;;
      mret (AJSON 200 (Some (mkSetCookie sessionCookie "" (-1) (CookieSecure cfg))) (VStatus "signed_out")))
  end.

Definition withSession (next : handler) : handler := fun request values =>
  match sessionToken request with
  | None => writeError 401 "authentication required"
  | Some token =>
      attempt [] (AdminIdentityForSession (sha256_Sum256 (bytes_of token))) (fun found =>
      match found with
      | None => writeError 401 "authentication required"
      | Some identity => next (WithIdentity identity request) values
      end)
  end.

(** ** Reading *)
Definition overview : handler := fun _ _ =>
  attempt [] load_Overview (fun o => writeJSON 200 (VOverview o)).

Definition deviceEvents : handler := fun request _ =>
  checked (pagination request) (fun '(limit, offset) =>
  checked (deviceEventQuery request limit offset) (fun q =>
  attempt [] (QueryDeviceEvents q) (fun page => writeJSON 200 (VDeviceEvents page)))).

Definition event_payload_answer (payload : option DeviceEventPayload) : M Answer :=
  match payload with
  | None => writeError 404 "device event not found"
  | Some p => writeJSON 200 (VEventPayload p (dp_PayloadBase64 p ≫= ExtractPicture (dp_DataFormat p)))
  end.

Definition deviceEventPayload : handler := fun _ value =>
  match positive_id (value "id") with
  | None => writeError 400 "event id must be a positive integer"
  | Some id => attempt [] (ArchiveEventPayload "pushsdk" id) event_payload_answer
  end.

Definition archiveEventPayload : handler := fun _ value =>
  match positive_id (value "id") with
  | None => writeError 400 "event id must be a positive integer"
  | Some id => attempt [(ErrUnknownArchiveEventSource, 400)] (ArchiveEventPayload (value "source") id) event_payload_answer
  end.

Definition gatewayActivity : handler := fun request _ =>
  checked (pagination request) (fun '(limit, offset) =>
  attempt [] (GatewayActivities limit offset) (fun '(activities, total) => writeJSON 200 (VActivities activities total))).

Definition isapiCommands : handler := fun request _ =>
  checked (pagination request) (fun '(limit, offset) =>
  checked (isapiCommandTerminalFilter request) (fun terminal =>
  attempt [] (QueryISAPICommands terminal limit offset) (fun '(commands, total) => writeJSON 200 (VCommands commands total)))).

Definition isapiCommandPayload : handler := fun _ value =>
  attempt [] (ISAPICommandPayload (value "uuid")) (fun found =>
  match found with
  | None => writeError 404 "ISAPI command not found"
  | Some payload => writeJSON 200 (VCommandPayload payload)
  end).

Definition accessEventSyncRun : handler := fun _ value =>
  attempt [] (load_AccessEventSyncRun (value "uuid")) (fun found =>
  match found with
  | None => writeError 404 "retained event sync not found"
  | Some run => writeJSON 200 (VSyncRun run)
  end).

Definition deliveryConfiguration : handler := fun _ _ =>
  attempt [] DeliveryRoutes (fun routes =>
  writeJSON 200 (VConfiguration routes (order_by String.leb (map_to_list (DeliverySigningKeys cfg)).*1))).

Definition eventDeliveries : handler := fun request _ =>
  checked (pagination request) (fun '(limit, offset) =>
  attempt [] (EventDeliveries limit offset) (fun '(rows, total) => writeJSON 200 (VDeliveries rows total))).

Definition attachmentDeliveries : handler := fun request _ =>
  checked (pagination request) (fun '(limit, offset) =>
  attempt [] (AttachmentDeliveries limit offset) (fun '(rows, total) => writeJSON 200 (VAttachments rows total))).

(** [monitorSocket] up to its loop: the client subscribes, then gets the newest
    activities, oldest first. *)
Definition monitorSocket : handler := fun request _ =>
  if negb (sameOrigin request && Upgrade request) then mret ARefused else
  r ← try_ (call env (GatewayActivities monitorHistoryLimit 0));
  match r with
  | Ok (activities, _) => mret (ASocket (reverse activities))
  | Err _ => mret ARefused
  end.

(** ** Changing *)
Definition queueISAPICommand : handler := fun request value =>
  with_identity request internalError (fun identity =>
  checked (parseISAPICommandInput request) (fun input =>
  now ← time_Now env;
  attempt [(ErrISAPICommandTerminalNotFound, 404); (ErrISAPICommandTerminalOffline, 409)]
    (QueueISAPICommand {| nc_TerminalSerialNumber := value "serial"; nc_CreatedBy := identity;
                          nc_Method := pi_Method input; nc_URL := pi_URL input;
                          nc_DataFormat := pi_DataFormat input; nc_Data := pi_Data input;
                          nc_ExpiresAt := now + pi_ExpiresInSeconds input * second |}) (fun '(command, stored) =>
  Publish stored;;
  writeJSON 201 (VCommand command)))).

Definition queueAccessEventSync : handler := fun request value =>
  if negb (bool_decide (req_RawQuery (api_http request) = "")) then
    writeError 400 "retained event sync does not accept query parameters"
  else if (1 <? zlen (req_Body (api_http request))) || req_Broken (api_http request) then
    writeError 413 "retained event sync request must not have a body"
  else if negb (zlen (req_Body (api_http request)) =? 0) then
    writeError 400 "retained event sync request must not have a body"
  else
  with_identity request internalError (fun identity =>
  attempt [(ErrAccessEventSyncTerminalNotFound, 404); (ErrAccessEventSyncTerminalOffline, 409);
           (ErrAccessEventSyncInProgress, 409)]
    (QueueAccessEventSync (value "serial") identity) (fun '(run, activities) =>
  for_each Publish activities;;
  writeJSON 201 (VSyncRun run))).

Definition required : M Answer := writeError 401 "administrator required".

Definition saveDeliveryRoute : handler := fun request value =>
  with_identity request required (fun identity =>
  with_terminal (value "serial") (fun terminal =>
  checked (decodeJSON (decode_struct true routeInput_fields) (mkRouteInput "" "" None) request) (fun input =>
  match ri_Enabled input, validDeliveryEndpoint (ri_EndpointURL input) with
  | Some enabled, true =>
      if bool_decide (is_Some (DeliverySigningKeys cfg !! ri_SigningKeyID input)) then
        let route := {| rt_TerminalSerialNumber := SerialNumber terminal; rt_EndpointURL := ri_EndpointURL input;
                        rt_SigningKeyID := ri_SigningKeyID input; rt_Enabled := enabled |} in
        attempt [(ErrDeliveryRouteBusy, 409)] (SaveDeliveryRoute route (ai_ID identity)) (fun _ =>
        writeJSON 200 (VRoute route))
      else writeError 422 "signingKeyId is not configured on the gateway"
  | _, _ => writeError 422 "endpointUrl must be an absolute HTTPS URL without credentials or fragments; enabled must be a boolean"
  end))).

Definition deleteDeliveryRoute : handler := fun request value =>
  with_identity request required (fun identity =>
  with_terminal (value "serial") (fun terminal =>
  r ← try_ (call env (DeleteDeliveryRoute (SerialNumber terminal) (ai_ID identity)));
  match r with
  | Ok _ => writeJSON 200 (VRouteRemoved (SerialNumber terminal))
  | Err err =>
      if errors_Is err ErrNoRows then writeError 404 "destination not configured"
      else if errors_Is err ErrDeliveryRouteUnfinished then writeError 409 (error_text ErrDeliveryRouteUnfinished)
      else internalError
  end)).

(** The two retry handlers differ in the queue and the texts. *)
Definition retry (invalid conflict : string) (op : Z -> Z -> Tx store_error TxCtx DB unit) : handler := fun request value =>
  with_identity request required (fun identity =>
  match positive_id (value "id") with
  | None => writeError 400 invalid
  | Some id =>
      r ← try_ (call env (op id (ai_ID identity)));
      match r with
      | Ok _ => writeJSON 200 (VRetried id)
      | Err err => if errors_Is err ErrNoRows then writeError 409 conflict else internalError
      end
  end).
Definition retryEventDelivery : handler :=
  retry "invalid delivery id" "only failed deliveries can be retried" RetryEventDelivery.
Definition retryAttachment : handler :=
  retry "invalid attachment delivery id" "only failed attachment deliveries can be retried" RetryAttachmentDelivery.

Definition backfill_conflicts : list (store_error * Z) :=
  [(ErrNoRows, 409); (ErrBackfillRouteDisabled, 409); (ErrBackfillPreviewChanged, 409); (ErrBackfillEmpty, 409)].

Definition range_error : string :=
  "select a past range of at most 31 days using RFC3339 timestamps with offsets; the end is exclusive".

Definition eventBackfill : handler := fun request value =>
  with_identity request required (fun identity =>
  with_terminal (value "serial") (fun terminal =>
  checked (decodeJSON (decode_struct true backfillInput_fields) (mkBackfillInput "" "" "") request) (fun input =>
  match backfill_range input with
  | None => writeError 422 range_error
  | Some (from, until) =>
  now ← time_Now env;
  if now <? t_ns until then writeError 422 range_error else
  let cases := (backfill_conflicts ++ [(ErrBackfillTooLarge, 422)])%list in
  if bool_decide (value "action" = "preview") then
    if negb (bool_decide (bi_PreviewToken input = "")) then
      writeError 422 "previewToken is only used when queuing a preview"
    else attempt cases (PreviewEventBackfill (SerialNumber terminal) from until) (fun preview =>
         writeJSON 200 (VBackfillPreview preview))
  else if bool_decide (value "action" = "queue") then
    if negb (slen (bi_PreviewToken input) =? 64) then
      writeError 422 "previewToken is required; preview the backfill first"
    else attempt cases (QueueEventBackfill (SerialNumber terminal) from until (bi_PreviewToken input) (ai_ID identity))
           (fun '(id, count) => writeJSON 200 (VBackfillQueued id count))
  else writeError 404 "unknown backfill action"
  end))).

(** An attachment backfill answers its own text for [ErrBackfillTooLarge]. *)
Definition attempt_photos {A} (op : Tx store_error TxCtx DB A) (k : A -> M Answer) : M Answer :=
  r ← try_ (call env op);
  match r with
  | Ok a => k a
  | Err err =>
      match answer_for backfill_conflicts err with
      | Some (status, message) => writeError status message
      | None => if errors_Is err ErrBackfillTooLarge then
                  writeError 422 "At most 5000 event receipts per photo backfill. Select a smaller throughDeliveryId."
                else internalError
      end
  end.

Definition attachmentBackfill : handler := fun request value =>
  with_identity request required (fun actor =>
  with_terminal (value "serial") (fun terminal =>
  checked (decodeJSON (decode_struct true attachmentInput_fields) (mkAttachmentInput 0 "") request) (fun input =>
  if xi_ThroughDeliveryID input <? 0 then writeError 422 "invalid delivery bound" else
  if bool_decide (value "action" = "preview") then
    if negb (bool_decide (xi_PreviewToken input = "")) then writeError 422 "previewToken is only used for queuing"
    else attempt_photos (PreviewAttachmentBackfill (SerialNumber terminal) (xi_ThroughDeliveryID input)) (fun p =>
         writeJSON 200 (VAttachmentPreview p))
  else if bool_decide (value "action" = "queue") then
    if negb (slen (xi_PreviewToken input) =? 64) || (xi_ThroughDeliveryID input <=? 0) then
      writeError 422 "previewToken and throughDeliveryId are required"
    else attempt_photos (QueueAttachmentBackfill (SerialNumber terminal) (xi_ThroughDeliveryID input)
                           (xi_PreviewToken input) (ai_ID actor)) (fun count =>
         writeJSON 200 (VAttachmentsQueued count))
  else writeError 404 "unknown backfill action"))).

(** ** Routes *)
Definition Register : list (string * handler) :=
  [ ("GET /healthz", health);
    ("GET /readyz", ready);
    ("GET /metrics", privateMetrics);
    ("POST /api/v1/auth/login", login);
    ("POST /api/v1/auth/logout", withSession logout);
    ("GET /api/v1/admin/overview", withSession overview);
    ("GET /api/v1/admin/events", withSession deviceEvents);
    ("GET /api/v1/admin/events/{source}/{id}/payload", withSession archiveEventPayload);
    ("GET /api/v1/admin/events/{id}/payload", withSession deviceEventPayload);
    ("GET /api/v1/admin/isapi-commands", withSession isapiCommands);
    ("GET /api/v1/admin/isapi-commands/{uuid}", withSession isapiCommandPayload);
    ("POST /api/v1/admin/terminals/{serial}/isapi-commands", withSession queueISAPICommand);
    ("POST /api/v1/admin/terminals/{serial}/retained-event-syncs", withSession queueAccessEventSync);
    ("GET /api/v1/admin/retained-event-syncs/{uuid}", withSession accessEventSyncRun);
    ("GET /api/v1/admin/activity", withSession gatewayActivity);
    ("GET /api/v1/admin/delivery-configuration", withSession deliveryConfiguration);
    ("PUT /api/v1/admin/terminals/{serial}/delivery", withSession saveDeliveryRoute);
    ("DELETE /api/v1/admin/terminals/{serial}/delivery", withSession deleteDeliveryRoute);
    ("POST /api/v1/admin/terminals/{serial}/backfill/{action}", withSession eventBackfill);
    ("GET /api/v1/admin/event-deliveries", withSession eventDeliveries);
    ("POST /api/v1/admin/event-deliveries/{id}/retry", withSession retryEventDelivery);
    ("GET /api/v1/admin/attachment-deliveries", withSession attachmentDeliveries);
    ("POST /api/v1/admin/attachment-deliveries/{id}/retry", withSession retryAttachment);
    ("POST /api/v1/admin/terminals/{serial}/attachment-backfill/{action}", withSession attachmentBackfill);
    ("GET /ws/v1/monitor", withSession monitorSocket);
    ("/", redirectRoot);
    ("GET /app/", webApp) ].
End api.
