(* ===== verification/APIBody.v ===== *)
(** The JSON bodies of the administration API: [writeJSON]'s encoding of every value the
    handlers answer with, by the struct tags of the types they hand to it. *)

From Stdlib Require Import ZArith Lia Ascii String.
From stdpp Require Import base gmap strings list option sorting.
From S2P Require Import Prelude GoText GoTime GoJSON JSONProofs GoHTTP GoURL GoNet GoCrypto AccessControl StoreTypes Hub.
From S2P Require Import Database StoreCore Deliveries Attachments Backfills Archive CommandQueue Commands Queries AdminAPI.

Local Open Scope string_scope.
Local Open Scope Z_scope.

(** ** Encoders

    [None] is an error of [Encode]: a [time.Time] without RFC 3339 text. *)
Definition enc : Type := option jout.

Definition str (s : string) : enc := Some (OString s).
Definition int (n : Z) : enc := Some (OInt n).
Definition boolean (b : bool) : enc := Some (OBool b).
Definition instant (t : Time) : enc := if MarshalJSON_ok t then Some (time_json t) else None.
Definition pointer {A} (f : A -> enc) (o : option A) : enc := from_option f (Some ONull) o.
Definition object (ms : list (string * enc)) : enc := OObject <$> mapM (fun m => pair m.1 <$> m.2) ms.
Definition array {A} (f : A -> enc) (l : list A) : enc := OArray <$> mapM f l.

(** [omitempty] *)
Definition unless_empty (name s : string) : list (string * enc) := if bool_decide (s = "") then [] else [(name, str s)].
Definition unless_nil {A} (name : string) (f : A -> enc) (o : option A) : list (string * enc) :=
  match o with Some a => [(name, f a)] | None => [] end.

Section encoders.
(** Times scanned from the database are in the zone of the process. *)
Context (zone : time -> Z).
Definition at_ (t : time) : enc := instant (mkTime t (zone t)).

Definition sync_status_text (s : SyncStatus) : string :=
  match s with
  | SyncAwaitingTime => "awaiting_time" | SyncRunning => "running" | SyncCompleted => "completed" | SyncFailed => "failed"
  end.

Definition sync_run_members (r : AccessEventSyncRun) : list (string * enc) :=
  [("uuid", str (run_UUID r)); ("terminalSerialNumber", str (run_TerminalSerialNumber r));
   ("createdByUsername", str (run_CreatedByUsername r)); ("status", str (sync_status_text (run_Status r)));
   ("searchStartedAt", pointer at_ (run_SearchStartedAt r)); ("searchEndedAt", pointer at_ (run_SearchEndedAt r));
   ("totalMatches", pointer int (run_TotalMatches r)); ("pagesCompleted", int (run_PagesCompleted r));
   ("recordsImported", int (run_RecordsImported r)); ("recordsDuplicate", int (run_RecordsDuplicate r));
   ("failure", pointer str (run_Failure r)); ("createdAt", at_ (run_CreatedAt r));
   ("completedAt", pointer at_ (run_CompletedAt r))].

Definition terminal_members (t : TerminalState) : list (string * enc) :=
  ([("serialNumber", str (ts_SerialNumber t)); ("pushSdkSerial", str (ts_PushSDKSerial t)); ("status", str (ts_Status t));
    ("lastSeenAt", pointer at_ (ts_LastSeenAt t)); ("lastError", pointer str (ts_LastError t))]
   ++ unless_nil "latestAccessEventSync" (fun r => object (sync_run_members r)) (ts_LatestAccessEventSync t))%list.

Definition face_rect_members (r : FaceRect) : list (string * enc) :=
  [("height", pointer str (fr_Height r)); ("width", pointer str (fr_Width r)); ("x", pointer str (fr_X r));
   ("y", pointer str (fr_Y r))].

Definition access_event_members (a : AccessEvent) : list (string * enc) :=
  let p := ae_Projection a in
  (unless_empty "category" (ae_Category a)
   ++ [("majorEventType", int (pj_MajorEventType p)); ("subEventType", int (pj_SubEventType p))]
   ++ unless_empty "subtypeLabel" (ae_SubtypeLabel a)
   ++ [("eventDescription", pointer str (pj_EventDescription p)); ("eventState", pointer str (pj_EventState p));
       ("occurredAt", pointer (fun t => at_ (t_ns t)) (pj_OccurredAt p));
       ("sourceIpAddress", pointer str (pj_SourceIPAddress p)); ("sourceMacAddress", pointer str (pj_SourceMACAddress p));
       ("channelId", pointer int (pj_ChannelID p)); ("activePostCount", pointer int (pj_ActivePostCount p));
       ("shortSerialNumber", pointer str (pj_ShortSerialNumber p)); ("deviceName", pointer str (pj_DeviceName p));
       ("employeeNumber", pointer str (pj_EmployeeNumber p)); ("employeeName", pointer str (pj_EmployeeName p));
       ("cardNumber", pointer str (pj_CardNumber p)); ("cardReaderNumber", pointer int (pj_CardReaderNumber p));
       ("doorNumber", pointer int (pj_DoorNumber p)); ("eventSerialNumber", pointer int (pj_EventSerialNumber p));
       ("frontSerialNumber", pointer int (pj_FrontSerialNumber p)); ("userType", pointer str (pj_UserType p));
       ("currentVerifyMode", pointer str (pj_CurrentVerifyMode p)); ("currentEvent", pointer boolean (pj_CurrentEvent p));
       ("mask", pointer str (pj_Mask p)); ("picturesNumber", pointer int (pj_PicturesNumber p));
       ("purePwdVerifyEnable", pointer boolean (pj_PurePwdVerifyEnable p))]
   ++ unless_nil "faceRect" (fun r => object (face_rect_members r)) (pj_FaceRect p))%list.

Definition device_event_members (e : DeviceEvent) : list (string * enc) :=
  ([("id", int (dev_ID e)); ("source", str (dev_Source e)); ("terminalSerialNumber", str (dev_TerminalSerialNumber e));
    ("sourceRecordId", str (dev_SourceRecordID e)); ("dataFormat", str (dev_DataFormat e));
    ("payloadAvailable", boolean (dev_PayloadAvailable e)); ("receivedAt", at_ (dev_ReceivedAt e))]
   ++ unless_nil "accessEvent" (fun a => object (access_event_members a)) (dev_AccessEvent e))%list.

Definition subtype_members (s : AccessEventSubtype) : list (string * enc) :=
  (("code", int (sub_Code s)) :: unless_nil "label" str (sub_Label s))%list.

Definition picture_members (p : Picture) : list (string * enc) :=
  ([("contentType", str (pic_ContentType p)); ("fileName", str (pic_FileName p))]
   ++ unless_empty "contentId" (pic_ContentID p) ++ [("dataBase64", str (pic_DataBase64 p))])%list.

Definition payload_members (p : DeviceEventPayload) : list (string * enc) :=
  [("id", int (dp_ID p)); ("source", str (dp_Source p)); ("sourceRecordId", str (dp_SourceRecordID p));
   ("dataFormat", str (dp_DataFormat p)); ("payloadBase64", pointer str (dp_PayloadBase64 p))].

Definition command_members (c : ISAPICommand) : list (string * enc) :=
  [("uuid", str (ic_UUID c)); ("terminalSerialNumber", str (ic_TerminalSerialNumber c));
   ("createdByUsername", str (ic_CreatedByUsername c)); ("method", str (ic_Method c)); ("url", str (ic_URL c));
   ("dataFormat", str (ic_DataFormat c)); ("status", str (command_status_text (ic_Status c)));
   ("createdAt", at_ (ic_CreatedAt c)); ("expiresAt", at_ (ic_ExpiresAt c)); ("sentAt", pointer at_ (ic_SentAt c));
   ("completedAt", pointer at_ (ic_CompletedAt c)); ("responseDataFormat", pointer str (ic_ResponseDataFormat c));
   ("responseDataFormatDeclared", pointer boolean (ic_ResponseDataFormatDeclared c));
   ("responseDataAvailable", boolean (ic_ResponseDataAvailable c))].

Definition delivery_members (d : EventDelivery) : list (string * enc) :=
  [("id", int (ev_ID d)); ("deviceEventId", pointer int (ev_DeviceEventID d));
   ("retainedEventId", pointer int (ev_RetainedEventID d)); ("backfillId", pointer int (ev_BackfillID d));
   ("terminalSerialNumber", str (ev_TerminalSerialNumber d)); ("endpointUrl", str (ev_EndpointURL d));
   ("signingKeyId", str (ev_SigningKeyID d)); ("status", str (ev_Status d)); ("attempts", int (ev_Attempts d));
   ("nextAttemptAt", instant (ev_NextAttemptAt d)); ("lastHttpStatus", pointer int (ev_LastHTTPStatus d));
   ("lastError", pointer str (ev_LastError d)); ("createdAt", instant (ev_CreatedAt d));
   ("deliveredAt", pointer instant (ev_DeliveredAt d))].

Definition attachment_delivery_members (a : AttachmentDelivery) : list (string * enc) :=
  (delivery_members (ad_EventDelivery a)
   ++ [("eventDeliveryId", int (ad_EventDeliveryID a)); ("availability", pointer str (ad_Availability a));
       ("reason", pointer str (ad_Reason a))])%list.

Definition identity_members (i : BackfillIdentity) : list (string * enc) :=
  [("employeeNumber", str (bi_EmployeeNumber i)); ("names", array str (bi_Names i)); ("events", int (bi_Events i));
   ("firstScan", instant (bi_FirstScan i)); ("lastScan", instant (bi_LastScan i))].

Definition preview_members (p : BackfillPreview) : list (string * enc) :=
  [("token", str (bp_Token p)); ("route", Some (route_json (bp_Route p))); ("startsAt", instant (bp_StartsAt p));
   ("endsAt", instant (bp_EndsAt p)); ("eligible", int (bp_Eligible p)); ("alreadyQueued", int (bp_AlreadyQueued p));
   ("duplicateSources", int (bp_DuplicateSources p)); ("invalid", int (bp_Invalid p));
   ("pushSdkEvents", int (bp_PushSDKEvents p)); ("isapiEvents", int (bp_ISAPIEvents p));
   ("identities", array (fun i => object (identity_members i)) (bp_Identities p))].

Definition activity_json (e : activity.Event) : enc :=
  if MarshalJSON_ok (mkTime (activity.At e) (zone (activity.At e))) then Some (Hub.event_json zone e) else None.

(** [deviceEventPayloadResponse] embeds the payload. *)
Definition payload_response_members (payload : DeviceEventPayload) (picture : option Picture) : list (string * enc) :=
  (payload_members payload ++ unless_nil "picture" (fun p => object (picture_members p)) picture)%list.

Definition activity_page_members (activities : list activity.Event) (total : Z) : list (string * enc) :=
  [("activities", array activity_json activities); ("total", int total)].

Definition command_page_members (commands : list ISAPICommand) (total : Z) : list (string * enc) :=
  [("commands", array (fun c => object (command_members c)) commands); ("total", int total)].

(** The value handed to [writeJSON]; the keys of a map are sorted. *)
Definition value_json (v : value) : enc :=
  match v with
  | VError message => object [("error", str message)]
  | VStatus status => object [("status", str status)]
  | VOverview o => object [("deviceEventTotal", int (ov_DeviceEventTotal o));
                           ("terminals", array (fun t => object (terminal_members t)) (ov_Terminals o))]
  | VDeviceEvents page => object [("events", array (fun e => object (device_event_members e)) (page_Events page));
                                  ("total", int (page_Total page));
                                  ("subtypes", array (fun s => object (subtype_members s)) (page_Subtypes page))]
  | VEventPayload payload picture => object (payload_response_members payload picture)
  | VActivities activities total => object (activity_page_members activities total)
  | VCommand c => object (command_members c)
  | VCommands commands total => object (command_page_members commands total)
  | VCommandPayload (c, data, response) =>
      object (command_members c ++ [("requestDataBase64", str data); ("responseDataBase64", pointer str response)])%list
  | VSyncRun r => object (sync_run_members r)
  | VConfiguration routes keys =>
      object [("routes", array (fun r => Some (route_json r)) routes); ("signingKeyIds", array str keys)]
  | VRoute r => Some (route_json r)
  | VRouteRemoved serial => object [("removed", boolean true); ("terminalSerialNumber", str serial)]
  | VDeliveries rows total => object [("deliveries", array (fun d => object (delivery_members d)) rows); ("total", int total)]
  | VAttachments rows total =>
      object [("deliveries", array (fun a => object (attachment_delivery_members a)) rows); ("total", int total)]
  | VRetried id => object [("id", int id); ("status", str "pending")]
  | VBackfillPreview p => object (preview_members p)
  | VBackfillQueued id count => object [("backfillId", int id); ("queuedCount", int count)]
  | VAttachmentPreview p => object [("throughDeliveryId", int (ap_ThroughDeliveryID p)); ("eligible", int (ap_Eligible p));
                                    ("token", str (ap_Token p))]
  | VAttachmentsQueued count => object [("queuedCount", int count)]
  end.

(** [json.NewEncoder(writer).Encode(value)]: nothing is written when the value has no JSON. *)
Definition body (v : value) : bytes := from_option encode_line [] (value_json v).
End encoders.

(** ** Nesting *)

(** An encoded value of bounded height. *)
Definition within (n : nat) (e : enc) : Prop := forall j, e = Some j -> (height j <= n)%nat.

Lemma within_le n n' e : (n <= n')%nat -> within n e -> within n' e.
Proof. intros Hle H j Hj. specialize (H j Hj). lia. Qed.

Lemma within_pointer {A} n (f : A -> enc) o : (forall a, within n (f a)) -> within n (pointer f o).
Proof. intros Hf. destruct o; [apply Hf|]. intros j [= <-]. simpl. lia. Qed.

Lemma list_max_bound (l : list nat) n : Forall (fun k => (k <= n)%nat) l -> (list_max l <= n)%nat.
Proof. apply list_max_le. Qed.

Lemma within_object n ms : Forall (fun m => within n m.2) ms -> within (S n) (object ms).
Proof.
  intros H j. unfold object. destruct (mapM _ ms) as [l|] eqn:E; [|done]. intros [= <-]. cbn [height].
  apply le_n_S, list_max_bound. apply mapM_Some in E. apply Forall_map. clear -H E.
  induction E as [|m x ms l Hm _ IH]; constructor.
  - apply fmap_Some in Hm as (j & Hj & ->). inversion H as [|? ? H1 _]; subst. by apply H1.
  - apply IH. by inversion H.
Qed.

Lemma within_array {A} n (f : A -> enc) l : (forall a, within n (f a)) -> within (S n) (array f l).
Proof.
  intros H j. unfold array. destruct (mapM f l) as [js|] eqn:E; [|done]. intros [= <-]. cbn [height].
  apply le_n_S, list_max_bound. apply mapM_Some in E. apply Forall_map. clear -H E.
  induction E as [|a x l js Ha _ IH]; constructor; [by apply (H a)|done].
Qed.

Lemma within_unless_nil {A} n name (f : A -> enc) o :
  (forall a, within n (f a)) -> Forall (fun m => within n m.2) (unless_nil name f o).
Proof. intros Hf. destruct o; repeat constructor. apply Hf. Qed.

Lemma within_str n s : within n (str s).
Proof. intros j [= <-]. simpl. lia. Qed.
Lemma within_int n k : within n (int k).
Proof. intros j [= <-]. simpl. lia. Qed.
Lemma within_boolean n b : within n (boolean b).
Proof. intros j [= <-]. simpl. lia. Qed.
Lemma within_instant n t : within n (instant t).
Proof. unfold instant. intros j. case_match; intros [= <-]. simpl. lia. Qed.
Lemma within_route n r : within (S n) (Some (route_json r)).
Proof. intros j [= <-]. simpl. lia. Qed.
Lemma within_unless_empty n name s : Forall (fun m => within n m.2) (unless_empty name s).
Proof. unfold unless_empty. case_bool_decide; repeat constructor. apply within_str. Qed.

Lemma within_activity n zone e : within (S (S n)) (activity_json zone e).
Proof.
  unfold activity_json. intros j. case_match; intros [= <-]. unfold Hub.event_json. cbn [height]. apply le_n_S.
  apply list_max_bound, Forall_map, list.Forall_forall. intros [name v] Hin. cbn [snd].
  assert (Hf : forall l : list (string * activity.Value),
    (height (OObject ((fun f => (f.1, Hub.value_json f.2)) <$> l)) <= S n)%nat).
  { intros l. cbn [height]. apply le_n_S, list_max_bound, Forall_map, Forall_fmap, list.Forall_forall.
    intros [k x] _. cbn. destruct x; simpl; lia. }
  rewrite !elem_of_app in Hin. destruct Hin as [Hin|[Hin|[Hin|[Hin|Hin]]]].
  - case_match; [by apply elem_of_nil in Hin|]. apply list_elem_of_singleton in Hin as [= -> ->]. simpl. lia.
  - rewrite !elem_of_cons, elem_of_nil in Hin. destruct Hin as [[= -> ->]|[[= -> ->]|[]]]; simpl; lia.
  - case_bool_decide; [by apply elem_of_nil in Hin|]. apply list_elem_of_singleton in Hin as [= -> ->]. simpl. lia.
  - apply list_elem_of_singleton in Hin as [= -> ->]. simpl. lia.
  - case_bool_decide; [by apply elem_of_nil in Hin|]. apply list_elem_of_singleton in Hin as [= -> ->]. apply Hf.
Qed.

Create HintDb within.
#[export] Hint Resolve within_str within_int within_boolean within_instant within_route within_unless_empty within_activity : within.

Ltac within_step :=
  lazymatch goal with
  | |- within _ (object _) => apply within_object
  | |- within _ (array _ _) => apply within_array; intro
  | |- within _ (pointer _ _) => apply within_pointer; intro
  | |- within _ (at_ _ _) => apply within_instant
  | |- Forall _ (_ ++ _) => apply Forall_app_2
  | |- Forall _ (_ :: _) => apply Forall_cons_2; cbn [snd]
  | |- Forall _ [] => apply Forall_nil_2
  | |- Forall _ (unless_nil _ _ _) => apply within_unless_nil; intro
  | |- Forall _ (unless_empty _ _) => apply within_unless_empty
  | |- Forall _ (?f _ _ _) => unfold f
  | |- Forall _ (?f _ _) => unfold f
  | |- Forall _ (?f _) => unfold f
  | |- within _ _ => solve [auto with within]
  end.

Lemma value_within zone v : within 9 (value_json zone v).
Proof. destruct v as [| | | | | | | |[[c data] response]| | | | | | | | | | |]; cbn [value_json]; repeat within_step. Qed.

(** What [writeJSON] writes is one JSON document that a client reads back as the value, or
    nothing at all when the value holds a time without RFC 3339 text. *)
Theorem api_body_readable zone v :
  match value_json zone v with
  | Some j => parse_document (body zone v) = Some (as_read j)
  | None => body zone v = []
  end.
Proof.
  unfold body. destruct (value_json zone v) as [j|] eqn:E; [|done]. cbn [from_option]. unfold encode_line.
  apply line_parsed. pose proof (value_within zone v j E). unfold Scan.maxNestingDepth. lia.
Qed.
