(* ===== verification/Monitor.v ===== *)
(** internal/httpapi/server.go, [monitorSocket]: one monitor connection over the hub and the
    activity table, step by step.

    The connection subscribes, loads the newest activities, writes them oldest first, and then
    forwards what the hub sends.  Its steps interleave with transactions that record
    activities, with publications, and with the other connections of the hub. *)

From Stdlib Require Import ZArith Lia Ascii String.
From stdpp Require Import base gmap strings list option sorting.
From S2P Require Import Prelude GoText GoTime GoJSON GoHTTP GoURL GoNet GoCrypto AccessControl StoreTypes Hub Database.
From S2P Require Import StoreCore Queries StoreFrame AdminAPI.

Local Open Scope string_scope.
Local Open Scope Z_scope.

Module Monitor.
(** ** State *)
Inductive frame := Text (p : bytes) | PingFrame.

(** Where the handler is; [i] is the channel it holds. *)
Inductive phase :=
| Subscribing
| Loading (i : nat)
| Replaying (i : nat) (rest : list activity.Event)
| Streaming (i : nat)
| Closed.

Record t := mkMonitor {
  m_db : DB;
  m_hub : Hub.t;
  m_phase : phase;
  m_frames : list frame        (* what was written to the connection *)
}.

Definition accepted (d : DB) (h : Hub.t) : t := mkMonitor d h Subscribing [].

(** ** The handler *)
Section handler.
Context (zone : time -> Z).

(** [WriteJSON] of an activity: [Encode] ends the text with a newline. *)
Definition history_frame (e : activity.Event) : option frame :=
  (fun p => Text (p ++ [byte_of 10])%list) <$> Hub.payload zone e.

(** The handler returns: its deferred calls unsubscribe and close the connection. *)
Definition close (i : nat) (m : t) : t := mkMonitor (m_db m) (Hub.unsubscribe i (m_hub m)) Closed (m_frames m).

(** A write that failed ends the handler. *)
Definition write (i : nat) (f : option frame) (ok : bool) (next : phase) (m : t) : t :=
  match f with
  | Some f => if ok then mkMonitor (m_db m) (m_hub m) next (m_frames m ++ [f])%list else close i m
  | None => close i m
  end.

Definition subscribe (m : t) : t :=
  let '(i, h) := Hub.Subscribe (m_hub m) in mkMonitor (m_db m) h (Loading i) (m_frames m).

(** The query of the history; [None] when the database does not answer. *)
Definition load (i : nat) (c : option TxCtx) (m : t) : t :=
  match c with
  | None => close i m
  | Some c =>
      match GatewayActivities monitorHistoryLimit 0 c (m_db m) with
      | Ok ((activities, _), _) => mkMonitor (m_db m) (m_hub m) (Replaying i (reverse activities)) (m_frames m)
      | Err _ => close i m
      end
  end.

(** The loop over the history, from the oldest. *)
Definition replay (i : nat) (rest : list activity.Event) (ok : bool) (m : t) : t :=
  match rest with
  | e :: rest' => write i (history_frame e) ok (Replaying i rest') m
  | [] => mkMonitor (m_db m) (m_hub m) (Streaming i) (m_frames m)
  end.

(** The cases of the [select]: a payload is taken and written, a ping, the end of the request. *)
Inductive event := Message (ok : bool) | Tick (ok : bool) | Done.

Definition stream (i : nat) (ev : event) (m : t) : option t :=
  match ev with
  | Message ok =>
      '(p, h) ← Hub.receive i (m_hub m);
      Some (write i (Some (Text p)) ok (Streaming i) (mkMonitor (m_db m) h (m_phase m) (m_frames m)))
  | Tick ok => Some (write i (Some PingFrame) ok (Streaming i) m)
  | Done => Some (close i m)
  end.

(** ** Runs *)
Inductive label :=
| Committed (es : list activity.Event)
| Published (e : activity.Event) (p : bytes)
| Joined                                        (* this connection subscribes *)
| Internal.

(** The channel of the connection, once it has one. *)
Definition channel (m : t) : option nat :=
  match m_phase m with
  | Loading i | Replaying i _ | Streaming i => Some i
  | _ => None
  end.

Definition with_hub (m : t) (h : Hub.t) : t := mkMonitor (m_db m) h (m_phase m) (m_frames m).

(** Activities are published after their transaction committed; the channel of the
    connection is read and given up by its handler alone. *)
Inductive step : t -> label -> t -> Prop :=
| s_commit m d es : db_activities d = (db_activities (m_db m) ++ es)%list ->
    step m (Committed es) (mkMonitor d (m_hub m) (m_phase m) (m_frames m))
| s_publish m e p h : e ∈ db_activities (m_db m) -> Hub.payload zone e = Some p -> Hub.Publish zone e (m_hub m) = Some h ->
    step m (Published e p) (with_hub m h)
| s_withheld m e h : Hub.payload zone e = None -> Hub.Publish zone e (m_hub m) = Some h -> step m Internal (with_hub m h)
| s_other_subscribe m i h : Hub.Subscribe (m_hub m) = (i, h) -> step m Internal (with_hub m h)
| s_other_unsubscribe m i : is_Some (Hub.channels (m_hub m) !! i) -> channel m <> Some i ->
    step m Internal (with_hub m (Hub.unsubscribe i (m_hub m)))
| s_other_receive m i p h : channel m <> Some i -> Hub.receive i (m_hub m) = Some (p, h) -> step m Internal (with_hub m h)
| s_subscribe m : m_phase m = Subscribing -> step m Joined (subscribe m)
| s_load m i c : m_phase m = Loading i -> step m Internal (load i c m)
| s_replay m i rest ok : m_phase m = Replaying i rest -> step m Internal (replay i rest ok m)
| s_stream m i ev m' : m_phase m = Streaming i -> stream i ev m = Some m' -> step m Internal m'.

(** A connection that keeps up: its buffer has room whenever something is published. *)
Definition room (m : t) (l : label) : Prop :=
  match l with
  | Published _ _ => forall i, channel m = Some i -> (length (Hub.buffered i (m_hub m)) < Hub.capacity)%nat
  | _ => True
  end.

Inductive run (m0 : t) : list label -> t -> Prop :=
| run_nil : run m0 [] m0
| run_snoc tr m l m' : run m0 tr m -> room m l -> step m l m' -> run m0 (tr ++ [l]) m'.

(** What was published since the connection subscribed. *)
Definition since (tr : list label) : list bytes :=
  foldl (fun acc l => match l with Joined => [] | Published _ p => acc ++ [p] | _ => acc end)%list [] tr.

(** What the browser was shown, pings left out. *)
Definition shown (m : t) : list bytes := omap (fun f => match f with Text p => Some p | PingFrame => None end) (m_frames m).
Definition line (e : activity.Event) : list bytes := from_option (fun p => [(p ++ [byte_of 10])%list]) [] (Hub.payload zone e).

(** ** The hub, seen by one subscriber *)
Lemma client_channel i h : Hub.wf h -> i ∈ Hub.clients h -> is_Some (Hub.channels h !! i).
Proof using. intros (W & _) Hi. destruct (W i Hi) as (ch & Hch & _). eauto. Qed.

Lemma publish_ours i e p h h' :
  Hub.wf h -> Hub.payload zone e = Some p -> Hub.Publish zone e h = Some h' -> i ∈ Hub.clients h ->
  (length (Hub.buffered i h) < Hub.capacity)%nat ->
  i ∈ Hub.clients h' /\ Hub.buffered i h' = (Hub.buffered i h ++ [p])%list.
Proof using.
  intros Hwf Hp E Hi Hroom. split.
  - unfold Hub.Publish in E. rewrite Hp in E. destruct (Hub.broadcast_spec p h Hwf) as (h1 & E1 & Hc & _).
    rewrite E in E1. injection E1 as <-. by rewrite Hc.
  - destruct (client_channel i h Hwf Hi) as [ch Hch]. unfold Hub.buffered in *.
    rewrite (Hub.Publish_channels _ _ _ _ _ i Hwf Hp E), bool_decide_true, Hch by done. rewrite Hch in Hroom. simpl in *.
    unfold Hub.pushed. by rewrite (proj2 (Nat.ltb_lt _ _) Hroom).
Qed.

(** The steps of others leave the subscriber and its buffer alone. *)
Definition others (i : nat) (o : Hub.op) : Prop :=
  match o with
  | Hub.Published _ => False
  | Hub.Withheld | Hub.Subscribed _ => True
  | Hub.Unsubscribed j | Hub.Received j _ => j <> i
  end.

Lemma others_ours i h o h' :
  Hub.wf h -> Hub.step zone h o h' -> others i o -> i ∈ Hub.clients h ->
  i ∈ Hub.clients h' /\ Hub.buffered i h' = Hub.buffered i h.
Proof using.
  intros Hwf Hstep Ho Hi. pose proof (client_channel i h Hwf Hi) as Hch.
  destruct (Hub.step_buffered _ _ _ _ i Hwf Hch Hstep) as [_ Hb]. split.
  - destruct Hstep as [e p h h' Hp E|e h h' Hp E|j h h' E|j h Hj|j p h h' E]; [done|..].
    + by apply Hub.Publish_withheld in E as ->.
    + injection E as <- <-. set_solver.
    + unfold Hub.unsubscribe. case_bool_decide; [done|]. simpl in *. set_solver.
    + unfold Hub.receive in E. apply bind_Some in E as (ch & _ & E). by destruct (Hub.ch_buffer ch); [|injection E as _ <-].
  - destruct o; try done. simpl in Ho. by rewrite bool_decide_false in Hb.
Qed.

(** ** The invariant of a connection *)
Definition loaded (d : DB) (history : list activity.Event) : Prop :=
  exists c total d', GatewayActivities monitorHistoryLimit 0 c d = Ok ((history, total), d').

(** Every publication is of an activity the history was read from, or came after the subscription. *)
Definition covered (tr : list label) (d : DB) : Prop :=
  forall e p, Published e p ∈ tr -> e ∈ db_activities d \/ p ∈ since tr.

Definition lines (es : list activity.Event) : list bytes := es ≫= line.

Definition inv (tr : list label) (m : t) : Prop :=
  Hub.wf (m_hub m) /\ (forall e p, Published e p ∈ tr -> e ∈ db_activities (m_db m)) /\
  match m_phase m with
  | Subscribing => shown m = []
  | Loading i => i ∈ Hub.clients (m_hub m) /\ shown m = [] /\ Hub.buffered i (m_hub m) = since tr
  | Replaying i rest => i ∈ Hub.clients (m_hub m) /\ Hub.buffered i (m_hub m) = since tr /\
      exists d history, loaded d history /\ covered tr d /\ (shown m ++ lines rest)%list = lines (reverse history)
  | Streaming i => i ∈ Hub.clients (m_hub m) /\
      exists d history live, loaded d history /\ covered tr d /\
        shown m = (lines (reverse history) ++ live)%list /\ (live ++ Hub.buffered i (m_hub m))%list = since tr
  | Closed => True
  end.

Lemma since_snoc tr l :
  since (tr ++ [l]) = match l with Joined => [] | Published _ p => (since tr ++ [p])%list | _ => since tr end.
Proof using. unfold since. by rewrite foldl_app. Qed.

Lemma covered_quiet tr l d : since (tr ++ [l]) = since tr -> (forall e p, l <> Published e p) -> covered tr d -> covered (tr ++ [l]) d.
Proof using.
  intros Hs Hl Hc e p [Hin|Hin%list_elem_of_singleton]%elem_of_app; [rewrite Hs; auto|by destruct (Hl e p)].
Qed.

Lemma covered_publish tr e p d : covered tr d -> covered (tr ++ [Published e p]) d.
Proof using.
  intros Hc e' p'. rewrite since_snoc. intros [Hin|[= -> ->]%list_elem_of_singleton]%elem_of_app; [|set_solver].
  destruct (Hc _ _ Hin); [by left|set_solver].
Qed.

Lemma published_snoc tr l d : (forall e p, l = Published e p -> e ∈ db_activities d) ->
  (forall e p, Published e p ∈ tr -> e ∈ db_activities d) -> forall e p, Published e p ∈ (tr ++ [l])%list -> e ∈ db_activities d.
Proof using. intros Hl Htr e p [Hin|Hin%list_elem_of_singleton]%elem_of_app; eauto. Qed.

Lemma inv_commit tr m d es : inv tr m -> db_activities d = (db_activities (m_db m) ++ es)%list ->
  inv (tr ++ [Committed es]) (mkMonitor d (m_hub m) (m_phase m) (m_frames m)).
Proof using.
  intros (Hwf & Hp & Hph) Hd. split; [done|]. split.
  { apply published_snoc; [done|]. intros e p Hin. cbn. rewrite Hd. apply elem_of_app. left. by eapply Hp. }
  cbn [m_phase m_hub]. unfold shown in *. cbn [m_frames]. destruct (m_phase m); rewrite ?since_snoc; [done|done| | |done].
  - destruct Hph as (Hi & Hb & dh & hist & Hl & Hc & Hs). split_and!; [done..|]. exists dh, hist.
    split_and!; [done| |done]. apply covered_quiet; [by rewrite since_snoc|done|done].
  - destruct Hph as (Hi & dh & hist & live & Hl & Hc & Hs & Hb). split; [done|]. exists dh, hist, live.
    split_and!; [done| |done|done]. apply covered_quiet; [by rewrite since_snoc|done|done].
Qed.

Lemma inv_publish tr m e p h :
  inv tr m -> room m (Published e p) -> e ∈ db_activities (m_db m) -> Hub.payload zone e = Some p ->
  Hub.Publish zone e (m_hub m) = Some h -> inv (tr ++ [Published e p]) (with_hub m h).
Proof using.
  intros (Hwf & Hp & Hph) Hroom He Hpay E. unfold room, channel in Hroom. split; [by eapply Hub.wf_publish|]. split.
  { apply published_snoc; [|done]. by intros e' p' [= -> ->]. }
  unfold shown in *. cbn [with_hub m_phase m_hub m_frames]. destruct (m_phase m) as [|i|i rest|i|]; rewrite ?since_snoc; [done| | | |done].
  - destruct Hph as (Hi & Hs & Hb). destruct (publish_ours i e p _ _ Hwf Hpay E Hi (Hroom i eq_refl)) as [Hi' Hb'].
    split_and!; [done|done|]. by rewrite Hb', Hb.
  - destruct Hph as (Hi & Hb & dh & hist & Hl & Hc & Hs).
    destruct (publish_ours i e p _ _ Hwf Hpay E Hi (Hroom i eq_refl)) as [Hi' Hb'].
    split_and!; [done|by rewrite Hb', Hb|]. exists dh, hist. split_and!; [done|by apply covered_publish|done].
  - destruct Hph as (Hi & dh & hist & live & Hl & Hc & Hs & Hb).
    destruct (publish_ours i e p _ _ Hwf Hpay E Hi (Hroom i eq_refl)) as [Hi' Hb'].
    split; [done|]. exists dh, hist, live. split_and!; [done|by apply covered_publish|done|]. by rewrite Hb', app_assoc, Hb.
Qed.

Lemma inv_others tr m o h :
  inv tr m -> Hub.step zone (m_hub m) o h -> (forall i, channel m = Some i -> others i o) -> inv (tr ++ [Internal]) (with_hub m h).
Proof using.
  intros (Hwf & Hp & Hph) Hstep Ho. split; [by eapply Hub.wf_step|]. split; [by apply published_snoc|].
  unfold shown, channel in *. cbn [with_hub m_phase m_hub m_frames]. destruct (m_phase m) as [|i|i rest|i|]; rewrite ?since_snoc; [done| | | |done].
  - destruct Hph as (Hi & Hs & Hb). destruct (others_ours i _ _ _ Hwf Hstep (Ho i eq_refl) Hi) as [Hi' Hb'].
    split_and!; [done|done|]. by rewrite Hb', Hb.
  - destruct Hph as (Hi & Hb & dh & hist & Hl & Hc & Hs).
    destruct (others_ours i _ _ _ Hwf Hstep (Ho i eq_refl) Hi) as [Hi' Hb'].
    split_and!; [done|by rewrite Hb', Hb|]. exists dh, hist. split_and!; [done| |done]. apply covered_quiet; [by rewrite since_snoc|done|done].
  - destruct Hph as (Hi & dh & hist & live & Hl & Hc & Hs & Hb).
    destruct (others_ours i _ _ _ Hwf Hstep (Ho i eq_refl) Hi) as [Hi' Hb'].
    split; [done|]. exists dh, hist, live. split_and!; [done| |done|by rewrite Hb'].
    apply covered_quiet; [by rewrite since_snoc|done|done].
Qed.

Lemma inv_closed tr m i l : inv tr m -> channel m = Some i -> (forall e p, l <> Published e p) -> inv (tr ++ [l]) (close i m).
Proof using.
  intros (Hwf & Hp & Hph) Hch Hl. split.
  - apply Hub.wf_unsubscribe; [done|]. apply client_channel; [done|]. unfold channel in Hch.
    by destruct (m_phase m); try done; injection Hch as ->; destruct Hph.
  - split; [|done]. apply published_snoc; [|done]. intros e p E. by destruct (Hl e p).
Qed.

Lemma inv_subscribe tr m : inv tr m -> m_phase m = Subscribing -> inv (tr ++ [Joined]) (subscribe m).
Proof using.
  intros (Hwf & Hp & Hph) E. rewrite E in Hph. pose proof (Hub.wf_subscribe _ Hwf) as Hwf'. unfold subscribe.
  split; [done|]. split; [by apply published_snoc|]. cbn [m_phase m_hub Hub.Subscribe]. rewrite since_snoc.
  split_and!; [set_solver|done|]. unfold Hub.buffered. cbn. by rewrite lookup_insert_eq.
Qed.

Lemma inv_load tr m i c : inv tr m -> m_phase m = Loading i -> inv (tr ++ [Internal]) (load i c m).
Proof using.
  intros Hinv E. assert (Hclose : inv (tr ++ [Internal]) (close i m)).
  { apply inv_closed; [done| |done]. unfold channel. by rewrite E. }
  unfold load. destruct c as [c|]; [|done].
  destruct (GatewayActivities monitorHistoryLimit 0 c (m_db m)) as [[[hist total] d']|] eqn:Hq; [|done].
  destruct Hinv as (Hwf & Hp & Hph). rewrite E in Hph. destruct Hph as (Hi & Hs & Hb).
  split; [done|]. split; [by apply published_snoc|]. cbn [m_phase m_hub]. rewrite since_snoc. split_and!; [done..|].
  exists (m_db m), hist. split_and!.
  - by exists c, total, d'.
  - intros e p [Hin|Hin%list_elem_of_singleton]%elem_of_app; [left; by eapply Hp|done].
  - unfold shown in *. cbn [m_frames]. by rewrite Hs.
Qed.

Lemma inv_replay tr m i rest ok : inv tr m -> m_phase m = Replaying i rest -> inv (tr ++ [Internal]) (replay i rest ok m).
Proof using.
  intros Hinv E. assert (Hclose : inv (tr ++ [Internal]) (close i m)).
  { apply inv_closed; [done| |done]. unfold channel. by rewrite E. }
  destruct Hinv as (Hwf & Hp & Hph). rewrite E in Hph. destruct Hph as (Hi & Hb & d & hist & Hl & Hc & Hs).
  assert (Hc' : covered (tr ++ [Internal]) d) by (apply covered_quiet; [by rewrite since_snoc|done|done]).
  destruct rest as [|e rest]; cbn [replay].
  - split; [done|]. split; [by apply published_snoc|]. cbn [m_phase m_hub]. rewrite since_snoc. split; [done|].
    exists d, hist, []. split_and!; [done|done| |done]. unfold shown in *. cbn [m_frames]. rewrite app_nil_r in Hs |- *. done.
  - unfold write, history_frame. destruct (Hub.payload zone e) as [p|] eqn:Hpay; [|done]. cbn [fmap option_fmap option_map].
    destruct ok; [|done]. split; [done|]. split; [by apply published_snoc|]. cbn [m_phase m_hub]. rewrite since_snoc.
    split_and!; [done..|]. exists d, hist. split_and!; [done|done|]. unfold shown in *. cbn [m_frames].
    rewrite omap_app. cbn. rewrite <- Hs. unfold lines. rewrite bind_cons. unfold line at 2. rewrite Hpay. cbn. by rewrite <- app_assoc.
Qed.

Lemma receive_ours i p h h' : Hub.receive i h = Some (p, h') ->
  Hub.clients h' = Hub.clients h /\ Hub.buffered i h = p :: Hub.buffered i h'.
Proof using.
  unfold Hub.receive. intros (ch & Hch & E)%bind_Some. unfold Hub.buffered. rewrite Hch. cbn.
  destruct (Hub.ch_buffer ch); [done|]. injection E as <- <-. cbn. by rewrite lookup_insert_eq.
Qed.

Lemma inv_stream tr m i ev m' : inv tr m -> m_phase m = Streaming i -> stream i ev m = Some m' -> inv (tr ++ [Internal]) m'.
Proof using.
  intros Hinv E Hev. assert (Hch : channel m = Some i) by (unfold channel; by rewrite E).
  pose proof Hinv as (Hwf & Hp & Hph). rewrite E in Hph. destruct Hph as (Hi & d & hist & live & Hl & Hc & Hs & Hb).
  assert (Hc' : covered (tr ++ [Internal]) d) by (apply covered_quiet; [by rewrite since_snoc|done|done]).
  destruct ev as [ok|ok|]; cbn [stream] in Hev.
  - apply bind_Some in Hev as ([p h] & Hr & [= <-]). pose proof (Hub.wf_receive _ _ _ _ Hwf Hr) as Hwf'.
    apply receive_ours in Hr as [Hcl Hbuf]. rewrite <- Hcl in Hi.
    destruct ok; cbn [write close m_db m_hub m_frames]; split.
    + done.
    + split; [by apply published_snoc|]. cbn [m_phase m_hub]. rewrite since_snoc. split; [done|].
      exists d, hist, (live ++ [p])%list. unfold shown in *. cbn [m_frames]. rewrite omap_app, Hs. cbn.
      split_and!; [done|done|by rewrite app_assoc|]. rewrite <- Hb, Hbuf, <- app_assoc. done.
    + apply Hub.wf_unsubscribe; [done|]. by apply client_channel.
    + split; [by apply published_snoc|done].
  - injection Hev as <-. destruct ok; cbn [write]; [|by apply inv_closed].
    split; [done|]. split; [by apply published_snoc|]. cbn [m_phase m_hub]. rewrite since_snoc. split; [done|].
    exists d, hist, live. unfold shown in *. cbn [m_frames]. rewrite omap_app, Hs. cbn. by rewrite app_nil_r.
  - injection Hev as <-. by apply inv_closed.
Qed.

Lemma inv_step tr m l m' : inv tr m -> room m l -> step m l m' -> inv (tr ++ [l]) m'.
Proof using.
  intros Hinv Hroom Hstep. destruct Hstep as [m d es Hd|m e p h He Hp E|m e h Hp E|m i h E|m i Hi Hc|m i p h Hc E|m E|m i c E|m i rest ok E|m i ev m' E Hs].
  - by apply inv_commit.
  - by eapply inv_publish.
  - eapply inv_others; [done|by eapply Hub.step_withheld|done].
  - eapply inv_others; [done|by apply Hub.step_subscribe|done].
  - eapply inv_others; [done|by apply Hub.step_unsubscribe|]. simpl. congruence.
  - eapply inv_others; [done|by eapply Hub.step_receive|]. simpl. congruence.
  - by apply inv_subscribe.
  - by apply inv_load.
  - by apply inv_replay.
  - by eapply inv_stream.
Qed.

Lemma inv_run d h tr m : Hub.wf h -> run (accepted d h) tr m -> inv tr m.
Proof using.
  intros Hwf. induction 1 as [|tr m l m' _ IH Hroom Hstep]; [|by eapply inv_step].
  split; [done|]. split; [set_solver|done].
Qed.

(** ** The history *)
#[local] Instance newest_activity_total : Total (fun a b => newest_activity a b = true).
Proof using.
  intros a b. unfold newest_activity. rewrite !orb_true_iff, !andb_true_iff, !Z.ltb_lt, !Z.eqb_eq, !Z.leb_le. lia.
Qed.
#[local] Instance newest_activity_trans : Transitive (fun a b => newest_activity a b = true).
Proof using.
  intros a b c. unfold newest_activity. rewrite !orb_true_iff, !andb_true_iff, !Z.ltb_lt, !Z.eqb_eq, !Z.leb_le. lia.
Qed.

(** The history holds every activity, or a hundred that are all at least as new. *)
Lemma loaded_newest d history e : loaded d history -> e ∈ db_activities d ->
  e ∈ history \/ length history = 100%nat /\ Forall (fun x => newest_activity x e = true) history.
Proof using.
  intros (c & total & d' & E) He. apply run_Ok in E as (s' & E & _). tx_invs E.
  unfold sql_page in E0. tx_invs E0. unfold sql_limit. set (l := order_by newest_activity (db_activities d)).
  change (drop (Z.to_nat 0) l) with l.
  assert (Hin : e ∈ l) by (unfold l, order_by; by rewrite merge_sort_Permutation).
  assert (Hs : StronglySorted (fun a b => newest_activity a b = true) l) by (apply StronglySorted_merge_sort; apply _).
  rewrite <- (take_drop (Z.to_nat monitorHistoryLimit) l) in Hin, Hs. apply elem_of_app in Hin as [Hin|Hin]; [left; exact Hin|right]. split.
  - rewrite length_take. apply list_elem_of_lookup in Hin as [k Hk]. apply lookup_lt_Some in Hk. rewrite length_drop in Hk.
    change (Z.to_nat monitorHistoryLimit) with 100%nat in *. lia.
  - apply Forall_forall. intros x Hx. by eapply (StronglySorted_app_1_elem_of (fun a b => newest_activity a b = true)).
Qed.

(** C38: a monitor that keeps up has no gap.  However transactions, publications and other
    connections interleave with it, once a connection streams, it has shown the history it
    loaded, oldest first, and then, with what still waits in its buffer, everything published
    since it subscribed, in order and once.  Every activity ever published is among those, or
    is in the history, or was older than a hundred others when the history was loaded. *)
Theorem monitor_no_gap d h tr m i :
  Hub.wf h -> run (accepted d h) tr m -> m_phase m = Streaming i ->
  exists history live, shown m = (lines (reverse history) ++ live)%list /\
    (live ++ Hub.buffered i (m_hub m))%list = since tr /\
    forall e p, Published e p ∈ tr -> p ∈ since tr \/ e ∈ history \/
      length history = 100%nat /\ Forall (fun x => newest_activity x e = true) history.
Proof using.
  intros Hwf Hrun%inv_run E; [|done]. destruct Hrun as (_ & _ & Hph). rewrite E in Hph.
  destruct Hph as (_ & d' & history & live & Hl & Hc & Hs & Hb). exists history, live. split_and!; [done..|].
  intros e p Hin. destruct (Hc e p Hin) as [He|Hp]; [right|by left]. by eapply loaded_newest.
Qed.
End handler.
End Monitor.
