(* ===== verification/APIProofs.v ===== *)
(** The administration API against the PushSDK service: whatever an administration
    request does, it leaves the sessions and checkpoints of the terminals alone and
    publishes committed activities only. *)

From Stdlib Require Import ZArith Lia Ascii String.
From stdpp Require Import base gmap strings list option sorting.
From S2P Require Import Prelude GoText GoTime GoJSON GoHTTP GoURL GoConv GoNet GoCrypto AccessControl Config Crypto.
From S2P Require Import StoreTypes Wire Database StoreCore Deliveries Worker Attachments Backfills Archive.
From S2P Require Import CommandQueue SyncRuns Commands Queries Admin StoreFrame AdminProofs World StoreInstance.
From S2P Require Import APIInput AdminAPI.

Local Open Scope string_scope.
Local Open Scope Z_scope.

Section quiet.
Context `{GoParsers} `{CryptoLib} `{Bcrypt}.

(** ** Calls the terminals do not notice *)

(** A store call that keeps the checkpoints and the archive and returns activities that
    it committed. *)
Definition quiet {A} (op : Tx store_error TxCtx DB A) (acts : A -> list activity.Event) : Prop := forall c d a d',
  op c d = Ok (a, d') ->
  checkpoints d' = checkpoints d /\ grows d d' /\ Forall (.∈ committed d') (acts a).

Lemma quiet_run {A} (m : Txn A) acts : StoreFrame.frame core m -> reports [] m acts -> quiet (run m) acts.
Proof. intros Hf Hr c d a d'. by apply quiet_law. Qed.

Lemma quiet_silent {A} (m : Txn A) acts :
  StoreFrame.frame core m -> reports [] m acts -> quiet (run m) (fun _ => []).
Proof. intros Hf Hr c d a d' E. destruct (quiet_law _ _ _ _ _ _ Hf Hr E) as (? & ? & _). by split_and!. Qed.

(** A query. *)
Lemma quiet_query {A} (m : Txn A) : StoreFrame.frame id m -> quiet (run m) (fun _ => []).
Proof.
  intros Hf c d a d' (s' & E & <-)%run_Ok. apply Hf in E. unfold id in E. simpl in E. rewrite E.
  split_and!; [done| |constructor]. by split.
Qed.

Lemma frame_core_activity e : StoreFrame.frame core (insertGatewayActivity e).
Proof. by apply frame_activity. Qed.
Hint Resolve frame_core_activity : frame.

Lemma frame_sql_page {T B} (f : DB -> T) limit offset (l : list B) : StoreFrame.frame f (sql_page limit offset l).
Proof. unfold sql_page. frame_auto. Qed.
Hint Resolve frame_sql_page : frame.

Ltac query := intros; apply quiet_query; frame_auto.

Lemma quiet_overview : quiet load_Overview (fun _ => []).
Proof. unfold load_Overview, TerminalStates_tx. query. Qed.
Lemma quiet_events q : quiet (QueryDeviceEvents q) (fun _ => []).
Proof. unfold QueryDeviceEvents. query. Qed.
Lemma quiet_payload source id : quiet (ArchiveEventPayload source id) (fun _ => []).
Proof. unfold ArchiveEventPayload. query. Qed.
Lemma quiet_activities limit offset : quiet (GatewayActivities limit offset) (fun _ => []).
Proof. unfold GatewayActivities. query. Qed.
Lemma quiet_commands terminal limit offset : quiet (QueryISAPICommands terminal limit offset) (fun _ => []).
Proof. unfold QueryISAPICommands. query. Qed.
Lemma quiet_command uuid : quiet (ISAPICommandPayload uuid) (fun _ => []).
Proof. unfold ISAPICommandPayload. query. Qed.
Lemma quiet_sync_run uuid : quiet (load_AccessEventSyncRun uuid) (fun _ => []).
Proof. unfold load_AccessEventSyncRun. query. Qed.
Lemma quiet_routes : quiet DeliveryRoutes (fun _ => []).
Proof. unfold DeliveryRoutes. query. Qed.
Lemma quiet_deliveries limit offset : quiet (EventDeliveries limit offset) (fun _ => []).
Proof. unfold EventDeliveries. query. Qed.
Lemma quiet_attachments limit offset : quiet (AttachmentDeliveries limit offset) (fun _ => []).
Proof. unfold AttachmentDeliveries. query. Qed.
Lemma quiet_verify username password : quiet (VerifyAdmin username password) (fun _ => []).
Proof. unfold VerifyAdmin. query. Qed.
Lemma quiet_identity h : quiet (AdminIdentityForSession h) (fun _ => []).
Proof. unfold AdminIdentityForSession. query. Qed.
Lemma quiet_preview serial from until : quiet (PreviewEventBackfill serial from until) (fun _ => []).
Proof. unfold PreviewEventBackfill, previewEventBackfill. query. Qed.
Lemma quiet_photo_preview serial through : quiet (PreviewAttachmentBackfill serial through) (fun _ => []).
Proof. unfold PreviewAttachmentBackfill, previewAttachments. query. Qed.

(** Statements that write. *)
Lemma frame_core_identity {V} q (table : DB -> gmap Z V) update row :
  (forall g d, core (update g d) = core d) -> StoreFrame.frame core (insert_identity q table update row).
Proof. intros Hu. by apply frame_insert_identity. Qed.
Lemma frame_log_identity {V} q (table : DB -> gmap Z V) update row :
  (forall g d, db_activities (update g d) = db_activities d) ->
  StoreFrame.frame db_activities (insert_identity q table update row).
Proof. intros Hu. unfold insert_identity. frame_auto. by apply frame_set. Qed.

Hint Extern 1 (StoreFrame.frame core (insert_identity _ _ _ _)) => apply frame_core_identity; reflexivity : frame.
Hint Extern 1 (StoreFrame.frame db_activities (insert_identity _ _ _ _)) => apply frame_log_identity; reflexivity : frame.

Lemma quiet_create user h expires e : quiet (CreateSessionWithActivity user h expires e) (fun a => [a]).
Proof. apply quiet_run; unfold CreateSessionWithActivity_tx; [frame_auto|reports_auto]. Qed.
Lemma quiet_delete h e : quiet (DeleteSessionWithActivity h e) (fun a => [a]).
Proof. apply quiet_run; unfold DeleteSessionWithActivity_tx; [frame_auto|reports_auto]. Qed.
Lemma quiet_queue input : quiet (QueueISAPICommand input) (fun r => [r.2]).
Proof.
  apply quiet_run; unfold QueueISAPICommand_tx; [frame_auto; by apply frame_queueISAPICommandTx|].
  reports_auto. apply reports_queueISAPICommandTx.
Qed.
Lemma quiet_save r actor : quiet (SaveDeliveryRoute r actor) (fun _ => []).
Proof.
  eapply (quiet_silent _ (fun _ => [])); unfold SaveDeliveryRoute_tx; [frame_auto|reports_auto].
Qed.
Lemma quiet_remove serial actor : quiet (DeleteDeliveryRoute serial actor) (fun _ => []).
Proof.
  eapply (quiet_silent _ (fun _ => [])); unfold DeleteDeliveryRoute_tx; [frame_auto|reports_auto].
Qed.
Lemma quiet_retry id actor : quiet (RetryEventDelivery id actor) (fun _ => []).
Proof.
  eapply (quiet_silent _ (fun _ => [])); unfold RetryEventDelivery_tx; [frame_auto|reports_auto].
Qed.
Lemma quiet_retry_attachment id actor : quiet (RetryAttachmentDelivery id actor) (fun _ => []).
Proof.
  eapply (quiet_silent _ (fun _ => [])); unfold RetryAttachmentDelivery_tx; [frame_auto|reports_auto].
Qed.

Lemma frame_core_expire serial : StoreFrame.frame core (expireOverdueISAPICommandsTx serial).
Proof. by apply frame_expireOverdue. Qed.
Lemma frame_core_queue input : StoreFrame.frame core (queueISAPICommandTx input).
Proof. by apply frame_queueISAPICommandTx. Qed.
Lemma frame_core_link uuid run phase position : StoreFrame.frame core (link_command uuid run phase position).
Proof. by apply frame_link. Qed.
Lemma frame_core_uuid : StoreFrame.frame core newISAPICommandUUID.
Proof. apply frame_newUUID. Qed.
Hint Resolve frame_core_expire frame_core_queue frame_core_link frame_core_uuid : frame.
Hint Resolve reports_expireOverdue reports_queueISAPICommandTx : reports.

Lemma quiet_sync terminal identity : quiet (QueueAccessEventSync terminal identity) snd.
Proof. apply quiet_run; unfold QueueAccessEventSync_tx; [frame_auto|reports_auto]. Qed.

(** The two backfills. *)
Lemma frame_preview {T} (f : DB -> T) serial from until : StoreFrame.frame f (previewEventBackfill serial from until).
Proof. unfold previewEventBackfill. frame_auto. Qed.
Lemma frame_photos {T} (f : DB -> T) serial through : StoreFrame.frame f (previewAttachments serial through).
Proof. unfold previewAttachments. frame_auto. Qed.
Hint Resolve frame_preview frame_photos : frame.

Lemma frame_core_attachment id : StoreFrame.frame core (enqueueAttachment id).
Proof. unfold enqueueAttachment. frame_auto. Qed.
Lemma frame_log_attachment id : StoreFrame.frame db_activities (enqueueAttachment id).
Proof. unfold enqueueAttachment. frame_auto. Qed.
Hint Resolve frame_core_attachment frame_log_attachment : frame.

Lemma quiet_queue_backfill serial from until token actor :
  quiet (QueueEventBackfill serial from until token actor) (fun _ => []).
Proof.
  eapply (quiet_silent _ (fun _ => [])); unfold QueueEventBackfill_tx, queue_candidate; [frame_auto|reports_auto].
Qed.
Lemma quiet_queue_photos serial through token actor :
  quiet (QueueAttachmentBackfill serial through token actor) (fun _ => []).
Proof.
  eapply (quiet_silent _ (fun _ => [])); unfold QueueAttachmentBackfill_tx; [frame_auto|reports_auto].
Qed.

(** ** Handlers the terminals do not notice *)

Lemma calm_call {A} (op : Tx store_error TxCtx DB A) acts c a d w0 w i j k :
  quiet op acts -> op c (w_db w) = Ok (a, d) -> calm w0 w ->
  calm w0 (set_db d (advance i j k w)) /\ Forall (.∈ committed d) (acts a).
Proof.
  intros Hq E [He Hh Hn Hm Hc [Hg1 Hg2] (more & Hp & Hmore)].
  destruct (Hq _ _ _ _ E) as (Q1 & [Q2 Q2'] & Q3). split; [|done].
  split; cbn [set_db advance w_db w_entries w_heap w_next w_metrics w_published]; try done.
  - by rewrite Q1.
  - split; [auto|by etrans].
  - exists more. split; [done|]. rewrite list.Forall_forall in *. auto.
Qed.

Section calm_handlers.
Context (env : Env) (cfg : Config) (nets : list Netip.Prefix) (Upgrade : APIRequest -> bool).

(** [calmly m]: [m] only does that, whatever it returns. *)
Definition calmly {A} (m : M error World A) : Prop := forall w0 w, calm w0 w -> wp m (fun _ => calm w0) w.

Lemma calmly_ret {A} (a : A) : calmly (mret a).
Proof. intros w0 w Hw. by apply wp_ret. Qed.

Lemma calmly_time {A} (k : time -> M error World A) :
  (forall t, calmly (k t)) -> calmly (t ← time_Now env; k t).
Proof. intros Hk w0 w Hw. apply wp_bind. unfold wp at 1, time_Now. cbn [fst snd]. by apply Hk, calm_advance. Qed.

Lemma calmly_call {A} (op : Tx store_error TxCtx DB A) acts (k : result error A -> M error World Answer) :
  quiet op acts ->
  (forall err, calmly (k (Err err))) ->
  (forall a w0 w, calm w0 w -> Forall (.∈ committed (w_db w)) (acts a) -> wp (k (Ok a)) (fun _ => calm w0) w) ->
  calmly (r ← try_ (call env op); k r).
Proof.
  intros Hq Herr Hok w0 w Hw. apply wp_bind, wp_try. unfold wp at 1, call.
  destruct (env_fault env (w_calls w)); cbn [fst snd]; [by apply Herr, calm_advance|].
  destruct (op _ _) as [[a d]|e] eqn:E; cbn [fst snd]; [|by apply Herr, calm_advance].
  destruct (calm_call op acts _ _ _ w0 w (w_clock w) (w_reads w) (S (w_calls w)) Hq E Hw) as [Hc Ha].
  destruct (env_lost env (w_calls w)); [by apply Herr|by apply Hok].
Qed.

Lemma calmly_attempt {A} cases (op : Tx store_error TxCtx DB A) acts k :
  quiet op acts ->
  (forall a w0 w, calm w0 w -> Forall (.∈ committed (w_db w)) (acts a) -> wp (k a) (fun _ => calm w0) w) ->
  calmly (attempt env cases op k).
Proof.
  intros Hq Hk. unfold attempt. eapply calmly_call; [done| |done].
  intros err. destruct (answer_for cases err) as [[status message]|]; apply calmly_ret.
Qed.

Lemma calmly_checked {A} (r : result string A) k : (forall a, calmly (k a)) -> calmly (checked r k).
Proof. intros Hk. destruct r; [apply Hk|apply calmly_ret]. Qed.

Lemma calmly_identity request missing k :
  calmly missing -> (forall i, calmly (k i)) -> calmly (with_identity request missing k).
Proof. intros Hm Hk. unfold with_identity. by destruct (administratorIdentity request). Qed.

Lemma calmly_terminal serial k : (forall t, calmly (k t)) -> calmly (with_terminal cfg serial k).
Proof. intros Hk. unfold with_terminal. destruct (TerminalBySerialNumber cfg serial); [apply Hk|apply calmly_ret]. Qed.
Lemma calmly_next {A} (m : M error World A) w0 w : calm w0 w -> calmly m -> wp m (fun _ => calm w0) w.
Proof. auto. Qed.

(** An answer after an activity is published. *)
Lemma calmly_publish {A} (e : activity.Event) (m : M error World A) w0 w :
  calm w0 w -> e ∈ committed (w_db w) -> calmly m -> wp (Publish e;; m) (fun _ => calm w0) w.
Proof. intros Hw He Hm. apply wp_bind. by apply wp_modify, Hm, calm_publish. Qed.

Lemma calmly_publish_all {A} (es : list activity.Event) (m : M error World A) w0 w :
  calm w0 w -> Forall (.∈ committed (w_db w)) es -> calmly m -> wp (for_each Publish es;; m) (fun _ => calm w0) w.
Proof.
  intros Hw He Hm. apply wp_bind.
  apply wp_for_each with (I := fun w' => calm w0 w' /\ w_db w' = w_db w); [done| |by intros w' [? _]; apply Hm].
  intros e w' Hin [Hw' Hd]. apply wp_modify. split; [|done]. apply calm_publish; [done|].
  rewrite Hd. rewrite list.Forall_forall in He. auto.
Qed.

Hint Resolve quiet_overview quiet_events quiet_payload quiet_activities quiet_commands quiet_command quiet_sync_run
  quiet_routes quiet_deliveries quiet_attachments quiet_verify quiet_identity quiet_preview quiet_photo_preview
  quiet_create quiet_delete quiet_queue quiet_save quiet_remove quiet_retry quiet_retry_attachment quiet_sync
  quiet_queue_backfill quiet_queue_photos : quiet.

Ltac calm_step :=
  lazymatch goal with
  | |- calmly (checked _ _) => apply calmly_checked; intro
  | |- calmly (with_identity _ _ _) => apply calmly_identity; [|intro]
  | |- calmly (with_terminal _ _ _) => apply calmly_terminal; intro
  | |- calmly (attempt _ _ _ _) => eapply calmly_attempt; [eauto with quiet|intros ? ? ? ? ?]
  | |- calmly (attempt_photos _ _ _) => unfold attempt_photos
  | |- calmly (mbind _ (time_Now _)) => apply calmly_time; intro
  | |- calmly (mbind _ (try_ (call _ _))) => eapply calmly_call; [eauto with quiet|intro|intros ? ? ? ? ?]
  | |- calmly (if ?b then _ else _) => destruct b
  | |- calmly (match ?o with _ => _ end) => destruct o
  | |- calmly (writeError _ _) => apply calmly_ret
  | |- calmly (writeJSON _ _) => apply calmly_ret
  | |- calmly internalError => apply calmly_ret
  | |- calmly required => apply calmly_ret
  | |- calmly (mret _) => apply calmly_ret
  | |- wp (match ?o with _ => _ end) _ _ => destruct o
  | |- wp (mbind _ (Publish _)) _ _ => apply calmly_publish; [done| |]
  | |- wp (mbind _ (for_each Publish _)) _ _ => apply calmly_publish_all; [done|done|]
  | |- wp _ _ _ => eapply calmly_next; [eassumption|]
  end; cbn beta iota zeta.
Ltac calm_auto := intros; cbn beta iota zeta; repeat calm_step.
Ltac the_stored := match goal with Ha : Forall _ _ |- _ => solve [by inversion Ha] end.

Lemma calmly_login request value : calmly (login env cfg request value).
Proof.
  unfold login. calm_auto. intros w1 w2 Hw2. apply wp_bind, wp_try. unfold wp at 1, randomToken. cbn [fst snd].
  destruct (ReadFull _ _ _); (eapply calmly_next; [by apply calm_advance|]); calm_auto. the_stored.
Qed.

Lemma calmly_logout request value : calmly (logout env cfg request value).
Proof. unfold logout. calm_auto. the_stored. Qed.

Lemma calmly_queue request value : calmly (queueISAPICommand env request value).
Proof. unfold queueISAPICommand. calm_auto. the_stored. Qed.

Lemma calmly_session next request value :
  (forall request, calmly (next request value)) -> calmly (withSession env next request value).
Proof. intros Hn. unfold withSession. calm_auto. apply Hn. Qed.

Lemma Register_calm : Forall (fun e => forall request value, calmly (e.2 request value)) (Register env cfg nets Upgrade).
Proof.
  unfold Register. repeat (apply Forall_cons_2; [cbn [snd]; intros request value|]); try apply Forall_nil_2;
    try (apply calmly_session; intros request'); try apply calmly_login; try apply calmly_logout; try apply calmly_queue.
  all: unfold health, ready, privateMetrics, redirectRoot, webApp, overview, deviceEvents, archiveEventPayload,
         deviceEventPayload, event_payload_answer, isapiCommands, isapiCommandPayload, queueAccessEventSync,
         accessEventSyncRun, gatewayActivity, deliveryConfiguration, saveDeliveryRoute, deleteDeliveryRoute,
         eventBackfill, eventDeliveries, retryEventDelivery, attachmentDeliveries, retryAttachment, retry,
         attachmentBackfill, monitorSocket; calm_auto.
Qed.
End calm_handlers.
End quiet.
