(* ===== verification/Session.v ===== *)
(** internal/pushsdk/session.go: the session registry and the operations of one
    session. *)

From Stdlib Require Import ZArith Lia Ascii String.
From stdpp Require Import base gmap strings list option.
From S2P Require Import Prelude GoText GoCrypto Config Crypto StoreTypes Wire World.

Local Open Scope string_scope.
Local Open Scope Z_scope.

Definition keyDerivationIterations : Z := 4096.
Definition sessionIdleTimeout : duration := minute.

(** ** One session *)
Definition set_challenge (s : Session) (challenge : string) (at_ : time) : Session :=
  mkSession (s_Terminal s) (s_Salt s) (s_LoginChallenge s) challenge (s_Iterations s) (s_PayloadMode s)
    (s_CreatedAt s) at_ (s_Authenticated s) (s_Online s).
Definition set_authenticated (s : Session) (b : bool) : Session :=
  mkSession (s_Terminal s) (s_Salt s) (s_LoginChallenge s) (s_NextChallenge s) (s_Iterations s)
    (s_PayloadMode s) (s_CreatedAt s) (s_NextChallengeAt s) b (s_Online s).
Definition set_online (s : Session) (b : bool) : Session :=
  mkSession (s_Terminal s) (s_Salt s) (s_LoginChallenge s) (s_NextChallenge s) (s_Iterations s)
    (s_PayloadMode s) (s_CreatedAt s) (s_NextChallengeAt s) (s_Authenticated s) b.

(** The deadline is computed in [time.Duration], a 64-bit integer. *)
Definition LoginChallengeExpired (s : Session) (now : time) : bool :=
  negb (now <? s_CreatedAt s + wrap64 (wrap64 (CommandIntervalSeconds (s_Terminal s) * 3) * second)).

Definition IsIdle (s : Session) (now : time) : bool :=
  (s_NextChallengeAt s =? 0) || negb (now <? s_NextChallengeAt s + sessionIdleTimeout).

Definition validStoredSession (s : PushSDKSession) : bool :=
  if negb (lowerHex64 (ps_ConfigurationFingerprint s))
     || (negb (bool_decide (ps_PayloadMode s = PlaintextPayload))
         && negb (bool_decide (ps_PayloadMode s = EncryptedPayload)))
     || negb (alphaNumeric64 (ps_Salt s)) || negb (alphaNumeric64 (ps_LoginChallenge s))
     || negb (ps_Iterations s =? keyDerivationIterations)
  then false
  else if negb (ps_Authenticated s) then
    bool_decide (ps_NextChallenge s = "") && bool_decide (ps_NextChallengeAt s = None)
  else lowerHex64 (ps_NextChallenge s) && bool_decide (is_Some (ps_NextChallengeAt s)).

Record SessionStart := {
  ss_Session : loc;
  ss_Previous : option loc;
  ss_ReplacedOnlineSession : bool
}.

Section session.
Context `{CryptoLib} `{ServiceStore} (env : Env).

Local Abbreviation M := (M error World).

Definition PersistentState (s : Session) : PushSDKSession :=
  mkPushSDKSession (SerialNumber (s_Terminal s)) (SessionFingerprint (s_Terminal s)) (s_PayloadMode s)
    (s_Salt s) (s_LoginChallenge s) (s_NextChallenge s) (s_Iterations s) (s_CreatedAt s)
    (if s_NextChallengeAt s =? 0 then None else Some (s_NextChallengeAt s)) (s_Authenticated s).

Definition IssueNextChallenge (l : loc) : M string :=
  challenge ← random_challenge env;
  now ← time_Now env;
  s ← load l;
  save l (set_challenge s challenge now);;
  mret challenge.

(** ** The registry *)
Definition Start (terminal : Terminal) (mode : PayloadMode) : M SessionStart :=
  r ← try_ (random_token env);
  match r with
  | Err err => fail (EWrap "generate salt" err)
  | Ok salt =>
  r ← try_ (random_token env);
  match r with
  | Err err => fail (EWrap "generate challenge" err)
  | Ok challenge =>
      now ← time_Now env;
      session ← new_session (mkSession terminal salt challenge "" keyDerivationIterations mode now 0 false false);
      previous ← gets (fun w => w_entries w !! PushSDKSerial terminal);
      modify (fun w => set_entries (<[PushSDKSerial terminal := session]> (w_entries w)) w);;
      wasOnline ← match previous with
                  | None => mret false
                  | Some p => s ← load p; mret (s_Online s)
                  end;
      mret {| ss_Session := session; ss_Previous := previous; ss_ReplacedOnlineSession := wasOnline |}
  end
  end.

Definition Get (pushSDKSerial : string) : M (option loc) :=
  gets (fun w => w_entries w !! pushSDKSerial).

Definition Remove (pushSDKSerial : string) : M unit :=
  modify (fun w => set_entries (delete pushSDKSerial (w_entries w)) w).

Definition Replace (pushSDKSerial : string) (session : option loc) : M unit :=
  modify (fun w => set_entries (match session with
                                | None => delete pushSDKSerial (w_entries w)
                                | Some l => <[pushSDKSerial := l]> (w_entries w)
                                end) w).

(** The session [Restore] rebuilds from a stored row. *)
Definition restored (terminal : Terminal) (stored : PushSDKSession) : Session :=
  mkSession terminal (ps_Salt stored) (ps_LoginChallenge stored) (ps_NextChallenge stored)
    (ps_Iterations stored) (ps_PayloadMode stored) (ps_CreatedAt stored)
    (default 0 (ps_NextChallengeAt stored)) (ps_Authenticated stored) false.

(** The body of the loop of [Restore]. *)
Definition restore_one (cfg : Config) (now : time) (stored : PushSDKSession) : M unit :=
  match TerminalBySerialNumber cfg (ps_TerminalSerialNumber stored) with
  | None => call env (DeletePushSDKSession (ps_TerminalSerialNumber stored))
  | Some terminal =>
      if negb (bool_decide (ps_ConfigurationFingerprint stored = SessionFingerprint terminal))
         || negb (validStoredSession stored)
      then call env (DeletePushSDKSession (ps_TerminalSerialNumber stored))
      else
        let session := restored terminal stored in
        if negb (s_Authenticated session) && LoginChallengeExpired session now
        then call env (DeletePushSDKSession (ps_TerminalSerialNumber stored))
        else
          l ← new_session session;
          modify (fun w => set_entries (<[PushSDKSerial terminal := l]> (w_entries w)) w)
  end.

Definition Restore (cfg : Config) (now : time) : M unit :=
  storedSessions ← call env PushSDKSessions;
  for_each (restore_one cfg now) storedSessions.
End session.
