(* ===== verification/Service.v ===== *)
(** internal/pushsdk/service.go: the handlers of the PushSDK protocol and the
    session maintenance, against the store interface of World.v.

    A request is handled under the lock of its terminal, so that the handlers of
    one terminal never interleave; they are modelled as atomic steps. *)

From Stdlib Require Import ZArith Lia Ascii String.
From stdpp Require Import base gmap strings list option.
From S2P Require Import Prelude GoText GoJSON GoHTTP GoCrypto Config Crypto StoreTypes Wire World Session.

Local Open Scope string_scope.
Local Open Scope Z_scope.

Definition maxRequestBytes : Z := Z.shiftl 8 20.

(** [readAll] through [http.MaxBytesReader]: the body, unless it is too long or breaks off. *)
Definition readAll (request : Request) : option bytes :=
  if (maxRequestBytes <? zlen (req_Body request)) || req_Broken request then None else Some (req_Body request).

(** ** Routes and payload checks *)
Definition parseRoute (path : string) : option (string * string) :=
  match strings_Split path "/"%char with
  | [_; p1; p2; p3; p4; p5; p6; p7; p8; p9] =>
      if bool_decide (p1 = "iot") && bool_decide (p3 = "global") && bool_decide (p4 = "0-global")
         && bool_decide (p5 = "model") && bool_decide (p6 = "service") && bool_decide (p7 = "operate")
         && bool_decide (p8 = "PUSH")
      then if bool_decide (p2 = "") || bool_decide (p9 = "") then None else Some (p2, p9)
      else None
  | _ => None
  end.

Definition requireContentType (request : Request) (expected : string) : result error unit :=
  match Mime.ParseMediaType (req_ContentType request) with
  | Some (contentType, _) =>
      if bool_decide (contentType = expected) then Ok tt
      else Err (EProtocol (mkProtocolError 415 "" ("Content-Type must be " +:+ expected) ""))
  | None => Err (EProtocol (mkProtocolError 415 "" ("Content-Type must be " +:+ expected) ""))
  end.

Definition encryptionFromRequest (request : Request) (security : Z) : result string EncryptionParameters :=
  let query := URL.Query (req_RawQuery request) in
  if negb (size query =? 3)%nat then
    Err "only security, iv, and random query parameters are allowed"
  else
    match List.find (fun key => negb (length (default [] (query !! key)) =? 1)%nat)
            ["security"; "iv"; "random"] with
    | Some key => Err (key +:+ " must appear exactly once")
    | None => ParseEncryptionParameters (URL.Get query "security") (URL.Get query "iv")
                (URL.Get query "random") security
    end.

(** [protocolError]: status, code and message of an error response. *)
Definition protocolError (err : error) : Z * string * string :=
  match as_protocol err with
  | Some p => (Status p, if bool_decide (Code p = "") then "0xFFFFFFFF" else Code p, Message p)
  | None => (500, "0xFFFFFFFF", "internal gateway error")
  end.

(** ** Requests *)
Record authInfoRequest := mkAuthInfoRequest { ai_SecurityVersions : slice Z }.
Definition authInfoData_fields : list (field authInfoRequest) :=
  [ fld "securityVersion" ai_SecurityVersions (fun _ v => mkAuthInfoRequest v)
      (decode_slice 0 (fun n e => decode_int n e.2)) ].
Definition authInfoRequest_fields : list (field authInfoRequest) :=
  [ fld "data" (fun r => r) (fun _ r => r) (decode_struct true authInfoData_fields) ].

Record loginRequest := mkLoginRequest { lr_Username : string; lr_LoginPassword : string }.
Definition loginData_fields : list (field loginRequest) :=
  [ fld "username" lr_Username (fun r v => mkLoginRequest v (lr_LoginPassword r)) decode_string;
    fld "loginPassword" lr_LoginPassword (fun r v => mkLoginRequest (lr_Username r) v) decode_string ].
Definition loginRequest_fields : list (field loginRequest) :=
  [ fld "data" (fun r => r) (fun _ r => r) (decode_struct true loginData_fields) ].

(** The loop over the offered versions. *)
Fixpoint negotiate (configured : Z) (versions : list Z) : result error PayloadMode :=
  match versions with
  | [] => Err (EProtocol (unprocessable "terminal does not offer configured security version"))
  | version :: rest =>
      if negb (version =? 3) && negb (version =? 4) then
        Err (EProtocol (badRequest "AuthInfo securityVersion may contain only 3 or 4"))
      else if version =? configured then Ok EncryptedPayload
      else negotiate configured rest
  end.

Definition payloadModeForAuthInfo (terminal : Terminal) (body : bytes) : result error PayloadMode :=
  match body with
  | [] => Ok PlaintextPayload
  | _ =>
      match decodeExactJSON (decode_struct true authInfoRequest_fields) (mkAuthInfoRequest nil_slice) body with
      | None => Err (EProtocol (badRequest "AuthInfo body: %v"))
      | Some payload =>
          match elems (ai_SecurityVersions payload) with
          | [] => Err (EProtocol (badRequest "AuthInfo must declare securityVersion when it has a body"))
          | versions => negotiate (SecurityVersion terminal) versions
          end
      end
  end.

(** ** Responses *)
Definition succeeded : list (string * jout) :=
  [("status", OInt 200); ("code", OString "0x00000000"); ("errorMsg", OString "Succeeded.")].

Definition authInfoResponse (challenge salt : string) (iterations : Z) (encrypted : bool)
    (versions : list Z) : jout :=
  OObject [("data", OObject
    ([("challenge", OString challenge); ("salt", OString salt); ("iterations", OInt iterations);
      ("isDataEncrypt", OBool encrypted)]
     ++ match versions with [] => [] | _ => [("securityVersion", OArray (OInt <$> versions))] end)%list)].

Definition loginResponse (terminal : Terminal) : jout :=
  OObject (succeeded ++ [("data", OObject [("commandInterval", OInt (CommandIntervalSeconds terminal));
                                           ("errorDelay", OInt (ErrorDelaySeconds terminal))])])%list.

Definition commandRequestResponse (commands : list commandRequestItem) : jout :=
  OObject (succeeded ++
    [("commandNum", OInt (zlen commands));
     ("commandList", OArray ((fun c => OObject [("UUID", OString (cri_UUID c)); ("URL", OString (cri_URL c));
                                                ("dataFormat", OString (cri_DataFormat c));
                                                ("data", OString (cri_Data c))]) <$> commands))])%list.

Definition commandResultResponse (pending : bool) : jout :=
  OObject (succeeded ++ [("isPendingCommand", OBool pending)])%list.

Definition eventResponseItem (uuid : string) : jout :=
  OObject (("UUID", OString uuid) :: succeeded).

Record protocolResponse := mkProtocolResponse {
  pr_Body : jout;
  pr_Challenge : string;
  pr_session : option loc
}.

Definition newline : ascii := Ascii.ascii_of_nat 10.

Definition respondErrorWithCode (status : Z) (code message : string) : Response :=
  {| resp_Status := status;
     resp_ContentType := "application/json";
     resp_MyCustomChallenge := "";
     resp_Body := (json_Marshal (OObject [("status", OInt status); ("code", OString code);
                                          ("errorMsg", OString message)]) ++ [newline])%list |}.
Definition respondError (status : Z) (message : string) : Response :=
  respondErrorWithCode status "0xFFFFFFFF" message.

(** [http.NotFound] *)
Definition http_NotFound : Response :=
  {| resp_Status := 404; resp_ContentType := "text/plain; charset=utf-8"; resp_MyCustomChallenge := "";
     resp_Body := (bytes_of "404 page not found" ++ [newline])%list |}.

(** ** The handlers *)
Section service.
Context `{CryptoLib} `{ServiceStore} (env : Env) (cfg : Config).

Local Abbreviation M := (M error World).

(** Turns a handler's own error check into a value of the monad. *)
Definition protocol {A} (p : ProtocolError) : M A := fail (EProtocol p).

Definition payloadForSession (request : Request) (terminal : Terminal) (session : Session)
    (action : string) (body : bytes) (required : bool)
    : result error (bytes * option EncryptionParameters) :=
  if IsEncrypted (s_PayloadMode session) then
    match encryptionFromRequest request (SecurityVersion terminal) with
    | Err err => Err (EProtocol (badRequest (action +:+ " encryption parameters: " +:+ err)))
    | Ok params =>
        if required && (zlen body =? 0) then Err (EProtocol (badRequest (action +:+ " body is required")))
        else if zlen body =? 0 then Ok (body, Some params)
        else
          requireContentType request "application/octet-stream";;
          match decrypt terminal (s_Salt session) (s_Iterations session) params body with
          | Err err => Err (EProtocol (badRequest (action +:+ " decrypt: " +:+ err)))
          | Ok plain => Ok (plain, Some params)
          end
    end
  else if negb (bool_decide (req_RawQuery request = "")) then
    Err (EProtocol (badRequest (action +:+ " does not permit query parameters without negotiated encryption")))
  else if required then
    requireContentType request "application/json";;
    if zlen body =? 0 then Err (EProtocol (badRequest (action +:+ " body is required")))
    else Ok (body, None)
  else Ok (body, None).

Definition persistSession (l : loc) : M unit :=
  s ← load l; call env (UpsertPushSDKSession (PersistentState s)).

Definition removeSession (terminal : Terminal) : M unit :=
  call env (DeletePushSDKSession (SerialNumber terminal));;
  Remove (PushSDKSerial terminal).

Definition restoreReplacedSession (terminal : Terminal) (previous : option loc) : M unit :=
  match previous with
  | None =>
      call env (DeletePushSDKSession (SerialNumber terminal));;
      Replace (PushSDKSerial terminal) None
  | Some p =>
      s ← load p;
      call env (UpsertPushSDKSession (PersistentState s));;
      Replace (PushSDKSerial terminal) (Some p)
  end.

Definition recordGatewayActivity (event : activity.Event) : M unit :=
  stored ← call env (RecordGatewayActivity event);
  Publish stored.

Definition markSessionIdle (terminal : Terminal) (l : loc) : M unit :=
  stored ← call env (TransitionTerminalState (SerialNumber terminal) "offline" None
    (activity.event activity.KindPushSDKSessionIdle (SerialNumber terminal)
       "no authenticated PushSDK traffic for one minute; waiting for the terminal to resume" ∅));
  s ← load l;
  save l (set_online s false);;
  SessionsActive_Dec;;
  Publish stored.

Definition expireLoginChallenge (terminal : Terminal) : M unit :=
  stored ← call env (ExpirePushSDKLoginChallenge (SerialNumber terminal)
             "PushSDK login challenge expired; waiting for device authentication");
  Remove (PushSDKSerial terminal);;
  match stored with
  | Some e => Publish e
  | None => mret tt
  end.

(** ** AuthInfo *)
Definition authInfo (terminal : Terminal) (body : bytes) : M protocolResponse :=
  mode ← lift (payloadModeForAuthInfo terminal body);
  r ← try_ (Start env terminal mode);
  match r with
  | Err err => fail (EWrap "create AuthInfo session" err)
  | Ok started =>
  let l := ss_Session started in
  r ← try_ (persistSession l);
  match r with
  | Err err =>
      Replace (PushSDKSerial terminal) (ss_Previous started);;
      fail err
  | Ok _ =>
  r ← try_ (call env (TransitionTerminalState (SerialNumber terminal) "authenticating" None
        (activity.event activity.KindPushSDKAuthInfo (SerialNumber terminal) "terminal started authentication"
           (<["payloadMode" := activity.VString mode]> (<["securityVersion" := activity.VInt (SecurityVersion terminal)]> ∅)))));
  match r with
  | Err err =>
      try_ (restoreReplacedSession terminal (ss_Previous started));;   (* its error is only logged *)
      fail err
  | Ok storedActivity =>
      (if ss_ReplacedOnlineSession started then SessionsActive_Dec else mret tt);;
      s ← load l;
      Publish storedActivity;;
      mret (mkProtocolResponse
              (authInfoResponse (s_LoginChallenge s) (s_Salt s) (s_Iterations s) (IsEncrypted mode)
                 (if IsEncrypted mode then [SecurityVersion terminal] else []))
              "" None)
  end
  end
  end.

(** ** Login *)

(** Puts the challenge back that a failed checkpoint or transition replaced. *)
Definition rollback_challenge (l : loc) (challenge : string) (at_ : time) (authenticated : bool) : M unit :=
  s ← load l;
  save l (set_authenticated (set_challenge s challenge at_) authenticated).

Definition login (terminal : Terminal) (request : Request) (requestBody : bytes)
    : M (protocolResponse * option EncryptionParameters) :=
  found ← Get (PushSDKSerial terminal);
  match found with
  | None => protocol (invalidSession "missing_session")
  | Some l =>
  session ← load l;
  if s_Authenticated session then protocol (invalidSession "login_already_completed") else
  now ← time_Now env;
  if LoginChallengeExpired session now then
    expireLoginChallenge terminal;;
    protocol (invalidSession "login_challenge_expired")
  else
  p ← lift (payloadForSession request terminal session "Login" requestBody true);
  let '(body, params) := p in
  match decodeExactJSON (decode_struct true loginRequest_fields) (mkLoginRequest "" "") body with
  | None => protocol (badRequest "Login body: %v")
  | Some payload =>
  ok ← (if negb (bool_decide (lr_Username payload = Username terminal)) then mret false
        else match expectedLoginPassword terminal (s_Salt session) (s_LoginChallenge session)
                     (s_Iterations session) with
             | None => fail (EPanic "terminal login password digest was not validated")
             | Some expected => mret (constantTimeEqual (lr_LoginPassword payload) expected)
             end);
  if negb ok then protocol (mkProtocolError 401 "" "Login credentials are invalid" "") else
  next ← IssueNextChallenge env l;
  s ← load l;
  save l (set_authenticated s true);;
  r ← try_ (persistSession l);
  match r with
  | Err err =>
      rollback_challenge l (s_NextChallenge session) (s_NextChallengeAt session) false;;
      fail err
  | Ok _ =>
  r ← try_ (call env (TransitionTerminalState (SerialNumber terminal) "online" None
        (activity.event activity.KindPushSDKLogin (SerialNumber terminal) "terminal authenticated"
           (<["payloadMode" := activity.VString (s_PayloadMode session)]>
              (<["securityVersion" := activity.VInt (SecurityVersion terminal)]> ∅)))));
  match r with
  | Err err =>
      rollback_challenge l (s_NextChallenge session) (s_NextChallengeAt session) false;;
      try_ (persistSession l);;                                       (* its error is only logged *)
      fail err
  | Ok storedActivity =>
      s ← load l;
      save l (set_online s true);;
      SessionsActive_Inc;;
      Publish storedActivity;;
      mret (mkProtocolResponse (loginResponse terminal) next (Some l), params)
  end
  end
  end
  end.

(** ** Event *)
Definition events (terminal : Terminal) (body : bytes) : M protocolResponse :=
  match ParseEventBatch (SerialNumber terminal) body with
  | Err err =>
      EventsRejected_Inc;;
      protocol err
  | Ok parsed =>
      for_each (fun e => EventsReceived_Inc (pe_Format e)) parsed;;
      let records := pe_Record <$> parsed in
      let results := (fun e => eventResponseItem (pe_UUID e)) <$> parsed in
      r ← try_ (call env (InsertDeviceEventBatch records));
      match r with
      | Err err =>
          EventsRejected_Inc;;
          fail (EWrap "persist Event batch" err)
      | Ok persisted =>
          for_each (fun index =>
            match persisted !! index with
            | None => fail (EPanic "index out of range")
            | Some p =>
                (if dep_Inserted p then EventsPersisted_Inc else mret tt);;
                Publish (dep_Activity p)
            end) (seq 0 (length parsed));;
          mret (mkProtocolResponse (OArray results) "" None)
      end
  end.

(** ** Authenticated actions *)

(** The [if !session.Online] block: the first valid request after idling. *)
Definition resume (terminal : Terminal) (l : loc) : M unit :=
  session ← load l;
  if s_Online session then mret tt else
  storedActivity ← call env (TransitionTerminalState (SerialNumber terminal) "online" None
    (activity.event activity.KindPushSDKSessionResumed (SerialNumber terminal)
       "terminal resumed its authenticated PushSDK session" ∅));
  save l (set_online session true);;
  SessionsActive_Inc;;
  Publish storedActivity.

(** The [switch action] block. *)
Definition perform (terminal : Terminal) (action : string) (l : loc) (body : bytes) : M jout :=
  if bool_decide (action = "CommandRequest") then
    if negb (zlen body =? 0) then protocol (badRequest "CommandRequest body must be empty") else
    r ← call env (ClaimISAPICommands (SerialNumber terminal) 20);
    let '(deliveries, activities) := r in
    for_each Publish activities;;
    mret (commandRequestResponse (commandRequestItemFor <$> deliveries))
  else if bool_decide (action = "CommandResult") then
    match ParseCommandResultBatch body with
    | Err err => protocol err
    | Ok results =>
        r ← try_ (call env (CompleteISAPICommands (SerialNumber terminal) results));
        match r with
        | Err _ => protocol (unprocessable "CommandResult is invalid: %v")
        | Ok (activities, pending) =>
            for_each Publish activities;;
            mret (commandResultResponse pending)
        end
    end
  else if bool_decide (action = "Event") then
    result ← events terminal body; mret (pr_Body result)
  else
    if negb (zlen body =? 0) then protocol (badRequest "Logout body must be empty") else
    storedActivity ← call env (TransitionTerminalState (SerialNumber terminal) "offline" None
      (activity.event activity.KindPushSDKLogout (SerialNumber terminal) "terminal logged out" ∅));
    session ← load l;
    save l (set_online (set_authenticated session false) false);;
    SessionsActive_Dec;;
    Publish storedActivity;;
    mret (OObject succeeded).

(** The tail of [authenticated]: a fresh challenge, checkpointed before it is sent. *)
Definition rotate (terminal : Terminal) (action : string) (l : loc) : M string :=
  previous ← load l;
  next ← IssueNextChallenge env l;
  if bool_decide (action = "Logout") then
    removeSession terminal;;
    mret next
  else
    r ← try_ (persistSession l);
    match r with
    | Err err =>
        s ← load l;
        save l (set_challenge s (s_NextChallenge previous) (s_NextChallengeAt previous));;
        fail err
    | Ok _ => mret next
    end.

Definition authenticated (terminal : Terminal) (action : string) (request : Request) (requestBody : bytes)
    : M (protocolResponse * option EncryptionParameters) :=
  found ← Get (PushSDKSerial terminal);
  match found with
  | None => protocol (invalidSession "missing_session")
  | Some l =>
  session ← load l;
  if negb (s_Authenticated session) then protocol (invalidSession "not_authenticated") else
  if negb (constantTimeEqual (req_MyCustomAuth request)
             (expectedCustomAuth terminal (s_Salt session) (s_NextChallenge session)))
  then protocol (invalidSession "custom_auth_mismatch") else
  resume terminal l;;
  let requiresBody := bool_decide (action = "CommandResult") || bool_decide (action = "Event") in
  p ← lift (payloadForSession request terminal session action requestBody requiresBody);
  let '(body, params) := p in
  result ← perform terminal action l body;
  next ← rotate terminal action l;
  mret (mkProtocolResponse result next (Some l), params)
  end.

(** ** Responding *)
Definition respond (terminal : Terminal) (result : protocolResponse)
    (params : option EncryptionParameters) : M Response :=
  let payload := json_Marshal (pr_Body result) in
  payload ← match params with
            | None => mret payload
            | Some ps =>
                match pr_session result with
                | None => fail (EText "encrypted response has no request session")
                | Some l =>
                    s ← load l;
                    match encrypt terminal (s_Salt s) (s_Iterations s) ps payload with
                    | Ok encrypted => mret encrypted
                    | Err err => fail (EText err)
                    end
                end
            end;
  mret {| resp_Status := 200;
          resp_ContentType := if params then "application/octet-stream" else "application/json";
          resp_MyCustomChallenge := pr_Challenge result;
          resp_Body := payload |}.

(** The [switch action] of [ServeHTTP]. *)
Definition dispatch (terminal : Terminal) (action : string) (request : Request)
    : M (protocolResponse * option EncryptionParameters) :=
  let body := req_Body request in
  if bool_decide (action = "AuthInfo") then
    (if negb (bool_decide (req_RawQuery request = "")) then
       protocol (badRequest "AuthInfo does not permit query parameters")
     else if 0 <? zlen body then lift (requireContentType request "application/json")
     else if negb (bool_decide (req_ContentType request = "")) then
       lift (requireContentType request "application/json")
     else mret tt);;
    result ← authInfo terminal body;
    mret (result, None)
  else if bool_decide (action = "Login") then login terminal request body
  else if bool_decide (action = "CommandRequest") || bool_decide (action = "CommandResult")
          || bool_decide (action = "Event") || bool_decide (action = "Logout")
  then authenticated terminal action request body
  else protocol (mkProtocolError 404 "" "unsupported PushSDK action" "").

Definition rejection_fields (action : string) (err : error) : gmap string activity.Value :=
  let '(status, code, _) := protocolError err in
  let fields := <["action" := activity.VString action]> (<["status" := activity.VInt status]> (<["code" := activity.VString code]> ∅)) in
  match as_protocol err with
  | Some p => if bool_decide (Reason p = "") then fields else <["reason" := activity.VString (Reason p)]> fields
  | None => fields
  end.

(** A panic or an unfinished loop is not an error value: it leaves the handler. *)
Fixpoint escapes (err : error) : bool :=
  match err with
  | EPanic _ | EFuel => true
  | EWrap _ err' => escapes err'
  | _ => false
  end.

Definition ServeHTTP (request : Request) : M Response :=
  match parseRoute (req_Path request) with
  | None => mret http_NotFound
  | Some (serial, action) =>
  if negb (bool_decide (req_Method request = "POST")) then mret (respondError 405 "method must be POST") else
  match TerminalByPushSDKSerial cfg serial with
  | None => mret (respondError 404 "terminal is not registered")
  | Some terminal =>
  match readAll request with
  | None => mret (respondError 413 "request body is too large")
  | Some _ =>
  r ← try_ (dispatch terminal action request);
  match r with
  | Err err =>
      if escapes err then fail err else
      let '(status, code, message) := protocolError err in
      Requests_Inc action "rejected";;
      try_ (recordGatewayActivity (activity.event activity.KindPushSDKRejected (SerialNumber terminal) message
              (rejection_fields action err)));;                       (* its error is only logged *)
      mret (respondErrorWithCode status code message)
  | Ok (result, params) =>
      Requests_Inc action "accepted";;
      r ← try_ (respond terminal result params);
      match r with
      | Ok response => mret response
      | Err err =>
          (* only logged: net/http then sends an empty 200 response *)
          if escapes err then fail err else
          mret {| resp_Status := 200; resp_ContentType := ""; resp_MyCustomChallenge := ""; resp_Body := [] |}
      end
  end
  end
  end
  end.

(** ** Maintenance *)

(** The body of the loop of [MaintainSessions] for one terminal whose lock is
    free; it returns the error of the iteration, if any. *)
Definition maintain_terminal (now : time) (terminal : Terminal) : M (list error) :=
  found ← Get (PushSDKSerial terminal);
  match found with
  | None => mret []
  | Some l =>
      session ← load l;
      if s_Authenticated session && s_Online session && IsIdle session now then
        r ← try_ (markSessionIdle terminal l);
        mret (match r with Ok _ => [] | Err err => [err] end)
      else if negb (s_Authenticated session) && LoginChallengeExpired session now then
        r ← try_ (expireLoginChallenge terminal);
        mret (match r with Ok _ => [] | Err err => [err] end)
      else mret []
  end.

(** [busy] tells for which terminals [TryLock] fails. *)
Definition MaintainSessions (busy : string -> bool) (now : time) : M unit :=
  failures ← forM (fun failures terminal =>
    if busy (PushSDKSerial terminal) then mret failures else
    errs ← maintain_terminal now terminal;
    mret (failures ++ errs)%list) (Terminals cfg) [];
  match failures with
  | [] => mret tt
  | _ => fail (EJoin failures)
  end.

Definition ExpireISAPICommandDeadlines : M unit :=
  activities ← call env ExpireOverdueISAPICommands;
  for_each Publish activities.

(** One tick of the loop of [MaintainISAPICommandDeadlines]; errors are logged. *)
Definition maintenance_tick (busy : string -> bool) : M unit :=
  now ← time_Now env;
  try_ (MaintainSessions busy now);;
  try_ ExpireISAPICommandDeadlines;;
  mret tt.

Definition RestoreSessions : M unit :=
  now ← time_Now env;
  Restore env cfg now;;
  SessionsActive_Set 0.

(** A process that has just started, on the database the last one left. *)
Definition NewService (d : st) (clock reads calls : nat) : World :=
  mkWorld _ d ∅ ∅ 0%nat [] zero_Metrics clock reads calls.
End service.
