(* ===== verification/Gateway.v ===== *)
(** cmd/gateway/main.go: the start of the process and the handler of its HTTP server,
    which puts the administration API and the PushSDK service behind one mux.

    The database has the current schema when this start runs; ProcessStart.v has [main]
    with what comes before it (the environment, the pool, the migration) and after it
    (listening, a signal, the shutdown).  The goroutines of the two workers (Worker.v) are
    scheduled by the runtime. *)

From Stdlib Require Import ZArith Lia Ascii String.
From stdpp Require Import base gmap strings list option.
From S2P Require Import Prelude GoText GoHTTP GoURL GoNet GoCrypto AccessControl Config Crypto StoreTypes Database.
From S2P Require Import StoreCore Archive Admin World StoreInstance APIInput AdminAPI Session Service.

Local Open Scope string_scope.
Local Open Scope Z_scope.

(** [fmt.Errorf("message: %w", err)] around a step. *)
Definition wrapped {A W} (message : string) (m : M error W A) : M error W A :=
  r ← try_ m; match r with Ok a => mret a | Err err => fail (EWrap message err) end.

Section gateway.
Context `{GoParsers} `{CryptoLib} `{Bcrypt}.
Context (env : Env) (cfg : Config) (Upgrade : APIRequest -> bool).

Local Abbreviation M := (M error World).

(** ** Start-up *)

(** [BackfillAccessEventProjections]: every batch is a call of the database, and there
    are fewer batches than device events to project. *)
Definition backfill_projections : M Z := fun w =>
  let fuel := S (S (size (db_device_events (w_db w)))) in
  let call_no k := (w_calls w + (fuel - 1 - k))%nat in
  let ctx k := if env_fault env (call_no k) then None else Some (env_ctx env (call_no k)) in
  match BackfillAccessEventProjections fuel 0 ctx (fun k => env_lost env (call_no k)) (w_db w) with
  | None => (Err EFuel, w)
  | Some (n, err, d) =>
      (match err with None => Ok n | Some e => Err (EStore e) end,
       set_db d (advance (w_clock w) (w_reads w) (w_calls w + fuel) w))
  end.

(** [run] from the migrated database to the point where the server listens; it returns
    the networks the metrics are open to. *)
Definition start : M (list Netip.Prefix) :=
  wrapped "backfill access-event projections" backfill_projections;;
  call env (SeedConfiguredTerminals (Terminals cfg));;
  call env (ReconcileConfiguredAdministrator (AdminUsername cfg) (AdminPassword cfg));;
  call env PurgeExpiredSessions;;
  wrapped "restore PushSDK sessions" (RestoreSessions env cfg);;
  wrapped "reconcile ISAPI command deadlines" (ExpireISAPICommandDeadlines env);;
  lift (match New cfg with Ok nets => Ok nets | Err message => Err (EText message) end).

(** ** The handler *)
Definition push : handler := fun request _ =>
  r ← ServeHTTP env cfg (api_http request); mret (AProtocol r).

Definition mux_table (nets : list Netip.Prefix) : list (Mux.pattern * handler) :=
  (fun e : string * handler => (Mux.parsePattern e.1, e.2)) <$> (Register env cfg nets Upgrade ++ [("/iot/", push)])%list.

Definition request_url (request : APIRequest) : NetURL.URL :=
  NetURL.mkURL [] [] None [] (bytes_of (req_Path (api_http request))) (bytes_of (api_RawPath request)) false false
    (bytes_of (req_RawQuery (api_http request))) [] [].

(** The location of a redirect: the path with the query of the request. *)
Definition redirect_location (path : string) (request : APIRequest) : string :=
  NetURL.String_ (NetURL.mkURL [] [] None [] (bytes_of path) [] false false
                    (bytes_of (req_RawQuery (api_http request))) [] []).

Definition route (nets : list Netip.Prefix) (request : APIRequest) : Mux.found handler :=
  Mux.findHandler (mux_table nets) (req_Method (api_http request))
    (string_of (NetURL.EscapedPath (request_url request))) (req_Path (api_http request)).

(** [mux.ServeHTTP] *)
Definition mux (nets : list Netip.Prefix) (request : APIRequest) : M Answer :=
  match route nets request with
  | Mux.FHandler c values => Mux.c_handler c request (Mux.PathValue (Mux.c_pattern c) values)
  | Mux.FRedirect path => mret (ARedirect 301 (redirect_location path request))
  | Mux.FNotFound => mret ANotFound
  end.

(** [securityHeaders]: what every response carries. *)
Definition security_headers : list (string * string) :=
  [("X-Content-Type-Options", "nosniff"); ("Referrer-Policy", "same-origin"); ("X-Frame-Options", "DENY")].
Definition securityHeaders (next : APIRequest -> M Answer) (request : APIRequest) : M (list (string * string) * Answer) :=
  a ← next request; mret (security_headers, a).

Definition serve (nets : list Netip.Prefix) : APIRequest -> M (list (string * string) * Answer) :=
  securityHeaders (mux nets).
End gateway.
