(* ===== verification/ServiceInv.v ===== *)
(** The invariant of the protocol service and the rules to verify its handlers.

    [inv] relates the sessions in memory to the database at every point where no
    handler runs.  Inside a handler of a terminal [t], [At t] describes what is
    known of [t] (its registry entry, the session objects the handler holds, its
    checkpoint, the events known to be committed, and the gauge) while the
    invariant holds for every other terminal; the rules below say how each
    effect changes that description. *)

From Stdlib Require Import ZArith Lia Ascii String.
From stdpp Require Import base gmap strings list option fin_sets.
From S2P Require Import Prelude GoText GoCrypto Config Crypto StoreTypes Wire World Session Service.

Local Open Scope string_scope.
Local Open Scope Z_scope.

Section invariant.
Context `{CryptoLaws} `{ServiceStoreLaws} (cfg : Config).
(** Whether the replies of all commits have arrived: only then does the service know what
    the database holds after a call that failed. *)
Context (acked : Prop).
(** A property of challenges a handler preserves, given that the ones it draws have it. *)
Context (okc : string -> Prop).

(** ** Well-formed sessions and checkpoints *)
Record session_wf (s : Session) : Prop := {
  sw_terminal : s_Terminal s ∈ Terminals cfg;
  sw_salt : alphaNumeric64 (s_Salt s) = true;
  sw_login : alphaNumeric64 (s_LoginChallenge s) = true;
  sw_iterations : s_Iterations s = keyDerivationIterations;
  sw_mode : s_PayloadMode s = PlaintextPayload \/ s_PayloadMode s = EncryptedPayload;
  sw_at : s_NextChallengeAt s = 0 \/ 1000 <= s_NextChallengeAt s;
  sw_authenticated : s_Authenticated s = true ->
    lowerHex64 (s_NextChallenge s) = true /\ 1000 <= s_NextChallengeAt s;
  sw_online : s_Online s = true -> s_Authenticated s = true
}.

Record checkpoint_wf (k : string) (c : PushSDKSession) : Prop := {
  cw_serial : ps_TerminalSerialNumber c = k;
  cw_micros : checkpointed c = c;
  cw_at : forall a, ps_NextChallengeAt c = Some a -> 1000 <= a
}.

(** The checkpoint of an authenticated session is in the database. *)
Definition durable (d : st) (s : Session) : Prop :=
  s_Authenticated s = true ->
  checkpoints d !! SerialNumber (s_Terminal s) = Some (checkpointed (PersistentState s)).

Definition online_at (w : World) (k : string) : bool :=
  match w_entries w !! k ≫= (w_heap w !!.) with Some s => s_Online s | None => false end.

(** The PushSDK serials of the terminals that are online in this process. *)
Definition online (w : World) : gset string :=
  filter (fun k => online_at w k = true) (dom (w_entries w)).

Definition SessionsActive (w : World) : Z := m_SessionsActive (w_metrics w).

Record base_inv (w : World) : Prop := {
  bi_heap : forall l s, w_heap w !! l = Some s -> session_wf s;
  bi_fresh : forall l, (w_next w <= l)%nat -> w_heap w !! l = None;
  bi_checkpoints : forall k c, checkpoints (w_db w) !! k = Some c -> checkpoint_wf k c;
  bi_published : Forall (.∈ committed (w_db w)) (w_published w)
}.

Definition entry_inv (w : World) (k : string) : Prop :=
  forall l, w_entries w !! k = Some l ->
    exists s, w_heap w !! l = Some s /\ PushSDKSerial (s_Terminal s) = k /\ (acked -> durable (w_db w) s).

(** The invariant between handlers.  The gauge never undercounts. *)
Record inv (w : World) : Prop := {
  inv_base : base_inv w;
  inv_entries : forall k, entry_inv w k;
  inv_gauge : Z.of_nat (size (online w)) <= SessionsActive w
}.

(** ** The description inside a handler of [t] *)
Definition slack (t : Terminal) (w : World) : Z :=
  SessionsActive w - Z.of_nat (size (online w ∖ {[PushSDKSerial t]})).

(** What a handler of [t] leaves alone: the entries, session objects and
    checkpoints of the other terminals. *)
Record frame (t : Terminal) (w0 w : World) : Prop := {
  fr_entries : forall k, k <> PushSDKSerial t -> w_entries w !! k = w_entries w0 !! k;
  fr_heap : forall l s, w_heap w0 !! l = Some s -> s_Terminal s <> t -> w_heap w !! l = Some s;
  fr_checkpoints : forall k, k <> SerialNumber t -> checkpoints (w_db w) !! k = checkpoints (w_db w0) !! k
}.

Lemma frame_refl t w : frame t w w.
Proof. by split. Qed.

Lemma frame_trans t w1 w2 w3 : frame t w1 w2 -> frame t w2 w3 -> frame t w1 w3.
Proof.
  intros [E1 F1 C1] [E2 F2 C2]. split; [|by auto|].
  - intros k Hk. by rewrite E2, E1.
  - intros k Hk. by rewrite C2, C1.
Qed.

(** The challenges of [t], in memory and in its checkpoint. *)
Definition challenges_ok (t : Terminal) (w : World) : Prop :=
  (forall l s, w_entries w !! PushSDKSerial t = Some l -> w_heap w !! l = Some s -> okc (s_NextChallenge s)) /\
  (forall c, checkpoints (w_db w) !! SerialNumber t = Some c -> okc (ps_NextChallenge c)).

(** [w0] is the state the handler started in. *)
Record At (t : Terminal) (w0 w : World) (e : option loc) (cells : gmap loc Session)
    (c : option PushSDKSession) (g : Z) (known : list activity.Event) : Prop := {
  at_base : base_inv w;
  at_others : forall k, k <> PushSDKSerial t -> entry_inv w k;
  at_entry : w_entries w !! PushSDKSerial t = e;
  at_cells : forall l s, cells !! l = Some s -> w_heap w !! l = Some s /\ s_Terminal s = t;
  at_checkpoint : checkpoints (w_db w) !! SerialNumber t = c;
  at_slack : slack t w = g;
  at_known : Forall (.∈ committed (w_db w)) known;
  at_frame : frame t w0 w;
  at_challenges : forall l s, cells !! l = Some s -> okc (s_NextChallenge s);
  at_stored : forall x, c = Some x -> okc (ps_NextChallenge x);
  at_reads : (w_reads w0 <= w_reads w)%nat
}.

Lemma elem_of_online w k : k ∈ online w <-> online_at w k = true.
Proof using.
  unfold online. rewrite elem_of_filter, elem_of_dom. split; [by intros [? _]|].
  intros Ho. split; [done|]. unfold online_at in Ho. by destruct (w_entries w !! k).
Qed.

Lemma online_ext w w' : (forall k, online_at w' k = online_at w k) -> online w' = online w.
Proof using. intros He. apply set_eq. intros k. by rewrite !elem_of_online, He. Qed.

Lemma slack_ext t w w' :
  SessionsActive w' = SessionsActive w ->
  (forall k, k <> PushSDKSerial t -> online_at w' k = online_at w k) -> slack t w' = slack t w.
Proof using.
  intros Ha Ho. unfold slack. rewrite Ha. do 3 f_equal. apply set_eq. intros k.
  rewrite !elem_of_difference, !elem_of_online, elem_of_singleton. split; intros [Hk Hn];
    (split; [|done]); (by rewrite Ho in Hk by done) || (by rewrite Ho by done).
Qed.

(** The gauge in terms of the slack: [t] itself counts when it is online. *)
Lemma slack_online t w :
  Z.of_nat (size (online w)) <= SessionsActive w <->
  (if online_at w (PushSDKSerial t) then 1 else 0) <= slack t w.
Proof using.
  unfold slack. destruct (online_at w (PushSDKSerial t)) eqn:Ho.
  - apply elem_of_online in Ho.
    assert (size (online w) = S (size (online w ∖ {[PushSDKSerial t]}))) as ->; [|lia].
    rewrite (union_difference_L {[PushSDKSerial t]} (online w)) at 1 by (by apply singleton_subseteq_l).
    rewrite size_union, size_singleton by (clear; set_solver). lia.
  - assert (online w ∖ {[PushSDKSerial t]} = online w) as ->; [|lia].
    apply set_eq. intros k. rewrite elem_of_difference, elem_of_singleton.
    split; [by intros [? _]|]. intros Hk. split; [done|]. intros ->. apply elem_of_online in Hk. congruence.
Qed.

(** Enters and leaves the description. *)
Lemma inv_At t w :
  inv w -> challenges_ok t w -> t ∈ Terminals cfg -> valid_config cfg ->
  exists e cells c g, At t w w e cells c g [] /\ e = w_entries w !! PushSDKSerial t /\
    match e with
    | Some l => exists s, cells = {[l := s]} /\ session_wf s /\ s_Terminal s = t /\ w_heap w !! l = Some s /\
                  (acked -> s_Authenticated s = true -> c = Some (checkpointed (PersistentState s))) /\
                  (if s_Online s then 1 else 0) <= g
    | None => cells = ∅ /\ 0 <= g
    end.
Proof.
  intros [Hb He Hg] [Hcm Hcs] Ht Hcfg. rewrite (slack_online t) in Hg. unfold online_at in Hg.
  destruct (w_entries w !! PushSDKSerial t) as [l|] eqn:Hl.
  - destruct (He _ l Hl) as (s & Hs & Hk & Hd).
    assert (s_Terminal s = t) as Hst.
    { eapply terminal_push_inj; eauto. by apply (bi_heap _ Hb l s Hs). }
    exists (Some l), {[l := s]}, (checkpoints (w_db w) !! SerialNumber t), (slack t w).
    split; [|split; [done|]].
    + split; try done; try by auto using frame_refl.
      all: intros l' s' Hl'; apply lookup_singleton_Some in Hl' as [<- <-]; eauto.
    + exists s. simpl in Hg. rewrite Hs in Hg. split_and!; try done; [by apply (bi_heap _ Hb l)|].
      intros Hk' Ha. rewrite <- Hst at 1. by apply Hd.
  - exists None, ∅, (checkpoints (w_db w) !! SerialNumber t), (slack t w).
    split; [|done]. split; try done; try by auto using frame_refl.
Qed.

Lemma challenges_ok_calm t w w' : calm w w' -> challenges_ok t w -> challenges_ok t w'.
Proof. intros [E1 E2 _ _ E5 _ _] [Hm Hs]. unfold challenges_ok. by rewrite E1, E2, E5. Qed.

(** What must hold of [t] for the handler to end. *)
Definition settled (e : option loc) (cells : gmap loc Session) (c : option PushSDKSession) (g : Z) : Prop :=
  match e with
  | Some l => exists s, cells !! l = Some s /\
                (acked -> s_Authenticated s = true -> c = Some (checkpointed (PersistentState s))) /\
                (if s_Online s then 1 else 0) <= g
  | None => 0 <= g
  end.

Lemma At_inv t w0 w e cells c g known :
  At t w0 w e cells c g known -> settled e cells c g -> inv w.
Proof.
  intros [Hb Ho He Hc Hck Hg _ _ _ _ _] Hs. unfold settled in Hs. split; [done| |].
  - intros k. destruct (decide (k = PushSDKSerial t)) as [->|]; [|by auto].
    intros l Hl. rewrite He in Hl. rewrite Hl in Hs. destruct Hs as (s & Hcs & Ha & _).
    destruct (Hc l s Hcs) as [Hh Hst]. exists s. split_and!; [done|by rewrite Hst|].
    intros Hk Hau. rewrite Hst, Hck. auto.
  - rewrite (slack_online t), Hg. unfold online_at. rewrite He. destruct e as [l|]; simpl; [|done].
    destruct Hs as (s & Hcs & _ & Hon). destruct (Hc l s Hcs) as [-> _]. done.
Qed.

Lemma At_challenges t w0 w e cells c g known :
  At t w0 w e cells c g known -> settled e cells c g -> challenges_ok t w.
Proof.
  intros [_ _ He Hc Hck _ _ _ Hch Hst _] Hs. split; [|intros x; rewrite Hck; by apply Hst].
  intros l s Hl Hh. rewrite He in Hl. rewrite Hl in Hs. destruct Hs as (s' & Hs' & _).
  destruct (Hc l s' Hs') as [Hh' _]. assert (s' = s) as -> by congruence. eauto.
Qed.
End invariant.

Lemma challenges_ok_any `{StoreViews} t w : challenges_ok (fun _ => True) t w.
Proof. by split. Qed.

Arguments at_base {_ _ _ _ _ _ _ _ _ _ _ _ _ _} _.
Arguments at_others {_ _ _ _ _ _ _ _ _ _ _ _ _ _} _ _ _.
Arguments at_entry {_ _ _ _ _ _ _ _ _ _ _ _ _ _} _.
Arguments at_cells {_ _ _ _ _ _ _ _ _ _ _ _ _ _} _ _ _ _.
Arguments at_checkpoint {_ _ _ _ _ _ _ _ _ _ _ _ _ _} _.
Arguments at_slack {_ _ _ _ _ _ _ _ _ _ _ _ _ _} _.
Arguments at_known {_ _ _ _ _ _ _ _ _ _ _ _ _ _} _.
Arguments at_frame {_ _ _ _ _ _ _ _ _ _ _ _ _ _} _.
Arguments at_challenges {_ _ _ _ _ _ _ _ _ _ _ _ _ _} _ _ _ _.
Arguments at_stored {_ _ _ _ _ _ _ _ _ _ _ _ _ _} _ _ _.
Arguments at_reads {_ _ _ _ _ _ _ _ _ _ _ _ _ _} _.

(** ** How each effect changes the description *)
Section rules.
Context `{CryptoLaws} `{ServiceStoreLaws} (env : Env) (cfg : Config) (t : Terminal) (w0 : World).
Context (Hcfg : valid_config cfg) (Ht : t ∈ Terminals cfg).
Context (Hclock : forall n, 1000 <= env_now env n).
Context (acked : Prop) (Hack : acked -> replies_arrive env).
Context (okc : string -> Prop).

(** A challenge the handler drew. *)
Definition drawn (next : string) : Prop :=
  exists n, (w_reads w0 <= n)%nat /\ randomCustomChallenge (env_rand env) n = Some next.

Context (Hdrawn : forall next, drawn next -> okc next) (Hempty : okc "").

Local Abbreviation At := (At cfg acked okc t w0).

(** A well-formed session with an admissible challenge. *)
Definition session_ok (s : Session) : Prop := session_wf cfg s /\ okc (s_NextChallenge s).

Lemma drawn_class next : drawn next -> lowerHex64 next = true.
Proof. intros (n & _ & Hn). by eapply randomCustomChallenge_class. Qed.

Lemma At_advance w e cells c g known i j k :
  At w e cells c g known -> (w_reads w <= j)%nat -> At (advance i j k w) e cells c g known.
Proof. intros [[] ? ? ? ? ? ? [] ? ? ?] Hj. split; try done. simpl. lia. Qed.

Lemma At_db w d e cells c g known c' :
  At w e cells c g known -> grows (w_db w) d ->
  checkpoints d !! SerialNumber t = c' ->
  (forall k, k <> SerialNumber t -> checkpoints d !! k = checkpoints (w_db w) !! k) ->
  (forall x, c' = Some x -> checkpoint_wf (SerialNumber t) x /\ okc (ps_NextChallenge x)) ->
  At (set_db d w) e cells c' g known.
Proof.
  intros [[Hh Hf Hc Hp] Ho He Hcells _ Hg Hk [Hfe Hfh Hfc] Hch _ Hrd] [Hgrow Harch] Hck Hother Hwf.
  assert (forall l, Forall (.∈ committed (w_db w)) l -> Forall (.∈ committed d) l) as Hmono.
  { intros l Hl. rewrite list.Forall_forall in *. auto. }
  split; [split; simpl; auto| |done|done|done|by rewrite <- Hg|by apply Hmono| |done|by apply Hwf|done].
  - intros k x Hx. destruct (decide (k = SerialNumber t)) as [->|Hne]; [by apply Hwf; congruence|].
    apply Hc. by rewrite <- Hother.
  - intros k Hne l Hl. destruct (Ho k Hne l Hl) as (s & Hs & Hks & Hd). exists s. split_and!; [done|done|].
    intros Hk' Ha. rewrite <- Hd by done. apply Hother. intros Heq. apply Hne.
    rewrite <- Hks. f_equal. apply (terminal_serial_inj cfg); [done| |done|done]. by apply (Hh l s).
  - split; simpl; [done|done|]. intros k Hk'. rewrite Hother by done. auto.
Qed.

Lemma At_publish w e cells c g known ev :
  At w e cells c g known -> ev ∈ known -> At (add_published ev w) e cells c g known.
Proof.
  intros [[Hh Hf Hc Hp] Ho He Hcells Hck Hg Hk [Hfe Hfh Hfc] Hch Hsto Hrd] Hev. split; try done. split; try done.
  simpl. apply Forall_app. split; [done|]. apply Forall_singleton.
  rewrite list.Forall_forall in Hk. auto.
Qed.

Lemma At_know w e cells c g known more :
  At w e cells c g known -> Forall (.∈ committed (w_db w)) more ->
  At w e cells c g (more ++ known).
Proof. intros [] Hm. split; try done. by apply Forall_app. Qed.

Lemma At_save w e cells c g known l s0 s next :
  At w e cells c g known -> cells !! l = Some s0 -> s_Terminal s = t -> session_ok s ->
  (w_next w <= next)%nat ->
  At (set_heap (<[l := s]> (w_heap w)) next w) e (<[l := s]> cells) c g known.
Proof.
  intros [[Hh Hf Hc Hp] Ho He Hcells Hck Hg Hk [Hfe Hfh Hfc] Hch Hsto Hrd] Hl Hst [Hwf Hok] Hn.
  destruct (Hcells l s0 Hl) as [Hl0 Hst0].
  assert (forall k l', k <> PushSDKSerial t -> w_entries w !! k = Some l' -> l' <> l) as Hdis.
  { intros k l' Hk' Hl' ->. destruct (Ho k Hk' l Hl') as (s' & Hs' & Hks & _). congruence. }
  split; [split; simpl| | | | | |done|split; simpl|intros l1 s1|done|done]; simpl; try done.
  - intros l' s' [[<- <-]|[_ Hl']]%lookup_insert_Some; [done|by eauto].
  - intros l' Hl'. rewrite lookup_insert_None. split; [by apply Hf; lia|].
    intros <-. rewrite Hf in Hl0 by lia. done.
  - intros k Hk' l' Hl'. destruct (Ho k Hk' l' Hl') as (s' & Hs' & Hks & Hd).
    exists s'. split_and!; [|done|done]. simpl. rewrite lookup_insert_ne; [done|]. by apply not_eq_sym, (Hdis k).
  - intros l' s' [[<- <-]|[Hne Hl']]%lookup_insert_Some; [by rewrite lookup_insert_eq|].
    rewrite lookup_insert_ne by done. auto.
  - rewrite <- Hg. apply slack_ext; [done|]. intros k Hk'. unfold online_at. simpl.
    destruct (w_entries w !! k) as [l'|] eqn:Hl'; simpl; [|done].
    rewrite lookup_insert_ne; [done|]. by apply not_eq_sym, (Hdis k).
  - intros l' s' Hl' Hne. pose proof (Hfh l' s' Hl' Hne). rewrite lookup_insert_ne; [done|congruence].
  - intros [[<- <-]|[_ Hl1]]%lookup_insert_Some; [done|by eauto].
Qed.

Lemma At_new w e cells c g known s :
  At w e cells c g known -> s_Terminal s = t -> session_ok s ->
  cells !! w_next w = None /\
  At (set_heap (<[w_next w := s]> (w_heap w)) (S (w_next w)) w) e (<[w_next w := s]> cells) c g known.
Proof.
  intros [[Hh Hf Hc Hp] Ho He Hcells Hck Hg Hk [Hfe Hfh Hfc] Hch Hsto Hrd] Hst [Hwf Hok].
  pose proof (Hf (w_next w) (le_n _)) as Hfree.
  assert (forall k l', k <> PushSDKSerial t -> w_entries w !! k = Some l' -> l' <> w_next w) as Hdis.
  { intros k l' Hk' Hl' ->. destruct (Ho k Hk' _ Hl') as (s' & Hs' & _). congruence. }
  split. { destruct (cells !! w_next w) eqn:Hn; [|done]. apply Hcells in Hn as [Hn _]. congruence. }
  split; [split; simpl| | | | | |done|split; simpl|intros l1 s1|done|done]; simpl; try done.
  - intros l' s' [[<- <-]|[_ Hl']]%lookup_insert_Some; [done|by eauto].
  - intros l' Hl'. rewrite lookup_insert_None. split; [apply Hf; lia|lia].
  - intros k Hk' l' Hl'. destruct (Ho k Hk' l' Hl') as (s' & Hs' & Hks & Hd).
    exists s'. split_and!; [|done|done]. simpl. rewrite lookup_insert_ne; [done|]. by apply not_eq_sym, (Hdis k).
  - intros l' s' [[<- <-]|[Hne Hl']]%lookup_insert_Some; [by rewrite lookup_insert_eq|].
    rewrite lookup_insert_ne by done. auto.
  - rewrite <- Hg. apply slack_ext; [done|]. intros k Hk'. unfold online_at. simpl.
    destruct (w_entries w !! k) as [l'|] eqn:Hl'; simpl; [|done].
    rewrite lookup_insert_ne; [done|]. by apply not_eq_sym, (Hdis k).
  - intros l' s' Hl' Hne. pose proof (Hfh l' s' Hl' Hne). rewrite lookup_insert_ne; [done|congruence].
  - intros [[<- <-]|[_ Hl1]]%lookup_insert_Some; [done|by eauto].
Qed.

Lemma At_entries w m e cells c g known e' :
  At w e cells c g known -> m !! PushSDKSerial t = e' ->
  (forall k, k <> PushSDKSerial t -> m !! k = w_entries w !! k) ->
  At (set_entries m w) e' cells c g known.
Proof.
  intros [[Hh Hf Hc Hp] Ho He Hcells Hck Hg Hk [Hfe Hfh Hfc] Hch Hsto Hrd] Hm Hother. split; try done.
  - intros k Hne l. simpl. rewrite Hother by done. by apply Ho.
  - rewrite <- Hg. apply slack_ext; [done|]. intros k Hne. unfold online_at. simpl. by rewrite Hother.
  - split; simpl; [|done|done]. intros k Hne. by rewrite Hother, Hfe.
Qed.

Lemma At_metrics w f n e cells c g known :
  At w e cells c g known -> m_SessionsActive (f (w_metrics w)) = m_SessionsActive (w_metrics w) + n ->
  At (set_metrics f w) e cells c (g + n) known.
Proof.
  intros [[Hh Hf Hc Hp] Ho He Hcells Hck Hg Hk [Hfe Hfh Hfc] Hch Hsto Hrd] Hn. split; try done.
  unfold slack in *. unfold SessionsActive in *. simpl. rewrite Hn, <- Hg.
  change (online (set_metrics f w)) with (online w). lia.
Qed.

(** The well-formedness of the checkpoint of a well-formed session. *)
Lemma to_micros_idem a : to_micros (to_micros a) = to_micros a.
Proof. unfold to_micros. by rewrite Z.div_mul. Qed.

Lemma to_micros_pos a : 1000 <= a -> 1000 <= to_micros a.
Proof. unfold to_micros. intros Ha. pose proof (Z.div_le_lower_bound a 1000 1). lia. Qed.

Lemma checkpointed_idem s : checkpointed (checkpointed s) = checkpointed s.
Proof.
  destruct s as [? ? ? ? ? ? ? ? o ?]. unfold checkpointed; simpl. rewrite to_micros_idem.
  destruct o; simpl; by rewrite ?to_micros_idem.
Qed.

Lemma PersistentState_wf s :
  session_wf cfg s -> checkpoint_wf (SerialNumber (s_Terminal s)) (checkpointed (PersistentState s)).
Proof.
  intros Hs. split; [done|apply checkpointed_idem|].
  simpl. intros a. destruct (s_NextChallengeAt s =? 0) eqn:Hz; simpl; [done|]. intros [= <-].
  apply to_micros_pos. apply Z.eqb_neq in Hz. destruct (sw_at _ s Hs); [done|lia].
Qed.

(** An error value, not a panic or an unfinished loop: every error is one when
    the random source is productive. *)
Definition benign (err : error) : Prop := productive (env_rand env) -> escapes err = false.

Lemma benign_wrap message err : benign err -> benign (EWrap message err).
Proof. done. Qed.

(** ** The rules *)
Lemma wp_time_Now w e cells c g known Q :
  At w e cells c g known ->
  (forall now w', 1000 <= now -> At w' e cells c g known -> Q (Ok now) w') -> wp (time_Now env) Q w.
Proof. intros Hat HQ. apply HQ; [apply Hclock|by apply At_advance]. Qed.

Lemma random_loop_next fuel src i n value : (i <= (random_loop fuel src i n value).2)%nat.
Proof.
  revert i value. induction fuel as [|fuel IH]; intros i value; simpl; case_match; simpl; try lia.
  destruct (ReadFull src i 32); simpl; [|lia]. etrans; [|apply IH]. lia.
Qed.

Lemma wp_random_token w e cells c g known Q :
  At w e cells c g known ->
  (forall s w', alphaNumeric64 s = true -> At w' e cells c g known -> Q (Ok s) w') ->
  (forall err w', benign err -> At w' e cells c g known -> Q (Err err) w') -> wp (random_token env) Q w.
Proof.
  intros Hat Hok Herr. unfold wp, random_token.
  destruct (randomAlphaNumeric 64 (env_rand env) (w_reads w) 64) as [r next] eqn:Hr.
  assert (w_reads w <= next)%nat as Hnext.
  { pose proof (random_loop_next 64 (env_rand env) (w_reads w) 64 []) as Hn. unfold randomAlphaNumeric in Hr.
    by rewrite Hr in Hn. }
  destruct r; cbn [fst snd].
  - apply Hok; [by eapply randomAlphaNumeric_64|by apply At_advance].
  - apply Herr; [done|by apply At_advance].
  - apply Herr; [|by apply At_advance]. intros Hp. exfalso.
    pose proof (random_loop_terminates 64 (env_rand env) (w_reads w) 64 [] Hp) as Hterm.
    unfold randomAlphaNumeric in Hr. rewrite Hr in Hterm. apply Hterm; [simpl; lia|simpl; lia|done].
Qed.

Lemma wp_random_challenge w e cells c g known Q :
  At w e cells c g known ->
  (forall s w', drawn s -> At w' e cells c g known -> Q (Ok s) w') ->
  (forall err w', benign err -> At w' e cells c g known -> Q (Err err) w') -> wp (random_challenge env) Q w.
Proof.
  intros Hat Hok Herr. unfold wp, random_challenge, ok_or.
  destruct (randomCustomChallenge (env_rand env) (w_reads w)) as [s|] eqn:Hs; cbn [fst snd].
  - apply Hok; [|apply At_advance; [done|lia]]. exists (w_reads w). split; [|done]. by destruct Hat.
  - apply Herr; [done|apply At_advance; [done|lia]].
Qed.

Lemma wp_load w e cells c g known l s Q :
  At w e cells c g known -> cells !! l = Some s -> Q (Ok s) w -> wp (load l) Q w.
Proof. intros Hat Hl HQ. unfold wp, load. destruct (at_cells Hat l s Hl) as [-> _]. done. Qed.

Lemma wp_save w e cells c g known l s0 s Q :
  At w e cells c g known -> cells !! l = Some s0 -> s_Terminal s = t -> session_ok s ->
  (forall w', At w' e (<[l := s]> cells) c g known -> Q (Ok tt) w') -> wp (save l s) Q w.
Proof. intros Hat Hl Hst Hwf HQ. apply wp_modify, HQ. by eapply At_save. Qed.

Lemma wp_new w e cells c g known s Q :
  At w e cells c g known -> s_Terminal s = t -> session_ok s ->
  (forall l w', cells !! l = None -> At w' e (<[l := s]> cells) c g known -> Q (Ok l) w') ->
  wp (new_session s) Q w.
Proof.
  intros Hat Hst Hwf HQ. destruct (At_new _ _ _ _ _ _ s Hat Hst Hwf) as [Hn Hat']. by apply HQ.
Qed.

Lemma wp_Get w e cells c g known Q :
  At w e cells c g known -> Q (Ok e) w -> wp (Get (PushSDKSerial t)) Q w.
Proof. intros Hat HQ. apply wp_gets. by rewrite (at_entry Hat). Qed.

Lemma wp_Remove w e cells c g known Q :
  At w e cells c g known -> (forall w', At w' None cells c g known -> Q (Ok tt) w') ->
  wp (Remove (PushSDKSerial t)) Q w.
Proof.
  intros Hat HQ. apply wp_modify, HQ. eapply At_entries; [done|apply lookup_delete_eq|].
  intros k Hk. by rewrite lookup_delete_ne.
Qed.

Lemma wp_insert_entry w e cells c g known l (Q : result error unit -> World -> Prop) :
  At w e cells c g known -> (forall w', At w' (Some l) cells c g known -> Q (Ok tt) w') ->
  wp (modify (fun w => set_entries (<[PushSDKSerial t := l]> (w_entries w)) w)) Q w.
Proof.
  intros Hat HQ. apply wp_modify, HQ. eapply At_entries; [done|apply lookup_insert_eq|].
  intros k Hk. by rewrite lookup_insert_ne.
Qed.

Lemma wp_Replace w e cells c g known o Q :
  At w e cells c g known -> (forall w', At w' o cells c g known -> Q (Ok tt) w') ->
  wp (Replace (PushSDKSerial t) o) Q w.
Proof.
  intros Hat HQ. destruct o as [l|]; [by eapply wp_insert_entry|by eapply wp_Remove].
Qed.

Lemma wp_Publish w e cells c g known ev Q :
  At w e cells c g known -> ev ∈ known ->
  (forall w', At w' e cells c g known -> Q (Ok tt) w') -> wp (Publish ev) Q w.
Proof. intros Hat Hev HQ. apply wp_modify, HQ. by apply At_publish. Qed.

Lemma wp_Publish_all w e cells c g known evs Q :
  At w e cells c g known -> (forall ev, ev ∈ evs -> ev ∈ known) ->
  (forall w', At w' e cells c g known -> Q (Ok tt) w') -> wp (for_each Publish evs) Q w.
Proof.
  intros Hat Hev HQ. apply wp_for_each with (I := fun w' => At w' e cells c g known); [done| |done].
  intros ev w' Hin Hw'. by eapply wp_Publish; [done|by apply Hev|].
Qed.

Lemma wp_SessionsActive_Inc w e cells c g known Q :
  At w e cells c g known -> (forall w', At w' e cells c (g + 1) known -> Q (Ok tt) w') ->
  wp SessionsActive_Inc Q w.
Proof. intros Hat HQ. apply wp_modify, HQ. by apply At_metrics. Qed.

Lemma wp_SessionsActive_Dec w e cells c g known Q :
  At w e cells c g known -> (forall w', At w' e cells c (g - 1) known -> Q (Ok tt) w') ->
  wp SessionsActive_Dec Q w.
Proof. intros Hat HQ. apply wp_modify, HQ. by apply (At_metrics _ _ (-1)). Qed.

(** The other metrics leave the description as it is. *)
Lemma wp_metric w e cells c g known f (Q : result error unit -> World -> Prop) :
  At w e cells c g known -> m_SessionsActive (f (w_metrics w)) = m_SessionsActive (w_metrics w) ->
  (forall w', At w' e cells c g known -> Q (Ok tt) w') -> wp (modify (set_metrics f)) Q w.
Proof.
  intros Hat Hf HQ. apply wp_modify, HQ. rewrite <- (Z.add_0_r g). apply At_metrics; [done|]. by rewrite Hf, Z.add_0_r.
Qed.

Lemma At_forget w e cells c g known more : At w e cells c g (more ++ known) -> At w e cells c g known.
Proof. intros [? ? ? ? ? ? Hm ? ? ? ?]. split; try done. by apply Forall_app in Hm as [_ Hm]. Qed.

(** *** Calls of the store

    When a call fails the service does not know the checkpoint, unless replies arrive. *)
Lemma wp_call {A} (op : Tx store_error st_ctx st A) w e cells c g known (Q : result error A -> World -> Prop) :
  At w e cells c g known ->
  (forall err w', At w' e cells c g known -> Q (Err (EStore err)) w') ->
  (forall ctx a d, op ctx (w_db w) = Ok (a, d) ->
     exists c' more, grows (w_db w) d /\ checkpoints d !! SerialNumber t = c' /\
       (forall k, k <> SerialNumber t -> checkpoints d !! k = checkpoints (w_db w) !! k) /\
       (forall x, c' = Some x -> checkpoint_wf (SerialNumber t) x /\ okc (ps_NextChallenge x)) /\
       Forall (.∈ committed d) more /\
       forall w', w_db w' = d -> At w' e cells c' g (more ++ known) ->
         Q (Ok a) w' /\ (~ acked -> Q (Err (EStore ErrDatabase)) w')) ->
  wp (call env op) Q w.
Proof.
  intros Hat Herr Hok. unfold wp, call. destruct (env_fault env (w_calls w)); simpl.
  { by apply Herr, At_advance. }
  destruct (op _ _) as [[a d]|err] eqn:Hop; simpl; [|by apply Herr, At_advance].
  destruct (Hok _ _ _ Hop) as (c' & more & Hg & Hc' & Hother & Hwf & Hm & HQ).
  set (w' := set_db d _). assert (At w' e cells c' g (more ++ known)) as Hat'.
  { apply At_know; [|done]. eapply At_db; [by apply At_advance|done..]. }
  destruct (HQ w' eq_refl Hat') as [HOk HErr]. destruct (env_lost env (w_calls w)) eqn:Hlost; [|exact HOk].
  apply HErr. intros Ha. specialize (Hack Ha (w_calls w)). congruence.
Qed.

(** The checkpoint a call leaves alone. *)
Lemma At_checkpoint_wf w e cells c g known x :
  At w e cells c g known -> c = Some x -> checkpoint_wf (SerialNumber t) x /\ okc (ps_NextChallenge x).
Proof. intros [Hb _ _ _ Hc _ _ _ _ Hst _] ->. split; [by apply (bi_checkpoints _ _ Hb)|auto]. Qed.

Lemma wp_call_neutral {A} (op : Tx store_error st_ctx st A) (evs : A -> list activity.Event)
    w e cells c g known (Q : result error A -> World -> Prop) :
  At w e cells c g known ->
  (forall ctx a d, op ctx (w_db w) = Ok (a, d) ->
     checkpoints d = checkpoints (w_db w) /\ grows (w_db w) d /\ Forall (.∈ committed d) (evs a)) ->
  (forall err w', At w' e cells c g known -> Q (Err (EStore err)) w') ->
  (forall ctx a w', op ctx (w_db w) = Ok (a, w_db w') -> At w' e cells c g (evs a ++ known) -> Q (Ok a) w') ->
  wp (call env op) Q w.
Proof.
  intros Hat Hlaw Herr Hok. apply (wp_call _ _ e cells c g known); [done|done|].
  intros ctx a d Hop. destruct (Hlaw ctx a d Hop) as (Hck & Hgrow & Hm).
  exists c, (evs a). split_and!; [done| | | |done|].
  - rewrite Hck. apply (at_checkpoint Hat).
  - by rewrite Hck.
  - intros x. by apply (At_checkpoint_wf _ _ _ _ _ _ _ Hat).
  - intros w' <- Hw'. split; [by apply (Hok ctx)|]. intros _. by eapply Herr, At_forget.
Qed.

Lemma wp_Transition w e cells c g known status ev (Q : result error activity.Event -> World -> Prop) :
  At w e cells c g known ->
  (forall err w', At w' e cells c g known -> Q (Err (EStore err)) w') ->
  (forall stored w', At w' e cells c g (stored :: known) -> Q (Ok stored) w') ->
  wp (call env (TransitionTerminalState (SerialNumber t) status None ev)) Q w.
Proof.
  intros Hat Herr Hok. apply (wp_call_neutral _ (fun s => [s]) _ e cells c g known); [done| |done|].
  - intros ctx s d Hop. apply TransitionTerminalState_law in Hop as (? & ? & ?).
    by rewrite Forall_singleton.
  - intros ctx s w' _ Hw'. by apply Hok.
Qed.

Lemma wp_Record w e cells c g known ev (Q : result error activity.Event -> World -> Prop) :
  At w e cells c g known ->
  (forall err w', At w' e cells c g known -> Q (Err (EStore err)) w') ->
  (forall stored w', At w' e cells c g (stored :: known) -> Q (Ok stored) w') ->
  wp (call env (RecordGatewayActivity ev)) Q w.
Proof.
  intros Hat Herr Hok. apply (wp_call_neutral _ (fun s => [s]) _ e cells c g known); [done| |done|].
  - intros ctx s d Hop. apply RecordGatewayActivity_law in Hop as (? & ? & ?).
    by rewrite Forall_singleton.
  - intros ctx s w' _ Hw'. by apply Hok.
Qed.

Lemma wp_Upsert w e cells c g known s (Q : result error unit -> World -> Prop) :
  At w e cells c g known -> s_Terminal s = t -> session_ok s ->
  (forall err c' w', (acked -> c' = c) -> At w' e cells c' g known -> Q (Err (EStore err)) w') ->
  (forall w', At w' e cells (Some (checkpointed (PersistentState s))) g known -> Q (Ok tt) w') ->
  wp (call env (UpsertPushSDKSession (PersistentState s))) Q w.
Proof.
  intros Hat Hst [Hwf Hch] Herr Hok. apply (wp_call _ _ e cells c g known); [done|by eauto|].
  intros ctx [] d Hop. apply UpsertPushSDKSession_law in Hop as [Hck Hgrow].
  exists (Some (checkpointed (PersistentState s))), []. simpl in Hck. rewrite Hst in Hck.
  split_and!; [done|by rewrite Hck, lookup_insert_eq| | |by apply Forall_nil|].
  - intros k Hk. by rewrite Hck, lookup_insert_ne.
  - intros x [= <-]. split; [rewrite <- Hst; by apply PersistentState_wf|exact Hch].
  - intros w' _ Hw'. split; [by apply Hok|]. intros Hn. eapply Herr; [|by eapply (At_forget _ _ _ _ _ _ _ Hw')]. done.
Qed.

Lemma wp_Delete w e cells c g known (Q : result error unit -> World -> Prop) :
  At w e cells c g known ->
  (forall err c' w', (acked -> c' = c) -> At w' e cells c' g known -> Q (Err (EStore err)) w') ->
  (forall w', At w' e cells None g known -> Q (Ok tt) w') ->
  wp (call env (DeletePushSDKSession (SerialNumber t))) Q w.
Proof.
  intros Hat Herr Hok. apply (wp_call _ _ e cells c g known); [done|by eauto|].
  intros ctx [] d Hop. apply DeletePushSDKSession_law in Hop as [Hck Hgrow].
  exists None, []. split_and!; [done|by rewrite Hck, lookup_delete_eq| |done|by apply Forall_nil|].
  - intros k Hk. by rewrite Hck, lookup_delete_ne.
  - intros w' _ Hw'. split; [by apply Hok|]. intros Hn. eapply Herr; [|by eapply (At_forget _ _ _ _ _ _ _ Hw')]. done.
Qed.

Lemma wp_Expire w e cells c g known reason (Q : result error (option activity.Event) -> World -> Prop) :
  At w e cells c g known ->
  (forall err c' w', (acked -> c' = c) -> At w' e cells c' g known -> Q (Err (EStore err)) w') ->
  (forall o w', At w' e cells None g (option_list o ++ known) -> Q (Ok o) w') ->
  wp (call env (ExpirePushSDKLoginChallenge (SerialNumber t) reason)) Q w.
Proof.
  intros Hat Herr Hok. apply (wp_call _ _ e cells c g known); [done|by eauto|].
  intros ctx o d Hop. apply ExpirePushSDKLoginChallenge_law in Hop as (Hck & Hgrow & Ho).
  exists None, (option_list o). split_and!; [done|by rewrite Hck, lookup_delete_eq| |done| |].
  - intros k Hk. by rewrite Hck, lookup_delete_ne.
  - destruct o as [ev|]; [|apply Forall_nil; done]. apply Forall_singleton. by apply Ho.
  - intros w' _ Hw'. split; [by apply Hok|]. intros Hn. eapply Herr; [|by eapply (At_forget _ _ _ _ _ _ _ Hw')]. done.
Qed.
End rules.
