(* ===== verification/ServiceProofs.v ===== *)
(** Each handler of service.go, verified against the store interface: it
    re-establishes the invariant on every path, and what its outcomes mean for
    the terminal's session and checkpoint. *)

From Stdlib Require Import ZArith Lia Ascii String.
From stdpp Require Import base gmap strings list option fin_sets.
From S2P Require Import Prelude GoText GoJSON GoHTTP GoCrypto Config Crypto StoreTypes Wire World Session.
From S2P Require Import Service ServiceInv.

Local Open Scope string_scope.
Local Open Scope Z_scope.

Section handlers.
Context `{CryptoLaws} `{ServiceStoreLaws} (env : Env) (cfg : Config) (t : Terminal) (w0 : World).
Context (Hcfg : valid_config cfg) (Ht : t ∈ Terminals cfg).
Context (Hclock : forall n, 1000 <= env_now env n).

(** Whether every reply arrived, and what holds of the challenges (ServiceInv.v). *)
Context (acked : Prop) (Hack : acked -> replies_arrive env) (okc : string -> Prop).
Context (Hdrawn : forall next, drawn env w0 next -> okc next) (Hempty : okc "").

Local Abbreviation At := (At cfg acked okc t w0).
Local Abbreviation settled := (settled acked).
Local Abbreviation session_ok := (session_ok cfg okc).
Local Abbreviation drawn := (drawn env w0).
Local Abbreviation benign := (benign env).

(** Loads and saves of the session a handler holds, and the calls it makes. *)
Local Ltac at_rule R := eapply R; try eassumption; try done.

(** ** Session updates keep a session well formed *)
Lemma wf_challenge s next now :
  session_ok s -> drawn next -> 1000 <= now -> session_ok (set_challenge s next now).
Proof.
  intros [[] _] Hn Hnow. split; [|by apply Hdrawn]. pose proof (drawn_class _ _ _ Hn). split; simpl; auto.
Qed.

Lemma wf_authenticate s :
  session_ok s -> lowerHex64 (s_NextChallenge s) = true -> 1000 <= s_NextChallengeAt s ->
  session_ok (set_authenticated s true).
Proof. intros [[] ?] Hn Hnow. split; [|done]. split; simpl; auto. Qed.

Lemma wf_online s b :
  session_ok s -> (b = true -> s_Authenticated s = true) -> session_ok (set_online s b).
Proof. intros [[] ?] Hb. split; [|done]. split; simpl; auto. Qed.

Lemma wf_logout s : session_ok s -> session_ok (set_online (set_authenticated s false) false).
Proof. intros [[] ?]. split; [|done]. split; simpl; auto; done. Qed.

(** Putting back the challenge of an unauthenticated or authenticated state. *)
Lemma wf_rollback s s0 :
  session_ok s -> session_ok s0 -> s_Authenticated s = s_Authenticated s0 ->
  session_ok (set_challenge s (s_NextChallenge s0) (s_NextChallengeAt s0)).
Proof. intros [[] ?] [[] ?] Ha. split; [|done]. split; simpl; auto. rewrite Ha. auto. Qed.

(** ** Building blocks *)
Lemma wp_IssueNextChallenge w e cells c g known l s Q :
  At w e cells c g known -> cells !! l = Some s -> s_Terminal s = t -> session_ok s ->
  (forall err w', benign err -> At w' e cells c g known -> Q (Err err) w') ->
  (forall next now w', drawn next -> 1000 <= now ->
     At w' e (<[l := set_challenge s next now]> cells) c g known -> Q (Ok next) w') ->
  wp (IssueNextChallenge env l) Q w.
Proof.
  intros Hat Hl Hst Hwf Herr Hok. unfold IssueNextChallenge.
  apply wp_bind. at_rule wp_random_challenge. intros next w1 Hn A1.
  apply wp_bind. at_rule wp_time_Now. intros now w2 Hnow A2.
  apply wp_bind. at_rule wp_load.
  apply wp_bind. at_rule wp_save; [by apply wf_challenge|]. intros w3 A3.
  apply wp_ret. by eapply Hok.
Qed.

Lemma wp_persistSession w e cells c g known l s Q :
  At w e cells c g known -> cells !! l = Some s -> s_Terminal s = t -> session_ok s ->
  (forall err c' w', (acked -> c' = c) -> At w' e cells c' g known -> Q (Err (EStore err)) w') ->
  (forall w', At w' e cells (Some (checkpointed (PersistentState s))) g known -> Q (Ok tt) w') ->
  wp (persistSession env l) Q w.
Proof.
  intros Hat Hl Hst Hwf Herr Hok. unfold persistSession.
  apply wp_bind. at_rule wp_load. at_rule wp_Upsert.
Qed.

Lemma wp_restoreReplaced w e cells c g known prev Q :
  At w e cells c g known ->
  (forall p, prev = Some p -> exists s, cells !! p = Some s /\ s_Terminal s = t /\ session_ok s) ->
  (forall err c' w', (acked -> c' = c) -> At w' e cells c' g known -> Q (Err (EStore err)) w') ->
  (forall w', At w' prev cells (p ← prev; s ← cells !! p; Some (checkpointed (PersistentState s))) g known ->
     Q (Ok tt) w') ->
  wp (restoreReplacedSession env t prev) Q w.
Proof.
  intros Hat Hprev Herr Hok. unfold restoreReplacedSession. destruct prev as [p|].
  - destruct (Hprev p eq_refl) as (s & Hs & Hst & Hwf). simpl in Hok. rewrite Hs in Hok.
    apply wp_bind. at_rule wp_load.
    apply wp_bind. at_rule wp_Upsert. intros w1 A1. at_rule wp_Replace.
  - apply wp_bind. at_rule wp_Delete. intros w1 A1. at_rule wp_Replace.
Qed.

Lemma wp_recordGatewayActivity w e cells c g known ev Q :
  At w e cells c g known ->
  (forall r w' known', At w' e cells c g known' -> Q r w') ->
  wp (recordGatewayActivity env ev) Q w.
Proof.
  intros Hat HQ. unfold recordGatewayActivity. apply wp_bind. at_rule wp_Record; [by eauto|].
  intros stored w1 A1. at_rule wp_Publish; [by left|eauto].
Qed.

Lemma wp_expireLoginChallenge w e cells c g known Q :
  At w e cells c g known ->
  (forall err c' w', (acked -> c' = c) -> At w' e cells c' g known -> Q (Err (EStore err)) w') ->
  (forall w' known', At w' None cells None g known' -> Q (Ok tt) w') ->
  wp (expireLoginChallenge env t) Q w.
Proof.
  intros Hat Herr Hok. unfold expireLoginChallenge.
  apply wp_bind. at_rule wp_Expire. intros o w1 A1.
  apply wp_bind. at_rule wp_Remove. intros w2 A2.
  destruct o as [ev|]; [|by apply wp_ret; eauto].
  at_rule wp_Publish; [by left|eauto].
Qed.

Lemma wp_markSessionIdle w e cells c g known l s Q :
  At w e cells c g known -> cells !! l = Some s -> s_Terminal s = t -> session_ok s ->
  (forall err w', At w' e cells c g known -> Q (Err (EStore err)) w') ->
  (forall w' known', At w' e (<[l := set_online s false]> cells) c (g - 1) known' -> Q (Ok tt) w') ->
  wp (markSessionIdle env t l) Q w.
Proof.
  intros Hat Hl Hst Hwf Herr Hok. unfold markSessionIdle.
  apply wp_bind. at_rule wp_Transition. intros stored w1 A1.
  apply wp_bind. at_rule wp_load.
  apply wp_bind. at_rule wp_save; [by apply wf_online|]. intros w2 A2.
  apply wp_bind. at_rule wp_SessionsActive_Dec. intros w3 A3.
  at_rule wp_Publish; [by left|eauto].
Qed.

(** ** AuthInfo *)

(** What the handler holds of the terminal when it starts. *)
Definition holds (e : option loc) (cells : gmap loc Session) : Prop :=
  forall p, e = Some p -> exists s, cells !! p = Some s /\ s_Terminal s = t /\ session_ok s.

Definition entry_online (e : option loc) (cells : gmap loc Session) : bool :=
  match e ≫= (cells !!.) with Some s => s_Online s | None => false end.

Definition fresh_session (s : Session) (mode : PayloadMode) : Prop :=
  s_Terminal s = t /\ session_wf cfg s /\ s_Authenticated s = false /\ s_Online s = false /\
  s_PayloadMode s = mode /\ s_NextChallenge s = "" /\ s_NextChallengeAt s = 0.

Lemma wp_Start w e cells c g known mode Q :
  At w e cells c g known -> holds e cells ->
  mode = PlaintextPayload \/ mode = EncryptedPayload ->
  (forall err w', benign err -> At w' e cells c g known -> Q (Err err) w') ->
  (forall l s w', cells !! l = None -> fresh_session s mode ->
     At w' (Some l) (<[l := s]> cells) c g known ->
     Q (Ok {| ss_Session := l; ss_Previous := e; ss_ReplacedOnlineSession := entry_online e cells |}) w') ->
  wp (Start env t mode) Q w.
Proof.
  intros Hat Hh Hmode Herr Hok. unfold Start.
  apply wp_bind, wp_try. at_rule wp_random_token.
  2: { intros err w1 Hb A1. apply wp_fail. auto. }
  intros salt w1 Hsalt A1.
  apply wp_bind, wp_try. at_rule wp_random_token.
  2: { intros err w2 Hb A2. apply wp_fail. auto. }
  intros challenge w2 Hch A2.
  apply wp_bind. at_rule wp_time_Now. intros now w3 Hnow A3.
  set (s := mkSession _ _ _ _ _ _ _ _ _ _).
  assert (session_wf cfg s) as Hwf by (subst s; split; simpl; auto; try done).
  assert (session_ok s) as Hok' by (split; [exact Hwf|exact Hempty]).
  apply wp_bind. at_rule wp_new. intros l w4 Hl A4.
  apply wp_bind. eapply wp_Get; [exact A4|].
  apply wp_bind. at_rule wp_insert_entry. intros w5 A5.
  apply wp_bind. unfold entry_online in Hok. destruct e as [p|].
  - destruct (Hh p eq_refl) as (sp & Hsp & _). simpl in Hok. rewrite Hsp in Hok.
    assert (p <> l) by congruence.
    apply wp_bind. eapply wp_load; [exact A5|by rewrite lookup_insert_ne|].
    apply wp_ret, wp_ret. eapply Hok; [done| |done]. by split_and!.
  - apply wp_ret, wp_ret. eapply Hok; [done| |done]. by split_and!.
Qed.

Lemma payloadMode_cases body mode :
  payloadModeForAuthInfo t body = Ok mode -> mode = PlaintextPayload \/ mode = EncryptedPayload.
Proof.
  unfold payloadModeForAuthInfo. destruct body; [intros [= <-]; by left|].
  destruct (decodeExactJSON _ _ _) as [payload|]; [|done].
  destruct (elems (ai_SecurityVersions payload)) as [|v vs]; [done|].
  generalize (v :: vs). induction l as [|v' l IH]; simpl; [done|].
  destruct (_ && _); [done|]. destruct (v' =? _); [intros [= <-]; by right|auto].
Qed.

Lemma payloadMode_error body err :
  payloadModeForAuthInfo t body = Err err -> escapes err = false.
Proof.
  unfold payloadModeForAuthInfo. destruct body; [done|].
  destruct (decodeExactJSON _ _ _) as [payload|]; [|by intros [= <-]].
  destruct (elems (ai_SecurityVersions payload)) as [|v vs]; [by intros [= <-]|].
  generalize (v :: vs). induction l as [|v' l IH]; simpl; [by intros [= <-]|].
  destruct (_ && _); [by intros [= <-]|]. destruct (v' =? _); [done|auto].
Qed.

(** How AuthInfo ends: with a fresh unauthenticated session that is also the
    checkpoint, or (when it fails) with the previous session in its place. *)
Definition authInfo_post (e : option loc) (cells : gmap loc Session)
    (r : result error protocolResponse) (w' : World) : Prop :=
  exists e' cells' c' g' known', At w' e' cells' c' g' known' /\ settled e' cells' c' g' /\
  (forall p s, cells !! p = Some s -> cells' !! p = Some s) /\
  match r with
  | Ok resp => exists l s mode, e' = Some l /\ cells !! l = None /\ cells' !! l = Some s /\
      fresh_session s mode /\ c' = Some (checkpointed (PersistentState s)) /\
      pr_Body resp = authInfoResponse (s_LoginChallenge s) (s_Salt s) (s_Iterations s) (IsEncrypted mode)
                       (if IsEncrypted mode then [SecurityVersion t] else [])
  | Err err => benign err /\
      (e' = e \/
      (exists l s mode, e' = Some l /\ cells' !! l = Some s /\ fresh_session s mode))
  end.

Lemma settled_slack e cells c g : settled e cells c g -> (if entry_online e cells then 1 else 0) <= g.
Proof.
  unfold ServiceInv.settled, entry_online. destruct e as [l|]; [|done].
  intros (s & Hs & _ & Hg). simpl. by rewrite Hs.
Qed.

(** A settled state stays settled when the cells grow, and when the checkpoint
    is rewritten with the state of the entry. *)
Lemma settled_mono e cells cells' c g :
  settled e cells c g -> (forall p s, cells !! p = Some s -> cells' !! p = Some s) ->
  settled e cells' c g.
Proof.
  unfold ServiceInv.settled. destruct e as [l|]; [|done]. intros (s & Hs & Hd) Hm. exists s. auto.
Qed.

(** A call that failed leaves it settled. *)
Lemma settled_acked e cells c c' g : settled e cells c g -> (acked -> c' = c) -> settled e cells c' g.
Proof.
  unfold ServiceInv.settled. destruct e as [l|]; [|done]. intros (s & Hs & Hd & Hg) Hc. exists s. split_and!; [done| |done].
  intros Ha. rewrite (Hc Ha). auto.
Qed.

Lemma settled_rewrite e cells c g :
  settled e cells c g ->
  settled e cells (p ← e; s ← cells !! p; Some (checkpointed (PersistentState s))) g.
Proof.
  unfold ServiceInv.settled. destruct e as [l|]; [|done]. intros (s & Hs & _ & Hg). exists s. simpl.
  rewrite Hs. auto.
Qed.

Lemma lookup_insert_mono (cells : gmap loc Session) l s :
  cells !! l = None -> forall p s', cells !! p = Some s' -> <[l := s]> cells !! p = Some s'.
Proof. intros Hl p s' Hp. rewrite lookup_insert_ne; [done|congruence]. Qed.

Lemma wp_authInfo w e cells c g known body :
  At w e cells c g known -> holds e cells -> settled e cells c g ->
  wp (authInfo env t body) (authInfo_post e cells) w.
Proof.
  intros Hat Hh Hs. unfold authInfo. pose proof (settled_slack _ _ _ _ Hs) as Hg0.
  assert (forall err w', benign err -> At w' e cells c g known -> authInfo_post e cells (Err err) w') as Hsame.
  { intros err w' Hb A. exists e, cells, c, g, known. split_and!; auto. }
  apply wp_bind, wp_lift. destruct (payloadModeForAuthInfo t body) as [mode|err] eqn:Hmode.
  2: { apply Hsame; [|done]. intros _. by eapply payloadMode_error. }
  apply wp_bind, wp_try. at_rule wp_Start; [by eapply payloadMode_cases|].
  intros l s w1 Hl Hfresh A1. pose proof (lookup_insert_mono cells l s Hl) as Hmono.
  pose proof Hfresh as (Hst & Hwf & Hau & Hon & Hm & Hnc & _).
  assert (session_ok s) as Hok by (split; [done|by rewrite Hnc]). cbn [ss_Session ss_Previous ss_ReplacedOnlineSession].
  apply wp_bind, wp_try. eapply wp_persistSession; [exact A1|by rewrite lookup_insert_eq|done|done| |].
  { intros err c2 w2 Hc2 A2. apply wp_bind. at_rule wp_Replace. intros w3 A3. apply wp_fail.
    exists e, (<[l := s]> cells), c2, g, known. split_and!; [done| |done|done|by left].
    eapply settled_mono; [by eapply settled_acked|done]. }
  intros w2 A2.
  apply wp_bind, wp_try. at_rule wp_Transition.
  - intros err w3 A3. apply wp_bind, wp_try. eapply wp_restoreReplaced; [exact A3| | |].
    + intros p ->. destruct (Hh p eq_refl) as (sp & Hsp & ?). exists sp. auto.
    + intros err' c4 w4 _ A4. apply wp_fail. do 5 eexists. split; [exact A4|].
      split; [exists s; rewrite lookup_insert_eq, Hau, Hon; split_and!; [done|done|by destruct (entry_online e cells); lia]|].
      split; [done|]. split; [done|]. right. exists l, s, mode. by rewrite lookup_insert_eq.
    + intros w4 A4. apply wp_fail.
      assert ((p ← e; s0 ← <[l := s]> cells !! p; Some (checkpointed (PersistentState s0))) =
              (p ← e; s0 ← cells !! p; Some (checkpointed (PersistentState s0)))) as Heq.
      { destruct e as [p|]; [|done]. destruct (Hh p eq_refl) as (sp & Hsp & _). simpl.
        by rewrite Hsp, (Hmono p sp Hsp). }
      rewrite Heq in A4. do 5 eexists. split; [exact A4|].
      split; [eapply settled_mono; [by eapply settled_rewrite|done]|]. split; [done|]. split; [done|]. by left.
  - intros stored w3 A3. apply wp_bind.
    apply wp_mono with (P := fun r w' => r = Ok tt /\ exists g', 0 <= g' /\
      At w' (Some l) (<[l := s]> cells) (Some (checkpointed (PersistentState s))) g' (stored :: known)).
    { destruct (entry_online e cells).
      - at_rule wp_SessionsActive_Dec. intros w4 A4. split; [done|]. exists (g - 1). split; [lia|done].
      - apply wp_ret. split; [done|]. eauto. }
    intros r w4 (-> & g' & Hg' & A4).
    apply wp_bind. eapply wp_load; [exact A4|by rewrite lookup_insert_eq|].
    apply wp_bind. at_rule wp_Publish; [by left|]. intros w5 A5. apply wp_ret.
    do 5 eexists. split; [exact A5|].
    split; [exists s; rewrite lookup_insert_eq, Hau, Hon; done|]. split; [done|].
    exists l, s, mode. rewrite lookup_insert_eq. by split_and!.
Qed.

(** ** Event *)
Lemma wp_events w e cells c g known body Q :
  At w e cells c g known ->
  (forall r w' known', (forall err, r = Err err -> benign err) -> At w' e cells c g known' -> Q r w') ->
  wp (events env t body) Q w.
Proof.
  intros Hat HQ. unfold events. destruct (ParseEventBatch (SerialNumber t) body) as [parsed|err].
  2: { apply wp_bind. at_rule wp_metric. intros w1 A1. apply wp_fail. eapply HQ; [|done]. by intros ? [= <-]. }
  apply wp_bind. apply wp_for_each with (I := fun w' => At w' e cells c g known); [done| |].
  { intros x w1 _ A1. at_rule wp_metric. }
  intros w1 A1. apply wp_bind, wp_try.
  apply (wp_call_neutral _ _ t w0 Hcfg Ht acked Hack okc _ (fun ps => dep_Activity <$> ps) _ e cells c g known); [done| | |].
  - intros ctx ps d Hop. apply InsertDeviceEventBatch_law in Hop as (? & ? & _ & Hm & _).
    split_and!; [done|done|]. by apply Forall_fmap.
  - intros err w2 A2. apply wp_bind. at_rule wp_metric. intros w3 A3. apply wp_fail. eapply HQ; [|done]. by intros ? [= <-].
  - intros ctx ps w2 Hop A2. apply InsertDeviceEventBatch_law in Hop as (_ & _ & Hlen & _). rewrite length_fmap in Hlen. apply wp_bind.
    apply wp_for_each with (I := fun w' => At w' e cells c g ((dep_Activity <$> ps) ++ known)); [done| |].
    + intros i w3 Hi%elem_of_seq A3. destruct (ps !! i) as [p|] eqn:Hp.
      2: { apply lookup_ge_None in Hp. lia. }
      apply wp_bind. assert (dep_Activity p ∈ (dep_Activity <$> ps) ++ known)%list as Hin.
      { apply elem_of_app. left. apply list_elem_of_fmap_2. by eapply list_elem_of_lookup_2. }
      destruct (dep_Inserted p).
      * at_rule wp_metric. intros w4 A4. at_rule wp_Publish.
      * apply wp_ret. at_rule wp_Publish.
    + intros w3 A3. apply wp_ret. by eapply HQ.
Qed.

(** ** Authenticated actions *)
Lemma wp_resume w e cells c g known l s Q :
  At w e cells c g known -> cells !! l = Some s -> s_Terminal s = t -> session_ok s ->
  s_Authenticated s = true -> (if s_Online s then 1 else 0) <= g ->
  (forall err w', At w' e cells c g known -> Q (Err (EStore err)) w') ->
  (forall w' g' known', 1 <= g' -> At w' e (<[l := set_online s true]> cells) c g' known' -> Q (Ok tt) w') ->
  wp (resume env t l) Q w.
Proof.
  intros Hat Hl Hst Hwf Ha Hg Herr Hok. unfold resume.
  apply wp_bind. at_rule wp_load. destruct (s_Online s) eqn:Hon.
  - apply wp_ret. eapply Hok; [done|].
    assert (set_online s true = s) as -> by (destruct s; unfold set_online; simpl in *; congruence).
    by rewrite insert_id.
  - apply wp_bind. at_rule wp_Transition. intros stored w1 A1.
    apply wp_bind. at_rule wp_save; [by apply wf_online|]. intros w2 A2.
    apply wp_bind. at_rule wp_SessionsActive_Inc. intros w3 A3.
    at_rule wp_Publish; [by left|]. intros w4 A4. eapply Hok; [|exact A4]. lia.
Qed.

Definition logged_out (s : Session) : Session := set_online (set_authenticated s false) false.

Lemma wp_perform w e cells c g known action l s body Q :
  At w e cells c g known -> cells !! l = Some s -> s_Terminal s = t -> session_ok s ->
  (forall err w' known', benign err -> At w' e cells c g known' -> Q (Err err) w') ->
  (forall j w' known', (action = "CommandRequest" \/ action = "CommandResult" \/ action = "Event") ->
     At w' e cells c g known' -> Q (Ok j) w') ->
  (forall j w' known', action <> "CommandRequest" -> action <> "CommandResult" -> action <> "Event" ->
     At w' e (<[l := logged_out s]> cells) c (g - 1) known' -> Q (Ok j) w') ->
  wp (perform env t action l body) Q w.
Proof.
  intros Hat Hl Hst Hwf Herr Hok Hout. unfold perform.
  case_bool_decide as Hreq.
  { destruct (negb _); [by apply wp_fail; eapply Herr|]. apply wp_bind.
    apply (wp_call_neutral _ _ t w0 Hcfg Ht acked Hack okc _ snd _ e cells c g known); [done| |by intros; eapply Herr|].
    - intros ctx [ds evs] d Hop. apply ClaimISAPICommands_law in Hop as (? & ? & ? & _). by split_and!.
    - intros ctx [ds evs] w1 _ A1. apply wp_bind. at_rule wp_Publish_all.
      { intros ev Hev. apply elem_of_app. by left. }
      intros w2 A2. apply wp_ret. eauto 10. }
  case_bool_decide as Hres.
  { destruct (ParseCommandResultBatch body) as [results|err]; [|by apply wp_fail; eapply Herr].
    apply wp_bind, wp_try.
    apply (wp_call_neutral _ _ t w0 Hcfg Ht acked Hack okc _ fst _ e cells c g known); [done| | |].
    - intros ctx [evs pending] d Hop. apply CompleteISAPICommands_law in Hop as (? & ? & ?). by split_and!.
    - intros err w1 A1. apply wp_fail. by eapply Herr.
    - intros ctx [evs pending] w1 _ A1. apply wp_bind. at_rule wp_Publish_all.
      { intros ev Hev. apply elem_of_app. by left. }
      intros w2 A2. apply wp_ret. eauto 10. }
  case_bool_decide as Hev.
  { apply wp_bind. at_rule wp_events. intros [resp|err] w1 known1 Hb A1; [apply wp_ret|]; eauto 10. }
  destruct (negb _); [by apply wp_fail; eapply Herr|].
  apply wp_bind. at_rule wp_Transition; [by intros; eapply Herr|]. intros stored w1 A1.
  apply wp_bind. at_rule wp_load.
  apply wp_bind. at_rule wp_save; [by apply wf_logout|]. intros w2 A2.
  apply wp_bind. at_rule wp_SessionsActive_Dec. intros w3 A3.
  apply wp_bind. at_rule wp_Publish; [by left|]. intros w4 A4. apply wp_ret. eauto.
Qed.

(** The challenge is in memory and in the database when it is returned; a
    failure to store it puts the previous one back. *)
Lemma wp_rotate w e cells c g known action l s Q :
  At w e cells c g known -> cells !! l = Some s -> s_Terminal s = t -> session_ok s ->
  (forall err c' w', benign err -> (acked -> c' = c) -> At w' e cells c' g known -> Q (Err err) w') ->
  (forall next now w', action <> "Logout" -> drawn next -> 1000 <= now ->
     At w' e (<[l := set_challenge s next now]> cells)
       (Some (checkpointed (PersistentState (set_challenge s next now)))) g known -> Q (Ok next) w') ->
  (forall err next now c' w', benign err -> action = "Logout" -> drawn next -> 1000 <= now ->
     (acked -> c' = c) -> At w' e (<[l := set_challenge s next now]> cells) c' g known -> Q (Err err) w') ->
  (forall next now w', action = "Logout" -> drawn next -> 1000 <= now ->
     At w' None (<[l := set_challenge s next now]> cells) None g known -> Q (Ok next) w') ->
  wp (rotate env t action l) Q w.
Proof.
  intros Hat Hl Hst Hwf Herr Hok Hlerr Hlok. unfold rotate.
  apply wp_bind. at_rule wp_load.
  apply wp_bind. at_rule wp_IssueNextChallenge; [by intros; eapply Herr|]. intros next now w1 Hn Hnow A1.
  pose proof (wf_challenge s next now Hwf Hn Hnow) as Hwf'.
  case_bool_decide as Hact.
  - apply wp_bind. unfold removeSession. apply wp_bind. at_rule wp_Delete; [by intros; eapply Hlerr|].
    intros w2 A2. at_rule wp_Remove. intros w3 A3. apply wp_ret. eauto.
  - apply wp_bind, wp_try. eapply wp_persistSession; [exact A1|by rewrite lookup_insert_eq|done|done| |].
    + intros err c2 w2 Hc2 A2. apply wp_bind. eapply wp_load; [exact A2|by rewrite lookup_insert_eq|].
      apply wp_bind. eapply wp_save; [exact A2|by rewrite lookup_insert_eq|done| |].
      { apply wf_rollback; done. }
      intros w3 A3. apply wp_fail. eapply Herr; [done|exact Hc2|]. rewrite insert_insert_eq in A3.
      assert (set_challenge (set_challenge s next now) (s_NextChallenge s) (s_NextChallengeAt s) = s) as Heq
        by (by destruct s).
      by rewrite Heq, insert_id in A3.
    + intros w2 A2. apply wp_ret. eauto.
Qed.

(** How an authenticated action ends.  Accepted: the request answered the
    current challenge, and the new challenge it is answered with is the one in
    memory and in the checkpoint; after Logout neither exists any more.
    Rejected: the challenge is unchanged unless a Logout has already ended the
    session, and so is the checkpoint unless the reply of a commit was lost; a
    request without the proof changes nothing. *)
Definition authenticated_post (action : string) (request : Request) (e : option loc)
    (cells : gmap loc Session) (c : option PushSDKSession)
    (r : result error (protocolResponse * option EncryptionParameters)) (w' : World) : Prop :=
  exists e' cells' c' g' known', At w' e' cells' c' g' known' /\ settled e' cells' c' g' /\
  match r with
  | Ok (resp, _) => exists l s next now, e = Some l /\ cells !! l = Some s /\ s_Authenticated s = true /\
      req_MyCustomAuth request = expectedCustomAuth t (s_Salt s) (s_NextChallenge s) /\
      pr_Challenge resp = next /\ drawn next /\
      pr_session resp = Some l /\ is_Some (cells' !! l) /\
      if bool_decide (action = "Logout") then e' = None /\ c' = None
      else e' = e /\ cells' !! l = Some (set_challenge (set_online s true) next now) /\
           c' = Some (checkpointed (PersistentState (set_challenge s next now)))
  | Err err => benign err /\ e' = e /\ (acked -> c' = c) /\ (e = None -> c' = c) /\
      forall l s, e = Some l -> cells !! l = Some s -> exists s', cells' !! l = Some s' /\
        ((exists b, s' = set_online s b /\
            (s_Authenticated s = false \/
             req_MyCustomAuth request <> expectedCustomAuth t (s_Salt s) (s_NextChallenge s) -> s' = s /\ c' = c)) \/
         (action = "Logout" /\ s_Authenticated s' = false /\ s_Authenticated s = true /\
          req_MyCustomAuth request = expectedCustomAuth t (s_Salt s) (s_NextChallenge s)))
  end.

Lemma settled_entry (e : option loc) (cells : gmap loc Session) c g l s :
  e = Some l -> cells !! l = Some s ->
  (acked -> s_Authenticated s = true -> c = Some (checkpointed (PersistentState s))) ->
  (if s_Online s then 1 else 0) <= g -> settled e cells c g.
Proof. intros -> Hl Hc Hg. exists s. auto. Qed.

Lemma set_online_same s : set_online s (s_Online s) = s.
Proof. by destruct s. Qed.

Lemma requireContentType_error request expected err :
  requireContentType request expected = Err err -> escapes err = false.
Proof. unfold requireContentType. repeat case_match; try done; by intros [= <-]. Qed.

Lemma payloadForSession_error request s action body required err :
  payloadForSession request t s action body required = Err err -> escapes err = false.
Proof.
  unfold payloadForSession. destruct (IsEncrypted _).
  - destruct (encryptionFromRequest _ _); [|by intros [= <-]].
    destruct (required && _); [by intros [= <-]|]. destruct (zlen body =? 0); [done|].
    destruct (requireContentType _ _) eqn:Hct; simpl; [|intros [= <-]; by eapply requireContentType_error].
    case_match; [done|by intros [= <-]].
  - destruct (negb _); [by intros [= <-]|]. destruct required; [|done].
    destruct (requireContentType _ _) eqn:Hct; simpl; [|intros [= <-]; by eapply requireContentType_error].
    destruct (zlen body =? 0); [by intros [= <-]|done].
Qed.

Lemma wp_authenticated w e cells c g known action request body :
  At w e cells c g known -> holds e cells -> settled e cells c g ->
  action = "CommandRequest" \/ action = "CommandResult" \/ action = "Event" \/ action = "Logout" ->
  wp (authenticated env t action request body) (authenticated_post action request e cells c) w.
Proof.
  intros Hat Hh Hs Hact. unfold authenticated.
  assert (forall err w' known', benign err -> At w' e cells c g known' ->
            authenticated_post action request e cells c (Err err) w') as Hsame.
  { intros err w' known' Hb A. exists e, cells, c, g, known'. split_and!; try done.
    intros l s _ Hl. exists s. split; [done|]. left. exists (s_Online s). by rewrite set_online_same. }
  apply wp_bind. eapply wp_Get; [exact Hat|].
  destruct e as [l|]; [|by apply wp_fail; eapply Hsame].
  destruct (Hh l eq_refl) as (s & Hl & Hst & Hwf).
  destruct Hs as (s0 & Hs0 & Hdur & Hgs). assert (s0 = s) as -> by congruence.
  apply wp_bind. at_rule wp_load.
  destruct (s_Authenticated s) eqn:Hau; cbn [negb]; [|by apply wp_fail; eapply Hsame].
  rewrite constantTimeEqual_eq. case_bool_decide as Hcred; cbn [negb]; [|by apply wp_fail; eapply Hsame].
  apply wp_bind. at_rule wp_resume; [by intros; eapply Hsame|]. intros w1 g1 known1 Hg1 A1.
  set (s1 := set_online s true) in *.
  assert (session_ok s1) as Hwf1 by (by apply wf_online).
  assert (<[l := s1]> cells !! l = Some s1) as Hl1 by (by rewrite lookup_insert_eq).
  assert (forall err c1 w' known', benign err -> (acked -> c1 = c) ->
            At w' (Some l) (<[l := s1]> cells) c1 g1 known' ->
            authenticated_post action request (Some l) cells c (Err err) w') as Hres.
  { intros err c1 w' known' Hb Hc1 A. do 5 eexists. split; [exact A|]. split; [|split_and!; [done|done|done|done|]].
    - eapply settled_entry; [done|exact Hl1|intros Hk _; rewrite (Hc1 Hk); by apply Hdur|done].
    - intros l' s' [= <-] Hl'. assert (s' = s) as -> by congruence. exists s1. split; [done|]. left.
      exists true. split; [done|]. intros [?|?]; congruence. }
  apply wp_bind, wp_lift. destruct (payloadForSession _ _ _ _ _ _) as [[plain params]|err] eqn:Hpay.
  2: { eapply Hres; [|done|done]. intros _. by eapply payloadForSession_error. }
  apply wp_bind. eapply wp_perform; [exact A1|exact Hl1|done|done| | |].
  - intros err w2 known2 Hb A2. by eapply Hres.
  - intros j w2 known2 Hnl A2. assert (action <> "Logout") as Hnot by (intros ->; naive_solver).
    apply wp_bind. eapply wp_rotate; [exact A2|exact Hl1|done|done| | |by intros; contradiction|by intros; contradiction].
    + intros err c3 w3 Hb Hc3 A3. by eapply Hres.
    + intros next now w3 _ Hn Hnow A3. apply wp_ret. do 5 eexists. split; [exact A3|].
      rewrite bool_decide_eq_false_2 by done. rewrite insert_insert_eq. split.
      { eapply settled_entry; [done|by rewrite lookup_insert_eq|done|done]. }
      exists l, s, next, now. rewrite lookup_insert_eq. split_and!; try done; eauto.
  - intros j w2 known2 Hn1 Hn2 Hn3 A2. assert (action = "Logout") as -> by naive_solver.
    rewrite insert_insert_eq in A2. apply wp_bind.
    assert (forall cells' (known' : list activity.Event) g' c1 w' err s',
              benign err -> (acked -> c1 = c) -> At w' (Some l) cells' c1 g' known' -> cells' !! l = Some s' -> s_Authenticated s' = false ->
              s_Online s' = false -> 0 <= g' ->
              authenticated_post "Logout" request (Some l) cells c (Err err) w') as Hended.
    { intros cells' known' g' c1 w' err s' Hb Hc1 A Hl' Ha' Ho' Hg'. do 5 eexists. split; [exact A|]. split.
      - eapply settled_entry; [done|done|by rewrite Ha'|by rewrite Ho'].
      - split_and!; [done|done|done|done|]. intros l' s'' [= <-] Hl''. assert (s'' = s) as -> by congruence.
        exists s'. auto 10. }
    eapply wp_rotate; [exact A2|by rewrite lookup_insert_eq|done|by apply wf_logout| | | |].
    + intros err c3 w3 Hb Hc3 A3. eapply Hended; [exact Hb|exact Hc3|exact A3|by rewrite lookup_insert_eq|done|done|lia].
    + intros; contradiction.
    + intros err next now c3 w3 Hb _ _ _ Hc3 A3. rewrite insert_insert_eq in A3.
      eapply Hended; [exact Hb|exact Hc3|exact A3|by rewrite lookup_insert_eq|done|done|lia].
    + intros next now w3 _ Hn Hnow A3. apply wp_ret. do 5 eexists. split; [exact A3|]. split; [simpl; lia|].
      exists l, s, next, now. rewrite lookup_insert_eq. split_and!; try done; eauto.
Qed.

(** ** Login *)

(** The credentials of a Login request: the decoded body names the configured
    user and carries the password derived for this session's challenge. *)
Definition login_credentials (request : Request) (s : Session) (body : bytes) : Prop :=
  exists plain params payload,
    payloadForSession request t s "Login" body true = Ok (plain, params) /\
    decodeExactJSON (decode_struct true loginRequest_fields) (mkLoginRequest "" "") plain = Some payload /\
    lr_Username payload = Username t /\
    expectedLoginPassword t (s_Salt s) (s_LoginChallenge s) (s_Iterations s) = Some (lr_LoginPassword payload).

(** How Login ends.  Accepted: the waiting session is authenticated and online
    under the challenge the response carries, which is also checkpointed.
    Rejected: the session object is as it was, or the waiting login has expired
    and is gone from memory and database. *)
Definition login_post (request : Request) (body : bytes) (e : option loc) (cells : gmap loc Session)
    (r : result error (protocolResponse * option EncryptionParameters)) (w' : World) : Prop :=
  exists e' cells' c' g' known', At w' e' cells' c' g' known' /\ settled e' cells' c' g' /\
  match r with
  | Ok (resp, _) => exists l s next now, e = Some l /\ e' = Some l /\ cells !! l = Some s /\
      s_Authenticated s = false /\ login_credentials request s body /\
      pr_Challenge resp = next /\ drawn next /\ pr_session resp = Some l /\
      cells' !! l = Some (set_online (set_authenticated (set_challenge s next now) true) true) /\
      c' = Some (checkpointed (PersistentState (set_authenticated (set_challenge s next now) true)))
  | Err err => benign err /\
      ((e' = None /\ c' = None /\ exists l s, e = Some l /\ cells !! l = Some s /\ s_Authenticated s = false) \/
       (e' = e /\ forall l, e = Some l -> cells' !! l = cells !! l))
  end.

Lemma rollback_same s next now b :
  s_Authenticated s = false ->
  set_authenticated (set_challenge (set_authenticated (set_challenge s next now) b)
    (s_NextChallenge s) (s_NextChallengeAt s)) false = s.
Proof. destruct s. unfold set_authenticated, set_challenge. simpl. intros ->. done. Qed.

Lemma wp_rollback w e cells c g known l s0 s Q :
  At w e cells c g known -> cells !! l = Some s0 -> s_Terminal s = t -> session_ok s ->
  set_authenticated (set_challenge s0 (s_NextChallenge s) (s_NextChallengeAt s)) false = s ->
  (forall w', At w' e (<[l := s]> cells) c g known -> Q (Ok tt) w') ->
  wp (rollback_challenge l (s_NextChallenge s) (s_NextChallengeAt s) false) Q w.
Proof.
  intros Hat Hl Hst Hwf Heq HQ. unfold rollback_challenge. apply wp_bind. at_rule wp_load.
  rewrite Heq. at_rule wp_save.
Qed.

(** The part of Login after the credentials have been accepted. *)
Lemma wp_login_accept w l cells c g known s request body params Q :
  At w (Some l) cells c g known -> cells !! l = Some s -> s_Terminal s = t -> session_ok s ->
  s_Authenticated s = false -> s_Online s = false -> 0 <= g -> login_credentials request s body ->
  Q = login_post request body (Some l) cells ->
  wp (next ← IssueNextChallenge env l;
      s' ← load l;
      save l (set_authenticated s' true);;
      r ← try_ (persistSession env l);
      match r with
      | Err err =>
          rollback_challenge l (s_NextChallenge s) (s_NextChallengeAt s) false;;
          fail err
      | Ok _ =>
      r ← try_ (call env (TransitionTerminalState (SerialNumber t) "online" None
            (activity.event activity.KindPushSDKLogin (SerialNumber t) "terminal authenticated"
               (<["payloadMode" := activity.VString (s_PayloadMode s)]>
                  (<["securityVersion" := activity.VInt (SecurityVersion t)]> ∅)))));
      match r with
      | Err err =>
          rollback_challenge l (s_NextChallenge s) (s_NextChallengeAt s) false;;
          try_ (persistSession env l);;
          fail err
      | Ok storedActivity =>
          s' ← load l;
          save l (set_online s' true);;
          SessionsActive_Inc;;
          Publish storedActivity;;
          mret (mkProtocolResponse (loginResponse t) next (Some l), params)
      end
      end) Q w.
Proof.
  intros Hat Hl Hst Hwf Hau Hon Hg Hcred ->.
  assert (forall err w' c' known' cells', benign err -> At w' (Some l) cells' c' g known' ->
            cells' !! l = Some s -> login_post request body (Some l) cells (Err err) w') as Hsame.
  { intros err w' c' known' cells' Hb A Hl'. exists (Some l), cells', c', g, known'.
    split; [exact A|]. split; [eapply settled_entry; [done|exact Hl'|by rewrite Hau|by rewrite Hon]|].
    split; [done|]. right. split; [done|]. intros l' [= <-]. congruence. }
  apply wp_bind. at_rule wp_IssueNextChallenge; [by intros err w1 Hb A1; eapply Hsame|].
  intros next now w1 Hn Hnow A1.
  apply wp_bind. eapply wp_load; [exact A1|by rewrite lookup_insert_eq|].
  pose proof (wf_challenge s next now Hwf Hn Hnow) as Hwf1.
  set (s1 := set_authenticated (set_challenge s next now) true).
  assert (session_ok s1) as Hwf2 by (by apply wf_authenticate; [|eapply drawn_class|]).
  apply wp_bind. eapply wp_save; [exact A1|by rewrite lookup_insert_eq|done|done|].
  rewrite insert_insert_eq. intros w2 A2. pose proof (rollback_same s next now true Hau) as Hroll.
  apply wp_bind, wp_try. eapply wp_persistSession; [exact A2|by rewrite lookup_insert_eq|done|done| |].
  { intros err c3 w3 _ A3. apply wp_bind. eapply wp_rollback; [exact A3|by rewrite lookup_insert_eq|done|done|done|].
    rewrite insert_insert_eq. intros w4 A4. apply wp_fail. eapply Hsame; [done|exact A4|by rewrite lookup_insert_eq]. }
  intros w3 A3. apply wp_bind, wp_try. at_rule wp_Transition.
  - intros err w4 A4. apply wp_bind.
    eapply wp_rollback; [exact A4|by rewrite lookup_insert_eq|done|done|done|].
    rewrite insert_insert_eq. intros w5 A5. apply wp_bind, wp_try.
    eapply wp_persistSession; [exact A5|by rewrite lookup_insert_eq|done|done| |].
    + intros err' c6 w6 _ A6. apply wp_fail. eapply Hsame; [done|exact A6|by rewrite lookup_insert_eq].
    + intros w6 A6. apply wp_fail. eapply Hsame; [done|exact A6|by rewrite lookup_insert_eq].
  - intros stored w4 A4.
    apply wp_bind. eapply wp_load; [exact A4|by rewrite lookup_insert_eq|].
    apply wp_bind. eapply wp_save; [exact A4|by rewrite lookup_insert_eq|done|by apply wf_online|].
    rewrite insert_insert_eq. intros w5 A5.
    apply wp_bind. at_rule wp_SessionsActive_Inc. intros w6 A6.
    apply wp_bind. at_rule wp_Publish; [by left|]. intros w7 A7. apply wp_ret.
    do 5 eexists. split; [exact A7|]. split.
    { eapply settled_entry; [done|by rewrite lookup_insert_eq|done|simpl; lia]. }
    exists l, s, next, now. rewrite lookup_insert_eq. by split_and!.
Qed.

Lemma expectedLoginPassword_valid salt challenge iterations :
  expectedLoginPassword t salt challenge iterations <> None.
Proof.
  unfold expectedLoginPassword, loginPasswordHash.
  destruct (vt_digest t (valid_config_terminal cfg t Hcfg Ht)) as [-> | ->]; done.
Qed.

Lemma wp_login w e cells c g known request body :
  At w e cells c g known -> holds e cells -> settled e cells c g ->
  wp (login env t request body) (login_post request body e cells) w.
Proof.
  intros Hat Hh Hs. unfold login.
  assert (forall err w' known', benign err -> At w' e cells c g known' ->
            login_post request body e cells (Err err) w') as Hsame.
  { intros err w' known' Hb A. exists e, cells, c, g, known'. split_and!; try done. by right. }
  pose proof (settled_acked e cells c) as Hack'.
  apply wp_bind. eapply wp_Get; [exact Hat|].
  destruct e as [l|]; [|by apply wp_fail; eapply Hsame].
  destruct (Hh l eq_refl) as (s & Hl & Hst & Hwf).
  destruct Hs as (s0 & Hs0 & Hdur & Hgs). assert (s0 = s) as -> by congruence.
  apply wp_bind. at_rule wp_load.
  destruct (s_Authenticated s) eqn:Hau; [by apply wp_fail; eapply Hsame|].
  assert (s_Online s = false) as Hon.
  { destruct (s_Online s) eqn:Ho; [|done]. apply (sw_online _ _ (proj1 Hwf)) in Ho. congruence. }
  rewrite Hon in Hgs.
  apply wp_bind. at_rule wp_time_Now. intros now w1 Hnow A1.
  destruct (LoginChallengeExpired s now).
  { apply wp_bind. at_rule wp_expireLoginChallenge.
    { intros err c2 w2 Hc2 A2. exists (Some l), cells, c2, g, known. split_and!; [done| |done|by right].
      eapply Hack'; [|done]. exists s. by rewrite Hau, Hon. }
    intros w2 known2 A2. apply wp_fail. exists None, cells, None, g, known2. split_and!; [done|done|done|].
    left. eauto 10. }
  apply wp_bind, wp_lift. destruct (payloadForSession _ _ _ _ _ _) as [[plain params]|err] eqn:Hpay.
  2: { eapply Hsame; [|done]. intros _. by eapply payloadForSession_error. }
  destruct (decodeExactJSON _ _ _) as [payload|] eqn:Hdec; [|by apply wp_fail; eapply Hsame].
  apply wp_bind. case_bool_decide as Huser; cbn [negb].
  2: { apply wp_ret, wp_fail. by eapply Hsame. }
  destruct (expectedLoginPassword _ _ _ _) as [expected|] eqn:Hexp; [|by apply expectedLoginPassword_valid in Hexp].
  apply wp_ret. rewrite constantTimeEqual_eq. case_bool_decide as Hpw; cbn [negb]; [|by apply wp_fail; eapply Hsame].
  eapply wp_login_accept; [exact A1|done..| |done].
  exists plain, params, payload. rewrite Hpw. by split_and!.
Qed.

(** ** Maintenance of one terminal *)
(** Idling only clears the liveness flag; only a session whose login is not
    complete is removed. *)
Definition maintain_post (e : option loc) (cells : gmap loc Session) (c : option PushSDKSession)
    (r : result error (list error)) (w' : World) : Prop :=
  (exists errs, r = Ok errs) /\
  exists e' cells' c' g' known', At w' e' cells' c' g' known' /\ settled e' cells' c' g' /\
    ((e' = e /\ forall l s, e = Some l -> cells !! l = Some s -> (s_Authenticated s = true -> c' = c) /\
        exists b, cells' !! l = Some (set_online s b) /\ (b = true -> s_Online s = true)) \/
     (e' = None /\ c' = None /\ exists l s, e = Some l /\ cells !! l = Some s /\ s_Authenticated s = false)).

Lemma wp_maintain_terminal w e cells c g known now :
  At w e cells c g known -> holds e cells -> settled e cells c g ->
  wp (maintain_terminal env now t) (maintain_post e cells c) w.
Proof.
  intros Hat Hh Hs. unfold maintain_terminal.
  assert (forall errs w' known', At w' e cells c g known' -> maintain_post e cells c (Ok errs) w') as Hsame.
  { intros errs w' known' A. split; [by eauto|]. exists e, cells, c, g, known'. split_and!; try done.
    left. split_and!; try done. intros l s _ Hl. split; [done|]. exists (s_Online s). by rewrite set_online_same. }
  apply wp_bind. eapply wp_Get; [exact Hat|]. destruct e as [l|]; [|by apply wp_ret; eapply Hsame].
  destruct (Hh l eq_refl) as (s & Hl & Hst & Hwf).
  destruct Hs as (s0 & Hs0 & Hdur & Hgs). assert (s0 = s) as -> by congruence.
  apply wp_bind. at_rule wp_load.
  destruct (s_Authenticated s && s_Online s && IsIdle s now) eqn:Hidle.
  - apply andb_true_iff in Hidle as [[Hau Hon]%andb_true_iff _]. rewrite Hon in Hgs.
    apply wp_bind, wp_try. at_rule wp_markSessionIdle; [by intros err w1 A1; apply wp_ret; eapply Hsame|].
    intros w1 known1 A1. apply wp_ret. split; [by eauto|]. do 5 eexists. split; [exact A1|]. split.
    { eapply settled_entry; [done|by rewrite lookup_insert_eq|exact Hdur|simpl; lia]. }
    left. split_and!; try done. intros l' s' [= <-] Hl'. assert (s' = s) as -> by congruence. split; [done|].
    exists false. by rewrite lookup_insert_eq.
  - destruct (negb (s_Authenticated s) && LoginChallengeExpired s now) eqn:Hexp; [|by apply wp_ret; eapply Hsame].
    apply andb_true_iff in Hexp as [Hau%negb_true_iff _].
    apply wp_bind, wp_try. at_rule wp_expireLoginChallenge.
    { intros err c1 w1 Hc1 A1. apply wp_ret. split; [by eauto|]. exists (Some l), cells, c1, g, known.
      split; [done|]. split; [exists s; by rewrite Hau|]. left. split; [done|]. intros l' s' [= <-] Hl'.
      assert (s' = s) as -> by congruence. split; [congruence|]. exists (s_Online s). by rewrite set_online_same. }
    intros w1 known1 A1. apply wp_ret. split; [by eauto|]. exists None, cells, None, g, known1.
    split; [done|]. split; [by simpl; destruct (s_Online s); lia|]. right. eauto 10.
Qed.
End handlers.
