(* ===== verification/ServiceSpec.v ===== *)
(** The service as a whole: requests, maintenance ticks, restarts and the
    changes other parts of the process make to the database, as a transition
    system, with its invariant. *)

From Stdlib Require Import ZArith Lia Ascii String.
From stdpp Require Import base gmap strings list option fin_sets relations.
From S2P Require Import Prelude GoText GoJSON GoHTTP GoCrypto Config Crypto StoreTypes Wire World Session.
From S2P Require Import Service ServiceInv ServiceProofs.

Local Open Scope string_scope.
Local Open Scope Z_scope.

Section transitions.
Context `{CryptoLaws} `{ServiceStoreLaws} (env : Env) (cfg : Config).

(** ** The transition system *)
Inductive step : World -> World -> Prop :=
| step_request req w r w' : ServeHTTP env cfg req w = (r, w') -> step w w'
| step_tick busy w r w' : maintenance_tick env cfg busy w = (r, w') -> step w w'
| step_restart w i j k w' :
    RestoreSessions env cfg (NewService (w_db w) i j k) = (Ok tt, w') -> step w w'
| step_failed_start w i j k err w' :
    (* the process exits; what it did to the database stays *)
    RestoreSessions env cfg (NewService (w_db w) i j k) = (Err err, w') ->
    step w (NewService (w_db w') i j k)
| step_exit w i j k : step w (NewService (w_db w) i j k)       (* the process ends *)
| step_beside w w' :
    (* the administration API and the delivery workers *)
    calm w w' -> step w w'.

Definition initial (w : World) : Prop :=
  exists d i j k, w = NewService d i j k /\ forall s c, checkpoints d !! s = Some c -> checkpoint_wf s c.

Definition reachable (w : World) : Prop := exists w0, initial w0 /\ rtc step w0 w.
End transitions.

(** ** The handlers of one terminal *)
Section terminal.
Context `{CryptoLaws} `{ServiceStoreLaws} (env : Env) (cfg : Config).
Context (Hcfg : valid_config cfg) (Hclock : forall n, 1000 <= env_now env n).
(** Whether every reply arrived, and what holds of the challenges of a terminal (ServiceInv.v). *)
Context (acked : Prop) (Hack : acked -> replies_arrive env).
Context (okc : string -> Prop) (Hempty : okc "").

Local Abbreviation inv := (inv cfg acked).
Local Abbreviation At := (At cfg acked okc).
Local Abbreviation settled := (settled acked).
Local Abbreviation challenges_ok := (challenges_ok okc).

(** The challenges drawn from here on have the property. *)
Definition draws_ok (w : World) : Prop := forall next, drawn env w next -> okc next.

Lemma draws_ok_later w w' : (w_reads w <= w_reads w')%nat -> draws_ok w -> draws_ok w'.
Proof. intros Hle Hd next (n & Hn & E). apply Hd. exists n. split; [lia|done]. Qed.

(** A handler of one terminal leaves the challenges of the others. *)
Lemma challenges_ok_frame t t' w w' :
  inv w -> t ∈ Terminals cfg -> t' ∈ Terminals cfg -> t' <> t -> frame t w w' ->
  challenges_ok t' w -> challenges_ok t' w'.
Proof.
  intros Hinv Ht Ht' Hne [Fe Fh Fc] [Hm Hs].
  assert (PushSDKSerial t' <> PushSDKSerial t) by (intros Heq; apply Hne; by eapply terminal_push_inj).
  assert (SerialNumber t' <> SerialNumber t) by (intros Heq; apply Hne; by eapply terminal_serial_inj).
  split; [|intros c; rewrite Fc by done; apply Hs].
  intros l s. rewrite Fe by done. intros Hl Hh.
  destruct (inv_entries _ _ _ Hinv _ l Hl) as (s1 & Hs1 & Hk & _).
  pose proof (sw_terminal _ _ (bi_heap _ _ (inv_base _ _ _ Hinv) l s1 Hs1)) as Hin.
  assert (s_Terminal s1 = t') as Hst by (by eapply terminal_push_inj).
  rewrite (Fh l s1 Hs1) in Hh by congruence. injection Hh as <-. eauto.
Qed.

(** ** Requests *)
Lemma inv_enter t w :
  inv w -> challenges_ok t w -> t ∈ Terminals cfg ->
  exists e cells c g, At t w w e cells c g [] /\ holds cfg t okc e cells /\ settled e cells c g /\
    e = w_entries w !! PushSDKSerial t /\ c = checkpoints (w_db w) !! SerialNumber t /\
    (forall l, e = Some l -> cells = match w_heap w !! l with Some s => {[l := s]} | None => ∅ end).
Proof.
  intros Hinv Hch Ht. destruct (inv_At cfg acked okc t w Hinv Hch Ht Hcfg) as (e & cells & c & g & Hat & He & Hcase).
  exists e, cells, c, g. pose proof (at_checkpoint Hat) as Hc.
  pose proof (at_challenges Hat) as Hcells.
  split; [done|]. destruct e as [l|].
  - destruct Hcase as (s & -> & Hwf & Hst & Hl & Hd & Hg). split_and!; try done.
    + intros p [= <-]. exists s. rewrite lookup_singleton_eq. split_and!; [done..|].
      split; [done|]. apply (Hcells l). by rewrite lookup_singleton_eq.
    + exists s. by rewrite lookup_singleton_eq.
    + intros l' [= <-]. by rewrite Hl.
  - destruct Hcase as [-> Hg]. split_and!; try done.
Qed.

Definition handled (t : Terminal) (w : World)
    (r : result error (protocolResponse * option EncryptionParameters)) (w' : World) : Prop :=
  inv w' /\ frame t w w' /\ challenges_ok t w' /\ (w_reads w <= w_reads w')%nat /\
  match r with
  | Ok (resp, params) => params <> None -> exists l s, pr_session resp = Some l /\ w_heap w' !! l = Some s
  | Err err => benign env err
  end.

Lemma handled_same t w r :
  inv w -> challenges_ok t w -> (forall err, r = Err err -> benign env err) -> (forall x, r <> Ok x) -> handled t w r w.
Proof.
  intros Hinv Hch Hb Hn. split_and!; [done|apply frame_refl|done|done|]. destruct r as [x|err]; [by destruct (Hn x)|auto].
Qed.

Lemma wp_dispatch t action request w :
  inv w -> draws_ok w -> challenges_ok t w -> t ∈ Terminals cfg ->
  wp (dispatch env t action request) (handled t w) w.
Proof.
  intros Hinv Hdraws Hch Ht. unfold dispatch.
  destruct (inv_enter t w Hinv Hch Ht) as (e & cells & c & g & Hat & Hh & Hs & _).
  assert (forall err, escapes err = false -> handled t w (Err err) w) as Hsame.
  { intros err He. apply handled_same; [done|done| |done]. by intros ? [= <-] _. }
  case_bool_decide as Hauth.
  { apply wp_bind.
    assert (wp (authInfo env t (req_Body request)) (fun r w' => handled t w (r' ← r; Ok (r', None)) w') w) as Hgo.
    { eapply wp_mono; [by eapply wp_authInfo|]. intros r w' (e' & cells' & c' & g' & known' & A & S' & _ & Hr).
      split_and!; [by eapply At_inv|by apply (at_frame A)|by eapply At_challenges|by apply (at_reads A)|].
      destruct r; simpl; [done|]. by destruct Hr. }
    destruct (negb _); [by apply Hsame|].
    assert (wp (lift (requireContentType request "application/json"))
              (fun r w' => match r with
                           | Ok _ => wp (result ← authInfo env t (req_Body request); mret (result, None)) (handled t w) w'
                           | Err err => handled t w (Err err) w'
                           end) w) as Hct.
    { apply wp_lift. destruct (requireContentType _ _) eqn:Hreq.
      - apply wp_bind. eapply wp_mono; [exact Hgo|]. intros [resp|err] w'; simpl; [apply wp_ret|done].
      - apply Hsame. by eapply requireContentType_error. }
    destruct (0 <? _); [exact Hct|]. destruct (negb _); [exact Hct|].
    apply wp_ret, wp_bind. eapply wp_mono; [exact Hgo|]. intros [resp|err] w'; simpl; [apply wp_ret|done]. }
  case_bool_decide as Hlogin.
  { eapply wp_mono; [by eapply wp_login|]. intros r w' (e' & cells' & c' & g' & known' & A & S' & Hr).
    split_and!; [by eapply At_inv|by apply (at_frame A)|by eapply At_challenges|by apply (at_reads A)|].
    destruct r as [[resp params]|err]; [|by destruct Hr]. intros _.
    destruct Hr as (l & s & next & now & _ & _ & _ & _ & _ & _ & _ & Hsess & Hl & _). exists l.
    apply (at_cells A) in Hl as [Hl _]. eauto. }
  destruct (_ || _) eqn:Hact; [|by apply wp_fail, Hsame].
  rewrite !orb_true_iff, !bool_decide_eq_true in Hact.
  eapply wp_mono; [eapply wp_authenticated; try done; naive_solver|].
  intros r w' (e' & cells' & c' & g' & known' & A & S' & Hr).
  split_and!; [by eapply At_inv|by apply (at_frame A)|by eapply At_challenges|by apply (at_reads A)|].
  destruct r as [[resp params]|err]; [|by destruct Hr]. intros _.
  destruct Hr as (l & s & next & now & _ & _ & _ & _ & _ & _ & Hsess & [s' Hl] & _). exists l, s'.
  apply (at_cells A) in Hl as [Hl _]. done.
Qed.

(** ** Maintenance of one terminal *)

(** Every authenticated session is kept, with its checkpoint; at most it goes offline. *)
Definition kept (w w' : World) : Prop :=
  forall k l s, w_entries w !! k = Some l -> w_heap w !! l = Some s -> s_Authenticated s = true ->
    w_entries w' !! k = Some l /\
    checkpoints (w_db w') !! SerialNumber (s_Terminal s) = checkpoints (w_db w) !! SerialNumber (s_Terminal s) /\
    exists b, w_heap w' !! l = Some (set_online s b) /\ (b = true -> s_Online s = true).

Lemma wp_maintain t now w :
  inv w -> draws_ok w -> challenges_ok t w -> t ∈ Terminals cfg ->
  wp (maintain_terminal env now t) (fun r w' => (exists errs, r = Ok errs) /\ inv w' /\ kept w w' /\
    frame t w w' /\ challenges_ok t w' /\ (w_reads w <= w_reads w')%nat) w.
Proof.
  intros Hinv Hdraws Hch Ht.
  destruct (inv_enter t w Hinv Hch Ht) as (e & cells & c & g & Hat & Hh & Hs & He & Hc & Hcells).
  eapply wp_mono; [by eapply wp_maintain_terminal|].
  intros r w' (Hr & e' & cells' & c' & g' & known' & A & S' & Hcase).
  split_and!; [done|by eapply At_inv| |by apply (at_frame A)|by eapply At_challenges|by apply (at_reads A)].
  destruct (at_frame A) as [Fe Fh Fc].
  intros k l s Hk Hl Ha. destruct (inv_entries _ _ _ Hinv k l Hk) as (s1 & Hs1 & Hks & _).
  assert (s1 = s) as -> by congruence.
  pose proof (sw_terminal _ _ (bi_heap _ _ (inv_base _ _ _ Hinv) l s Hl)) as Hst.
  destruct (decide (k = PushSDKSerial t)) as [->|Hne].
  - assert (s_Terminal s = t) as Heq by (by eapply terminal_push_inj). rewrite Hk in He.
    assert (cells !! l = Some s) as Hcl.
    { rewrite (Hcells l) by done. by rewrite Hl, lookup_singleton_eq. }
    destruct Hcase as [(-> & Hcell)|(_ & _ & l2 & s2 & Hl2 & Hs2 & Hna)]; [|congruence].
    destruct (Hcell l s He Hcl) as (Hcc & b & Hb & Hon). rewrite Heq. split_and!.
    + rewrite <- He. by apply (at_entry A).
    + rewrite <- Hc, <- (Hcc Ha). by apply (at_checkpoint A).
    + exists b. split; [|done]. by apply (at_cells A).
  - assert (s_Terminal s <> t) as Hnt by (intros <-; congruence).
    assert (SerialNumber (s_Terminal s) <> SerialNumber t).
    { intros Hser. apply Hnt. by eapply terminal_serial_inj. }
    split_and!; [by rewrite Fe|by apply Fc|]. exists (s_Online s). rewrite set_online_same. auto.
Qed.
End terminal.

(** ** The whole service *)
Section system.
Context `{CryptoLaws} `{ServiceStoreLaws} (env : Env) (cfg : Config).
Context (Hcfg : valid_config cfg) (Hclock : forall n, 1000 <= env_now env n).
Context (acked : Prop) (Hack : acked -> replies_arrive env).

Local Abbreviation inv := (inv cfg acked).

(** A terminal may be watched: what holds of its challenges is preserved by the requests of
    every terminal. *)
Context (okc : string -> Prop) (Hempty : okc "") (o : option Terminal).
Context (Ho : forall t0, o = Some t0 -> t0 ∈ Terminals cfg).

Definition watched (w : World) : Prop := forall t0, o = Some t0 -> challenges_ok okc t0 w.

Lemma watched_calm w w' : calm w w' -> watched w -> watched w'.
Proof. intros Hc Hw t0 Ht0. eapply challenges_ok_calm; [done|auto]. Qed.

Lemma watched_frame t w w' :
  inv w -> t ∈ Terminals cfg -> o <> Some t -> frame t w w' -> watched w -> watched w'.
Proof.
  intros Hi Ht Hne Hf Hw t0 Ht0. apply (challenges_ok_frame cfg Hcfg acked okc t t0 w); auto. congruence.
Qed.

Local Abbreviation draws_ok := (draws_ok env okc).

Lemma draws_any w : ServiceSpec.draws_ok env (fun _ => True) w.
Proof. done. Qed.

Lemma wp_dispatch_watched t action request w :
  inv w -> draws_ok w -> watched w -> t ∈ Terminals cfg ->
  wp (dispatch env t action request)
    (fun r w' => handled env cfg acked (fun _ => True) t w r w' /\ watched w') w.
Proof.
  intros Hinv Hd Hw Ht. destruct (decide (o = Some t)) as [Hot|Hne].
  - eapply wp_mono; [by apply (wp_dispatch env cfg Hcfg Hclock acked Hack okc Hempty); [| |apply Hw|]|].
    intros r w' (Hi & Hf & Hc & Hr & Hm). split; [|by intros t0 Ht0; assert (t0 = t) as -> by congruence].
    by split_and!; [..|apply challenges_ok_any| |].
  - eapply wp_mono; [by apply (wp_dispatch env cfg Hcfg Hclock acked Hack (fun _ => True) I); [|apply draws_any|apply challenges_ok_any|]|].
    intros r w' Hh. split; [done|]. destruct Hh as (_ & Hf & _).
    by apply (watched_frame t w).
Qed.

Lemma wp_maintain_watched t now w :
  inv w -> draws_ok w -> watched w -> t ∈ Terminals cfg ->
  wp (maintain_terminal env now t) (fun r w' => (exists errs, r = Ok errs) /\ inv w' /\ kept w w' /\
    watched w' /\ (w_reads w <= w_reads w')%nat) w.
Proof.
  intros Hinv Hd Hw Ht. destruct (decide (o = Some t)) as [Hot|Hne].
  - eapply wp_mono; [by apply (wp_maintain env cfg Hcfg acked Hack okc); [| |apply Hw|]|].
    intros r w' (? & ? & ? & _ & ? & ?). split_and!; try done. intros t0 Ht0. by assert (t0 = t) as -> by congruence.
  - eapply wp_mono; [by apply (wp_maintain env cfg Hcfg acked Hack (fun _ => True)); [|apply draws_any|apply challenges_ok_any|]|].
    intros r w' (? & ? & ? & Hf & _ & ?). split_and!; try done.
    by apply (watched_frame t w).
Qed.

(** *** What leaves the sessions alone *)
Lemma inv_calm w w' : inv w -> calm w w' -> inv w'.
Proof.
  intros [[Hh Hf Hc Hp] He Hg] [E1 E2 E3 E4 E5 [E6 _] (more & E7 & E8)].
  assert (Hon : forall k, online_at w' k = online_at w k) by (intros k; unfold online_at; by rewrite E1, E2).
  split; [split| |].
  - by rewrite E2.
  - by rewrite E2, E3.
  - by rewrite E5.
  - rewrite E7. apply Forall_app. split; [|done]. rewrite list.Forall_forall in *. auto.
  - intros k l. unfold entry_inv, durable. rewrite E1, E2, E5. apply He.
  - rewrite (online_ext w w' Hon). unfold SessionsActive. by rewrite E4.
Qed.

Lemma frame_calm t w w1 w2 : frame t w w1 -> calm w1 w2 -> frame t w w2.
Proof. intros [Fe Fh Fc] [E1 E2 _ _ E5 _ _]. split; by rewrite ?E1, ?E2, ?E5. Qed.

Lemma inv_advance w i j k : inv w -> inv (advance i j k w).
Proof. intros Hw. eapply inv_calm; [done|apply calm_advance, calm_refl]. Qed.

Lemma kept_refl w : kept w w.
Proof.
  intros k l s Hk Hl _. split_and!; try done. exists (s_Online s). by rewrite set_online_same.
Qed.

Lemma kept_calm w w1 w2 : kept w w1 -> calm w1 w2 -> kept w w2.
Proof. intros K [E1 E2 _ _ E5 _ _] k l s. rewrite E1, E2, E5. apply K. Qed.

Lemma kept_trans w1 w2 w3 : kept w1 w2 -> kept w2 w3 -> kept w1 w3.
Proof.
  intros K1 K2 k l s Hk Hl Ha. destruct (K1 k l s Hk Hl Ha) as (Hk2 & Hc2 & b2 & Hl2 & Hb2).
  destruct (K2 k l _ Hk2 Hl2 Ha) as (Hk3 & Hc3 & b3 & Hl3 & Hb3). split_and!; [done| |].
  - by rewrite <- Hc2.
  - exists b3. split; [done|]. intros Hb. auto.
Qed.

(** Counting a request changes nothing the invariant speaks of. *)
Lemma wp_Requests_Inc w action outcome (Q : result error unit -> World -> Prop) :
  inv w ->
  (forall w', inv w' -> w_db w' = w_db w -> w_entries w' = w_entries w -> w_heap w' = w_heap w ->
     w_reads w' = w_reads w -> Q (Ok tt) w') ->
  wp (Requests_Inc action outcome) Q w.
Proof.
  intros [[] He Hg] HQ. apply wp_modify, HQ; try done.
Qed.

Lemma frame_same t w w1 w2 :
  frame t w w1 -> w_db w2 = w_db w1 -> w_entries w2 = w_entries w1 -> w_heap w2 = w_heap w1 -> frame t w w2.
Proof. intros [] Hd He Hh. split; by rewrite ?Hd, ?He, ?Hh. Qed.

Lemma watched_same w w' :
  watched w -> w_db w' = w_db w -> w_entries w' = w_entries w -> w_heap w' = w_heap w -> watched w'.
Proof. intros Hw Hd He Hh t0 Ht0. unfold challenges_ok. rewrite Hd, He, Hh. by apply Hw. Qed.

Lemma wp_recordGatewayActivity_calm ev w :
  wp (recordGatewayActivity env ev) (fun _ w' => calm w w' /\ w_reads w' = w_reads w) w.
Proof.
  unfold recordGatewayActivity. apply wp_bind. apply (wp_call_calm _ _ (fun s => [s])); [|done|].
  - intros ctx s d Hop. apply RecordGatewayActivity_law in Hop as (? & ? & ?). by rewrite Forall_singleton.
  - intros s w1 Hc Hr Hs. rewrite Forall_singleton in Hs. apply wp_modify. split; [by apply calm_publish|done].
Qed.

Lemma respond_total t result params w :
  (params <> None -> exists l s, pr_session result = Some l /\ w_heap w !! l = Some s) ->
  exists resp, respond t result params w = (Ok resp, w) /\ resp_MyCustomChallenge resp = pr_Challenge result.
Proof.
  intros Hs. unfold respond. destruct params as [ps|]; [|by eexists].
  destruct (Hs ltac:(done)) as (l & s & Hl & Hh). rewrite Hl.
  unfold mbind, M_bind, load. rewrite Hh. simpl. unfold encrypt. rewrite deriveKey_ok. simpl. by eexists.
Qed.

(** How a request ends. *)
Definition served (request : Request) (w : World) (r : result error Response) (w' : World) : Prop :=
  inv w' /\ watched w' /\ (w_reads w <= w_reads w')%nat /\ (productive (env_rand env) -> exists resp, r = Ok resp) /\
  (forall serial action, parseRoute (req_Path request) = Some (serial, action) ->
     forall t, TerminalByPushSDKSerial cfg serial = Some t -> frame t w w').

Lemma wp_ServeHTTP request w :
  inv w -> draws_ok w -> watched w -> wp (ServeHTTP env cfg request) (served request w) w.
Proof.
  intros Hinv Hdraws Hwat. unfold ServeHTTP.
  assert (forall resp : Response, served request w (Ok resp) w) as Hearly.
  { intros resp. split_and!; [done|done|done|by eauto|]. intros. apply frame_refl. }
  destruct (parseRoute (req_Path request)) as [[serial action]|] eqn:Hroute; [|by apply wp_ret, Hearly].
  destruct (negb _); [by apply wp_ret, Hearly|].
  destruct (TerminalByPushSDKSerial cfg serial) as [t|] eqn:Ht; [|by apply wp_ret, Hearly].
  destruct (readAll _); [|by apply wp_ret, Hearly].
  destruct (TerminalByPushSDKSerial_Some _ _ _ Ht) as [Hin _].
  assert (forall r w', inv w' -> watched w' -> (w_reads w <= w_reads w')%nat -> (productive (env_rand env) -> exists resp, r = Ok resp) ->
            frame t w w' -> served request w r w') as Hdone.
  { intros r w' Hi Hwt Hrd Hp Hf. split_and!; [done|done|done|done|]. rewrite Hroute. intros ? ? [= <- <-] t' Ht'.
    by assert (t' = t) as -> by congruence. }
  apply wp_bind, wp_try. eapply wp_mono; [by apply wp_dispatch_watched|].
  intros [[result params]|err] w1 ((Hinv1 & Hfr & _ & Hreads & Hout) & Hw1).
  - apply wp_bind. apply wp_Requests_Inc; [done|]. intros w2 Hinv2 Hd He Hh Hr.
    rewrite <- Hh in Hout. destruct (respond_total t result params w2 Hout) as (resp & Hresp & _).
    apply wp_bind, wp_try. unfold wp at 1. rewrite Hresp. apply wp_ret.
    apply Hdone; [done|by eapply watched_same|simpl; lia|by eauto|by eapply frame_same].
  - destruct (escapes err) eqn:Hesc.
    { apply Hdone; [done|done|done| |done]. intros Hp. specialize (Hout Hp). congruence. }
    destruct (protocolError err) as [[status code] message].
    apply wp_bind. apply wp_Requests_Inc; [done|]. intros w2 Hinv2 Hd He Hh Hr.
    apply wp_bind, wp_try. eapply wp_mono; [apply wp_recordGatewayActivity_calm|].
    intros r w3 [Hc3 Hr3]. apply wp_ret. apply Hdone; [by eapply inv_calm| |simpl; lia|by eauto|].
    + eapply watched_calm; [done|]. by eapply watched_same.
    + eapply frame_calm; [|done]. by eapply frame_same.
Qed.

(** ** Maintenance *)
Lemma wp_MaintainSessions busy now w :
  inv w -> draws_ok w -> watched w ->
  wp (MaintainSessions env cfg busy now) (fun _ w' => inv w' /\ kept w w' /\ watched w') w.
Proof.
  intros Hinv Hd Hw. unfold MaintainSessions. apply wp_bind.
  apply wp_forM with (I := fun _ w' => inv w' /\ kept w w' /\ watched w' /\ (w_reads w <= w_reads w')%nat);
    [split_and!; try done; apply kept_refl| |].
  - intros failures t w1 Hin (Hinv1 & Hk1 & Hw1 & Hr1). destruct (busy _); [by apply wp_ret|].
    apply wp_bind. eapply wp_mono.
    { apply wp_maintain_watched; [done| |done|done]. by eapply draws_ok_later. }
    intros r w2 ([errs ->] & Hinv2 & Hk2 & Hw2 & Hr2). apply wp_ret. split_and!; [done|by eapply kept_trans|done|lia].
  - intros failures w1 (? & ? & ? & _). destruct failures; [by apply wp_ret|by apply wp_fail].
Qed.

Lemma wp_ExpireISAPICommandDeadlines w :
  wp (ExpireISAPICommandDeadlines env) (fun _ w' => calm w w') w.
Proof.
  unfold ExpireISAPICommandDeadlines. apply wp_bind. apply (wp_call_calm _ _ (fun l => l)); [|done|].
  - intros ctx evs d Hop. by apply ExpireOverdueISAPICommands_law in Hop.
  - intros evs w1 Hc _ Hevs. by apply (wp_publish_calm evs w w1).
Qed.

Lemma wp_maintenance_tick busy w :
  inv w -> draws_ok w -> watched w ->
  wp (maintenance_tick env cfg busy) (fun _ w' => inv w' /\ kept w w' /\ watched w') w.
Proof.
  intros Hinv Hd Hw. unfold maintenance_tick. apply wp_bind. unfold wp at 1, time_Now; simpl.
  set (w1 := advance _ _ _ w). assert (calm w w1) as C1 by apply calm_advance, calm_refl.
  apply wp_bind, wp_try. eapply wp_mono.
  { apply (wp_MaintainSessions busy _ w1); [by apply inv_advance|exact Hd|eapply watched_calm; [exact C1|done]]. }
  intros r w2 (Hinv2 & K2 & Hw2).
  apply wp_bind, wp_try. eapply wp_mono; [apply wp_ExpireISAPICommandDeadlines|]. intros r2 w3 Hc.
  apply wp_ret. split_and!; [by eapply inv_calm| |eapply watched_calm; [exact Hc|done]].
  eapply kept_calm; [|exact Hc]. eapply kept_trans; [|exact K2]. eapply kept_calm; [apply kept_refl|exact C1].
Qed.

End system.

(** ** Restart *)
Section restart.
Context `{CryptoLaws} `{ServiceStoreLaws} (env : Env) (cfg : Config).
Context (Hcfg : valid_config cfg).
Context (acked : Prop).

Local Abbreviation inv := (inv cfg acked).

(** A change of the database that leaves the checkpoints. *)
Lemma inv_database w d i j k :
  inv w -> checkpoints d = checkpoints (w_db w) -> grows (w_db w) d -> inv (set_db d (advance i j k w)).
Proof. intros Hw Hck Hg. eapply inv_calm; [done|by apply calm_database]. Qed.

Lemma SessionFingerprint_class t : lowerHex64 (SessionFingerprint t) = true.
Proof. apply (hex_EncodeToString_class _ 32). by rewrite length_sha256. Qed.

Lemma restored_wf t stored k :
  t ∈ Terminals cfg -> validStoredSession stored = true -> checkpoint_wf k stored ->
  session_wf cfg (restored t stored).
Proof.
  unfold validStoredSession. intros Ht Hv [_ _ Hat].
  destruct (negb (lowerHex64 _) || _ || _ || _ || _) eqn:Hbad; [done|].
  rewrite !orb_false_iff, !negb_false_iff, andb_false_iff, !negb_false_iff, !bool_decide_eq_true, Z.eqb_eq in Hbad.
  destruct Hbad as [[[[_ Hmode] Hsalt] Hlogin] Hit].
  split; simpl; try done.
  - destruct (ps_NextChallengeAt stored) as [a|]; [right; auto|by left].
  - intros Ha. rewrite Ha in Hv. simpl in Hv. apply andb_true_iff in Hv as [Hn [a Hsome]%bool_decide_eq_true].
    split; [done|]. rewrite Hsome. simpl. auto.
Qed.

Lemma restored_persistent t stored :
  ps_ConfigurationFingerprint stored = SessionFingerprint t -> checkpoint_wf (SerialNumber t) stored ->
  PersistentState (restored t stored) = stored.
Proof.
  intros Hfp [Hser _ Hat]. destruct stored as [ser fp mode salt lc nc it ca at_ au]; simpl in *. subst.
  unfold PersistentState; simpl. f_equal. destruct at_ as [a|]; simpl; [|done].
  specialize (Hat a eq_refl). destruct (a =? 0) eqn:Hz; [lia|done].
Qed.

(** The checkpoint of an authenticated session passes every check of [Restore]. *)
Lemma valid_checkpoint s :
  session_wf cfg s -> s_Authenticated s = true ->
  validStoredSession (checkpointed (PersistentState s)) = true.
Proof.
  intros [? Hsalt Hlogin Hit Hmode _ Hau _] Ha. destruct (Hau Ha) as [Hn Hat].
  unfold validStoredSession. simpl. rewrite SessionFingerprint_class, Hsalt, Hlogin, Hit, Ha, Hn. simpl.
  assert (negb (bool_decide (s_PayloadMode s = PlaintextPayload)) &&
          negb (bool_decide (s_PayloadMode s = EncryptedPayload)) = false) as ->.
  { destruct Hmode as [-> | ->]; done. }
  destruct (s_NextChallengeAt s =? 0) eqn:Hz; [lia|]. done.
Qed.

Definition offline (w : World) : Prop := forall l s, w_heap w !! l = Some s -> s_Online s = false.

Lemma offline_online w : offline w -> online w = ∅.
Proof.
  intros Hoff. apply set_eq. intros k. rewrite elem_of_online. unfold online_at. split; [|set_solver].
  destruct (w_entries w !! k) as [l|]; simpl; [|done]. destruct (w_heap w !! l) eqn:Hl; [|done].
  by rewrite (Hoff l _ Hl).
Qed.

(** What one iteration of [Restore] changes. *)
Record restore_frame (stored : PushSDKSession) (w w' : World) : Prop := {
  rf_checkpoints : forall k, k <> ps_TerminalSerialNumber stored ->
    checkpoints (w_db w') !! k = checkpoints (w_db w) !! k;
  rf_heap : w_heap w ⊆ w_heap w';
  rf_entries : forall k, (forall t, TerminalBySerialNumber cfg (ps_TerminalSerialNumber stored) = Some t ->
    k <> PushSDKSerial t) -> w_entries w' !! k = w_entries w !! k
}.

(** The session of a checkpoint is in memory, offline. *)
Definition resumed (w : World) (t : Terminal) (stored : PushSDKSession) : Prop :=
  exists l, w_entries w !! PushSDKSerial t = Some l /\ w_heap w !! l = Some (restored t stored).

Definition resumable (t : Terminal) (stored : PushSDKSession) : Prop :=
  TerminalBySerialNumber cfg (ps_TerminalSerialNumber stored) = Some t /\
  ps_ConfigurationFingerprint stored = SessionFingerprint t /\
  validStoredSession stored = true /\ ps_Authenticated stored = true.

Lemma wp_restore_delete stored w (Q : result error unit -> World -> Prop) :
  inv w -> offline w ->
  (forall t, TerminalBySerialNumber cfg (ps_TerminalSerialNumber stored) = Some t ->
     w_entries w !! PushSDKSerial t = None) ->
  (forall r w', inv w' -> offline w' -> restore_frame stored w w' -> Q r w') ->
  wp (call env (DeletePushSDKSession (ps_TerminalSerialNumber stored))) Q w.
Proof.
  intros Hinv Hoff Hfree HQ. unfold wp, call.
  assert (Q (Err (EStore ErrDatabase)) (advance (w_clock w) (w_reads w) (S (w_calls w)) w) /\
          forall err, Q (Err err) (advance (w_clock w) (w_reads w) (S (w_calls w)) w)) as [Hdb Herr].
  { split; [|intros err]; (apply HQ; [by apply inv_advance|done|by split]). }
  destruct (env_fault env (w_calls w)); [exact Hdb|].
  destruct (DeletePushSDKSession _ _ _) as [[[] d]|err] eqn:Hop; [|apply Herr].
  apply DeletePushSDKSession_law in Hop as [Hck [Hgrow Harch]].
  assert (forall r, Q r (set_db d (advance (w_clock w) (w_reads w) (S (w_calls w)) w))) as Hgone;
    [|destruct (env_lost _ _); apply Hgone].
  intros r. apply HQ; [|done|].
  - destruct Hinv as [[Hh Hf Hc Hp] He Hg]. split; [split; simpl; try done| |done].
    + intros k c. rewrite Hck, lookup_delete_Some. intros [_ Hk]. auto.
    + rewrite list.Forall_forall in *. auto.
    + intros k l Hl. destruct (He k l Hl) as (s & Hs & Hks & Hd). exists s. split_and!; [done|done|].
      intros Hk Ha. simpl. rewrite Hck, lookup_delete_ne; [by apply Hd|]. intros Heq.
      assert (w_entries w !! PushSDKSerial (s_Terminal s) = None) as Hnone; [|simpl in *; congruence].
      apply Hfree. rewrite Heq. apply TerminalBySerialNumber_found; [done|]. by apply (Hh l s).
  - split; [|done|done]. intros k Hk. simpl. by rewrite Hck, lookup_delete_ne.
Qed.

Lemma wp_restore_one now stored w :
  inv w -> offline w -> checkpoints (w_db w) !! ps_TerminalSerialNumber stored = Some stored ->
  (forall t, TerminalBySerialNumber cfg (ps_TerminalSerialNumber stored) = Some t ->
     w_entries w !! PushSDKSerial t = None) ->
  wp (restore_one env cfg now stored) (fun r w' => inv w' /\ offline w' /\ restore_frame stored w w' /\
    (r = Ok tt -> forall t, resumable t stored -> resumed w' t stored)) w.
Proof.
  intros Hinv Hoff Hck Hfree. unfold restore_one.
  assert (forall Hno : (forall t, ~ resumable t stored),
    wp (call env (DeletePushSDKSession (ps_TerminalSerialNumber stored)))
      (fun r w' => inv w' /\ offline w' /\ restore_frame stored w w' /\
         (r = Ok tt -> forall t, resumable t stored -> resumed w' t stored)) w) as Hdel.
  { intros Hno. apply wp_restore_delete; try done. intros r w' Hi Ho Hf. split_and!; [done..|].
    intros _ t Hr. by destruct (Hno t). }
  destruct (TerminalBySerialNumber cfg _) as [t|] eqn:Ht; [|apply Hdel; by intros ? []; congruence].
  destruct (TerminalBySerialNumber_Some _ _ _ Ht) as [Hin Hser].
  case_bool_decide as Hfp; simpl; [|apply Hdel; intros t' (Ht' & ? & _); congruence].
  destruct (validStoredSession stored) eqn:Hvalid; simpl; [|apply Hdel; intros t' (_ & _ & ? & _); congruence].
  destruct (negb (ps_Authenticated stored) && _) eqn:Hexp.
  { apply andb_true_iff in Hexp as [Hna%negb_true_iff _].
    apply Hdel. intros t' (_ & _ & _ & ?). congruence. }
  pose proof (bi_checkpoints _ _ (inv_base _ _ _ Hinv) _ _ Hck) as Hcwf.
  assert (session_wf cfg (restored t stored)) as Hwf by (by eapply restored_wf).
  rewrite <- Hser in Hcwf.
  pose proof (restored_persistent t stored Hfp Hcwf) as Hps.
  unfold wp. simpl. destruct Hinv as [[Hh Hf Hc Hp] He Hg].
  pose proof (Hf (w_next w) (le_n _)) as Hnext.
  set (w' := set_entries _ _).
  assert (offline w') as Hoff'.
  { intros l s. simpl. intros [[<- <-]|[_ Hl]]%lookup_insert_Some; [done|by eapply Hoff]. }
  split_and!; [|done| |].
  - split; [split; simpl; try done| |].
    + intros l s [[<- <-]|[_ Hl]]%lookup_insert_Some; [done|by eauto].
    + intros l Hl. rewrite lookup_insert_None. split; [apply Hf; lia|lia].
    + intros k l. simpl. intros [[<- <-]|[Hne Hl]]%lookup_insert_Some.
      * exists (restored t stored). rewrite lookup_insert_eq. split_and!; [done|done|].
        intros _ _. simpl. rewrite Hser, Hck. by rewrite Hps, (cw_micros _ _ Hcwf).
      * destruct (He k l Hl) as (s & Hs & Hks & Hd). exists s. split_and!; [|done|done].
        rewrite lookup_insert_ne; [done|congruence].
    + rewrite (offline_online w' Hoff'), size_empty. rewrite (offline_online w Hoff), size_empty in Hg. done.
  - split; simpl; [done|by apply insert_subseteq|]. intros k Hk. rewrite lookup_insert_ne; [done|].
    apply not_eq_sym. by apply Hk.
  - intros _ t' (Ht' & _). assert (t' = t) as -> by congruence. exists (w_next w). simpl.
    by rewrite !lookup_insert_eq.
Qed.

Lemma wp_restore_loop now l w :
  inv w -> offline w -> NoDup (ps_TerminalSerialNumber <$> l) ->
  (forall stored, stored ∈ l -> checkpoints (w_db w) !! ps_TerminalSerialNumber stored = Some stored) ->
  (forall stored t, stored ∈ l -> TerminalBySerialNumber cfg (ps_TerminalSerialNumber stored) = Some t ->
     w_entries w !! PushSDKSerial t = None) ->
  wp (for_each (restore_one env cfg now) l) (fun r w' => inv w' /\ offline w' /\
    w_heap w ⊆ w_heap w' /\
    (forall k, (forall stored t, stored ∈ l ->
         TerminalBySerialNumber cfg (ps_TerminalSerialNumber stored) = Some t -> k <> PushSDKSerial t) ->
       w_entries w' !! k = w_entries w !! k) /\
    (r = Ok tt -> forall stored t, stored ∈ l -> resumable t stored -> resumed w' t stored)) w.
Proof.
  revert w. induction l as [|stored l IH]; intros w Hinv Hoff Hnd Hck Hfree; simpl.
  { apply wp_ret. split_and!; try done. intros _ ? ? Hin. by apply elem_of_nil in Hin. }
  apply list.NoDup_cons in Hnd as [Hnot Hnd].
  assert (forall x, x ∈ l -> ps_TerminalSerialNumber x <> ps_TerminalSerialNumber stored) as Hdiff.
  { intros x Hx Heq. apply Hnot. rewrite <- Heq. by apply list_elem_of_fmap_2. }
  apply wp_bind. eapply wp_mono.
  { apply wp_restore_one; [done|done|apply Hck; by left|]. intros t. apply Hfree. by left. }
  intros [[]|err] w1 (Hinv1 & Hoff1 & [Rc Rh Re] & Hres).
  2: { split_and!; [done|done|done| |done]. intros k Hk. apply Re. intros t. apply Hk. by left. }
  assert (forall x t t', x ∈ l -> TerminalBySerialNumber cfg (ps_TerminalSerialNumber x) = Some t ->
    TerminalBySerialNumber cfg (ps_TerminalSerialNumber stored) = Some t' ->
    PushSDKSerial t <> PushSDKSerial t') as Hpush.
  { intros x t t' Hx Ht Ht' Heq. apply (Hdiff x Hx).
    apply TerminalBySerialNumber_Some in Ht as [Hin <-], Ht' as [Hin' <-]. f_equal.
    by eapply terminal_push_inj. }
  eapply wp_mono; [apply IH; try done|].
  - intros x Hx. rewrite Rc by auto. apply Hck. by right.
  - intros x t Hx Ht. rewrite Re; [eapply Hfree; [by right|done]|]. intros t' Ht'. by eapply Hpush.
  - intros r w2 (Hinv2 & Hoff2 & Hh2 & He2 & Hres2). split_and!; [done|done|by etrans| |].
    + intros k Hk. rewrite He2; [apply Re|].
      * intros t. apply Hk. by left.
      * intros x t Hx. apply Hk. by right.
    + intros -> x t [->|Hx]%elem_of_cons Hr; [|by auto].
      destruct (Hres eq_refl t Hr) as (loc & Hl & Hs). exists loc. split; [|by eapply lookup_weaken].
      rewrite He2; [done|]. intros y t' Hy Ht' Heq. destruct Hr as [Ht _].
      by destruct (Hpush y t' t Hy Ht' Ht).
Qed.

Lemma inv_NewService d i j k :
  (forall s c, checkpoints d !! s = Some c -> checkpoint_wf s c) -> inv (NewService d i j k).
Proof.
  intros Hc. split; [split; simpl; try done| |].
  - intros key l Hl. simpl in Hl. by rewrite lookup_empty in Hl.
  - done.
Qed.

(** Starting a process on a database: the invariant, and every checkpoint that
    can be resumed is. *)
Lemma wp_RestoreSessions d i j k :
  (forall s c, checkpoints d !! s = Some c -> checkpoint_wf s c) ->
  wp (RestoreSessions env cfg) (fun r w' => inv w' /\ offline w' /\
    (r = Ok tt -> forall stored t, checkpoints d !! ps_TerminalSerialNumber stored = Some stored ->
       resumable t stored -> resumed w' t stored)) (NewService d i j k).
Proof.
  intros Hc. unfold RestoreSessions. apply wp_bind. unfold wp at 1, time_Now; simpl.
  pose proof (inv_advance cfg acked _ (S i) j k (inv_NewService d i j k Hc)) as Hinv.
  set (w1 := advance _ _ _ _) in *. assert (offline w1) as Hoff by (by intros l s).
  apply wp_bind. unfold Restore. apply wp_bind. unfold wp at 1, call.
  destruct (env_fault env (w_calls w1)); [by split_and!; [apply inv_advance| |]|].
  destruct (PushSDKSessions _ _) as [[l d']|err] eqn:Hop; [|by split_and!; [apply inv_advance| |]].
  apply PushSDKSessions_law in Hop as (-> & Hnd & Hl & _). cbn [fst snd].
  destruct (env_lost env _); [by split_and!; [apply inv_database| |]|]. cbn [fst snd].
  set (w2 := set_db _ _). assert (inv w2) as Hinv2 by (by apply inv_database).
  eapply wp_mono; [apply (wp_restore_loop _ l w2); try done|].
  - intros stored Hin. by apply Hl.
  - intros [[]|err] w3 (Hinv3 & Hoff3 & _ & _ & Hres); [|done]. apply wp_modify. split_and!; [|done|].
    + destruct Hinv3 as [[] He Hg]. split; [by split|done|].
      change (online (set_metrics _ w3)) with (online w3). by rewrite (offline_online w3 Hoff3), size_empty.
    + intros _ stored t Hck Hr. apply Hres; [done| |done]. by apply Hl.
Qed.


(** The challenges of a restored session are the ones of the checkpoints. *)
Definition reloaded (okc : string -> Prop) (t0 : Terminal) (w : World) : Prop :=
  (forall l s, w_heap w !! l = Some s -> s_Terminal s = t0 -> okc (s_NextChallenge s)) /\
  (forall c, checkpoints (w_db w) !! SerialNumber t0 = Some c -> okc (ps_NextChallenge c)).

Lemma wp_delete_reloaded okc t0 serial w :
  reloaded okc t0 w -> wp (call env (DeletePushSDKSession serial)) (fun _ => reloaded okc t0) w.
Proof.
  intros [Hh Hc]. unfold wp, call. destruct (env_fault env (w_calls w)); [done|].
  destruct (DeletePushSDKSession _ _ _) as [[[] d]|err] eqn:Hop; [|done].
  apply DeletePushSDKSession_law in Hop as [Hck _].
  assert (reloaded okc t0 (set_db d (advance (w_clock w) (w_reads w) (S (w_calls w)) w))) as Hgone;
    [|by destruct (env_lost _ _)].
  split; [done|]. simpl. intros c. rewrite Hck, lookup_delete_Some. intros [_ ?]. auto.
Qed.

Lemma wp_restore_reloaded okc t0 now stored w :
  (ps_TerminalSerialNumber stored = SerialNumber t0 -> okc (ps_NextChallenge stored)) ->
  reloaded okc t0 w -> wp (restore_one env cfg now stored) (fun _ => reloaded okc t0) w.
Proof.
  intros Hst Hw. unfold restore_one.
  destruct (TerminalBySerialNumber cfg _) as [t|] eqn:Ht; [|by apply wp_delete_reloaded].
  destruct (_ || _); [by apply wp_delete_reloaded|]. destruct (_ && _); [by apply wp_delete_reloaded|].
  apply TerminalBySerialNumber_Some in Ht as [_ Hser]. destruct Hw as [Hh Hc]. split; [|done].
  simpl. intros l s [[<- <-]|[_ Hl]]%lookup_insert_Some; [|by eauto]. simpl. intros ->. by apply Hst.
Qed.

Lemma wp_RestoreSessions_reloaded okc t0 d i j k :
  (forall c, checkpoints d !! SerialNumber t0 = Some c -> okc (ps_NextChallenge c)) ->
  wp (RestoreSessions env cfg) (fun _ => reloaded okc t0) (NewService d i j k).
Proof.
  intros Hc. unfold RestoreSessions. apply wp_bind. unfold wp at 1, time_Now; simpl.
  apply wp_bind. unfold Restore. apply wp_bind. unfold wp at 1, call.
  assert (forall i j k, reloaded okc t0 (advance i j k (NewService d i j k))) as Hnew by by split.
  destruct (env_fault env _); [by split|].
  destruct (PushSDKSessions _ _) as [[l d']|err] eqn:Hop; [|by split].
  apply PushSDKSessions_law in Hop as (-> & Hnd & Hl & _). simpl in Hl. cbn [fst snd].
  destruct (env_lost env _); [by split|]. cbn [fst snd].
  eapply wp_mono; [apply wp_for_each with (I := reloaded okc t0) (Q := fun _ => reloaded okc t0); [by split| |done]|].
  - intros stored w Hin Hw. apply Hl in Hin. eapply wp_mono; [apply wp_restore_reloaded; [|exact Hw]|].
    + intros Heq. rewrite Heq in Hin. by apply Hc.
    + by intros [[]|err] w'.
  - intros [[]|err] w' Hw'; [|done]. by apply wp_modify.
Qed.

Lemma reloaded_watched okc t0 w :
  t0 ∈ Terminals cfg -> inv w -> reloaded okc t0 w -> challenges_ok okc t0 w.
Proof.
  intros Ht0 Hinv [Hh Hc]. split; [|done]. intros l s Hl Hs. apply (Hh l s Hs).
  destruct (inv_entries _ _ _ Hinv _ l Hl) as (s1 & Hs1 & Hk & _). assert (s1 = s) as -> by congruence.
  eapply terminal_push_inj; eauto. by apply (bi_heap _ _ (inv_base _ _ _ Hinv) l).
Qed.
End restart.

(** ** The invariant holds in every reachable state *)
Section reachable_states.
Context `{CryptoLaws} `{ServiceStoreLaws} (env : Env) (cfg : Config).
Context (Hcfg : valid_config cfg) (Hclock : forall n, 1000 <= env_now env n).

Local Abbreviation inv := (inv cfg (replies_arrive env)).

(** A step keeps the invariant, and what holds of the challenges of a terminal when it also
    holds of the challenges that are still to be drawn. *)
Lemma step_watched okc o w w' :
  okc "" -> (forall t0, o = Some t0 -> t0 ∈ Terminals cfg) -> step env cfg w w' -> inv w -> draws_ok env okc w ->
  watched okc o w -> inv w' /\ watched okc o w'.
Proof.
  intros Hempty Ho Hstep Hinv Hd Hw. pose proof (bi_checkpoints _ _ (inv_base _ _ _ Hinv)) as Hck.
  assert (forall i j k r w2, RestoreSessions env cfg (NewService (w_db w) i j k) = (r, w2) ->
            inv w2 /\ forall t0, o = Some t0 -> reloaded okc t0 w2) as Hrestart.
  { intros i j k r w2 E. split.
    - apply (wp_elim _ _ _ _ _ (wp_RestoreSessions env cfg Hcfg _ (w_db w) i j k Hck) E).
    - intros t0 Ht0.
      exact (wp_elim _ _ _ _ _ (wp_RestoreSessions_reloaded env cfg okc t0 (w_db w) i j k (proj2 (Hw t0 Ht0))) E). }
  destruct Hstep as [req w r w' Hrun|busy w r w' Hrun|w i j k w' Hrun|w i j k err w' Hrun|w i j k|w w' Hcalm].
  - pose proof (wp_elim _ _ _ _ _ (wp_ServeHTTP env cfg Hcfg Hclock _ (fun x => x) okc Hempty o Ho req w Hinv Hd Hw) Hrun)
      as (? & ? & _). done.
  - pose proof (wp_elim _ _ _ _ _ (wp_maintenance_tick env cfg Hcfg _ (fun x => x) okc o Ho busy w Hinv Hd Hw) Hrun)
      as (? & _ & ?). done.
  - destruct (Hrestart _ _ _ _ _ Hrun) as [Hi Hr]. split; [done|]. intros t0 Ht0. eapply reloaded_watched; eauto.
  - destruct (Hrestart _ _ _ _ _ Hrun) as [Hi Hr]. split; [|by intros t0 Ht0; split; [|apply (Hr t0 Ht0)]].
    apply inv_NewService, (bi_checkpoints _ _ (inv_base _ _ _ Hi)).
  - split; [by apply inv_NewService|]. by intros t0 Ht0; split; [|apply (Hw t0 Ht0)].
  - split; [by eapply inv_calm|]. by eapply watched_calm.
Qed.

Lemma step_inv w w' : step env cfg w w' -> inv w -> inv w'.
Proof. intros Hs Hi. by eapply (step_watched (fun _ => True) None). Qed.

Lemma reachable_inv w : reachable env cfg w -> inv w.
Proof.
  intros (w0 & (d & i & j & k & -> & Hc) & Hsteps).
  assert (inv (NewService d i j k)) as Hinv by (by apply inv_NewService).
  revert Hinv. clear Hc. induction Hsteps as [|w1 w2 w3 Hs _ IH]; [done|].
  intros Hinv. apply IH. by eapply step_inv.
Qed.
End reachable_states.
