(* ===== verification/GatewayProofs.v ===== *)
(** The gateway as a whole: start-up, the mux with both halves behind it, and the
    delivery workers.  Everything it can do is a history of the protocol service with
    calm steps beside it, so that what Protocol.v proves holds for the gateway. *)

From Stdlib Require Import ZArith Lia Ascii String.
From stdpp Require Import base gmap strings list option relations.
From S2P Require Import Prelude GoText GoTime GoJSON GoHTTP GoURL GoNet GoCrypto AccessControl Config Crypto.
From S2P Require Import StoreTypes Wire Database StoreCore Deliveries Worker Attachments Archive CommandQueue.
From S2P Require Import SyncRuns Commands Admin StoreFrame AdminProofs ArchiveProofs World StoreInstance APIInput.
From S2P Require Import AdminAPI APIProofs Session Service Gateway ServiceInv ServiceProofs ServiceSpec.

Local Open Scope string_scope.
Local Open Scope Z_scope.

Section gateway_facts.
Context `{GoParsers} `{CryptoLaws} `{Bcrypt}.
Context (env : Env) (cfg : Config) (Upgrade : APIRequest -> bool).

(** ** Calls of a process that has just started *)

(** A change of the database that the sessions do not notice. *)
Definition unnoticed (d d' : DB) : Prop := checkpoints d' = checkpoints d /\ grows d d'.

Lemma unnoticed_refl d : unnoticed d d.
Proof. split; [done|apply grows_refl]. Qed.
Lemma unnoticed_trans d1 d2 d3 : unnoticed d1 d2 -> unnoticed d2 d3 -> unnoticed d1 d3.
Proof. intros [C1 G1] [C2 G2]. split; [congruence|by eapply grows_trans]. Qed.

Lemma call_new {A} (op : Tx store_error TxCtx DB A) acts d i j k r w' :
  quiet op acts -> call env op (NewService d i j k) = (r, w') ->
  exists d', w' = NewService d' i j (S k) /\ unnoticed d d' /\
             (forall a, r = Ok a -> op (env_ctx env k) d = Ok (a, d')).
Proof.
  intros Hq. unfold call. cbn [NewService w_calls w_db].
  destruct (env_fault env k); [intros [= <- <-]; exists d; split_and!; [done|apply unnoticed_refl|done]|].
  destruct (op (env_ctx env k) d) as [[a d']|e] eqn:E; intros [= <- <-].
  - exists d'. destruct (Hq _ _ _ _ E) as (Q1 & Q2 & _). split_and!; [done|done|].
    destruct (env_lost env k); [done|by intros ? [= ->]].
  - exists d. split_and!; [done|apply unnoticed_refl|done].
Qed.

Lemma quiet_seed terminals : quiet (SeedConfiguredTerminals terminals) (fun _ => []).
Proof.
  eapply (quiet_silent _ (fun _ => [])); unfold SeedConfiguredTerminals_tx; [frame_auto|].
  apply reports_frame. frame_auto.
Qed.

Lemma quiet_reconcile username password : quiet (ReconcileConfiguredAdministrator username password) (fun _ => []).
Proof.
  eapply (quiet_silent _ (fun _ => [])).
  - unfold ReconcileConfiguredAdministrator_tx, delete_admins, hash_password, insert_identity. frame_auto.
    all: by apply frame_fresh_id.
  - apply reports_frame. unfold ReconcileConfiguredAdministrator_tx, delete_admins, hash_password, insert_identity. frame_auto.
Qed.

Lemma quiet_purge : quiet PurgeExpiredSessions (fun _ => []).
Proof. eapply (quiet_silent _ (fun _ => [])); [frame_auto|]. apply reports_frame. frame_auto. Qed.

Lemma quiet_batch : quiet backfill_batch (fun _ => []).
Proof.
  eapply (quiet_silent _ (fun _ => [])); unfold insertAccessEventProjection; [frame_auto|].
  apply reports_frame. unfold insertAccessEventProjection. frame_auto.
Qed.

Lemma run_frame {T A} (f : DB -> T) (m : Txn A) c d a d' :
  StoreFrame.frame f m -> run m c d = Ok (a, d') -> f d' = f d.
Proof. intros Hf (s' & E & <-)%run_Ok. exact (Hf _ _ _ _ E). Qed.

(** A projection the loop does not touch. *)
Lemma backfill_frame {T} (f : DB -> T) fuel projected ctx lost d n err d' :
  (forall g d, f (on_projections g d) = f d) ->
  BackfillAccessEventProjections fuel projected ctx lost d = Some (n, err, d') -> f d' = f d.
Proof.
  intros Hf. revert projected d. induction fuel as [|fuel IH]; intros projected d; simpl; [done|].
  destruct (ctx fuel) as [c|]; cbn [from_option]; [|by intros [= <- <- <-]].
  destruct (backfill_batch c d) as [[m d1]|e] eqn:E; [|by intros [= <- <- <-]].
  assert (f d1 = f d) as <-.
  { unfold backfill_batch in E. apply (run_frame f) in E; [done|].
    unfold insertAccessEventProjection. frame_auto; by apply frame_set. }
  destruct (lost fuel); [by intros [= <- <- <-]|]. destruct (m =? 0); [by intros [= <- <- <-]|apply IH].
Qed.

Lemma backfill_unnoticed fuel projected ctx lost d n err d' :
  BackfillAccessEventProjections fuel projected ctx lost d = Some (n, err, d') -> unnoticed d d'.
Proof.
  intros E. pose proof (backfill_frame core _ _ _ _ _ _ _ _ (fun _ _ => eq_refl) E) as [= E1 E2].
  pose proof (backfill_frame db_activities _ _ _ _ _ _ _ _ (fun _ _ => eq_refl) E) as E3.
  split; [by apply checkpoints_sessions|]. apply grows_of; [|done]. exists []. by rewrite app_nil_r.
Qed.

(** The loop has enough fuel. *)
Lemma stale_count_size d : (stale_count d <= size (db_device_events d))%nat.
Proof. unfold stale_count, select. rewrite <- length_map_to_list. apply List.filter_length_le. Qed.

Lemma backfill_new d i j k r w' :
  backfill_projections env (NewService d i j k) = (r, w') ->
  exists d' k', w' = NewService d' i j k' /\ unnoticed d d' /\ admin_tables d' = admin_tables d /\ r <> Err EFuel.
Proof.
  unfold backfill_projections. cbn [NewService w_db w_calls].
  set (ctx := fun k0 : nat => if env_fault _ _ then _ else _). set (lost := fun k0 => env_lost _ _).
  destruct (backfill_terminates (S (S (size (db_device_events d)))) 0 ctx lost d) as [[[n err] d'] E].
  { pose proof (stale_count_size d). lia. }
  rewrite E. intros [= <- <-]. eexists d', _. split; [reflexivity|]. split_and!.
  - by eapply backfill_unnoticed.
  - by eapply (backfill_frame admin_tables); [|exact E].
  - by destruct err.
Qed.

Lemma wrapped_run {A} message (m : M error World A) w r w' :
  wrapped message m w = (r, w') ->
  exists r0, m w = (r0, w') /\ match r0 with Ok a => r = Ok a | Err e => r = Err (EWrap message e) end.
Proof.
  unfold wrapped, mbind, M_bind, try_. destruct (m w) as [[a|e] w1]; intros [= <- <-]; by eexists.
Qed.

(** ** Start-up *)

(** What a start does, in order, as far as it gets. *)
Lemma start_shape d i j k r w' :
  start env cfg (NewService d i j k) = (r, w') ->
  exists d1 k1, unnoticed d d1 /\
    ((w' = NewService d1 i j k1 /\ forall nets, r <> Ok nets) \/
     exists r5 w5, RestoreSessions env cfg (NewService d1 i j k1) = (r5, w5) /\
       match r5 with
       | Err _ => w' = w5 /\ forall nets, r <> Ok nets
       | Ok _ => exists r6, ExpireISAPICommandDeadlines env w5 = (r6, w') /\ forall nets, r = Ok nets -> r6 = Ok tt
       end).
Proof.
  unfold start. unfold mbind at 1, M_bind at 1.
  destruct (wrapped _ (backfill_projections env) _) as [r1 w1] eqn:E1.
  apply wrapped_run in E1 as (r01 & E1 & R1). apply backfill_new in E1 as (d1 & k1 & -> & U1 & _ & _).
  destruct r01 as [n|e]; subst r1; [|intros [= <- <-]; eauto 10].
  unfold mbind at 1, M_bind at 1.
  destruct (call env (SeedConfiguredTerminals _) _) as [r2 w2] eqn:E2.
  apply (call_new _ _ _ _ _ _ _ _ (quiet_seed _)) in E2 as (d2 & -> & U2 & _).
  pose proof (unnoticed_trans _ _ _ U1 U2) as U12. destruct r2; [|intros [= <- <-]; eauto 10].
  unfold mbind at 1, M_bind at 1.
  destruct (call env (ReconcileConfiguredAdministrator _ _) _) as [r3 w3] eqn:E3.
  apply (call_new _ _ _ _ _ _ _ _ (quiet_reconcile _ _)) in E3 as (d3 & -> & U3 & _).
  pose proof (unnoticed_trans _ _ _ U12 U3) as U13. destruct r3; [|intros [= <- <-]; eauto 10].
  unfold mbind at 1, M_bind at 1.
  destruct (call env PurgeExpiredSessions _) as [r4 w4] eqn:E4.
  apply (call_new _ _ _ _ _ _ _ _ quiet_purge) in E4 as (d4 & -> & U4 & _).
  pose proof (unnoticed_trans _ _ _ U13 U4) as U14. destruct r4; [|intros [= <- <-]; eauto 10].
  intros E. exists d4, (S (S (S k1))). split; [done|]. right.
  unfold mbind at 1, M_bind at 1 in E.
  destruct (wrapped _ (RestoreSessions _ _) _) as [r5 w5] eqn:E5.
  apply wrapped_run in E5 as (r05 & E5 & R5). exists r05, w5. split; [done|].
  destruct r05 as [[]|e]; subst r5; [|by injection E as <- <-].
  unfold mbind, M_bind in E. destruct (wrapped _ (ExpireISAPICommandDeadlines _) _) as [r6 w6] eqn:E6.
  apply wrapped_run in E6 as (r06 & E6 & R6). exists r06.
  destruct r06 as [[]|e]; subst r6; [|injection E as <- <-; by split]. by injection E as _ <-.
Qed.

Lemma calm_expire w r w' : ExpireISAPICommandDeadlines env w = (r, w') -> calm w w'.
Proof. exact (wp_elim _ (fun _ w' => calm w w') _ _ _ (wp_ExpireISAPICommandDeadlines env w)). Qed.

(** ** The gateway as a transition system *)
Inductive gateway_step : World -> World -> Prop :=
| g_request nets request w r w' : serve env cfg Upgrade nets request w = (r, w') -> gateway_step w w'
| g_tick busy w r w' : maintenance_tick env cfg busy w = (r, w') -> gateway_step w w'
| g_claim w r w' : call env ClaimEventDelivery w = (r, w') -> gateway_step w w'
| g_finish e status code failure next w r w' :
    call env (FinishEventDelivery e status code failure next) w = (r, w') -> gateway_step w w'
| g_claim_picture w r w' : call env ClaimAttachment w = (r, w') -> gateway_step w w'
| g_finish_picture e status code failure next w r w' :
    call env (FinishAttachment e status code failure next) w = (r, w') -> gateway_step w w'
| g_start w i j k nets w' :
    (* a new process on the database the last one left *)
    start env cfg (NewService (w_db w) i j k) = (Ok nets, w') -> gateway_step w w'
| g_failed_start w i j k err w' :
    start env cfg (NewService (w_db w) i j k) = (Err err, w') -> gateway_step w (NewService (w_db w') i j k).

Definition gateway_reachable (w : World) : Prop := exists w0, initial w0 /\ rtc gateway_step w0 w.

(** A request of the mux is a request of the service or a calm one. *)
Lemma serve_steps nets request w r w' :
  serve env cfg Upgrade nets request w = (r, w') -> step env cfg w w'.
Proof.
  unfold serve, securityHeaders, mbind, M_bind. intros E.
  assert (Hcase : exists r0, mux env cfg Upgrade nets request w = (r0, w')).
  { destruct (mux env cfg Upgrade nets request w) as [[a|e] w1]; injection E as _ <-; eauto. }
  clear E r. destruct Hcase as [r E]. unfold mux, route, Mux.findHandler in E.
  destruct (_ && _) in E; [injection E as _ <-; apply step_beside, calm_refl|].
  destruct (negb _) in E; [injection E as _ <-; apply step_beside, calm_refl|].
  destruct (Mux.match_ _ _ _) as [[c values]|] eqn:Em; [|injection E as _ <-; apply step_beside, calm_refl].
  apply Mux.match_sound in Em as (Hin & _ & _).
  unfold mux_table in Hin. apply list_elem_of_fmap in Hin as ([p h] & [= _ Eh] & Hin). cbn [snd] in Eh. subst h.
  apply elem_of_app in Hin as [Hin|Hin].
  - apply step_beside. pose proof (Register_calm env cfg nets Upgrade) as Hr. rewrite list.Forall_forall in Hr.
    specialize (Hr _ Hin request (Mux.PathValue (Mux.c_pattern c) values) w w (calm_refl w)).
    cbn [snd] in Hr. exact (wp_elim _ _ _ _ _ Hr E).
  - apply list_elem_of_singleton in Hin. injection Hin as _ Hh. rewrite Hh in E.
    unfold push, mbind, M_bind in E. destruct (ServeHTTP env cfg (api_http request) w) as [[a|e] w1] eqn:Es;
      injection E as _ <-; by eapply step_request.
Qed.

Lemma quiet_call_calm {A} (op : Tx store_error TxCtx DB A) acts w r w' :
  quiet op acts -> call env op w = (r, w') -> calm w w'.
Proof.
  intros Hq. unfold call. destruct (env_fault _ _); [intros [= <- <-]; by apply calm_advance, calm_refl|].
  destruct (op _ _) as [[a d]|e] eqn:E; intros [= <- <-]; [|by apply calm_advance, calm_refl].
  by apply (calm_call op acts _ _ _ w w _ _ _ Hq E (calm_refl w)).
Qed.

Lemma quiet_claim : quiet ClaimEventDelivery (fun _ => []).
Proof. eapply (quiet_silent _ (fun _ => [])); unfold ClaimEventDelivery_tx; [frame_auto|reports_auto]. Qed.
Lemma quiet_finish e status code failure next : quiet (FinishEventDelivery e status code failure next) (fun _ => []).
Proof. eapply (quiet_silent _ (fun _ => [])); unfold FinishEventDelivery_tx; [frame_auto|reports_auto]. Qed.
Lemma quiet_claim_picture : quiet ClaimAttachment (fun _ => []).
Proof.
  eapply (quiet_silent _ (fun _ => [])); unfold ClaimAttachment_tx, attachment_body, build_message, archived_payload;
    [frame_auto|apply reports_frame; frame_auto].
Qed.
Lemma quiet_finish_picture e status code failure next : quiet (FinishAttachment e status code failure next) (fun _ => []).
Proof. eapply (quiet_silent _ (fun _ => [])); unfold FinishAttachment_tx; [frame_auto|reports_auto]. Qed.

(** A start is a change of the database, a restart of the service and calm steps. *)
Lemma start_steps w i j k r w' :
  start env cfg (NewService (w_db w) i j k) = (r, w') ->
  match r with
  | Ok _ => rtc (step env cfg) w w'
  | Err _ => rtc (step env cfg) w (NewService (w_db w') i j k)
  end.
Proof.
  intros (d1 & k1 & [U1 U2] & Hcase)%start_shape.
  set (w1 := @set_db gateway_store d1 (advance (w_clock w) (w_reads w) (w_calls w) w)).
  assert (Hw1 : step env cfg w w1) by (apply step_beside; by apply calm_database).
  assert (Hexit : forall w2, rtc (step env cfg) w1 w2 -> rtc (step env cfg) w (NewService (w_db w2) i j k)).
  { intros w2 Hs. eapply rtc_l; [exact Hw1|]. eapply rtc_r; [exact Hs|]. apply step_exit. }
  destruct Hcase as [[-> Hno]|(r5 & w5 & E5 & Hcase)].
  { destruct r as [nets|e]; [by destruct (Hno nets)|]. by apply (Hexit w1). }
  destruct r5 as [[]|e5].
  - destruct Hcase as (r6 & E6 & _). apply calm_expire in E6 as Hcalm.
    assert (Hs : rtc (step env cfg) w1 w').
    { eapply rtc_l; [by apply (step_restart env cfg w1 i j k1 w5)|]. eapply rtc_once, step_beside. exact Hcalm. }
    destruct r as [nets|e]; [by eapply rtc_l|by apply Hexit].
  - destruct Hcase as [-> Hno]. destruct r as [nets|e]; [by destruct (Hno nets)|].
    trans w1; [by apply rtc_once|].
    eapply rtc_l; [by apply (step_failed_start env cfg w1 i j k1 e5 w5)|].
    apply rtc_once. apply (step_exit env cfg (NewService (w_db w5) i j k1)).
Qed.

Lemma gateway_step_steps w w' : gateway_step w w' -> rtc (step env cfg) w w'.
Proof.
  intros Hs. destruct Hs as [nets request w r w' E|busy w r w' E|w r w' E|e st code f next w r w' E|w r w' E
    |e st code f next w r w' E|w i j k nets w' E|w i j k err w' E].
  - apply rtc_once. by eapply serve_steps.
  - apply rtc_once. by eapply step_tick.
  - eapply rtc_once, step_beside, quiet_call_calm; [apply quiet_claim|exact E].
  - eapply rtc_once, step_beside, quiet_call_calm; [apply quiet_finish|exact E].
  - eapply rtc_once, step_beside, quiet_call_calm; [apply quiet_claim_picture|exact E].
  - eapply rtc_once, step_beside, quiet_call_calm; [apply quiet_finish_picture|exact E].
  - exact (start_steps w i j k (Ok nets) w' E).
  - exact (start_steps w i j k (Err err) w' E).
Qed.

(** C12: the whole gateway refines the protocol system.  Every state that any history of
    HTTP requests to the mux (administration and terminals), maintenance ticks, calls of
    the two delivery workers, successful and failed starts leads to is a reachable state
    of the protocol service: what is proved of those states (C1 to C11, C14, C15) holds
    while administrators and workers use the same process and database. *)
Theorem gateway_refines_protocol w : gateway_reachable w -> reachable env cfg w.
Proof.
  intros (w0 & Hi & Hs). exists w0. split; [done|]. clear Hi.
  induction Hs as [|w1 w2 w3 H12 H23 IH]; [done|].
  etrans; [by apply gateway_step_steps|done].
Qed.

(** ** What a start establishes *)
Lemma wrapped_Ok {A} message (m : M error World A) w a w' : wrapped message m w = (Ok a, w') -> m w = (Ok a, w').
Proof. intros ([b|e] & E & R)%wrapped_run; [by injection R as ->|done]. Qed.

(** The transactions of a start that succeeded. *)
Lemma start_Ok d i j k nets w' :
  start env cfg (NewService d i j k) = (Ok nets, w') ->
  exists d1 c2 d2 c3 d3 c4 d4 k4 w5,
    admin_tables d1 = admin_tables d /\ unnoticed d d4 /\
    SeedConfiguredTerminals (Terminals cfg) c2 d1 = Ok (tt, d2) /\
    ReconcileConfiguredAdministrator (AdminUsername cfg) (AdminPassword cfg) c3 d2 = Ok (tt, d3) /\
    PurgeExpiredSessions c4 d3 = Ok (tt, d4) /\
    RestoreSessions env cfg (NewService d4 i j k4) = (Ok tt, w5) /\
    ExpireISAPICommandDeadlines env w5 = (Ok tt, w') /\ New cfg = Ok nets.
Proof.
  intros (n & w1 & E1%wrapped_Ok & E)%bind_Ok. apply backfill_new in E1 as (d1 & k1 & -> & U1 & A1 & _).
  apply bind_Ok in E as ([] & w2 & E2 & E). apply (call_new _ _ _ _ _ _ _ _ (quiet_seed _)) in E2 as (d2 & -> & U2 & R2).
  apply bind_Ok in E as ([] & w3 & E3 & E). apply (call_new _ _ _ _ _ _ _ _ (quiet_reconcile _ _)) in E3 as (d3 & -> & U3 & R3).
  apply bind_Ok in E as ([] & w4 & E4 & E). apply (call_new _ _ _ _ _ _ _ _ quiet_purge) in E4 as (d4 & -> & U4 & R4).
  apply bind_Ok in E as ([] & w5 & E5%wrapped_Ok & E). apply bind_Ok in E as ([] & w6 & E6%wrapped_Ok & E).
  eexists d1, _, d2, _, d3, _, d4, _, w5. split; [done|]. split.
  { eapply unnoticed_trans; [exact U1|]. eapply unnoticed_trans; [exact U2|]. by eapply unnoticed_trans. }
  split_and!; [by apply R2|by apply R3|by apply R4|exact E5| |].
  all: destruct (New cfg) as [nets'|message]; [|done]; by injection E as <- <-.
Qed.

(** What restoring sessions and expiring commands leave alone. *)
Definition settings (d : DB) := (db_admin_users d, db_admin_sessions d, db_terminals d).

Lemma wp_call_settings {A} (op : Tx store_error TxCtx DB A) w (Q : result error A -> World -> Prop) :
  (forall c d a d', op c d = Ok (a, d') -> settings d' = settings d) ->
  (forall r w', settings (w_db w') = settings (w_db w) -> Q r w') -> wp (call env op) Q w.
Proof.
  intros Hop HQ. unfold wp, call. destruct (env_fault _ _); [by apply HQ|].
  destruct (op _ _) as [[a d]|e] eqn:E; [|by apply HQ]. apply HQ. by eapply Hop.
Qed.

Lemma expire_settings w r w' :
  ExpireISAPICommandDeadlines env w = (r, w') -> settings (w_db w') = settings (w_db w).
Proof.
  intros E. eapply (wp_elim (ExpireISAPICommandDeadlines env) (fun _ w' => settings (w_db w') = settings (w_db w)));
    [|exact E]. unfold ExpireISAPICommandDeadlines. apply wp_bind. apply wp_call_settings.
  - intros c d a d'. apply run_frame. by apply frame_expireOverdue.
  - intros [evs|err] w1 K1; [|done].
    apply wp_for_each with (I := fun w2 : @World gateway_store => settings (w_db w2) = settings (w_db w)); [done| |done].
    intros e w2 _ K2. by apply wp_modify.
Qed.

Lemma restore_settings w r w' :
  RestoreSessions env cfg w = (r, w') -> settings (w_db w') = settings (w_db w).
Proof.
  intros E. eapply (wp_elim (RestoreSessions env cfg) (fun _ w' => settings (w_db w') = settings (w_db w)));
    [|exact E]. unfold RestoreSessions, Restore.
  assert (Hdelete : forall serial w2, settings (w_db w2) = settings (w_db w) ->
    wp (call env (World.DeletePushSDKSession serial)) (fun _ w' => settings (w_db w') = settings (w_db w)) w2).
  { intros serial w2 K2. apply wp_call_settings; [|intros r2 w3 K3; congruence].
    intros c d a d'. apply run_frame. unfold DeletePushSDKSession. frame_auto. }
  apply wp_bind. unfold wp at 1, time_Now. cbn [fst snd]. apply wp_bind, wp_bind, wp_call_settings.
  - intros c d a d'. apply run_frame. frame_auto.
  - intros [l|err] w1 K1; [|done].
    apply wp_for_each with (I := fun w2 : @World gateway_store => settings (w_db w2) = settings (w_db w)); [done| |by intros; apply wp_modify].
    intros s w2 _ K2. eapply wp_mono with (P := fun _ (w3 : @World gateway_store) => settings (w_db w3) = settings (w_db w)); [|by intros []].
    unfold restore_one. destruct (TerminalBySerialNumber _ _); [|by apply Hdelete].
    repeat case_match; try (by apply Hdelete).
    apply wp_bind. unfold wp at 1, new_session. cbn [fst snd]. by apply wp_modify.
Qed.

(** Every configured terminal has its row, offline. *)
Lemma seed_rows c d u d' t :
  valid_config cfg -> SeedConfiguredTerminals (Terminals cfg) c d = Ok (u, d') -> t ∈ Terminals cfg ->
  exists row, db_terminals d' !! SerialNumber t = Some row /\ tr_connection_status row = "offline" /\
              tr_pushsdk_serial row = PushSDKSerial t /\ tr_credential_fingerprint row = CredentialFingerprint t.
Proof.
  intros Hcfg (s' & E & <-)%run_Ok Ht. unfold SeedConfiguredTerminals_tx in E.
  assert (Hinv : forall t, t ∈ Terminals cfg -> exists o t', SerialNumber t' = SerialNumber t /\ t' ∈ Terminals cfg /\
            db_terminals (tx_db s') !! SerialNumber t = Some (seeded_row t' o)); [|].
  { revert E. apply (tx_for_inv _ (fun done _ s => forall t, t ∈ done -> exists o t', SerialNumber t' = SerialNumber t /\
        t' ∈ done /\ db_terminals (tx_db s) !! SerialNumber t = Some (seeded_row t' o))); [set_solver|].
    clear t Ht. intros l t [] [] s s1 Hl Es.
    apply tx_bind_Ok in Es as (rows & s2 & [= <- <-] & Es).
    apply tx_bind_Ok in Es as ([] & s3 & [_ ->]%constraint_Ok & [= <-]). intros t2 [Ht2| ->%list_elem_of_singleton]%elem_of_app.
    - destruct (Hl t2 Ht2) as (o & t' & Hn & Hin & Hrow). simpl.
      destruct (decide (SerialNumber t = SerialNumber t2)) as [He|He].
      + rewrite He, lookup_insert_eq. eexists _, t. split_and!; [done|set_solver|done].
      + rewrite lookup_insert_ne by done. exists o, t'. split_and!; [done|set_solver|done].
    - simpl. rewrite lookup_insert_eq. eexists _, t. split_and!; [done|set_solver|done]. }
  destruct (Hinv t Ht) as (o & t' & Hn & Hin & Hrow). assert (t' = t) as -> by by eapply terminal_serial_inj.
  eexists. by split_and!.
Qed.

Lemma New_prefixes nets :
  New cfg = Ok nets -> Forall2 (fun cidr p => Netip.ParsePrefix cidr = Some p) (MetricsCIDRs cfg) nets.
Proof.
  unfold New. apply (foldR_inv _ (fun l nets => Forall2 (fun cidr p => Netip.ParsePrefix cidr = Some p) l nets)); [constructor|].
  intros l cidr acc acc' Hl. destruct (Netip.ParsePrefix cidr) eqn:E; [|intros [=]]. intros [= <-].
  apply Forall2_app; [done|]. by repeat constructor.
Qed.

(** A start that succeeds leaves a gateway that is ready.  The invariant of the
    protocol service holds and no session is online; the database has exactly one
    administrator, the configured one with the configured password, and no session of
    another; every configured terminal has its row with the fingerprint of its
    credentials and is offline; and the networks of the metrics are the configured
    prefixes. *)
Theorem started_gateway `{!BcryptLaws} d i j k nets w' :
  valid_config cfg -> (forall n, 1000 <= env_now env n) -> admin_wf d ->
  (forall s c, checkpoints d !! s = Some c -> checkpoint_wf s c) ->
  start env cfg (NewService d i j k) = (Ok nets, w') ->
  inv cfg True w' /\ offline w' /\
  (exists id u, db_admin_users (w_db w') = {[id := u]} /\ au_username u = AdminUsername cfg /\
     bcrypt_CompareHashAndPassword (au_password_hash u) (bytes_of (AdminPassword cfg)) = true /\
     forall i s, db_admin_sessions (w_db w') !! i = Some s -> as_admin_user_id s = id) /\
  (forall t, t ∈ Terminals cfg -> exists row, db_terminals (w_db w') !! SerialNumber t = Some row /\
     tr_connection_status row = "offline" /\ tr_pushsdk_serial row = PushSDKSerial t /\
     tr_credential_fingerprint row = CredentialFingerprint t) /\
  Forall2 (fun cidr p => Netip.ParsePrefix cidr = Some p) (MetricsCIDRs cfg) nets.
Proof.
  intros Hcfg Hclock Hwf Hck (d1 & c2 & d2 & c3 & d3 & c4 & d4 & k4 & w5 & A1 & [U1 _] & E2 & E3 & E4 & E5 & E6 & En)%start_Ok.
  assert (Hck4 : forall s c, checkpoints d4 !! s = Some c -> checkpoint_wf s c) by by rewrite U1.
  pose proof (wp_elim _ _ _ _ _ (wp_RestoreSessions env cfg Hcfg True d4 i j k4 Hck4) E5) as (Hinv & Hoff & _).
  pose proof (calm_expire _ _ _ E6) as Hcalm.
  assert (Hset : settings (w_db w') = settings d4).
  { rewrite (expire_settings _ _ _ E6). by apply restore_settings in E5. }
  assert (A2 : admin_tables d2 = admin_tables d1).
  { revert E2. apply (run_frame admin_tables). unfold SeedConfiguredTerminals_tx. frame_auto. }
  assert (T3 : db_terminals d3 = db_terminals d2).
  { revert E3. apply (run_frame db_terminals).
    unfold ReconcileConfiguredAdministrator_tx, delete_admins, hash_password, insert_identity. frame_auto.
    all: by apply frame_fresh_id. }
  apply reconcile_Ok in E3 as (Hwf3 & id & u & Hu & Hname & Hpw & _ & _).
  2: { by eapply admin_tables_wf; [|exact Hwf]; congruence. }
  injection E4 as E4. rewrite <- E4 in Hset. injection Hset as Su Ss St.
  split_and!; [by eapply inv_calm|by intros l s; rewrite (calm_heap _ _ Hcalm); apply Hoff| | |by apply New_prefixes].
  - exists id, u. rewrite Su, Ss. split_and!; [done..|]. cbn. intros n s [Hs _]%map_lookup_filter_Some.
    destruct (sessions_owned _ Hwf3 n s Hs) as [r Hr]. rewrite Hu in Hr. by apply lookup_singleton_Some in Hr as [-> _].
  - intros t Ht. rewrite St. cbn. rewrite T3. by eapply seed_rows.
Qed.
End gateway_facts.
