(* ===== verification/GatewayHistory.v ===== *)
(** What the gateway does to its database: every request, tick, worker call and start is a
    history of transactions of the store, so that every state of the process has a database
    that its schema admits. *)

From Stdlib Require Import ZArith Lia Ascii String.
From stdpp Require Import base gmap strings list option relations.
From S2P Require Import Prelude GoText GoTime GoJSON GoHTTP GoURL GoNet GoCrypto AccessControl Config Crypto.
From S2P Require Import StoreTypes Wire Database StoreCore Deliveries Worker Attachments Backfills Archive CommandQueue.
From S2P Require Import SyncRuns Commands Queries Admin Schema StoreFrame SchemaProofs World StoreInstance APIInput.
From S2P Require Import AdminAPI APIProofs Session Service Gateway GatewayProofs.

Local Open Scope string_scope.
Local Open Scope Z_scope.

Section history.
Context `{GoParsers} `{CryptoLaws} `{Bcrypt}.

(** ** Histories compose *)
Definition becomes (d d' : DB) : Prop := exists h, d' = replay h d.

#[local] Instance becomes_preorder : PreOrder becomes.
Proof using.
  split; [by exists []|]. intros d1 d2 d3 [h1 ->] [h2 ->]. exists (h1 ++ h2)%list. unfold replay. by rewrite foldl_app.
Qed.

(** A call of the store that is one of its writing methods, or a query. *)
Definition transaction {A} (op : Tx store_error TxCtx DB A) : Prop := forall c d a d', op c d = Ok (a, d') -> becomes d d'.

Lemma transaction_op (o : store_op) {A} (op : Tx store_error TxCtx DB A) :
  Schema.perform o = Schema.committed op -> transaction op.
Proof using.
  intros Eo c d a d' E. exists [(o, c)]. unfold replay, step_history. cbn [foldl fst snd].
  rewrite Eo. unfold Schema.committed. by rewrite E.
Qed.

Lemma transaction_query {A} (m : Txn A) : StoreFrame.frame id m -> transaction (run m).
Proof using. intros Hf c d a d' (s' & E & <-)%run_Ok. apply Hf in E. unfold id in E. cbn in E. by rewrite E. Qed.

(** ** Code of the process *)
Section process.
Context (env : Env).

(** [recorded m]: whatever [m] returns, what it did to the database is a history. *)
Definition recorded {A} (m : M error World A) : Prop := forall w, becomes (w_db w) (w_db (m w).2).

Lemma recorded_stay {A} (m : M error World A) : (forall w, w_db (m w).2 = w_db w) -> recorded m.
Proof using. intros Hm w. by rewrite Hm. Qed.

Lemma recorded_bind {A B} (m : M error World A) (k : A -> M error World B) :
  recorded m -> (forall a, recorded (k a)) -> recorded (m ≫= k).
Proof using.
  intros Hm Hk w. specialize (Hm w). unfold mbind, M_bind. destruct (m w) as [[a|e] w1]; [|done].
  etrans; [exact Hm|]. apply Hk.
Qed.

Lemma recorded_try {A} (m : M error World A) : recorded m -> recorded (try_ m).
Proof using. intros Hm w. specialize (Hm w). unfold try_. by destruct (m w). Qed.

Lemma recorded_for_each {A} (f : A -> M error World unit) l : (forall x, recorded (f x)) -> recorded (for_each f l).
Proof using. intros Hf. induction l as [|x l IH]; [by apply recorded_stay|]. cbn. by apply recorded_bind. Qed.

Lemma recorded_forM {A B} (f : B -> A -> M error World B) l acc :
  (forall b x, recorded (f b x)) -> recorded (forM f l acc).
Proof using. intros Hf. revert acc. induction l as [|x l IH]; intros acc; [by apply recorded_stay|]. cbn. by apply recorded_bind. Qed.

Lemma recorded_call {A} (op : Tx store_error TxCtx DB A) : transaction op -> recorded (call env op).
Proof using.
  intros Hop w. unfold call. destruct (env_fault _ _); [done|]. destruct (op _ _) as [[a d]|e] eqn:E; [|done].
  exact (Hop _ _ _ _ E).
Qed.

Lemma recorded_token : recorded (random_token env).
Proof using. apply recorded_stay. intros w. unfold random_token. by destruct (randomAlphaNumeric _ _ _ _). Qed.

(** The transaction behind each call, by its name in the interface or in the store. *)
Ltac writes o := exact (transaction_op o _ eq_refl).
Ltac transaction_auto :=
  lazymatch goal with
  | |- transaction (World.RecordGatewayActivity ?e) => writes (OpRecordGatewayActivity e)
  | |- transaction (World.TransitionTerminalState ?s ?st ?l ?e) => writes (OpTransitionTerminalState s st l e)
  | |- transaction (World.UpsertPushSDKSession ?s) => writes (OpUpsertPushSDKSession s)
  | |- transaction (World.ExpirePushSDKLoginChallenge ?s ?r) => writes (OpExpirePushSDKLoginChallenge s r)
  | |- transaction (World.DeletePushSDKSession ?s) => writes (OpDeletePushSDKSession s)
  | |- transaction (World.InsertDeviceEventBatch ?es) => writes (OpInsertDeviceEventBatch es)
  | |- transaction World.ExpireOverdueISAPICommands => writes OpExpireOverdueISAPICommands
  | |- transaction (World.ClaimISAPICommands ?s ?n) => writes (OpClaimISAPICommands s n)
  | |- transaction (World.CompleteISAPICommands ?s ?rs) => writes (OpCompleteISAPICommands s rs)
  | |- transaction World.PushSDKSessions => apply (transaction_query (A := list PushSDKSession)); frame_auto
  | |- transaction (SeedConfiguredTerminals ?ts) => writes (OpSeedConfiguredTerminals ts)
  | |- transaction (ReconcileConfiguredAdministrator ?u ?p) => writes (OpReconcileConfiguredAdministrator u p)
  | |- transaction PurgeExpiredSessions => writes OpPurgeExpiredSessions
  | |- transaction (CreateSessionWithActivity ?u ?h ?t ?e) => writes (OpCreateSessionWithActivity u h t e)
  | |- transaction (DeleteSessionWithActivity ?h ?e) => writes (OpDeleteSessionWithActivity h e)
  | |- transaction (QueueISAPICommand ?i) => writes (OpQueueISAPICommand i)
  | |- transaction (QueueAccessEventSync ?s ?i) => writes (OpQueueAccessEventSync s i)
  | |- transaction (SaveDeliveryRoute ?r ?a) => writes (OpSaveDeliveryRoute r a)
  | |- transaction (DeleteDeliveryRoute ?s ?a) => writes (OpDeleteDeliveryRoute s a)
  | |- transaction ClaimEventDelivery => writes OpClaimEventDelivery
  | |- transaction (FinishEventDelivery ?e ?st ?c ?f ?n) => writes (OpFinishEventDelivery e st c f n)
  | |- transaction (RetryEventDelivery ?i ?a) => writes (OpRetryEventDelivery i a)
  | |- transaction ClaimAttachment => writes OpClaimAttachment
  | |- transaction (FinishAttachment ?e ?st ?c ?f ?n) => writes (OpFinishAttachment e st c f n)
  | |- transaction (RetryAttachmentDelivery ?i ?a) => writes (OpRetryAttachmentDelivery i a)
  | |- transaction (QueueEventBackfill ?s ?f ?u ?t ?a) => writes (OpQueueEventBackfill s f u t a)
  | |- transaction (QueueAttachmentBackfill ?s ?i ?t ?a) => writes (OpQueueAttachmentBackfill s i t a)
  | |- transaction _ =>
      unfold load_Overview, TerminalStates_tx, QueryDeviceEvents, ArchiveEventPayload, GatewayActivities,
        QueryISAPICommands, ISAPICommandPayload, load_AccessEventSyncRun, DeliveryRoutes, EventDeliveries,
        AttachmentDeliveries, VerifyAdmin, AdminIdentityForSession, PreviewEventBackfill, previewEventBackfill,
        PreviewAttachmentBackfill, previewAttachments, sql_page; apply transaction_query; frame_auto
  end.

Create HintDb recorded.
Ltac recorded_step :=
  lazymatch goal with
  | |- recorded (mbind _ _) => apply recorded_bind; [|intro]
  | |- recorded (try_ _) => apply recorded_try
  | |- recorded (for_each _ _) => apply recorded_for_each; intro
  | |- recorded (forM _ _ _) => apply recorded_forM; intros
  | |- recorded (if ?b then _ else _) => destruct b
  | |- recorded (match ?o with _ => _ end) => destruct o
  | |- recorded (call _ _) => apply recorded_call; transaction_auto
  | |- recorded _ => first [by eauto with recorded | by apply recorded_stay]
  end; cbn beta iota zeta.
Ltac recorded_auto := intros; cbn beta iota zeta; repeat recorded_step.
Hint Resolve recorded_token : recorded.

(** ** The protocol service *)
Lemma recorded_issue l : recorded (IssueNextChallenge env l).
Proof using. unfold IssueNextChallenge. recorded_auto. Qed.
Lemma recorded_Start terminal mode : recorded (Start env terminal mode).
Proof using. unfold Start. recorded_auto. Qed.
Lemma recorded_Restore cfg now : recorded (Restore env cfg now).
Proof using. unfold Restore, restore_one. recorded_auto. Qed.
Lemma recorded_persist l : recorded (persistSession env l).
Proof using. unfold persistSession. recorded_auto. Qed.
Lemma recorded_remove terminal : recorded (removeSession env terminal).
Proof using. unfold removeSession. recorded_auto. Qed.
Lemma recorded_restoreReplaced terminal previous : recorded (restoreReplacedSession env terminal previous).
Proof using. unfold restoreReplacedSession. recorded_auto. Qed.
Lemma recorded_activity e : recorded (recordGatewayActivity env e).
Proof using. unfold recordGatewayActivity. recorded_auto. Qed.
Lemma recorded_idle terminal l : recorded (markSessionIdle env terminal l).
Proof using. unfold markSessionIdle. recorded_auto. Qed.
Lemma recorded_expire terminal : recorded (expireLoginChallenge env terminal).
Proof using. unfold expireLoginChallenge. recorded_auto. Qed.
Lemma recorded_rollback l challenge at_ b : recorded (rollback_challenge l challenge at_ b).
Proof using. unfold rollback_challenge. recorded_auto. Qed.
Hint Resolve recorded_issue recorded_Start recorded_Restore recorded_persist recorded_remove recorded_restoreReplaced
  recorded_activity recorded_idle recorded_expire recorded_rollback : recorded.

Lemma recorded_authInfo terminal body : recorded (authInfo env terminal body).
Proof using. unfold authInfo. recorded_auto. Qed.
Lemma recorded_login terminal request body : recorded (Service.login env terminal request body).
Proof using. unfold Service.login. recorded_auto. Qed.
Lemma recorded_events terminal body : recorded (events env terminal body).
Proof using. unfold events. recorded_auto. Qed.
Lemma recorded_resume terminal l : recorded (resume env terminal l).
Proof using. unfold resume. recorded_auto. Qed.
Hint Resolve recorded_authInfo recorded_login recorded_events recorded_resume : recorded.
Lemma recorded_perform terminal action l body : recorded (Service.perform env terminal action l body).
Proof using. unfold Service.perform. recorded_auto. Qed.
Lemma recorded_rotate terminal action l : recorded (rotate env terminal action l).
Proof using. unfold rotate. recorded_auto. Qed.
Hint Resolve recorded_perform recorded_rotate : recorded.
Lemma recorded_authenticated terminal action request body : recorded (authenticated env terminal action request body).
Proof using. unfold authenticated. recorded_auto. Qed.
Hint Resolve recorded_authenticated : recorded.

Lemma recorded_ServeHTTP cfg request : recorded (ServeHTTP env cfg request).
Proof using. unfold ServeHTTP, dispatch, respond. recorded_auto. Qed.
Lemma recorded_deadlines : recorded (ExpireISAPICommandDeadlines env).
Proof using. unfold ExpireISAPICommandDeadlines. recorded_auto. Qed.
Hint Resolve recorded_ServeHTTP recorded_deadlines : recorded.
Lemma recorded_tick cfg busy : recorded (maintenance_tick env cfg busy).
Proof using. unfold maintenance_tick, MaintainSessions, maintain_terminal. recorded_auto. Qed.

(** ** The administration API *)
Section api.
Context (cfg : Config) (Upgrade : APIRequest -> bool).

Lemma recorded_attempt {A} cases (op : Tx store_error TxCtx DB A) k :
  transaction op -> (forall a, recorded (k a)) -> recorded (attempt env cases op k).
Proof using. intros Hop Hk. unfold attempt. recorded_step; [by apply recorded_try, recorded_call|]. recorded_auto. Qed.
Lemma recorded_attempt_photos {A} (op : Tx store_error TxCtx DB A) k :
  transaction op -> (forall a, recorded (k a)) -> recorded (attempt_photos env op k).
Proof using. intros Hop Hk. unfold attempt_photos. recorded_step; [by apply recorded_try, recorded_call|]. recorded_auto. Qed.
Lemma recorded_checked {A} (r : result string A) k : (forall a, recorded (k a)) -> recorded (checked r k).
Proof using. intros Hk. unfold checked. destruct r; [apply Hk|by apply recorded_stay]. Qed.
Lemma recorded_identity request missing k :
  recorded missing -> (forall i, recorded (k i)) -> recorded (with_identity request missing k).
Proof using. intros Hm Hk. unfold with_identity. by destruct (administratorIdentity request). Qed.
Lemma recorded_terminal serial k : (forall t, recorded (k t)) -> recorded (with_terminal cfg serial k).
Proof using. intros Hk. unfold with_terminal. destruct (TerminalBySerialNumber cfg serial); [apply Hk|by apply recorded_stay]. Qed.

Ltac api_step :=
  lazymatch goal with
  | |- recorded (checked _ _) => apply recorded_checked; intro
  | |- recorded (with_identity _ _ _) => apply recorded_identity; [|intro]
  | |- recorded (with_terminal _ _ _) => apply recorded_terminal; intro
  | |- recorded (attempt _ _ _ _) => apply recorded_attempt; [transaction_auto|intro]
  | |- recorded (attempt_photos _ _ _) => apply recorded_attempt_photos; [transaction_auto|intro]
  | |- _ => recorded_step
  end; cbn beta iota zeta.
Ltac api_auto := intros; cbn beta iota zeta; repeat api_step.

Lemma recorded_session next request value :
  (forall request, recorded (next request value)) -> recorded (withSession env next request value).
Proof using. intros Hn. unfold withSession. api_auto. Qed.

Lemma recorded_Register nets :
  Forall (fun e => forall request value, recorded (e.2 request value)) (Register env cfg nets Upgrade).
Proof using.
  unfold Register. repeat (apply Forall_cons_2; [cbn [snd]; intros request value|]); try apply Forall_nil_2;
    try (apply recorded_session; intros request').
  all: unfold health, ready, privateMetrics, redirectRoot, webApp, AdminAPI.login, logout, overview, deviceEvents, archiveEventPayload,
         deviceEventPayload, event_payload_answer, isapiCommands, isapiCommandPayload, queueISAPICommand, queueAccessEventSync,
         accessEventSyncRun, gatewayActivity, deliveryConfiguration, saveDeliveryRoute, deleteDeliveryRoute,
         eventBackfill, eventDeliveries, retryEventDelivery, attachmentDeliveries, retryAttachment, retry,
         attachmentBackfill, monitorSocket; api_auto.
Qed.

Lemma recorded_serve nets request : recorded (serve env cfg Upgrade nets request).
Proof using.
  unfold serve, securityHeaders. recorded_step; [|recorded_auto]. unfold mux, route, Mux.findHandler.
  destruct (_ && _); [by apply recorded_stay|]. destruct (negb _); [by apply recorded_stay|].
  destruct (Mux.match_ _ _ _) as [[c values]|] eqn:Em; [|by apply recorded_stay].
  apply Mux.match_sound in Em as (Hin & _ & _).
  unfold mux_table in Hin. apply list_elem_of_fmap in Hin as ([p h] & [= _ Eh] & Hin). cbn [snd] in Eh. subst h.
  apply elem_of_app in Hin as [Hin|Hin].
  - pose proof (recorded_Register nets) as Hr. rewrite list.Forall_forall in Hr. exact (Hr _ Hin request _).
  - apply list_elem_of_singleton in Hin. injection Hin as _ ->. unfold push. recorded_auto.
Qed.

(** ** Starts *)
Lemma becomes_backfill fuel projected ctx lost d n err d' :
  BackfillAccessEventProjections fuel projected ctx lost d = Some (n, err, d') -> becomes d d'.
Proof using.
  revert projected d. induction fuel as [|fuel IH]; intros projected d; simpl; [done|].
  destruct (ctx fuel) as [c|]; cbn [from_option]; [|by intros [= _ _ <-]].
  destruct (backfill_batch c d) as [[m d1]|e] eqn:E; [|by intros [= _ _ <-]].
  apply (transaction_op OpBackfillBatch _ eq_refl) in E.
  destruct (lost fuel); [by intros [= _ _ <-]|]. destruct (m =? 0); [by intros [= _ _ <-]|]. intros E2. etrans; [exact E|]. by eapply IH.
Qed.

Lemma recorded_backfill : recorded (backfill_projections env).
Proof using.
  intros w. unfold backfill_projections. destruct (BackfillAccessEventProjections _ _ _ _ _) as [[[n err] d]|] eqn:E; [|done].
  by eapply becomes_backfill.
Qed.

Lemma recorded_wrapped {A} message (m : M error World A) : recorded m -> recorded (wrapped message m).
Proof using. intros Hm. unfold wrapped. recorded_step; [by apply recorded_try|]. recorded_auto. Qed.

Lemma recorded_start : recorded (start env cfg).
Proof using.
  unfold start. recorded_auto; apply recorded_wrapped; [apply recorded_backfill|unfold RestoreSessions|]; recorded_auto.
Qed.

Lemma gateway_step_becomes w w' : gateway_step env cfg Upgrade w w' -> becomes (w_db w) (w_db w').
Proof using.
  assert (Hrec : forall A (m : M error World A) w r w', recorded m -> m w = (r, w') -> becomes (w_db w) (w_db w')).
  { intros A m w1 r w2 Hm E. specialize (Hm w1). by rewrite E in Hm. }
  destruct 1 as [? ? ? ? ? E|? ? ? ? E|? ? ? E|? ? ? ? ? ? ? ? E|? ? ? E|? ? ? ? ? ? ? ? E|? ? ? ? ? ? E|? ? ? ? ? ? E].
  - exact (Hrec _ _ _ _ _ (recorded_serve _ _) E).
  - exact (Hrec _ _ _ _ _ (recorded_tick _ _) E).
  - refine (Hrec _ _ _ _ _ _ E). recorded_auto.
  - refine (Hrec _ _ _ _ _ _ E). recorded_auto.
  - refine (Hrec _ _ _ _ _ _ E). recorded_auto.
  - refine (Hrec _ _ _ _ _ _ E). recorded_auto.
  - exact (Hrec _ _ _ _ _ recorded_start E).
  - exact (Hrec _ _ _ _ _ recorded_start E).
Qed.

(** C27: the database always satisfies its schema.  Whatever methods of the store run, in any
    order, at any times and with any arguments, on a database that started empty, every
    clause of db/schema.sql holds after each of them: rows satisfy their CHECKs, keys are
    unique, every reference has its row; and of the commands of a retained-event run at most
    one is open, the one that asks for its last page.  And whatever the gateway does with its
    requests, ticks, workers and starts is such a history.  So no clause
    of the schema makes PostgreSQL refuse a statement that the model lets pass. *)
Theorem database_admitted :
  (forall h, store_inv (replay h empty_DB)) /\
  (forall w0 w, w_db w0 = empty_DB -> rtc (gateway_step env cfg Upgrade) w0 w ->
     (exists h, w_db w = replay h empty_DB) /\ store_inv (w_db w)).
Proof using Type*.
  split; [apply history_admitted|]. intros w0 w E0 Hs.
  assert (Hb : becomes (w_db w0) (w_db w)).
  { clear E0. induction Hs as [|w1 w2 w3 Hs _ IH]; [done|]. etrans; [by eapply gateway_step_becomes|exact IH]. }
  destruct Hb as [h E]. rewrite E0 in E. split; [by exists h|]. rewrite E. apply history_admitted.
Qed.
End api.
End process.
End history.
