(* ===== verification/ProcessStart.v ===== *)
(** cmd/gateway/main.go, [main] and [run]: the life of the process, from its environment to
    its exit code.

    The operating system, the PostgreSQL server and the HTTP server are parameters: which
    variables and files there are, whether the database accepts the connection, what its
    scripts do ([Postgres]) and which rows a schema holds, and how the serving ends. *)

From Stdlib Require Import ZArith Lia Ascii String.
From stdpp Require Import base gmap strings list option.
From S2P Require Import Prelude GoText GoHTTP GoURL GoNet GoCrypto AccessControl Config Crypto StoreTypes Database Migrations.
From S2P Require Import StoreCore Archive Admin AdminProofs World StoreInstance APIInput AdminAPI Session Service Gateway.
From S2P Require Import ServiceInv ServiceProofs ServiceSpec GatewayProofs.

Local Open Scope string_scope.
Local Open Scope Z_scope.

Section process.
Context `{GoParsers} `{CryptoLib} `{Bcrypt} `{Postgres}.

(** What the process meets: its variables and files, the directory of its migrations, the
    database server, failures of migration calls, and the run environment of the service. *)
Record Machine := {
  mc_process : Config.Process;
  mc_directory : string -> Directory;
  mc_connects : string -> bool;               (* pgxpool.New accepts the URL *)
  mc_answers : string -> bool;                (* pool.Ping succeeds *)
  mc_fault : nat -> bool;
  mc_env : Env;
  mc_rows : schema -> DB                      (* the rows of a database with this schema *)
}.

(** [store.Open] *)
Definition Open (m : Machine) (databaseURL : string) : result string unit :=
  if negb (mc_connects m databaseURL) then Err "connect postgres: %w"
  else if negb (mc_answers m databaseURL) then Err "ping postgres: %w"
  else Ok tt.

(** A gateway about to listen. *)
Record Listening := { ls_config : Config; ls_nets : list Netip.Prefix; ls_world : World }.

Definition text_error {A} (r : result string A) : result error A :=
  match r with Ok a => Ok a | Err message => Err (EText message) end.

(** [run] up to [ListenAndServe]: the gateway, or the error [run] returns; and the database. *)
Definition boot (m : Machine) (d : Database_) : result error Listening * Database_ :=
  match text_error (Load (mc_process m)) with
  | Err err => (Err err, d)
  | Ok cfg =>
      match text_error (Open m (DatabaseURL cfg)) with
      | Err err => (Err err, d)
      | Ok _ =>
          let '(migrated, (d', _)) := Migrate (mc_fault m) (mc_directory m (MigrationsDir cfg)) (d, 0%nat) in
          match text_error migrated with
          | Err err => (Err err, d')
          | Ok _ =>
              match start (mc_env m) cfg (NewService (mc_rows m (contents d')) 0 0 0) with
              | (Ok nets, w) => (Ok {| ls_config := cfg; ls_nets := nets; ls_world := w |}, d')
              | (Err err, _) => (Err err, d')
              end
          end
      end
  end.

(** How the [select] of [run] ends: a signal and the result of [Shutdown], or a listener that failed. *)
Inductive stop := Signalled (shutdown : option error) | ListenFailed (err : error).

Definition run (m : Machine) (d : Database_) (s : stop) : option error :=
  match (boot m d).1 with
  | Err err => Some err
  | Ok _ => match s with Signalled r => r | ListenFailed err => Some err end
  end.

(** The exit code of [main]. *)
Definition main (m : Machine) (d : Database_) (s : stop) : Z := match run m d s with Some _ => 1 | None => 0 end.

(** ** Correctness *)
Lemma boot_Ok m d l d' :
  boot m d = (Ok l, d') ->
  Load (mc_process m) = Ok (ls_config l) /\ Open m (DatabaseURL (ls_config l)) = Ok tt /\
  exists n, Migrate (mc_fault m) (mc_directory m (MigrationsDir (ls_config l))) (d, 0%nat) = (Ok tt, (d', n)) /\
    start (mc_env m) (ls_config l) (NewService (mc_rows m (contents d')) 0 0 0) = (Ok (ls_nets l), ls_world l).
Proof using.
  unfold boot. destruct (Load _) as [cfg|] eqn:E1; [|done]. cbn [text_error].
  destruct (Open _ _) as [[]|] eqn:E2; [|done]. cbn [text_error].
  destruct (Migrate _ _ _) as [migrated [d1 n]] eqn:E3. destruct migrated as [[]|]; [|done]. cbn [text_error].
  destruct (start _ _ _) as [[nets|err] w] eqn:E4; [|done]. intros [= <- <-]. cbn. split_and!; [done..|]. by exists n.
Qed.

(** The exit code is 0 only after a signal and a clean shutdown of a gateway that had started. *)
Lemma main_clean m d s : main m d s = 0 <-> s = Signalled None /\ exists l, (boot m d).1 = Ok l.
Proof using.
  unfold main, run. destruct (boot m d) as [[l|err] d']; cbn; [|split; [done|by intros (_ & l & ?)]].
  destruct s as [[err|]|err]; naive_solver.
Qed.

(** C17: a gateway that listens is ready.  Its configuration is valid, with the password of
    every terminal taken from the variable it names; the database was reached and migrated,
    with every forward script recorded under the checksum of its contents and no earlier
    record changed; the invariant of the protocol service holds and no session is online; the
    database has exactly one administrator, the configured one with the configured password,
    and no session of another; every configured terminal has its row with the fingerprint of
    its credentials and is offline; and the networks of the metrics are the configured ones. *)
Theorem listening_gateway_ready `{!CryptoLaws} `{!BcryptLaws} m d l d' :
  boot m d = (Ok l, d') -> (forall n, 1000 <= env_now (mc_env m) n) -> admin_wf (mc_rows m (contents d')) ->
  (forall s c, checkpoints (mc_rows m (contents d')) !! s = Some c -> checkpoint_wf s c) ->
  let cfg := ls_config l in let w := ls_world l in
  valid_config cfg /\
  (forall t, t ∈ Terminals cfg -> LookupEnv (mc_process m) (PasswordEnvironmentVariable t) = Some (Password t)) /\
  registered d ⊆ registered d' /\
  (exists forward, loadMigrationFiles (dir_forward (mc_directory m (MigrationsDir cfg))) = Ok forward /\
     Forall (fun f => registered d' !! mf_name f = Some (mf_checksum f)) forward) /\
  inv cfg True w /\ offline w /\
  (exists id u, db_admin_users (w_db w) = {[id := u]} /\ au_username u = AdminUsername cfg /\
     bcrypt_CompareHashAndPassword (au_password_hash u) (bytes_of (AdminPassword cfg)) = true /\
     forall i s, db_admin_sessions (w_db w) !! i = Some s -> as_admin_user_id s = id) /\
  (forall t, t ∈ Terminals cfg -> exists row, db_terminals (w_db w) !! SerialNumber t = Some row /\
     tr_connection_status row = "offline" /\ tr_pushsdk_serial row = PushSDKSerial t /\
     tr_credential_fingerprint row = CredentialFingerprint t) /\
  Forall2 (fun cidr p => Netip.ParsePrefix cidr = Some p) (MetricsCIDRs cfg) (ls_nets l).
Proof using Type*.
  intros (Hload & _ & n & Hmigrate & Hstart)%boot_Ok Hclock Hwf Hck cfg w.
  apply loaded_config in Hload as [Hvalid Hpasswords]. apply migrated_checksums in Hmigrate as [Hsub Hforward].
  destruct (started_gateway _ _ _ _ _ _ _ _ Hvalid Hclock Hwf Hck Hstart) as (Hinv & Hoff & Hadmin & Hterminals & Hnets).
  by split_and!.
Qed.
End process.
