(* ===== verification/APISpec.v ===== *)
(** What the administration API promises: no protected route without a session, a session
    for whoever signs in, commands that the database accepts, and metrics for the
    configured networks only. *)

From Stdlib Require Import ZArith Lia Ascii String.
From stdpp Require Import base gmap strings list option.
From S2P Require Import Prelude GoText GoTime GoJSON GoHTTP GoURL GoConv GoNet GoCrypto AccessControl Config Crypto.
From S2P Require Import StoreTypes Wire Database StoreCore Deliveries Worker Attachments Backfills Archive.
From S2P Require Import CommandQueue SyncRuns Commands Queries Admin StoreFrame AdminProofs World StoreInstance.
From S2P Require Import APIInput AdminAPI APIProofs Session Service Gateway.

Local Open Scope string_scope.
Local Open Scope Z_scope.

(** ** Session tokens as cookies *)
Definition token_char (c : ascii) : bool := is_alnum c || (byte_val c =? 45) || (byte_val c =? 95).

Lemma url_char_token c : In c b64_alphabet -> token_char (url_char c) = true.
Proof.
  assert (Hall : forallb (fun c => token_char (url_char c)) b64_alphabet = true) by (vm_compute; reflexivity).
  rewrite forallb_forall in Hall. auto.
Qed.

Lemma RawURLEncoding_chars b : Forall (fun c => token_char c = true) (bytes_of (RawURLEncoding b)).
Proof.
  unfold RawURLEncoding. rewrite bytes_of_string_of, list.Forall_fmap, list.Forall_forall.
  intros c [Hin Hp]%list_elem_of_In%List.filter_In. apply url_char_token.
  pose proof (b64_encode_chars b) as Hall. rewrite list.Forall_forall in Hall.
  destruct (Hall c) as [->|?]; [by apply list_elem_of_In| |done]. by rewrite bool_decide_eq_true_2 in Hp.
Qed.

Lemma RawURLEncoding_nonempty a b : RawURLEncoding (a :: b) <> "".
Proof.
  assert (Hpad : forall v, b64_char v <> b64_pad).
  { intros v E. pose proof (b64_char_in v) as Hin. rewrite E in Hin.
    revert Hin. apply (bool_decide_unpack (~ In _ _)). vm_compute. exact I. }
  unfold RawURLEncoding. destruct b as [|b [|c l]]; cbn [b64_encode List.filter app]; rewrite bool_decide_eq_false_2 by apply Hpad; cbn [negb fmap list_fmap];
    discriminate.
Qed.

(** What a token character is not. *)
Lemma token_char_plain c :
  token_char c = true ->
  Cookies.is_space c = false /\ Cookies.valid_value_byte c = true /\ c <> ";"%char /\ (byte_val c =? 34) = false.
Proof.
  assert (Hall : forallb (fun c => negb (token_char c) || (negb (Cookies.is_space c) && Cookies.valid_value_byte c
    && negb (bool_decide (c = ";"%char)) && negb (byte_val c =? 34))) all_bytes = true) by (vm_compute; reflexivity).
  rewrite forallb_forall in Hall. specialize (Hall c (all_bytes_complete c)). intros Ht. rewrite Ht in Hall. cbn in Hall.
  rewrite !andb_true_iff, !negb_true_iff, bool_decide_eq_false in Hall. naive_solver.
Qed.

Lemma trim_plain l x y : list.head l = Some x -> list.last l = Some y ->
  Cookies.is_space x = false -> Cookies.is_space y = false -> Cookies.trim l = l.
Proof.
  intros Hx Hy Sx Sy. unfold Cookies.trim. destruct l as [|c l]; [done|]. injection Hx as ->.
  cbn [Cookies.trim_front]. rewrite Sx.
  destruct (reverse (x :: l)) as [|z k] eqn:E.
  - apply (f_equal reverse) in E. by rewrite reverse_involutive in E.
  - assert (z = y) as ->.
    { apply (f_equal reverse) in E. rewrite reverse_involutive, reverse_cons in E. rewrite E, last_snoc in Hy. congruence. }
    cbn [Cookies.trim_front]. rewrite Sy, <- E. apply reverse_involutive.
Qed.

(** A browser that returns the cookie of a token is recognised. *)
Lemma cookie_returns token :
  token <> "" -> Forall (fun c => token_char c = true) (bytes_of token) ->
  Cookies.Cookie sessionCookie [sessionCookie +:+ "=" +:+ token] = Some token.
Proof.
  intros Hne Hc. unfold Cookies.Cookie. cbn [mbind list_bind]. rewrite app_nil_r.
  set (line := bytes_of (sessionCookie +:+ "=" +:+ token)).
  assert (Hline : line = (bytes_of sessionCookie ++ "="%char :: bytes_of token)%list)
    by (unfold line; by rewrite !bytes_of_app).
  assert (Hlast : exists y, list.last (bytes_of token) = Some y /\ token_char y = true).
  { destruct (list.last (bytes_of token)) as [y|] eqn:E.
    - exists y. split; [done|]. rewrite list.Forall_forall in Hc. apply Hc.
      apply last_Some in E as [l' ->]. set_solver.
    - apply last_None in E. by apply (bytes_of_inj token "") in E. }
  destruct Hlast as (y & Hy & Hty). apply token_char_plain in Hty as (Sy & _ & _ & Qy).
  assert (Htrim : Cookies.trim line = line).
  { apply (trim_plain line "p"%char y); [by rewrite Hline| |done|done].
    rewrite Hline, last_app, last_cons. by rewrite Hy. }
  rewrite Htrim, split_bytes_none.
  2: { rewrite Hline. intros Hin%elem_of_app. destruct Hin as [Hin|[|Hin]%elem_of_cons]; [|done|].
       - revert Hin. apply (bool_decide_unpack (_ ∉ _)). vm_compute. exact I.
       - rewrite list.Forall_forall in Hc. by destruct (token_char_plain _ (Hc _ Hin)) as (_ & _ & ? & _). }
  cbn [omap list_omap]. unfold Cookies.cookie_part. cbn [reverse rev_append app]. rewrite Htrim.
  rewrite bool_decide_eq_false_2 by (by rewrite Hline).
  assert (Hcut : URL.cut "="%char line = (bytes_of sessionCookie, bytes_of token, true))
    by (rewrite Hline; reflexivity).
  rewrite Hcut. rewrite bool_decide_eq_true_2 by (vm_compute; reflexivity).
  assert (Hparse : Cookies.parse_value (bytes_of token) = Some (bytes_of token)); [|rewrite Hparse; simpl; by rewrite string_of_bytes_of].
  unfold Cookies.parse_value.
  assert (Hv : forallb Cookies.valid_value_byte (bytes_of token) = true).
  { apply forallb_forall. intros c Hin%list_elem_of_In. rewrite list.Forall_forall in Hc.
    by destruct (token_char_plain _ (Hc _ Hin)) as (_ & ? & _). }
  destruct (bytes_of token) as [|c [|c2 rest]]; [by rewrite Hv..|]. rewrite Hy, Qy, andb_false_r. by rewrite Hv.
Qed.

(** ** Routing *)

(** The segments of the protected part of the tree. *)
Definition protected (path : list string) : Prop :=
  take 3 path = ["api"; "v1"; "admin"] \/ path = ["api"; "v1"; "auth"; "logout"] \/ path = ["ws"; "v1"; "monitor"].

(** An answer that neither serves nor tells anything. *)
Inductive refusal : Answer -> Prop :=
| refused status message : status = 401 \/ status = 405 \/ status = 500 -> refusal (AJSON status None (VError message))
| not_found : refusal ANotFound
| moved status location : refusal (ARedirect status location).

Section api_spec.
Context `{GoParsers} `{CryptoLib} `{Bcrypt}.
Context (env : Env) (cfg : Config) (Upgrade : APIRequest -> bool) (nets : list Netip.Prefix).

(** The path the mux matches. *)
Definition request_segments (request : APIRequest) : list string :=
  Mux.path_segments (string_of (NetURL.EscapedPath (request_url request))).

(** The administrator a request is signed in as when a call meets the instant of [c]. *)
Definition signed_in (c : TxCtx) (d : DB) (request : APIRequest) : option AdminIdentity :=
  token ← sessionToken request;
  '(_, s) ← session_row d (cx_now c) (sha256_Sum256 (bytes_of token));
  u ← db_admin_users d !! as_admin_user_id s;
  Some {| ai_ID := as_admin_user_id s; ai_Username := au_username u |}.

(** [withSession] runs the handler for exactly the administrator of the session. *)
Lemma withSession_spec next request value w :
  env_fault env (w_calls w) = false -> env_lost env (w_calls w) = false ->
  withSession env next request value w =
  match sessionToken request, signed_in (env_ctx env (w_calls w)) (w_db w) request with
  | None, _ => (Ok (AJSON 401 None (VError "authentication required")), w)
  | Some _, None => (Ok (AJSON 401 None (VError "authentication required")),
                     advance (w_clock w) (w_reads w) (S (w_calls w)) w)
  | Some _, Some identity => next (WithIdentity identity request) value
                               (advance (w_clock w) (w_reads w) (S (w_calls w)) w)
  end.
Proof using.
  intros Hf Hl. unfold withSession, signed_in. destruct (sessionToken request) as [token|]; [|done].
  unfold attempt, mbind at 1, M_bind at 1, try_, call. rewrite Hf, AdminIdentityForSession_eq, Hl. cbn [mbind option_bind].
  destruct (session_row _ _ _) as [[i s]|]; [|done]. cbn [mbind option_bind].
  by destruct (db_admin_users _ !! _).
Qed.

Lemma withSession_refused next request value w r w' :
  signed_in (env_ctx env (w_calls w)) (w_db w) request = None ->
  withSession env next request value w = (r, w') ->
  w_db w' = w_db w /\ w_published w' = w_published w /\ exists a, r = Ok a /\ refusal a.
Proof using.
  intros Hs. destruct (env_fault env (w_calls w)) eqn:Hf; [|destruct (env_lost env (w_calls w)) eqn:Hl].
  - unfold withSession. destruct (sessionToken request) as [token|].
    + unfold attempt, mbind at 1, M_bind at 1, try_, call. rewrite Hf. intros [= <- <-]. split_and!; [done..|].
      eexists. split; [done|]. constructor. auto.
    + intros [= <- <-]. split_and!; [done..|]. eexists. split; [done|]. constructor. auto.
  - unfold withSession. destruct (sessionToken request) as [token|].
    + unfold attempt, mbind at 1, M_bind at 1, try_, call. rewrite Hf, AdminIdentityForSession_eq, Hl.
      intros [= <- <-]. split_and!; [done..|]. eexists. split; [done|]. constructor. auto.
    + intros [= <- <-]. split_and!; [done..|]. eexists. split; [done|]. constructor. auto.
  - rewrite withSession_spec by done. rewrite Hs. destruct (sessionToken request);
      intros [= <- <-]; (split_and!; [done..|]; eexists; split; [done|constructor; auto]).
Qed.

(** Every pattern is open to all, guarded, or the catch-all. *)
Definition guarded (e : Mux.pattern * handler) : Prop :=
  (exists next, e.2 = withSession env next) \/ e.2 = redirectRoot \/
  (forall path, protected path -> ~ Mux.matches_path (Mux.segments e.1) (Mux.multi e.1) path).

Ltac compute_pattern :=
  match goal with |- context [Mux.parsePattern ?s] =>
    let p := eval vm_compute in (Mux.parsePattern s) in change (Mux.parsePattern s) with p end.

(** The first segment decides against the open patterns. *)
Lemma open_pattern (s : string) segs m path :
  s <> "api" -> s <> "ws" -> protected path -> ~ Mux.matches_path (Mux.Lit s :: segs) m path.
Proof using.
  intros Ha Hw Hp. destruct path as [|x path]; [by destruct Hp as [?|[?|?]]|]. intros [<- _].
  destruct Hp as [[=]|[[=]|[=]]]; congruence.
Qed.

Lemma mux_table_guarded : Forall guarded (mux_table env cfg Upgrade nets).
Proof using.
  unfold mux_table, Register. cbn [app fmap list_fmap].
  repeat (apply Forall_cons_2; [unfold guarded; cbn [fst snd]|]); try apply Forall_nil_2;
    first [left; by eexists | right; left; reflexivity | right; right; intros path Hp; compute_pattern; cbn [Mux.segments Mux.multi]].
  all: try (by apply open_pattern).
  (* login shares three segments with logout *)
  destruct Hp as [Ht|[->| ->]]; [|by intros (_ & _ & _ & [=] & _)|by intros ([=] & _)].
  destruct path as [|a [|b [|c path]]]; try done. injection Ht as -> -> ->. by intros (_ & _ & [=] & _).
Qed.

(** C13: without a session nothing of the administration is served.  A request for any
    path below /api/v1/admin, for the sign-out or for the monitor socket that no valid
    session signs in is answered with a refusal (401, 404, 405, a redirect, or 500 when the
    database fails), changes nothing in the database and publishes nothing, whatever its
    method, query, headers and body are. *)
Theorem no_session_no_access request w r w' :
  protected (request_segments request) ->
  signed_in (env_ctx env (w_calls w)) (w_db w) request = None ->
  mux env cfg Upgrade nets request w = (r, w') ->
  w_db w' = w_db w /\ w_published w' = w_published w /\ exists a, r = Ok a /\ refusal a.
Proof using.
  intros Hp Hs. unfold mux, route, Mux.findHandler.
  set (escaped := string_of (NetURL.EscapedPath (request_url request))).
  set (p := if bool_decide _ then escaped else Mux.cleanPath escaped).
  destruct (_ && _); [intros [= <- <-]; split_and!; [done..|]; eexists; split; [done|constructor]|].
  destruct (bool_decide (p = escaped)) eqn:He; cbn [negb];
    [apply bool_decide_eq_true in He|intros [= <- <-]; split_and!; [done..|]; eexists; split; [done|constructor]].
  destruct (Mux.match_ _ _ _) as [[c values]|] eqn:Em;
    [|intros [= <- <-]; split_and!; [done..|]; eexists; split; [done|constructor]].
  apply Mux.match_sound in Em as (Hin & Hm & _). rewrite He in Hm.
  pose proof mux_table_guarded as Hall. rewrite list.Forall_forall in Hall.
  destruct (Hall _ Hin) as [[next Hn]|[Hn|Hno]]; cbn [fst snd] in *.
  - rewrite Hn. by apply withSession_refused.
  - rewrite Hn. unfold redirectRoot. destruct (negb _); [|destruct (negb _)]; intros [= <- <-];
      (split_and!; [done..|]; eexists; split; [done|constructor; auto]).
  - by destruct (Hno _ Hp Hm).
Qed.

(** ** Signing in *)

(** A call of a handler: an error answer, which leaves the database unless the reply of the
    commit was lost, or the continuation after the commit. *)
Lemma attempt_cases {A} cases (op : Tx store_error TxCtx DB A) k w r w' :
  attempt env cases op k w = (r, w') ->
  (exists status message, r = Ok (AJSON status None (VError message)) /\ w_published w' = w_published w /\
     (w_db w' = w_db w \/
      exists a, env_lost env (w_calls w) = true /\ op (env_ctx env (w_calls w)) (w_db w) = Ok (a, w_db w'))) \/
  (exists a d, op (env_ctx env (w_calls w)) (w_db w) = Ok (a, d) /\
     k a (set_db (d : st) (advance (w_clock w) (w_reads w) (S (w_calls w)) w)) = (r, w')).
Proof using.
  unfold attempt, mbind at 1, M_bind at 1, try_, call.
  assert (Herr : forall err w1, (match answer_for cases err with Some (status, message) => writeError status message
                              | None => internalError end) w1 = (r, w') ->
            exists status message, r = Ok (AJSON status None (VError message)) /\ w' = w1).
  { intros err w1. destruct (answer_for cases err) as [[st m]|]; intros [= <- <-]; eauto 10. }
  destruct (env_fault _ _); [intros (st & m & -> & ->)%Herr; left; eauto 10|].
  destruct (op _ _) as [[a d]|e] eqn:Eop; [|intros (st & m & -> & ->)%Herr; left; eauto 10].
  destruct (env_lost _ _) eqn:Hl; [intros (st & m & -> & ->)%Herr; left|intros E; right; eauto].
  exists st, m. split_and!; [done..|]. right. by exists a.
Qed.

Definition expiry (w : World) : time := to_micros (env_now env (w_clock w) + SessionTTL cfg).

(** C18: signing in.  The answer is an error, nothing is published and (unless the reply of
    a commit was lost) nothing changes, or it is a 200 with the session cookie; then the body named an administrator and its password, and a request
    that brings the cookie back is signed in as that administrator until the session has
    lived for SESSION_TTL and not after. *)
Theorem login_opens_session request value w a w' :
  admin_wf (w_db w) -> AdminAPI.login env cfg request value w = (Ok a, w') ->
  (exists status message, a = AJSON status None (VError message) /\
     (replies_arrive env -> w_db w' = w_db w) /\ w_published w' = w_published w) \/
  exists input id u token,
    decodeJSON (decode_struct true loginInput_fields) (mkLoginInput "" "") request = Ok input /\
    db_admin_users (w_db w) !! id = Some u /\ au_username u = li_Username input /\
    bcrypt_CompareHashAndPassword (au_password_hash u) (bytes_of (li_Password input)) = true /\
    a = AJSON 200 (Some (mkSetCookie sessionCookie token (whole_seconds (SessionTTL cfg)) (CookieSecure cfg)))
          (VStatus "authenticated") /\
    forall later c, api_Cookies later = [sessionCookie +:+ "=" +:+ token] ->
      signed_in c (w_db w') later =
      if bool_decide (cx_now c < expiry w) then Some {| ai_ID := id; ai_Username := li_Username input |} else None.
Proof using.
  intros Hwf E. unfold AdminAPI.login, checked in E.
  destruct (decodeJSON _ _ request) as [input|m]; [|injection E as <- <-; left; eauto 10].
  destruct (_ || _) in E; [injection E as <- <-; left; eauto 10|].
  apply attempt_cases in E as [(st & m & [= ->] & ? & Hd)|(o & d & Ev & E)]; [left|].
  { exists st, m. split_and!; [done| |done]. intros Hrep. destruct Hd as [|(? & Hl & _)]; [done|].
    by rewrite Hrep in Hl. }
  injection Ev as Ho <-.
  destruct (admin_by_name (w_db w) (li_Username input)) as [[id u]|] eqn:Hu; [|subst o; injection E as <- <-; left; eauto 10].
  destruct (bcrypt_CompareHashAndPassword _ _) eqn:Hpw; subst o; [|injection E as <- <-; left; eauto 10].
  apply admin_by_name_Some in Hu as [Hu Hname]; [|done].
  unfold mbind at 1, M_bind at 1, try_, randomToken in E. cbn [fst snd] in E.
  destruct (ReadFull _ _ _) as [b|] eqn:Hb; [|injection E as <- <-; left; eauto 10].
  apply bind_Ok in E as (now & w1 & [= <- <-] & E).
  apply attempt_cases in E as [(st & m & [= ->] & ? & Hd)|(stored & d & Ec & E)]; [left|].
  { exists st, m. split_and!; [done| |done]. intros Hrep. destruct Hd as [|(? & Hl & _)]; [done|].
    by rewrite Hrep in Hl. }
  cbn [w_db set_db advance w_calls] in Ec.
  apply bind_Ok in E as ([] & w2 & [= <-] & [= <- <-]). right.
  exists input, id, u, (RawURLEncoding b). split_and!; [done..|].
  intros later c Hcookie. cbn [add_published w_db set_db advance].
  pose proof (create_session_wf _ _ _ _ _ _ _ _ Hwf Ec) as Hwf'.
  apply create_session_Ok in Ec as (_ & Hno & sid & Hsid & Eu & Es).
  unfold signed_in, sessionToken. rewrite Hcookie.
  assert (Htok : RawURLEncoding b <> "").
  { unfold ReadFull in Hb. destruct (env_rand _ _) as [f|]; [|done]. injection Hb as <-. apply RawURLEncoding_nonempty. }
  rewrite cookie_returns by (auto using RawURLEncoding_chars). rewrite bool_decide_eq_false_2 by done.
  cbn [mbind option_bind]. set (h := sha256_Sum256 _) in *. fold (expiry w) in Es.
  case_bool_decide as Ht.
  - erewrite (proj2 (session_row_Some d Hwf' _ _ sid _)).
    2: { rewrite Es, lookup_insert_eq. by split_and!. }
    cbn. rewrite Eu, Hu. cbn. by rewrite Hname.
  - rewrite (proj2 (session_row_None d _ _)); [done|]. intros i s. rewrite Es.
    intros [[_ <-]|[_ Hi]]%lookup_insert_Some Hh; [cbn; lia|]. by destruct (Hno i s Hi).
Qed.
End api_spec.

(** ** Commands *)







(** ** Metrics *)

(** A prefix contains the addresses of its family that agree with it above its host bits. *)
Lemma prefix_contains p ip :
  0 <= Netip.bits p <= Netip.bitlen (Netip.addr p) ->
  Netip.Contains p ip = true <->
  Netip.zone ip = [] /\ Netip.bitlen (Netip.addr p) = Netip.bitlen ip /\
  (forall n, Netip.bitlen ip - Netip.bits p <= n ->
     Z.testbit (Netip.value ip) n = Z.testbit (Netip.value (Netip.addr p)) n).
Proof.
  intros Hb. unfold Netip.Contains. rewrite !andb_true_iff, bool_decide_eq_true, !Z.eqb_eq. split.
  - intros [[Hzone Hl] Hz]. split_and!; [done..|]. intros n Hn.
    assert (Hbit : Z.testbit (Z.shiftr (Z.lxor (Netip.value ip) (Netip.value (Netip.addr p)))
                      (Netip.bitlen ip - Netip.bits p)) (n - (Netip.bitlen ip - Netip.bits p)) = false)
      by (rewrite Hz; apply Z.bits_0).
    rewrite Z.shiftr_spec, Z.sub_add, Z.lxor_spec in Hbit by lia. by apply xorb_eq in Hbit.
  - intros (Hzone & Hl & Hall). split; [done|]. apply Z.bits_inj'. intros n Hn.
    rewrite Z.bits_0, Z.shiftr_spec, Z.lxor_spec by lia. rewrite Hall by lia. apply xorb_nilpotent.
Qed.
