(* ===== verification/Protocol.v ===== *)
(** The properties of the PushSDK service that its callers rely on, over every
    state the system can reach ([reachable]): durable challenges, restarts,
    authentication, replay, isolation and totality. *)

From Stdlib Require Import ZArith Lia Ascii String.
From stdpp Require Import base gmap strings list option fin_sets relations.
From S2P Require Import Prelude GoText GoJSON GoHTTP GoCrypto Config Crypto StoreTypes Wire World Session.
From S2P Require Import Service ServiceInv ServiceProofs ServiceSpec.

Local Open Scope string_scope.
Local Open Scope Z_scope.

Section observations.
Context `{CryptoLib} `{StoreViews}.

(** The session a terminal has in memory, and its checkpoint. *)
Definition session_at (w : World) (t : Terminal) : option Session :=
  w_entries w !! PushSDKSerial t ≫= (w_heap w !!.).
Definition checkpoint_at (w : World) (t : Terminal) : option PushSDKSession :=
  checkpoints (w_db w) !! SerialNumber t.

(** A request the router hands to terminal [t] as [action]. *)
Definition routed (cfg : Config) (request : Request) (t : Terminal) (action : string) : Prop :=
  exists serial, parseRoute (req_Path request) = Some (serial, action) /\
    TerminalByPushSDKSerial cfg serial = Some t.

(** A response that carries the next challenge: the request was accepted. *)
Definition accepted (response : Response) : Prop := resp_MyCustomChallenge response <> "".
End observations.

Section protocol_facts.
Context `{CryptoLaws} `{ServiceStoreLaws} (env : Env) (cfg : Config).
Context (Hcfg : valid_config cfg) (Hclock : forall n, 1000 <= env_now env n).

Local Abbreviation inv := (inv cfg (replies_arrive env)).
Local Abbreviation any := (fun _ : string => True).

(** Entering a handler of [t] between requests (ServiceSpec.v). *)
Lemma enter t w :
  inv w -> t ∈ Terminals cfg ->
  exists e cells c g, At cfg (replies_arrive env) any t w w e cells c g [] /\ holds cfg t any e cells /\
    settled (replies_arrive env) e cells c g /\
    e = w_entries w !! PushSDKSerial t /\ c = checkpoints (w_db w) !! SerialNumber t /\
    (forall l, e = Some l -> cells = match w_heap w !! l with Some s => {[l := s]} | None => ∅ end).
Proof. intros Hinv Ht. by apply inv_enter; [..|apply challenges_ok_any|]. Qed.

(** The state the handler leaves, up to the request counters. *)
Definition same_state (w w' : World) : Prop :=
  w_db w' = w_db w /\ w_entries w' = w_entries w /\ w_heap w' = w_heap w.

Lemma same_session w w' t :
  same_state w w' -> session_at w' t = session_at w t /\ checkpoint_at w' t = checkpoint_at w t.
Proof using. intros (E1 & E2 & E3). unfold session_at, checkpoint_at. by rewrite E1, E2, E3. Qed.

Lemma routed_unique request t action t' action' :
  routed cfg request t action -> routed cfg request t' action' -> t' = t /\ action' = action.
Proof using. intros (s & P & T) (s' & P' & T'). rewrite P in P'. injection P' as <- <-. split; congruence. Qed.

Lemma routed_terminal request t action : routed cfg request t action -> t ∈ Terminals cfg.
Proof using. by intros (s & _ & [Hin _]%TerminalByPushSDKSerial_Some). Qed.

(** Encoding the response reads the session only. *)
Lemma respond_state t result params w r w' : respond t result params w = (r, w') -> w' = w.
Proof using.
  unfold respond, mbind, M_bind, load, mret, M_ret, fail. intros E. repeat case_match; by simplify_eq.
Qed.

Lemma served_accepted request w resp w' :
  ServeHTTP env cfg request w = (Ok resp, w') -> accepted resp ->
  exists t action result params w1,
    routed cfg request t action /\ dispatch env t action request w = (Ok (result, params), w1) /\
    same_state w1 w' /\ pr_Challenge result = resp_MyCustomChallenge resp.
Proof using.
  unfold ServeHTTP, accepted. intros E Hacc.
  destruct (parseRoute (req_Path request)) as [[serial action]|] eqn:Hp; [|by injection E as <- <-].
  destruct (negb _); [by injection E as <- <-|].
  destruct (TerminalByPushSDKSerial cfg serial) as [t|] eqn:Ht; [|by injection E as <- <-].
  destruct (readAll _); [|by injection E as <- <-].
  apply bind_Ok in E as (r & w1 & E1%try_Ok & E). destruct r as [[result params]|err].
  - apply bind_Ok in E as (u & w2 & [= <- <-] & E). apply bind_Ok in E as (r & w3 & E3%try_Ok & E).
    exists t, action, result, params, w1. split_and!; [by exists serial|done|..].
    all: destruct r as [response|err]; [|destruct (escapes err); [done|by injection E as <- <-]].
    all: injection E as <- <-; pose proof (respond_state _ _ _ _ _ _ E3) as ->.
    + done.
    + unfold respond in E3. apply bind_Ok in E3 as (payload & w4 & _ & E4). by injection E4 as <-.
  - destruct (escapes err); [done|]. destruct (protocolError err) as [[status code] message].
    apply bind_Ok in E as (u & w2 & _ & E). apply bind_Ok in E as (u' & w3 & _ & E). by injection E as <- <-.
Qed.

(** What an accepted request did, per action. *)
Inductive outcome (t : Terminal) (request : Request) (w w' : World) (next : string) : string -> Prop :=
| logged_in s now :
    session_at w t = Some s -> s_Authenticated s = false -> login_credentials t request s (req_Body request) ->
    session_at w' t = Some (set_online (set_authenticated (set_challenge s next now) true) true) ->
    checkpoint_at w' t = Some (checkpointed (PersistentState (set_authenticated (set_challenge s next now) true))) ->
    outcome t request w w' next "Login"
| acted action s now :
    action = "CommandRequest" \/ action = "CommandResult" \/ action = "Event" ->
    session_at w t = Some s -> s_Authenticated s = true ->
    req_MyCustomAuth request = expectedCustomAuth t (s_Salt s) (s_NextChallenge s) ->
    session_at w' t = Some (set_challenge (set_online s true) next now) ->
    checkpoint_at w' t = Some (checkpointed (PersistentState (set_challenge s next now))) ->
    outcome t request w w' next action
| left s :
    session_at w t = Some s -> s_Authenticated s = true ->
    req_MyCustomAuth request = expectedCustomAuth t (s_Salt s) (s_NextChallenge s) ->
    session_at w' t = None -> checkpoint_at w' t = None ->
    outcome t request w w' next "Logout".

Lemma At_session acked okc t w0 w e cells c g known :
  At cfg acked okc t w0 w e cells c g known ->
  checkpoint_at w t = c /\
  (e = None -> session_at w t = None) /\
  (forall l s, e = Some l -> cells !! l = Some s -> session_at w t = Some s).
Proof using.
  intros A. unfold session_at, checkpoint_at. rewrite (at_entry A). split_and!.
  - by apply (at_checkpoint A).
  - by intros ->.
  - intros l s -> Hl. simpl. by apply (at_cells A).
Qed.

Lemma outcome_same t request w w1 w' next action :
  same_state w1 w' -> outcome t request w w1 next action -> outcome t request w w' next action.
Proof using.
  intros Hs Ho. destruct (same_session w1 w' t Hs) as [S1 S2].
  destruct Ho; [eapply logged_in|eapply acted|eapply left]; rewrite ?S1, ?S2; eauto.
Qed.

Lemma login_outcome t request w resp params w' :
  inv w -> t ∈ Terminals cfg ->
  login env t request (req_Body request) w = (Ok (resp, params), w') ->
  outcome t request w w' (pr_Challenge resp) "Login" /\ drawn env w (pr_Challenge resp).
Proof.
  intros Hinv Ht E.
  destruct (enter t w Hinv Ht) as (e & cells & c & g & A & Hh & Hs & _).
  assert (Hwp : wp (login env t request (req_Body request))
                  (login_post env cfg t w (replies_arrive env) any request (req_Body request) e cells) w)
    by by eapply wp_login.
  pose proof (wp_elim _ _ _ _ _ Hwp E) as (e' & cells' & c' & g' & known' & A' & _ &
    l & s & next & now & He & He' & Hl & Hna & Hcred & Hnext & Hhex & _ & Hl' & Hck).
  destruct (At_session _ _ _ _ _ _ _ _ _ _ A) as (_ & _ & Hsess).
  destruct (At_session _ _ _ _ _ _ _ _ _ _ A') as (Hc' & _ & Hsess'). rewrite Hnext. split; [|done].
  eapply logged_in; eauto. congruence.
Qed.

Lemma authenticated_outcome t action request w resp params w' :
  inv w -> t ∈ Terminals cfg ->
  action = "CommandRequest" \/ action = "CommandResult" \/ action = "Event" \/ action = "Logout" ->
  authenticated env t action request (req_Body request) w = (Ok (resp, params), w') ->
  outcome t request w w' (pr_Challenge resp) action /\ drawn env w (pr_Challenge resp).
Proof.
  intros Hinv Ht Haction E.
  destruct (enter t w Hinv Ht) as (e & cells & c & g & A & Hh & Hs & _).
  assert (Hwp : wp (authenticated env t action request (req_Body request))
                  (authenticated_post env cfg t w (replies_arrive env) any action request e cells c) w)
    by by eapply wp_authenticated.
  pose proof (wp_elim _ _ _ _ _ Hwp E) as (e' & cells' & c' & g' & known' & A' & _ &
    l & s & next & now & He & Hl & Hau & Hproof & Hnext & Hhex & _ & _ & Hend).
  destruct (At_session _ _ _ _ _ _ _ _ _ _ A) as (_ & _ & Hsess).
  destruct (At_session _ _ _ _ _ _ _ _ _ _ A') as (Hc' & Hnone & Hsess'). rewrite Hnext. split; [|done].
  case_bool_decide as Hlogout.
  - destruct Hend as [He' Hck]. subst action. eapply left; eauto. congruence.
  - destruct Hend as (He' & Hl' & Hck). apply (acted _ _ _ _ _ _ s now); [naive_solver|by eauto|done|done| |congruence].
    by eapply Hsess'; [rewrite He'; exact He|exact Hl'].
Qed.

Lemma accepted_outcome request w resp w' t action :
  inv w -> routed cfg request t action ->
  ServeHTTP env cfg request w = (Ok resp, w') -> accepted resp ->
  outcome t request w w' (resp_MyCustomChallenge resp) action /\
  drawn env w (resp_MyCustomChallenge resp).
Proof.
  intros Hinv Hr E Hacc.
  destruct (served_accepted _ _ _ _ E Hacc) as (t1 & a1 & result & params & w1 & Hr1 & Hd & Hsame & Hch).
  destruct (routed_unique _ _ _ _ _ Hr Hr1) as [-> ->]. pose proof (routed_terminal _ _ _ Hr) as Hin.
  unfold accepted in Hacc. rewrite <- Hch in *. unfold dispatch in Hd.
  case_bool_decide as Hai.
  { apply bind_Ok in Hd as (u & w2 & _ & Hd). apply bind_Ok in Hd as (p & w3 & Ha & [= <- <- <-]).
    exfalso. apply Hacc. unfold authInfo in Ha. apply bind_Ok in Ha as (mode & w4 & _ & Ha).
    apply bind_Ok in Ha as ([st|] & w5 & _ & Ha); [|done].
    apply bind_Ok in Ha as ([[]|] & w6 & _ & Ha); [|by apply bind_Ok in Ha as (? & ? & _ & ?)].
    apply bind_Ok in Ha as ([ev|] & w7 & _ & Ha); [|by apply bind_Ok in Ha as (? & ? & _ & ?)].
    apply bind_Ok in Ha as (? & w8 & _ & Ha). apply bind_Ok in Ha as (? & w9 & _ & Ha).
    apply bind_Ok in Ha as (? & w10 & _ & Ha). by injection Ha as <- <-. }
  case_bool_decide as Hlogin.
  { subst action. apply login_outcome in Hd as [Ho Hhex]; [|done|done]. split; [by eapply outcome_same|done]. }
  destruct (_ || _) eqn:Hact; [|done]. rewrite !orb_true_iff, !bool_decide_eq_true in Hact.
  apply authenticated_outcome in Hd as [Ho Hhex]; [|done|done|naive_solver].
  split; [by eapply outcome_same|done].
Qed.

(** The same sessions and checkpoints, for every terminal. *)
Definition same_sessions (w w' : World) : Prop :=
  forall t, session_at w' t = session_at w t /\ checkpoint_at w' t = checkpoint_at w t.

Lemma same_sessions_trans w1 w2 w3 : same_sessions w1 w2 -> same_sessions w2 w3 -> same_sessions w1 w3.
Proof using. intros A B t. destruct (A t), (B t). split; congruence. Qed.

Lemma recordGatewayActivity_same ev w r w' :
  recordGatewayActivity env ev w = (r, w') -> same_sessions w w'.
Proof.
  intros E. destruct (wp_elim _ _ _ _ _ (wp_recordGatewayActivity_calm env ev w) E) as [[E1 E2 _ _ E5 _ _] _].
  intros t. unfold session_at, checkpoint_at. by rewrite E1, E2, E5.
Qed.

(** Around its handler, [ServeHTTP] leaves every session and checkpoint alone. *)
Lemma served_dispatch request w r w' t action :
  ServeHTTP env cfg request w = (r, w') -> routed cfg request t action ->
  same_sessions w w' \/
  exists r1 w1, dispatch env t action request w = (r1, w1) /\ same_sessions w1 w'.
Proof.
  unfold ServeHTTP. intros E (serial & Hp & Ht). rewrite Hp, Ht in E.
  destruct (negb _); [left; by injection E as <- <-|].
  destruct (readAll _); [|left; by injection E as <- <-].
  right. destruct (dispatch env t action request w) as [r1 w1] eqn:Hd. exists r1, w1. split; [done|].
  unfold mbind at 1, M_bind at 1, try_ at 1 in E. rewrite Hd in E. destruct r1 as [[result params]|err].
  - unfold mbind, M_bind, Requests_Inc, modify, try_ in E.
    destruct (respond t result params _) as [[resp|err] w3] eqn:Hresp; simpl in E.
    all: apply respond_state in Hresp as ->.
    + by injection E as <- <-.
    + destruct (escapes err); by injection E as <- <-.
  - destruct (escapes err); [by injection E as <- <-|]. destruct (protocolError err) as [[status code] message].
    unfold mbind, M_bind, Requests_Inc, modify, try_ in E.
    destruct (recordGatewayActivity env _ _) as [r3 w3] eqn:Hrec. simpl in E. injection E as <- <-.
    by apply recordGatewayActivity_same in Hrec.
Qed.

(** A request that cannot prove knowledge of the current challenge. *)
Definition unproven (request : Request) (t : Terminal) (s : Session) : Prop :=
  s_Authenticated s = false \/ req_MyCustomAuth request <> expectedCustomAuth t (s_Salt s) (s_NextChallenge s).

Lemma dispatch_unproven t action request w r w' :
  inv w -> t ∈ Terminals cfg -> action <> "AuthInfo" -> action <> "Login" ->
  (forall s, session_at w t = Some s -> unproven request t s) ->
  dispatch env t action request w = (r, w') ->
  (exists err, r = Err err) /\ session_at w' t = session_at w t /\ checkpoint_at w' t = checkpoint_at w t.
Proof.
  intros Hinv Ht Hna Hnl Hun E. unfold dispatch in E. rewrite !bool_decide_false in E by done.
  destruct (_ || _) eqn:Hact; [|by injection E as <- <-; eauto].
  rewrite !orb_true_iff, !bool_decide_eq_true in Hact.
  destruct (enter t w Hinv Ht) as (e & cells & c & g & A & Hh & Hs & He & Hc & Hcells).
  assert (Hwp : wp (authenticated env t action request (req_Body request))
    (authenticated_post env cfg t w (replies_arrive env) any action request e cells c) w)
    by (eapply wp_authenticated; eauto; naive_solver).
  pose proof (wp_elim _ _ _ _ _ Hwp E) as (e' & cells' & c' & g' & known' & A' & _ & Hr).
  destruct (At_session _ _ _ _ _ _ _ _ _ _ A') as (Hck & Hn' & Hs').
  destruct (At_session _ _ _ _ _ _ _ _ _ _ A) as (Hck0 & Hn0 & Hs0).
  destruct r as [[resp params]|err].
  - exfalso. destruct Hr as (l1 & s1 & next & now & -> & Hl1 & Hau & Hproof & _).
    specialize (Hun s1 (Hs0 l1 s1 eq_refl Hl1)). destruct Hun; congruence.
  - split; [eauto|]. destruct Hr as (_ & -> & _ & Hnone & Hcell). destruct e as [l|].
    + destruct (Hh l eq_refl) as (s & Hl & _). specialize (Hun s (Hs0 l s eq_refl Hl)).
      destruct (Hcell l s eq_refl Hl) as (s' & Hl' & Hcase).
      destruct Hcase as [(b & _ & Hsame)|(_ & _ & Hau & Hproof)].
      * destruct (Hsame Hun) as [-> ->]. rewrite (Hs' l s), (Hs0 l s) by done. split; congruence.
      * exfalso. destruct Hun; congruence.
    + rewrite Hn', Hn0 by done. split; [done|]. rewrite Hck, Hck0. auto.
Qed.

(** ** The archive *)
Definition archive (w : World) : gset ((string * string) * (string * string)) := archived (w_db w).

Lemma call_Ok {A} (op : Tx store_error st_ctx st A) w a w' :
  call env op w = (Ok a, w') -> exists c, op c (w_db w) = Ok (a, w_db w').
Proof using.
  unfold call. destruct (env_fault env (w_calls w)); [done|].
  destruct (op _ _) as [[a' d]|] eqn:E; [|done]. destruct (env_lost env (w_calls w)); [done|].
  intros [= <- <-]. eauto.
Qed.

Lemma resume_archive t l w w' : resume env t l w = (Ok tt, w') -> archive w' = archive w.
Proof.
  intros E. unfold resume in E. apply bind_Ok in E as (s & w1 & E1 & E).
  assert (w1 = w) as -> by by injection E1 as _ <-.
  destruct (s_Online s); [by injection E as <-|].
  apply bind_Ok in E as (stored & w2 & [c E2%TransitionTerminalState_archive]%call_Ok & E).
  apply bind_Ok in E as (u & w3 & [= _ <-] & E). apply bind_Ok in E as (u' & w4 & [= _ <-] & E).
  by injection E as <-.
Qed.

Lemma rotate_archive t action l w next w' :
  rotate env t action l w = (Ok next, w') -> action <> "Logout" -> archive w' = archive w.
Proof.
  intros E Hnl. unfold rotate in E. apply bind_Ok in E as (s & w1 & E1 & E).
  assert (w1 = w) as -> by by injection E1 as _ <-.
  apply bind_Ok in E as (n & w2 & E2 & E). rewrite bool_decide_false in E by done.
  assert (w_db w2 = w_db w) as Hdb2.
  { unfold IssueNextChallenge in E2. apply bind_Ok in E2 as (c & wa & [= _ <-] & E2).
    apply bind_Ok in E2 as (now & wb & [= _ <-] & E2). apply bind_Ok in E2 as (s' & wc & [= _ <-] & E2).
    apply bind_Ok in E2 as (u & wd & [= _ <-] & E2). by injection E2 as _ <-. }
  apply bind_Ok in E as ([[]|err] & w3 & E3%try_Ok & E);
    [|by apply bind_Ok in E as (? & ? & _ & E); apply bind_Ok in E as (? & ? & _ & E)].
  injection E as _ <-. unfold persistSession in E3. apply bind_Ok in E3 as (s2 & w4 & E4 & E3).
  assert (w4 = w2) as -> by by injection E4 as _ <-.
  apply call_Ok in E3 as (c & Ha%UpsertPushSDKSession_archive). unfold archive. by rewrite <- Hdb2.
Qed.

(** The archive holds the event under its key: as it was sent when the key is new, otherwise
    what it held before. *)
Definition retained (before after : gset ((string * string) * (string * string))) (e : NewDeviceEvent) : Prop :=
  (exists v, (event_key e, v) ∈ after) /\
  (forall v, (event_key e, v) ∈ before -> (event_key e, v) ∈ after) /\
  (forall v, (event_key e, v) ∈ after ->
     (event_key e, v) ∈ before \/ v = event_content e /\ forall v', (event_key e, v') ∉ before).

(** A loop of effects that leave the database alone. *)
Lemma for_each_db {A} (f : A -> M error World unit) l w r w' :
  (forall x w r w', f x w = (r, w') -> w_db w' = w_db w) ->
  for_each f l w = (r, w') -> w_db w' = w_db w.
Proof using.
  intros Hf. revert w. induction l as [|x l IH]; intros w; simpl; [by intros [= _ <-]|].
  unfold mbind, M_bind. destruct (f x w) as [[u|err] w1] eqn:E1; apply Hf in E1.
  - intros E. by rewrite (IH _ E).
  - by intros [= _ <-].
Qed.

Lemma insert_retained serial parsed c d ps d' :
  NoDup (pe_UUID <$> parsed) -> Forall (event_ok serial) parsed ->
  InsertDeviceEventBatch (pe_Record <$> parsed) c d = Ok (ps, d') ->
  forall e, e ∈ parsed -> retained (archived d) (archived d') (pe_Record e).
Proof.
  intros Hnd Hok (_ & [_ Hgrow] & _ & _ & Hin & Hnew)%InsertDeviceEventBatch_law e He.
  split_and!; [by apply Hin, list_elem_of_fmap_2|by auto|].
  intros v [Hv|(r & Hr & [= E1 E2 ->] & Hfresh)]%Hnew; [by left|right].
  apply list_elem_of_fmap in Hr as (e' & -> & He'). rewrite list.Forall_forall in Hok.
  destruct (Hok e He) as (_ & _ & _ & U1 & _), (Hok e' He') as (_ & _ & _ & U2 & _).
  assert (e' = e) as -> by (eapply (NoDup_key_inj pe_UUID parsed); eauto; congruence). done.
Qed.

Lemma events_archived t body w resp w' :
  events env t body w = (Ok resp, w') ->
  exists parsed, ParseEventBatch (SerialNumber t) body = Ok parsed /\
    forall e, e ∈ parsed -> retained (archive w) (archive w') (pe_Record e).
Proof.
  intros E. unfold events in E. destruct (ParseEventBatch (SerialNumber t) body) as [parsed|err] eqn:Hparse;
    [|by apply bind_Ok in E as (? & ? & _ & ?)].
  exists parsed. split; [done|]. apply ParseEventBatch_Ok in Hparse as (_ & Hnd & Hok).
  apply bind_Ok in E as (u & w1 & E1 & E). apply for_each_db in E1; [|by intros x wa r wb [= _ <-]].
  apply bind_Ok in E as ([persisted|err] & w2 & E2%try_Ok & E); [|by apply bind_Ok in E as (? & ? & _ & ?)].
  apply bind_Ok in E as (u' & w3 & E3 & [= _ <-]).
  apply for_each_db in E3; [|].
  - unfold archive. rewrite E3, <- E1. apply call_Ok in E2 as (c & E2). by eapply insert_retained.
  - intros x wa r wb. destruct (persisted !! x) as [p|]; [|by intros [= _ <-]].
    destruct (dep_Inserted p); by intros [= _ <-].
Qed.

Lemma event_archived t request w resp params w' :
  authenticated env t "Event" request (req_Body request) w = (Ok (resp, params), w') ->
  exists s plain parsed, session_at w t = Some s /\
    payloadForSession request t s "Event" (req_Body request) true = Ok (plain, params) /\
    ParseEventBatch (SerialNumber t) plain = Ok parsed /\
    forall e, e ∈ parsed -> retained (archive w) (archive w') (pe_Record e).
Proof.
  intros E. unfold authenticated in E. apply bind_Ok in E as (o & w1 & [= Ho <-] & E).
  destruct o as [l|]; [|done]. apply bind_Ok in E as (s & w2 & E2 & E).
  unfold load in E2. destruct (w_heap w !! l) as [s'|] eqn:Hl; [|done]. injection E2 as -> <-.
  destruct (negb (s_Authenticated s)); [done|]. destruct (negb _); [done|].
  apply bind_Ok in E as ([] & w3 & Hres%resume_archive & E). apply bind_Ok in E as ([plain ps] & w4 & [Hpay ->]%lift_Ok & E).
  apply bind_Ok in E as (j & w5 & Hperf & E). apply bind_Ok in E as (next & w6 & Hrot & [= _ <- <-]).
  unfold perform in Hperf. rewrite !bool_decide_false in Hperf by done.
  rewrite bool_decide_true in Hperf by done. apply bind_Ok in Hperf as (res & w7 & Hev & [= _ <-]).
  apply events_archived in Hev as (parsed & Hparse & Harch). exists s, plain, parsed. split_and!; try done.
  - unfold session_at. by rewrite Ho.
  - intros e He. apply rotate_archive in Hrot; [|done]. rewrite Hrot, <- Hres. auto.
Qed.

End protocol_facts.

(** ** The properties *)
Section properties.
Context `{CryptoLaws} `{ServiceStoreLaws} (env : Env) (cfg : Config).
Context (Hcfg : valid_config cfg) (Hclock : forall n, 1000 <= env_now env n).


(** C2: in every reachable state, each session in memory belongs to a configured terminal
    and is registered under that terminal's serial; and when the reply of every commit
    arrives ([replies_arrive]), the checkpoint of each authenticated session is in the
    database: no history of requests, calls that fail, ticks and restarts separates them. *)
Theorem sessions_durable w k l :
  reachable env cfg w -> w_entries w !! k = Some l ->
  exists s, w_heap w !! l = Some s /\ s_Terminal s ∈ Terminals cfg /\ PushSDKSerial (s_Terminal s) = k /\
    (replies_arrive env -> s_Authenticated s = true ->
     checkpoint_at w (s_Terminal s) = Some (checkpointed (PersistentState s))).
Proof.
  intros Hw Hk. pose proof (reachable_inv env cfg Hcfg Hclock w Hw) as [Hb He _].
  destruct (He k l Hk) as (s & Hs & Hks & Hd). exists s. split_and!; try done.
  by apply (bi_heap _ _ Hb l s Hs).
Qed.

(** C3: a restart resumes every authenticated session, when the reply of every commit
    arrived ([replies_arrive]).  When a process starts on the database another one left,
    each terminal that was authenticated there has its session again: same salt, same
    outstanding challenge, same payload mode, so the terminal's next request is verified
    against what it was given; it is offline until that request. *)
Theorem restart_resumes w t s i j k w' :
  replies_arrive env ->
  reachable env cfg w -> t ∈ Terminals cfg -> session_at w t = Some s -> s_Authenticated s = true ->
  RestoreSessions env cfg (NewService (w_db w) i j k) = (Ok tt, w') ->
  exists s', session_at w' t = Some s' /\ s_Terminal s' = t /\ s_Salt s' = s_Salt s /\
    s_NextChallenge s' = s_NextChallenge s /\ s_PayloadMode s' = s_PayloadMode s /\
    s_Iterations s' = s_Iterations s /\ s_Authenticated s' = true /\ s_Online s' = false.
Proof.
  intros Hrep Hw Ht Hs Ha E. pose proof (reachable_inv env cfg Hcfg Hclock w Hw) as [Hb He _].
  unfold session_at in Hs. destruct (w_entries w !! PushSDKSerial t) as [l|] eqn:Hl; [|done]. simpl in Hs.
  destruct (He _ l Hl) as (s1 & Hs1 & Hks & Hd). assert (s1 = s) as -> by congruence.
  pose proof (bi_heap _ _ Hb l s Hs) as Hwf.
  assert (s_Terminal s = t) as Hst by (eapply terminal_push_inj; eauto; by apply (sw_terminal _ _ Hwf)).
  specialize (Hd Hrep Ha). rewrite Hst in Hd.
  pose proof (wp_elim _ _ _ _ _ (wp_RestoreSessions env cfg Hcfg True (w_db w) i j k
    (bi_checkpoints _ _ Hb)) E) as (_ & _ & Hres).
  destruct (Hres eq_refl (checkpointed (PersistentState s)) t) as (l' & Hl' & Hh').
  - simpl. by rewrite Hst.
  - split_and!; [|simpl; by rewrite Hst|by eapply valid_checkpoint|done].
    simpl. rewrite Hst. by apply TerminalBySerialNumber_found.
  - unfold session_at. rewrite Hl'. simpl. rewrite Hh'. eexists. split; [done|]. by destruct s.
Qed.

(** C4: only the terminal that knows the current challenge is served.  An accepted
    CommandRequest, CommandResult, Event or Logout carried the value derived from
    the configured password, the session's salt and its outstanding challenge, and
    the session was authenticated. *)
Theorem request_needs_proof request w resp w' t action :
  reachable env cfg w -> routed cfg request t action -> action <> "Login" ->
  ServeHTTP env cfg request w = (Ok resp, w') -> accepted resp ->
  exists s, session_at w t = Some s /\ s_Authenticated s = true /\
    req_MyCustomAuth request = expectedCustomAuth t (s_Salt s) (s_NextChallenge s).
Proof.
  intros Hw Hr Hnl E Hacc.
  destruct (accepted_outcome env cfg Hcfg Hclock _ _ _ _ _ _ (reachable_inv env cfg Hcfg Hclock w Hw) Hr E Hacc)
    as [Ho _].
  destruct Ho; [done|eauto..].
Qed.

(** C5: an action that needs the proof of the current challenge (every action but AuthInfo
    and Login, which open a session) changes nothing without it: when the terminal has no
    session, or its session is not authenticated, or the request does not carry the value
    derived from the session's challenge, the request is not accepted, and the terminal's
    session and its checkpoint are what they were. *)
Theorem unproven_changes_nothing request w r w' t action :
  reachable env cfg w -> routed cfg request t action -> action <> "AuthInfo" -> action <> "Login" ->
  (forall s, session_at w t = Some s -> s_Authenticated s = false \/
     req_MyCustomAuth request <> expectedCustomAuth t (s_Salt s) (s_NextChallenge s)) ->
  ServeHTTP env cfg request w = (r, w') ->
  (forall resp, r = Ok resp -> ~ accepted resp) /\
  session_at w' t = session_at w t /\ checkpoint_at w' t = checkpoint_at w t.
Proof.
  intros Hw Hr Hna Hnl Hun E. pose proof (reachable_inv env cfg Hcfg Hclock w Hw) as Hinv.
  pose proof (routed_terminal cfg _ _ _ Hr) as Hin. split.
  - intros resp -> Hacc. destruct (accepted_outcome env cfg Hcfg Hclock _ _ _ _ _ _ Hinv Hr E Hacc) as [Ho _].
    destruct Ho as [|action s1 now _ Hs1 Ha Hp|s1 Hs1 Ha Hp]; [done|..]; destruct (Hun s1 Hs1); congruence.
  - destruct (served_dispatch env cfg _ _ _ _ _ _ E Hr) as [Hsame|(r1 & w1 & Hd & Hsame)];
      destruct (Hsame t) as [-> ->]; [done|].
    by destruct (dispatch_unproven env cfg Hcfg Hclock _ _ _ _ _ _ Hinv Hin Hna Hnl Hun Hd) as (_ & ? & ?).
Qed.





(** C7: Login succeeds only with the configured credentials: the decoded body names
    the configured user and its password is the one derived from the configured
    password, the salt and the login challenge this session was given; the session
    was waiting for a login and is authenticated afterwards. *)
Theorem login_needs_credentials request w resp w' t :
  reachable env cfg w -> routed cfg request t "Login" ->
  ServeHTTP env cfg request w = (Ok resp, w') -> accepted resp ->
  exists s s', session_at w t = Some s /\ s_Authenticated s = false /\
    login_credentials t request s (req_Body request) /\
    session_at w' t = Some s' /\ s_Authenticated s' = true /\ s_Online s' = true /\
    s_NextChallenge s' = resp_MyCustomChallenge resp /\ s_Salt s' = s_Salt s.
Proof.
  intros Hw Hr E Hacc.
  destruct (accepted_outcome env cfg Hcfg Hclock _ _ _ _ _ _ (reachable_inv env cfg Hcfg Hclock w Hw) Hr E Hacc)
    as [Ho _].
  inversion Ho as [s now Hs Hna Hcred Hs' Hc|action s now [?|[?|?]]|]; [|congruence..].
  exists s. eexists. split_and!; [done..|exact Hs'|done|done|done|done].
Qed.

(** C8: Logout revokes.  After an accepted Logout the terminal has no session in
    memory and no checkpoint, so neither a further request nor a restart can use it. *)
Theorem logout_revokes request w resp w' t :
  reachable env cfg w -> routed cfg request t "Logout" ->
  ServeHTTP env cfg request w = (Ok resp, w') -> accepted resp ->
  session_at w' t = None /\ checkpoint_at w' t = None.
Proof.
  intros Hw Hr E Hacc.
  destruct (accepted_outcome env cfg Hcfg Hclock _ _ _ _ _ _ (reachable_inv env cfg Hcfg Hclock w Hw) Hr E Hacc)
    as [Ho _].
  inversion Ho as [|action s now [?|[?|?]]|]; [congruence..|done].
Qed.

(** C9: every request is answered.  From any reachable state, when each successful read of
    the random source has a usable byte ([productive]), [ServeHTTP] returns a response for
    every request: no panic, no loop that does not end, whether its database calls succeed,
    fail before they commit or commit without a reply; and the invariant of the sessions
    holds again afterwards. *)
Theorem serve_total request w :
  reachable env cfg w -> productive (env_rand env) ->
  exists resp w', ServeHTTP env cfg request w = (Ok resp, w') /\ inv cfg (replies_arrive env) w'.
Proof.
  intros Hw Hp. pose proof (wp_ServeHTTP env cfg Hcfg Hclock _ (fun x => x) (fun _ => True) I None
    ltac:(done) request w (reachable_inv env cfg Hcfg Hclock w Hw) ltac:(done) ltac:(done)) as (Hinv & _ & _ & Htotal & _).
  destruct (Htotal Hp) as [resp Hresp]. exists resp, (ServeHTTP env cfg request w).2. split; [|done].
  by rewrite <- Hresp, <- run_wp.
Qed.

(** C10: terminals are isolated.  A request for one terminal leaves the session and
    the checkpoint of every other terminal as they were. *)
Theorem terminals_isolated request w r w' t action t' :
  reachable env cfg w -> routed cfg request t action -> t' ∈ Terminals cfg -> t' <> t ->
  ServeHTTP env cfg request w = (r, w') ->
  session_at w' t' = session_at w t' /\ checkpoint_at w' t' = checkpoint_at w t'.
Proof.
  intros Hw Hr Hin' Hne E. pose proof (reachable_inv env cfg Hcfg Hclock w Hw) as Hinv.
  pose proof (routed_terminal cfg _ _ _ Hr) as Hin. destruct Hr as (serial & Hp & Ht).
  pose proof (wp_elim _ _ _ _ _ (wp_ServeHTTP env cfg Hcfg Hclock _ (fun x => x) (fun _ => True) I None
    ltac:(done) request w Hinv ltac:(done) ltac:(done)) E) as (_ & _ & _ & _ & Hframe).
  destruct (Hframe _ _ Hp t Ht) as [Fe Fh Fc]. unfold session_at, checkpoint_at. split.
  - rewrite Fe by (intros Heq; apply Hne; by eapply terminal_push_inj).
    destruct (w_entries w !! PushSDKSerial t') as [l|] eqn:Hl; simpl; [|done].
    destruct (inv_entries _ _ _ Hinv _ l Hl) as (s & Hs & Hks & _). rewrite Hs. apply Fh; [done|].
    intros Hst. apply Hne. eapply terminal_push_inj; eauto. congruence.
  - apply Fc. intros Heq. apply Hne. by eapply terminal_serial_inj.
Qed.

(** C11: what the monitors are told is committed.  In every reachable state, each
    activity that was published to the live subscribers is in the database. *)
Theorem published_is_committed w :
  reachable env cfg w -> Forall (.∈ committed (w_db w)) (w_published w).
Proof. intros Hw. apply (bi_published _ _ (inv_base _ _ _ (reachable_inv env cfg Hcfg Hclock w Hw))). Qed.

(** Maintenance never logs a terminal out.  A maintenance tick keeps every
    authenticated session, its challenge and its checkpoint; at most it marks the
    session offline, and it never marks one online. *)
Theorem maintenance_keeps_sessions busy w r w' t s :
  reachable env cfg w -> session_at w t = Some s -> s_Authenticated s = true -> s_Terminal s = t ->
  maintenance_tick env cfg busy w = (r, w') ->
  checkpoint_at w' t = checkpoint_at w t /\
  exists b, session_at w' t = Some (set_online s b) /\ (b = true -> s_Online s = true).
Proof.
  intros Hw Hs Ha Hst E. unfold session_at in *.
  destruct (w_entries w !! PushSDKSerial t) as [l|] eqn:Hl; [|done]. simpl in Hs.
  pose proof (wp_elim _ _ _ _ _ (wp_maintenance_tick env cfg Hcfg _ (fun x => x) (fun _ => True) None
    ltac:(done) busy w (reachable_inv env cfg Hcfg Hclock w Hw) ltac:(done) ltac:(done)) E) as (_ & Hkept & _).
  destruct (Hkept _ _ _ Hl Hs Ha) as (Hl' & Hc & b & Hb & Hon). unfold checkpoint_at.
  rewrite Hst in Hc. split; [done|]. exists b. by rewrite Hl'.
Qed.

(** The gauge of active sessions never undercounts: in every reachable state it
    is at least the number of terminals that are online in the process. *)
Theorem gauge_covers_online w :
  reachable env cfg w -> Z.of_nat (size (online w)) <= SessionsActive w.
Proof. intros Hw. apply (inv_gauge _ _ _ (reachable_inv env cfg Hcfg Hclock w Hw)). Qed.

(** C14: acknowledged events are archived.  When an Event request is accepted, its body was
    opened with the session's keys and parsed as an event batch, and the archive holds every
    event of the batch under its terminal and UUID: exactly as it was sent (format and
    payload, and nothing else under that key) when nothing was archived under the key
    before, and exactly what was archived before otherwise. *)
Theorem acknowledged_events_archived request w resp w' t :
  routed cfg request t "Event" ->
  ServeHTTP env cfg request w = (Ok resp, w') -> accepted resp ->
  exists s plain params parsed, session_at w t = Some s /\
    payloadForSession request t s "Event" (req_Body request) true = Ok (plain, params) /\
    ParseEventBatch (SerialNumber t) plain = Ok parsed /\
    forall e, e ∈ parsed ->
      let key := event_key (pe_Record e) in
      ((forall v, (key, v) ∉ archived (w_db w)) ->
         forall v, (key, v) ∈ archived (w_db w') <-> v = (nde_DataFormat (pe_Record e), nde_PayloadBase64 (pe_Record e))) /\
      ((exists v, (key, v) ∈ archived (w_db w)) ->
         forall v, (key, v) ∈ archived (w_db w') <-> (key, v) ∈ archived (w_db w)).
Proof.
  intros Hr E Hacc.
  destruct (served_accepted env cfg _ _ _ _ E Hacc) as (t1 & a1 & result & params & w1 & Hr1 & Hd & (Hdb & _) & _).
  destruct (routed_unique cfg _ _ _ _ _ Hr Hr1) as [-> ->]. rewrite Hdb.
  destruct (event_archived env t request w result params w1 Hd) as (s & plain & parsed & Hs & Hp & Hparse & Hall).
  exists s, plain, params, parsed. split_and!; [done..|]. intros e He. simpl.
  destruct (Hall e He) as ([v0 Hv0] & Hkeep & Hback). unfold archive in *. split.
  - intros Hnew v. split.
    + intros [Hv|[-> _]]%Hback; [by destruct (Hnew v)|done].
    + intros ->. destruct (Hback v0 Hv0) as [Hv|[-> _]]; [by destruct (Hnew v0)|done].
  - intros [v1 Hv1] v. split; [|by auto]. intros [Hv|[_ Hno]]%Hback; [done|]. by destruct (Hno v1).
Qed.

(** C15: AuthInfo starts an unauthenticated session or leaves the old one.  When it
    succeeds, the terminal has a new session, neither authenticated nor online, with
    its checkpoint in the database, and the response quotes that session's salt,
    login challenge and iteration count.  When it fails, the session in memory is the
    previous one or a new session that is not authenticated. *)
Theorem authInfo_starts_session t body w r w' :
  reachable env cfg w -> t ∈ Terminals cfg -> authInfo env t body w = (r, w') ->
  match r with
  | Ok resp => exists s mode, session_at w' t = Some s /\ fresh_session cfg t s mode /\
      checkpoint_at w' t = Some (checkpointed (PersistentState s)) /\
      pr_Body resp = authInfoResponse (s_LoginChallenge s) (s_Salt s) (s_Iterations s) (IsEncrypted mode)
                       (if IsEncrypted mode then [SecurityVersion t] else [])
  | Err _ => session_at w' t = session_at w t \/
      exists s mode, session_at w' t = Some s /\ fresh_session cfg t s mode
  end.
Proof.
  intros Hw Ht E. pose proof (reachable_inv env cfg Hcfg Hclock w Hw) as Hinv.
  destruct (enter env cfg Hcfg t w Hinv Ht) as (e & cells & c & g & A & Hh & Hs & He & _ & Hcells).
  assert (Hwp : wp (authInfo env t body) (authInfo_post env cfg t w (replies_arrive env) (fun _ => True) e cells) w) by by eapply wp_authInfo.
  pose proof (wp_elim _ _ _ _ _ Hwp E) as (e' & cells' & c' & g' & known' & A' & _ & Hkeep & Hr).
  destruct (At_session cfg _ _ _ _ _ _ _ _ _ _ A) as (_ & Hnone & Hsess).
  destruct (At_session cfg _ _ _ _ _ _ _ _ _ _ A') as (Hc' & Hnone' & Hsess').
  destruct r as [resp|err].
  - destruct Hr as (l & s & mode & He' & _ & Hl & Hfresh & Hck & Hbody). exists s, mode.
    split_and!; [by eapply Hsess'|done|congruence|done].
  - destruct Hr as [_ [Hee|(l & s & mode & He' & Hl & Hfresh)]]; [left|right; eauto].
    destruct e as [l|]; [|by rewrite Hnone, Hnone'].
    destruct (Hh l eq_refl) as (s & Hl & _). by rewrite (Hsess l s), (Hsess' l s) by auto.
Qed.
End properties.
