(* ===== verification/StoreProperties.v ===== *)
(** The properties of the store: it implements the interface of the service, a
    command is handed out at most once and in order, results are final, every
    page of a retained-event run is accounted for, and leases are exclusive. *)

From Stdlib Require Import ZArith Lia Ascii String.
From stdpp Require Import base gmap strings list option sorting relations.
From S2P Require Import Prelude GoText GoTime GoJSON GoCrypto AccessControl Config Crypto StoreTypes Wire.
From S2P Require Import GoHTTP GoURL Attachments Backfills.
From S2P Require Import Database StoreCore Deliveries Worker Archive CommandQueue SyncRuns Commands StoreFrame.
From S2P Require Import CommandProofs SyncProofs DeliveryProofs World StoreInstance Session Service ServiceInv.
From S2P Require Import ServiceSpec.

Local Open Scope string_scope.
Local Open Scope Z_scope.

Section store.
Context `{GoParsers}.

(** C16: the PostgreSQL store keeps every promise the service relies on: each
    operation of the interface leaves exactly the checkpoints it should, never drops
    a committed activity or an archived event, returns only committed activities, and
    hands out at most the commands it was asked for. *)
Theorem store_implements_interface `{CryptoLib} : ServiceStoreLaws.
Proof.
  exact gateway_laws.
Qed.

(** End to end, over this store: in every reachable state of the service, when the replies
    of its commits arrive, the row of [pushsdk_sessions] of a terminal with an authenticated session in memory is the
    persistent state of that session, to the microsecond PostgreSQL keeps. *)
Theorem session_row_current `{CryptoLaws} (env : Env) (cfg : Config) (w : World) k l s :
  valid_config cfg -> (forall n, 1000 <= env_now env n) -> replies_arrive env -> reachable env cfg w ->
  w_entries w !! k = Some l -> w_heap w !! l = Some s -> s_Authenticated s = true ->
  db_sessions (w_db w) !! SerialNumber (s_Terminal s) = Some (row_of_session (PersistentState s)).
Proof.
  intros Hcfg Hclock Hrep Hw Hk Hl Ha. pose proof (reachable_inv env cfg Hcfg Hclock w Hw) as [_ He _].
  destruct (He k l Hk) as (s1 & Hs1 & _ & Hd). assert (s1 = s) as -> by congruence.
  specialize (Hd Hrep Ha). rewrite lookup_checkpoints in Hd. apply fmap_Some in Hd as (r & -> & Hr).
  f_equal. by apply (session_row_inj (SerialNumber (s_Terminal s))).
Qed.

(** The archive keeps the first payload of an event.  A batch that commits leaves
    every archived event as it was, has every event of the batch archived, and adds only
    events of the batch that were not archived, with the format and the payload they came
    with. *)
Theorem batch_archived es c d ps d' :
  Archive.InsertDeviceEventBatch es c d = Ok (ps, d') ->
  let view d := events_view (db_device_events d) in
  view d ⊆ view d' /\
  (forall x, x ∈ view d' -> x ∈ view d \/
     exists e, e ∈ es /\ x = (event_key e, event_content e) /\ (forall v, (event_key e, v) ∉ view d)) /\
  (forall e, e ∈ es -> exists v, (event_key e, v) ∈ view d').
Proof.
  by intros (s' & <- & _ & _ & I3 & _ & _ & I6 & I7)%InsertDeviceEventBatch_spec.
Qed.

(** ** Commands *)

(** The transactions of the command queue. *)
Inductive command_op `{CryptoLib} : DB -> DB -> Prop :=
| op_queue input c d x d' : QueueISAPICommand input c d = Ok (x, d') -> command_op d d'
| op_claim serial limit c d x d' : Commands.ClaimISAPICommands serial limit c d = Ok (x, d') -> command_op d d'
| op_complete serial results c d x d' :
    Commands.CompleteISAPICommands serial results c d = Ok (x, d') -> command_op d d'
| op_expire c d x d' : Commands.ExpireOverdueISAPICommands c d = Ok (x, d') -> command_op d d'.

Lemma command_op_le `{CryptoLib} d d' : command_op d d' -> commands_le d d'.
Proof.
  destruct 1 as [input c d x d' E|serial limit c d x d' E|serial results c d x d' E|c d x d' E];
    apply run_Ok in E as (s' & E & <-).
  - unfold QueueISAPICommand_tx in E. tx_invs E. by apply resp_queueISAPICommandTx in E.
  - by apply resp_ClaimISAPICommands in E.
  - by apply resp_CompleteISAPICommands in E.
  - by apply resp_expireOverdue in E.
Qed.

Lemma command_ops_le `{CryptoLib} d d' : rtc command_op d d' -> commands_le d d'.
Proof. induction 1 as [|d1 d2 d3 S1 _ IH]; [done|]. etrans; [by apply command_op_le|done]. Qed.

(** C19: the life of a command.  Whatever the queue does, a command is never lost and
    what it asks for never changes; it moves only from queued to sent before its
    deadline, from sent to completed, and from either to expired after its deadline;
    completed and expired are final. *)
Theorem command_lifecycle `{CryptoLib} d d' uuid r :
  rtc command_op d d' -> db_commands d !! uuid = Some r ->
  exists r', db_commands d' !! uuid = Some r' /\ rtc command_step r r' /\
    command_request r' = command_request r /\ (command_open r = false -> r' = r).
Proof.
  intros Hops Hr. destruct (command_ops_le _ _ Hops uuid r Hr) as (r' & Hr' & Hs).
  exists r'. split_and!; [done..|by apply steps_request|]. intros Hf. by apply (steps_final r r').
Qed.

(** C20: a claim hands out the oldest commands.  The deliveries are distinct queued and
    unexpired commands of the terminal with the request they were queued with, at most
    the limit, in the order of creation; a claimable command that was left in the queue
    comes after every delivered one, which were as many as the limit allows; exactly the
    delivered commands are sent from then on, the open commands of the terminal whose
    deadline has passed are expired, and every other command is as it was. *)
Theorem claim_hands_out_oldest serial limit c d ds acts d' :
  Commands.ClaimISAPICommands serial limit c d = Ok ((ds, acts), d') ->
  exists rows, ds = delivery_of <$> rows /\ NoDup (rows.*1) /\ zlen rows <= limit <= 20 /\
    StronglySorted (fun a b => command_leb a b = true) rows /\
    (forall uuid r, (uuid, r) ∈ rows -> db_commands d !! uuid = Some r /\
       Commands.claimable (cx_now c) serial r = true /\
       db_commands d' !! uuid = Some (command_sent (cx_now c) r)) /\
    (forall uuid r, db_commands d !! uuid = Some r -> Commands.claimable (cx_now c) serial r = true ->
       (uuid, r) ∉ rows -> zlen rows = limit /\ forall x, x ∈ rows -> command_leb x (uuid, r) = true) /\
    (forall uuid, uuid ∉ rows.*1 -> db_commands d' !! uuid =
       match db_commands d !! uuid with
       | Some r =>
           if bool_decide (cr_terminal_serial_number r = serial /\ (cr_status r = CmdQueued \/ cr_status r = CmdSent) /\
                           cr_expires_at r <= cx_now c)
           then Some (command_expired (cx_now c) r) else Some r
       | None => None
       end).
Proof.
  intros (s' & E & <-)%run_Ok. pose proof (claim_Ok _ _ _ _ _ _ _ E) as (Hlim & -> & _).
  set (rows := Commands.claimed (cx_now c) serial limit (db_commands d)). exists rows.
  destruct (claimed_prefix (cx_now c) serial limit (db_commands d)) as (rest & Hperm & Hsort & Hfull).
  fold rows in Hperm, Hsort, Hfull. split_and!; try done; try lia.
  - apply NoDup_claimed.
  - unfold rows, Commands.claimed, sql_limit, zlen. rewrite length_take. lia.
  - by eapply StronglySorted_app_1_l.
  - intros uuid r Hin. destruct (elem_of_claimed _ _ _ _ _ _ Hin) as [Hr Hc]. split_and!; [done..|].
    rewrite (claim_lookup _ _ _ _ _ _ _ _ _ E Hr). cbv zeta. cbn [tx_db].
    rewrite bool_decide_true; [done|]. apply list_elem_of_fmap. by exists (uuid, r).
  - intros uuid r Hr Hc Hnot.
    assert (Hin : (uuid, r) ∈ (rows ++ rest)%list) by (rewrite Hperm; by apply elem_of_select).
    apply elem_of_app in Hin as [|Hin]; [done|]. split.
    + unfold zlen. destruct Hfull as [->| ->]; [set_solver|lia].
    + intros x Hx. by eapply (StronglySorted_app_1_elem_of (fun a b => command_leb a b = true)).
  - intros uuid Hnot. destruct (db_commands d !! uuid) as [r|] eqn:Hr.
    + rewrite (claim_lookup _ _ _ _ _ _ _ _ _ E Hr). cbv zeta. cbn [tx_db]. rewrite bool_decide_false by done.
      assert (overdue (cx_now c) (Some serial) r = bool_decide (cr_terminal_serial_number r = serial /\
        (cr_status r = CmdQueued \/ cr_status r = CmdSent) /\ cr_expires_at r <= cx_now c)) as ->; [|by case_bool_decide].
      symmetry. unfold overdue, command_open. destruct (Z.leb_spec (cr_expires_at r) (cx_now c));
        destruct (cr_status r); repeat case_bool_decide; try done; simpl; naive_solver lia.
    + by rewrite (claim_lookup_none _ _ _ _ _ _ _ _ E Hr).
Qed.

(** C21: a command is delivered at most once: two claims, with any operations of the
    queue between them, never hand out the same command. *)
Theorem delivered_at_most_once `{CryptoLib} serial1 limit1 c1 d0 ds1 acts1 d1 d2 serial2 limit2 c2 ds2 acts2 d3
    delivery1 delivery2 :
  Commands.ClaimISAPICommands serial1 limit1 c1 d0 = Ok ((ds1, acts1), d1) ->
  rtc command_op d1 d2 ->
  Commands.ClaimISAPICommands serial2 limit2 c2 d2 = Ok ((ds2, acts2), d3) ->
  delivery1 ∈ ds1 -> delivery2 ∈ ds2 -> icd_UUID delivery1 <> icd_UUID delivery2.
Proof.
  intros (s1 & E1 & <-)%run_Ok Hops (s2 & E2 & _)%run_Ok Hd1 Hd2 Heq.
  pose proof (claim_Ok _ _ _ _ _ _ _ E1) as (_ & -> & _).
  pose proof (claim_Ok _ _ _ _ _ _ _ E2) as (_ & -> & _).
  apply list_elem_of_fmap in Hd1 as ([u1 r1] & -> & Hin1), Hd2 as ([u2 r2] & -> & Hin2). simpl in Heq. subst u2.
  destruct (elem_of_claimed _ _ _ _ _ _ Hin1) as [Hr1 _].
  destruct (elem_of_claimed _ _ _ _ _ _ Hin2) as [Hr2 Hc2].
  pose proof (claim_lookup _ _ _ _ _ _ _ _ _ E1 Hr1) as Hl. cbv zeta in Hl.
  rewrite bool_decide_true in Hl by (apply list_elem_of_fmap; by exists (u1, r1)).
  destruct (command_ops_le _ _ Hops u1 _ Hl) as (r & Hr & Hs). cbn [tx_db] in Hr2. rewrite Hr in Hr2. injection Hr2 as ->.
  apply steps_not_queued in Hs; [|done]. unfold Commands.claimable in Hc2.
  by apply andb_true_iff in Hc2 as [[_ Hq%bool_decide_eq_true]%andb_true_iff _].
Qed.

(** C22: returning results again is harmless.  Once a batch of results was accepted, the
    same batch is accepted again in the same state, with nothing recorded and nothing
    changed, as long as no command of the terminal has become overdue meanwhile. *)
Theorem results_idempotent `{CryptoLib} serial results c d acts pending d' c' :
  Commands.CompleteISAPICommands serial results c d = Ok ((acts, pending), d') ->
  (forall uuid r, db_commands d' !! uuid = Some r -> overdue (cx_now c') (Some serial) r = false) ->
  exists pending', Commands.CompleteISAPICommands serial results c' d' = Ok (([], pending'), d').
Proof.
  intros (s' & E & <-)%run_Ok Hno. unfold CompleteISAPICommands_tx in E. tx_invs E.
  apply complete_loop_Ok in E1 as [_ Hacc]. unfold Commands.CompleteISAPICommands, run, CompleteISAPICommands_tx.
  unfold mbind at 1, Tx_bind at 1. rewrite nothing_overdue by done.
  unfold mbind at 1, Tx_bind at 1. rewrite replay_loop by done. by eexists.
Qed.

(** C23: a result cannot be changed: a batch that returns, for a completed command, a format
    (or none where one was declared) or data other than the stored ones is refused as a
    whole. *)
Theorem conflicting_result_refused `{CryptoLib} serial results result c d r :
  db_commands d !! icr_UUID result = Some r -> cr_status r = CmdCompleted ->
  cr_response_data_format r <> icr_DataFormat result \/
    cr_response_data_base64 r <> Some (icr_DataBase64 result) ->
  result ∈ results ->
  exists err, Commands.CompleteISAPICommands serial results c d = Err err.
Proof.
  intros Hr Hs Hdiff Hin. destruct (Commands.CompleteISAPICommands serial results c d) as [[[acts pending] d']|err] eqn:E;
    [exfalso|by exists err]. apply run_Ok in E as (s' & E & _).
  unfold CompleteISAPICommands_tx in E. tx_invs E.
  apply resp_expireOverdue in E0. apply complete_loop_Ok in E1 as [Hle Hacc].
  assert (commands_le d (tx_db s')) as Hle' by by etrans.
  rewrite list.Forall_forall in Hacc. destruct (Hacc result Hin) as (r' & Hr' & _ & _ & Hsame).
  destruct (Hle' _ _ Hr) as (r'' & Hr'' & Hsteps). apply steps_final in Hsteps as ->;
    [|by unfold command_open; rewrite Hs]. assert (r' = r) as -> by congruence.
  apply same_result_columns in Hsame as [? ?]. naive_solver.
Qed.

(** A command is only queued for an online terminal, under a fresh version 4 UUID,
    with its audit record.  The row is exactly the request, queued, with the given
    deadline, which lies in the future, and the activity it returns is committed with it. *)
Theorem queued_command input c d command ev d' :
  QueueISAPICommand input c d = Ok ((command, ev), d') ->
  tr_connection_status <$> db_terminals d !! nc_TerminalSerialNumber input = Some "online" /\
  commandUUID (ic_UUID command) = true /\ db_commands d !! ic_UUID command = None /\
  db_commands d' = <[ic_UUID command := queued_row input (cx_now c)]> (db_commands d) /\
  cx_clock c 0 < nc_ExpiresAt input /\ ev ∈ db_activities d'.
Proof.
  intros (s' & E & <-)%run_Ok. unfold QueueISAPICommand_tx in E. tx_invs E.
  apply negb_false_iff, Z.ltb_lt in Hb0.
  pose proof (queue_Ok _ _ _ _ _ _ E) as (Hnew & Hdb & Hcheck & _ & Honline).
  apply reports_queueISAPICommandTx in E as [_ Hlog]. specialize (Hlog (Forall_nil_2 _)).
  split_and!; try done.
  - unfold command_check in Hcheck. by repeat (apply andb_true_iff in Hcheck as [Hcheck _]).
  - by inversion Hlog.
Qed.

(** C26: every page of a retained-event run is accounted for.  When the result of a page
    command arrives and the records so far equal the page's position, the run fails, or
    the next page is queued at a strictly larger position below the announced total with
    the records again accounted for, or the run completes with imported and duplicate
    records adding up to the total; it never fails because its totals do not add up. *)
Theorem sync_page_accounted `{CryptoLib} terminal result at_ c s acts s' command position :
  completeAccessEventSyncCommand terminal result at_ c s = Ok (acts, s') ->
  page_request (tx_db s) (icr_UUID result) command position ->
  page_outcome (tx_db s') command position.
Proof.
  intros E Hreq. pose proof Hreq as (Hcmd & Hphase & Hpos & Hst & _).
  destruct (sync_command_Some _ _ _ Hcmd) as (link & r & _ & _ & Hr & Hs & _).
  assert (Hactive : sync_active (sy_status r) = true) by (rewrite <- Hs, Hst; done).
  unfold completeAccessEventSyncCommand in E. apply tx_bind_Ok in E as (o & s1 & [= <- <-] & E).
  rewrite Hcmd, Hphase in E. tx_invs E.
  all: try by (eapply fails_outcome; [exact E|done|done|done]).
  by eapply completePage_outcome.
Qed.

(** ** Deliveries *)

(** A lease is exclusive: once a delivery was claimed again, the worker that held
    the earlier claim cannot settle it any more, whatever happened to the queues in between
    and afterwards: its outcome is refused and changes nothing. *)
Theorem stale_lease_refused `{CryptoLib} c1 d0 first d1 d2 c2 second d3 d4 c status code failure next x :
  ClaimEventDelivery c1 d0 = Ok (Some first, d1) -> rtc queue_step d1 d2 ->
  ClaimEventDelivery c2 d2 = Ok (Some second, d3) -> rtc queue_step d3 d4 ->
  ev_ID second = ev_ID first ->
  FinishEventDelivery first status code failure next c d4 <> Ok x.
Proof.
  intros (r1 & Hr1 & _ & Ha1 & _ & ->)%claim_delivery_Ok [Hs1 _]%queue_steps_le
    (r2 & Hr2 & _ & Ha2 & _ & ->)%claim_delivery_Ok [Hs2 _]%queue_steps_le Hid E.
  destruct x as [u d5]. apply finish_Ok in E as (r4 & Hr4 & Ho & _).
  destruct (Hs1 (ev_ID first) _ ltac:(cbn; apply lookup_insert_eq)) as (r2' & Hr2' & _ & L1 & _). rewrite Hid in Hr2, Hs2.
  assert (r2' = r2) as -> by congruence. simpl in L1.
  destruct (Hs2 (ev_ID first) _ ltac:(cbn; apply lookup_insert_eq)) as (r4' & Hr4' & _ & L2 & _).
  assert (r4' = r4) as -> by congruence. simpl in L2.
  unfold owned in Ho. apply andb_true_iff in Ho as [Ho%Z.eqb_eq _]. lia.
Qed.

(** A picture is claimed only behind its delivered event, on an enabled route, for the
    attachment address of that event's destination and under its key; its message is stored
    with the claim.  Whatever happens to the queues, a later claim sends the very same bytes
    to the same address, and from then on the earlier worker cannot settle the picture. *)
Theorem picture_lease `{CryptoLib} c1 d0 first d1 d2 c2 second d3 d4 :
  ClaimAttachment c1 d0 = Ok (Some first, d1) -> rtc queue_step d1 d2 ->
  ClaimAttachment c2 d2 = Ok (Some second, d3) -> rtc queue_step d3 d4 ->
  ev_ID second = ev_ID first ->
  (exists a event endpoint, db_attachments d0 !! ev_ID first = Some a /\
     db_deliveries d0 !! ar_event_delivery_id a = Some event /\ qr_status (dr_queue event) = DlvDelivered /\
     route_enabled d0 (dr_terminal_serial_number event) = true /\
     NetURL.Parse (dr_endpoint_url event) = Some endpoint /\
     ev_EndpointURL first = NetURL.String_ (attachment_endpoint endpoint) /\
     ev_SigningKeyID first = dr_signing_key_id event) /\
  (ev_Body second, ev_EndpointURL second, ev_SigningKeyID second) =
    (ev_Body first, ev_EndpointURL first, ev_SigningKeyID first) /\
  (forall status code failure next c x, FinishAttachment first status code failure next c d4 <> Ok x).
Proof.
  intros (a1 & p1 & u1 & b1 & Ha1 & Hp1 & Hst1 & Hen & _ & Hu1 & Hf & (P1 & B1 & Q1 & K1) & ->)%claim_attachment_Ok
    [Hd1 Hs1]%queue_steps_le
    (a2 & p2 & u2 & b2 & Ha2 & Hp2 & Hst2 & _ & _ & Hu2 & Hg & (P2 & B2 & Q2 & K2) & ->)%claim_attachment_Ok
    [_ Hs2]%queue_steps_le Hid.
  destruct (Hs1 (ev_ID first) _ ltac:(cbn; apply lookup_insert_eq)) as (a2' & Ha2' & P & K & L1 & _).
  rewrite Hid in Ha2, Hs2. assert (a2' = a2) as -> by congruence. simpl in P, K, L1.
  destruct (Hd1 (ar_event_delivery_id a1) p1 Hp1) as (p2' & Hp2' & _ & _ & Hsame). specialize (Hsame Hst1) as ->.
  assert (p2 = p1) as -> by congruence. assert (u2 = u1) as -> by congruence. split_and!.
  - exists a1, p1, u1. split_and!; try done; by rewrite Hf.
  - assert (Hb : ar_request_body a2 = Some (ev_Body first)).
    { specialize (K ltac:(by rewrite B1)). apply (f_equal ar_request_body) in K. simpl in K. congruence. }
    rewrite (K2 ltac:(by rewrite Hb)) in B2. rewrite B2 in Hb. injection Hb as Hb. rewrite Hf, Hg, Hb. done.
  - intros status code failure next c [u d5] E. apply finish_attachment_Ok in E as (a4 & Ha4 & Ho & _).
    destruct (Hs2 (ev_ID first) _ ltac:(cbn; apply lookup_insert_eq)) as (a4' & Ha4' & _ & _ & L2 & _).
    assert (a4' = a4) as -> by congruence. simpl in L2. unfold owned in Ho.
    apply andb_true_iff in Ho as [Ho%Z.eqb_eq _]. rewrite Hf in Ho. simpl in Ho. lia.
Qed.

(** The holder of a lease can settle its delivery: right after a claim, the outcome
    is recorded, and every other delivery is as it was. *)
Theorem lease_holder_settles c d e d' status code failure next c' :
  ClaimEventDelivery c d = Ok (Some e, d') ->
  exists d'' r, FinishEventDelivery e status code failure next c' d' = Ok (tt, d'') /\
    db_deliveries d'' !! ev_ID e = Some r /\ qr_status (dr_queue r) = status /\
    qr_lease_until (dr_queue r) = None /\ dr_request_body r = ev_Body e /\
    (forall id, id <> ev_ID e -> db_deliveries d'' !! id = db_deliveries d !! id).
Proof.
  intros (r & Hr & _ & Ha & Hbody & ->)%claim_delivery_Ok.
  unfold FinishEventDelivery, FinishEventDelivery_tx, run, mbind, Tx_bind, sql_now, tx_ctx, db_get, tx_gets.
  cbn [tx_db on_deliveries db_deliveries]. rewrite lookup_insert_eq.
  assert (owned e (dr_queue (with_queue r (Deliveries.claimed (cx_now c) (dr_queue r)))) = true) as ->.
  { unfold owned. simpl. by rewrite Ha, Z.eqb_refl. }
  eexists _, _. split; [done|]. cbn. rewrite lookup_insert_eq. split_and!; [done..|].
  intros id Hne. by rewrite !lookup_insert_ne.
Qed.

(** The delay before the next attempt is min(5 minutes, 5 seconds times two to the
    number of attempts already retried), for every attempt count. *)
Theorem retry_delay_closed_form attempts :
  RetryDelay attempts = Z.min (300 * second) (5 * second * 2 ^ Z.max 0 (attempts - 1)) /\
  5 * second <= RetryDelay attempts <= 300 * second.
Proof.
  rewrite RetryDelay_min. split; [done|]. assert (0 < 2 ^ Z.max 0 (attempts - 1)) by (apply Z.pow_pos_nonneg; lia).
  unfold second. lia.
Qed.
End store.
