(* ===== verification/Scenario.v ===== *)
(** A concrete run of the gateway, on which the hypotheses of the theorems hold:
    two configured terminals on a seeded database, with stand-ins for the
    cryptography and the parsers that are parameters of the model.  The terminal
    authenticates, logs in, asks for commands, sends an event and logs out.  On the
    store, a command is queued, sent and answered, a retained-event run reaches its
    first page, and a face authentication is leased for delivery. *)

From Stdlib Require Import ZArith Lia Ascii String.
From stdpp Require Import base gmap strings list option relations.
From S2P Require Import Prelude GoText GoTime GoJSON GoHTTP GoCrypto AccessControl Config Crypto StoreTypes.
From S2P Require Import Wire Database StoreCore Deliveries Worker Archive CommandQueue SyncRuns Commands Admin World.
From S2P Require Import StoreInstance Session Service ServiceInv ServiceProofs ServiceSpec Protocol.

Local Open Scope string_scope.
Local Open Scope Z_scope.

Module Scenario.
#[export] Existing Instance Toy.toy_lib.
#[export] Existing Instance Toy.toy_laws.

#[export] Instance parsers : GoParsers := {|
  textproto_ReadMIMEHeader := fun _ => None;
  multipart_Parts := fun _ _ => None;
  xml_Decode_Time := fun source => Some (time_namespace, "Time", string_of source, Some []);
  jpeg_DecodeConfig := fun _ => None;
  jpeg_Decode := fun _ => false
|}.

(** A password hash that is the password; bcrypt refuses more than 72 bytes. *)
#[export] Instance bcrypt : Bcrypt := {|
  bcrypt_GenerateFromPassword := fun _ password => if (length password <=? 72)%nat then Some (string_of password) else None;
  bcrypt_CompareHashAndPassword := fun hash password => bool_decide (bytes_of hash = password)
|}.
#[export] Instance bcrypt_laws : BcryptLaws.
Proof.
  split. intros salt password hash. cbn. destruct (_ <=? _)%nat; [|done]. intros [= <-].
  apply bool_decide_eq_true, bytes_of_string_of.
Qed.

Definition front : Terminal := mkTerminal "SN-1" "PUSH-1" "admin" "FRONT_PASSWORD" "secret" "sha256" 3 5 30.
Definition back : Terminal := mkTerminal "SN-2" "PUSH-2" "admin" "BACK_PASSWORD" "hidden" "sha1" 4 5 30.
Definition cfg : Config :=
  {| ListenAddress := ":8080"; DatabaseURL := "postgres://"; TerminalsFile := "terminals.json";
     AdminUsername := "root"; AdminPassword := "correct horse"; CookieSecure := true;
     SessionTTL := 12 * 3600 * second; WebDir := "web"; MigrationsDir := "migrations"; MetricsCIDRs := ["10.0.0.0/8"];
     Terminals := [front; back]; DeliverySigningKeys := ∅ |}.

(** Digits that change with every read; the last one numbers the first nine. *)
Definition rand : rand_source := fun i => Some (fun j =>
  if (j =? 31)%nat then byte_of (48 + Z.of_nat (i `min` 9)) else byte_of (48 + Z.of_nat (i * 3 + j) mod 10)).
(** 14 November 2023, 22:13:20 UTC. *)
Definition start : time := 63835596800 * second.
Definition ctx (n : nat) : TxCtx :=
  {| cx_now := start + Z.of_nat n * second; cx_clock := fun k => start + Z.of_nat (n + k) * second;
     cx_zone := fun _ => 0; cx_rand := fun i => rand (n + i)%nat;
     cx_gap := fun _ _ => 0%nat; cx_plan := [n] |}.
Definition env (fault : nat -> bool) : Env :=
  {| env_now := fun n => start + Z.of_nat n * second; env_rand := rand;
     env_fault := fault; env_lost := fun _ => false; env_ctx := ctx |}.
Definition up : nat -> bool := fun _ => false.

(** Start-up on an empty database: the terminals and the administrator. *)
Definition after {A} (m : Tx store_error TxCtx DB A) (n : nat) (d : DB) : DB :=
  match m (ctx n) d with Ok (_, d') => d' | Err _ => d end.
Definition db0 : DB :=
  after (ReconcileConfiguredAdministrator (AdminUsername cfg) (AdminPassword cfg)) 0
    (after (SeedConfiguredTerminals (Terminals cfg)) 0 empty_DB).
Definition w0 : World := NewService db0 0 0 0.

Definition request (push action auth : string) (body : bytes) : Request :=
  {| req_Path := "/iot/" +:+ push +:+ "/global/0-global/model/service/operate/PUSH/" +:+ action;
     req_Method := "POST"; req_RawQuery := "";
     req_ContentType := match body with [] => "" | _ => "application/json" end;
     req_MyCustomAuth := auth; req_Body := body; req_Broken := false |}.

Definition serve (r : Request) (w : World) : result error Response * World := ServeHTTP (env up) cfg r w.
Definition response (r : Request) (w : World) : Response :=
  match (serve r w).1 with Ok resp => resp | Err _ => http_NotFound end.

Definition session (w : World) : Session :=
  default (mkSession front "" "" "" 0 "" 0 0 false false) (session_at w front).
Definition proof (w : World) : string :=
  expectedCustomAuth front (s_Salt (session w)) (s_NextChallenge (session w)).

Definition authInfo_request : Request := request "PUSH-1" "AuthInfo" "" [].
Definition w1 : World := (serve authInfo_request w0).2.

Definition login_body (w : World) : bytes :=
  let s := session w in
  let password := default "" (expectedLoginPassword front (s_Salt s) (s_LoginChallenge s) (s_Iterations s)) in
  json_Marshal (OObject [("data", OObject [("username", OString "admin"); ("loginPassword", OString password)])]).
Definition login_request : Request := request "PUSH-1" "Login" "" (login_body w1).
Definition w2 : World := (serve login_request w1).2.

Definition command_request : Request := request "PUSH-1" "CommandRequest" (proof w2) [].
Definition w3 : World := (serve command_request w2).2.

Definition event_body : bytes :=
  json_Marshal (OObject [("eventNum", OInt 1); ("eventList", OArray [OObject [("UUID", OString "event-1");
    ("dataFormat", OString "jsonData"); ("data", OString "e30=")]])]).
Definition event_request : Request := request "PUSH-1" "Event" (proof w3) event_body.
Definition w4 : World := (serve event_request w3).2.

Definition logout_request : Request := request "PUSH-1" "Logout" (proof w4) [].
Definition w5 : World := (serve logout_request w4).2.

(** ** The store: a command, a retained-event run and a delivery *)
Definition value {A} (m : Tx store_error TxCtx DB A) (n : nat) (d : DB) : option A :=
  match m (ctx n) d with Ok (a, _) => Some a | Err _ => None end.

Definition admin : AdminIdentity := {| ai_ID := 1; ai_Username := "root" |}.
Definition input : NewISAPICommand :=
  {| nc_TerminalSerialNumber := "SN-1"; nc_CreatedBy := admin; nc_Method := "GET";
     nc_URL := "/ISAPI/System/deviceInfo"; nc_DataFormat := "noData"; nc_Data := [];
     nc_ExpiresAt := start + 3600 * second |}.
Definition online_db : DB := w_db w3.
Definition queued_db : DB := after (QueueISAPICommand input) 20 online_db.
Definition claim : Tx store_error TxCtx DB (list ISAPICommandDelivery * list activity.Event) :=
  Commands.ClaimISAPICommands "SN-1" 5.
Definition claimed_db : DB := after claim 21 queued_db.
Definition uuid_at (n : nat) (d : DB) : string :=
  match value claim n d with Some (delivery :: _, _) => icd_UUID delivery | _ => "" end.
Definition answer (uuid : string) (text : bytes) : ISAPICommandResult :=
  {| icr_UUID := uuid; icr_DataFormat := Some "jsonData"; icr_DataBase64 := b64_EncodeToString text |}.
Definition complete (results : list ISAPICommandResult) : Tx store_error TxCtx DB (list activity.Event * bool) :=
  Commands.CompleteISAPICommands "SN-1" results.
Definition results : list ISAPICommandResult := [answer (uuid_at 21 queued_db) (bytes_of "{}")].
Definition completed_db : DB := after (complete results) 22 claimed_db.

(** A run over an archive of three records, in two pages. *)
Definition sync_db : DB := after (QueueAccessEventSync "SN-1" admin) 30 online_db.
Definition sync_sent_db : DB := after claim 31 sync_db.
Definition clock_result : ISAPICommandResult :=
  answer (uuid_at 31 sync_db) (bytes_of "2023-11-14T22:13:20+05:00").
Definition paging_db : DB := after (complete [clock_result]) 32 sync_sent_db.
Definition page_db : DB := after claim 33 paging_db.
Definition page_uuid : string := uuid_at 33 paging_db.
Definition search_id : string :=
  default "" (sc_SearchID <$> sync_command page_db page_uuid).
Definition retained_record (serial : Z) : jout :=
  OObject [("major", OInt 5); ("minor", OInt 75); ("time", OString "2023-11-14T20:00:00+05:00");
           ("serialNo", OInt serial)].
Definition page (status : string) (serials : list Z) (total : Z) : bytes :=
  json_Marshal (OObject [("AcsEvent", OObject [("searchID", OString search_id);
    ("responseStatusStrg", OString status); ("numOfMatches", OInt (zlen serials));
    ("totalMatches", OInt total); ("InfoList", OArray (retained_record <$> serials))])]).
Definition page_result : ISAPICommandResult := answer page_uuid (page "MORE" [1; 2] 3).

(** A face authentication for an enabled route. *)
Definition route : DeliveryRoute :=
  {| rt_TerminalSerialNumber := "SN-1"; rt_EndpointURL := "https://hr.example/events";
     rt_SigningKeyID := "key-1"; rt_Enabled := true |}.
Definition route_db : DB := after (SaveDeliveryRoute route 1) 40 online_db.
Definition face_event : NewDeviceEvent :=
  {| nde_TerminalSerialNumber := "SN-1"; nde_VendorEventID := "event-2"; nde_DataFormat := "jsonData";
     nde_PayloadBase64 := b64_EncodeToString (json_Marshal (OObject
       [("eventType", OString "AccessControllerEvent"); ("eventState", OString "active");
        ("AccessControllerEvent", OObject [("majorEventType", OInt 5); ("subEventType", OInt 75);
           ("employeeNoString", OString "17")])])) |}.
Definition outbox_db : DB := after (Archive.InsertDeviceEventBatch [face_event]) 41 route_db.
Definition leased_db : DB := after ClaimEventDelivery 42 outbox_db.
Definition no_delivery : EventDelivery := 
  Build_EventDelivery false 0 None None None "" "" "" "" 0 zero_Time None None zero_Time None [].
Definition lease_at (n : nat) (d : DB) : EventDelivery :=
  match value ClaimEventDelivery n d with Some (Some e) => e | _ => no_delivery end.
Definition first_lease : EventDelivery := lease_at 42 outbox_db.
Definition second_lease : EventDelivery := lease_at 103 leased_db.
Definition leased_again_db : DB := after ClaimEventDelivery 103 leased_db.

Definition keys : gmap string string := <["key-1" := "0123456789abcdef0123456789abcdef"]> ∅.
Definition receipt : bytes :=
  json_Marshal (OObject [("schemaVersion", OInt 2); ("eventId", OString "event-2"); ("receipt", OString "stored")]).
#[export] Instance receiver : HTTPClient :=
  {| http_NewRequest_ok := fun _ => true;
     client_Do := fun _ _ => Some {| ir_code := 200; ir_body := receipt; ir_broken := false |} |}.
End Scenario.
