(* ===== verification/AdminScenario.v ===== *)
(** The run of [Scenario] seen from the administration: the environment a process is
    started with, the start on an empty database, an administrator who signs in, queues a
    command and signs out, backfills of events and pictures, and a migration that fails
    halfway. *)

From Stdlib Require Import ZArith Lia Ascii String.
From stdpp Require Import base gmap strings list option.
From S2P Require Import Prelude GoText GoTime GoJSON GoHTTP GoNet GoCrypto AccessControl Config Crypto StoreTypes Hub.
From S2P Require Import Wire Database Migrations StoreCore Deliveries Attachments Backfills Archive Queries Admin.
From S2P Require Import World StoreInstance APIInput AdminAPI Session Service Gateway Scenario.
Import Scenario.

Local Open Scope string_scope.
Local Open Scope Z_scope.

Module AdminScenario.

(** ** The environment *)
Definition terminals_file : bytes :=
  json_Marshal (OArray [OObject
    [("serialNumber", OString "SN-1"); ("pushSdkSerial", OString "PUSH-1"); ("username", OString "admin");
     ("passwordEnvironmentVariable", OString "FRONT_PASSWORD"); ("loginPasswordDigest", OString "sha256");
     ("securityVersion", OInt 3); ("commandIntervalSeconds", OInt 5); ("errorDelaySeconds", OInt 30)]]).

Definition variables : gmap string string := list_to_map
  [("GATEWAY_LISTEN_ADDRESS", ":8080"); ("DATABASE_URL", "postgres://"); ("GATEWAY_TERMINALS_FILE", "terminals.json");
   ("ADMIN_USERNAME", "root"); ("ADMIN_PASSWORD", "correct horse"); ("COOKIE_SECURE", "true"); ("SESSION_TTL", "12h");
   ("WEB_DIR", "web"); ("MIGRATIONS_DIR", "migrations"); ("METRICS_ALLOW_CIDRS", "10.0.0.0/8,127.0.0.1/32");
   ("FRONT_PASSWORD", "secret")].
Definition process : Process := {|
  LookupEnv := fun name => variables !! name;
  ReadFile := fun name => if bool_decide (name = "terminals.json") then Some terminals_file else None
|}.
Definition loaded : Config := match Load process with Ok c => c | Err _ => cfg end.

(** ** The process on an empty database *)
Definition handshake : APIRequest -> bool := fun _ => true.
Definition started : result error (list Netip.Prefix) * World := Gateway.start (env up) cfg (NewService empty_DB 0 0 0).
Definition nets : list Netip.Prefix := match started.1 with Ok nets => nets | Err _ => [] end.
Definition v0 : World := started.2.

(** ** An administrator *)
Definition api (method path : string) (cookies : list string) (body : bytes) : APIRequest :=
  mkAPIRequest {| req_Path := path; req_Method := method; req_RawQuery := ""; req_ContentType := "application/json";
                  req_MyCustomAuth := ""; req_Body := body; req_Broken := false |}
    "" (zlen body) cookies "https://gateway.example" "https" "gateway.example" false "10.1.2.3:5000" None.

Definition answer_of (request : APIRequest) (w : World) : result error (list (string * string) * Answer) * World :=
  Gateway.serve (env up) cfg handshake nets request w.

Definition sign_in_request : APIRequest :=
  api "POST" "/api/v1/auth/login" []
    (json_Marshal (OObject [("username", OString "root"); ("password", OString "correct horse")])).
Definition no_value : string -> string := fun _ => "".
Definition signed : result error Answer * World := AdminAPI.login (env up) cfg sign_in_request no_value v0.
Definition v1 : World := (answer_of sign_in_request v0).2.

Definition token : string :=
  match signed.1 with Ok (AJSON _ (Some cookie) _) => ck_Value cookie | _ => "" end.
Definition cookie : list string := [sessionCookie +:+ "=" +:+ token].

Definition command_body : bytes :=
  json_Marshal (OObject [("method", OString "PUT"); ("url", OString "/ISAPI/AccessControl/UserInfo/Modify?format=json");
    ("dataFormat", OString "jsonData"); ("textData", OString "{}"); ("expiresInSeconds", OInt 60)]).
Definition command_post : APIRequest := api "POST" "/api/v1/admin/terminals/SN-1/isapi-commands" cookie command_body.
(** The same request from someone without a session. *)
Definition stranger_post : APIRequest := api "POST" "/api/v1/admin/terminals/SN-1/isapi-commands" [] command_body.

Definition login_event : activity.Event := activity.event activity.KindAdminLogin "" "administrator session opened" ∅.
Definition logout_event : activity.Event := activity.event activity.KindAdminLogout "" "administrator session closed" ∅.
Definition token_hash : bytes := sha256_Sum256 (bytes_of "token").
Definition create_session : Tx store_error TxCtx DB activity.Event :=
  CreateSessionWithActivity 1 token_hash (Scenario.start + 3600 * second) login_event.
Definition session_db : DB := after create_session 60 db0.
Definition delete_session : Tx store_error TxCtx DB activity.Event := DeleteSessionWithActivity token_hash logout_event.
Definition closed_db : DB := after delete_session 61 session_db.
Definition purged_db (d : DB) : DB := after PurgeExpiredSessions 62 d.

(** ** Backfills *)
Definition dated_event (id : string) (minute : string) : NewDeviceEvent :=
  {| nde_TerminalSerialNumber := "SN-1"; nde_VendorEventID := id; nde_DataFormat := "jsonData";
     nde_PayloadBase64 := b64_EncodeToString (json_Marshal (OObject
       [("dateTime", OString ("2023-11-14T20:" +:+ minute +:+ ":00+05:00"));
        ("eventType", OString "AccessControllerEvent"); ("eventState", OString "active");
        ("AccessControllerEvent", OObject [("majorEventType", OInt 5); ("subEventType", OInt 75);
           ("employeeNoString", OString "17")])])) |}.
(** Three events archived before the terminal had a route. *)
Definition archive_db : DB :=
  after (Archive.InsertDeviceEventBatch [dated_event "event-3" "10"; dated_event "event-4" "20"; face_event]) 70 online_db.
Definition late_route_db : DB := after (SaveDeliveryRoute route 1) 71 archive_db.
(** The 14th of November 2023. *)
Definition day_start : Time := mkTime (63835516800 * second) 0.
Definition day_end : Time := mkTime (63835603200 * second) 0.
Definition preview_token : string :=
  match value (PreviewEventBackfill "SN-1" day_start day_end) 72 late_route_db with
  | Some p => bp_Token p
  | None => ""
  end.
Definition queue_backfill : Tx store_error TxCtx DB (Z * Z) := QueueEventBackfill "SN-1" day_start day_end preview_token 1.
Definition backfilled_db : DB := after queue_backfill 73 late_route_db.

(** A delivered event from before pictures were delivered. *)
Definition delivered_db : DB :=
  on_attachments (fun _ => ∅) (after (FinishEventDelivery first_lease DlvDelivered 200 "" Scenario.start) 43 leased_db).
Definition pictures_token : string :=
  match value (PreviewAttachmentBackfill "SN-1" (ev_ID first_lease)) 74 delivered_db with
  | Some p => ap_Token p
  | None => ""
  end.
Definition queue_pictures : Tx store_error TxCtx DB Z :=
  QueueAttachmentBackfill "SN-1" (ev_ID first_lease) pictures_token 1.
Definition pictures_db : DB := after queue_pictures 75 delivered_db.

(** The archive, one event per page. *)
Definition archive_query : DeviceEventQuery :=
  {| dq_Limit := 1; dq_Offset := 0; dq_MajorEventType := Some 5; dq_SubEventType := None; dq_Terminal := "SN-1";
     dq_Source := "" |}.

(** ** Migrations: a schema is the list of the scripts that made it *)
#[export] Instance postgres : Postgres := {|
  schema := list bytes;
  exec := fun script scripts => if bool_decide (script = bytes_of "syntax error") then None else Some (scripts ++ [script])%list;
  terminals_exist := fun scripts => bool_decide (scripts <> [])
|}.
Definition file (name text : string) : Entry :=
  {| en_Name := name; en_IsDir := false; en_Contents := Some (bytes_of text) |}.
Definition directory : Directory := {|
  dir_schema := Some (bytes_of "create table terminals");
  dir_legacy := Some [file "001_init.sql" "create table terminals"; file "README.md" "about"];
  dir_forward := Some [file "011_pictures.sql" "create table pictures"; file "010_routes.sql" "create table routes"]
|}.
(** A database from before the baseline. *)
Definition old_database : Database_ :=
  mkDatabase {["001_init.sql" := checksum (bytes_of "create table terminals")]} [bytes_of "create table terminals"].
Definition fails_at (k : nat) : nat -> bool := fun n => (n =? k)%nat.

(** ** The hub: a browser that reads while events are published *)
Definition zone : time -> Z := fun _ => 0.
Definition hub0 : Hub.Hub.t := (Hub.Hub.Subscribe Hub.Hub.NewHub).2.
Definition publish (e : activity.Event) (h : Hub.Hub.t) : Hub.Hub.t := default h (Hub.Hub.Publish zone e h).
Definition hub1 : Hub.Hub.t := publish login_event hub0.
Definition hub2 : Hub.Hub.t := default hub1 (snd <$> Hub.Hub.receive 0 hub1).
Definition hub3 : Hub.Hub.t := publish logout_event hub2.
End AdminScenario.
