(* ===== verification/Witnesses.v ===== *)
(** The theorems applied to the concrete run of [Scenario]: their hypotheses
    hold there together, and their conclusions speak of real states. *)

From Stdlib Require Import ZArith Lia Ascii String.
From stdpp Require Import base gmap strings list option relations sorting.
From S2P Require Import Prelude GoText GoTime GoJSON GoHTTP GoCrypto AccessControl Config Crypto StoreTypes.
From S2P Require Import Wire Database StoreCore Deliveries Worker Archive ArchiveProofs CommandQueue SyncRuns.
From S2P Require Import Commands CommandProofs SyncProofs DeliveryProofs OutboxProofs World StoreInstance.
From S2P Require Import Session Service ServiceInv ServiceProofs ServiceSpec Protocol StoreProperties Scenario.
Import Scenario.

Local Open Scope string_scope.
Local Open Scope Z_scope.

(** ** Facts of the run *)
Lemma cfg_valid : valid_config cfg.
Proof. apply validated_config. vm_compute. reflexivity. Qed.

Lemma clock_runs n : 1000 <= env_now (env up) n.
Proof. simpl. unfold start, second. lia. Qed.

Lemma replies_up : replies_arrive (env up).
Proof. done. Qed.


Lemma rand_productive : productive rand.
Proof.
  intros i f [= <-]. exists 0%nat. split; [lia|]. cbn [Nat.eqb]. rewrite Nat.add_0_r.
  assert (0 <= Z.of_nat (i * 3) mod 10 < 10) as Hr by (apply Z.mod_pos_bound; lia).
  generalize dependent (Z.of_nat (i * 3) mod 10). intros z Hz.
  assert (z = 0 \/ z = 1 \/ z = 2 \/ z = 3 \/ z = 4 \/ z = 5 \/ z = 6 \/ z = 7 \/ z = 8 \/ z = 9) as Hc by lia.
  repeat destruct Hc as [->|Hc]; subst; vm_compute; by eexists.
Qed.

Definition answered (r : Request) (w : World) : bool :=
  match (serve r w).1 with Ok _ => true | Err _ => false end.

Lemma served r w : answered r w = true -> ServeHTTP (env up) cfg r w = (Ok (response r w), (serve r w).2).
Proof. unfold answered, response, serve. by destruct (ServeHTTP _ _ _ _) as [[] ?]. Qed.

Lemma step_serve r w : step (env up) cfg w (serve r w).2.
Proof. apply (step_request _ _ r w (serve r w).1). unfold serve. by destruct (ServeHTTP _ _ _ _). Qed.

Lemma reachable_serve r w : reachable (env up) cfg w -> reachable (env up) cfg (serve r w).2.
Proof. intros (w' & Hi & Hs). exists w'. split; [done|]. eapply rtc_r; [exact Hs|apply step_serve]. Qed.

Lemma reachable_w0 : reachable (env up) cfg w0.
Proof.
  exists w0. split; [|done]. exists db0, 0%nat, 0%nat, 0%nat. split; [done|]. intros s c.
  assert (checkpoints db0 = ∅) as -> by (vm_compute; reflexivity). by rewrite lookup_empty.
Qed.
Lemma reachable_w1 : reachable (env up) cfg w1. Proof. apply reachable_serve, reachable_w0. Qed.
Lemma reachable_w2 : reachable (env up) cfg w2. Proof. apply reachable_serve, reachable_w1. Qed.
Lemma reachable_w3 : reachable (env up) cfg w3. Proof. apply reachable_serve, reachable_w2. Qed.
Lemma reachable_w4 : reachable (env up) cfg w4. Proof. apply reachable_serve, reachable_w3. Qed.

Lemma routed_front action auth body :
  routed cfg (request "PUSH-1" action auth body) front action <->
  parseRoute (req_Path (request "PUSH-1" action auth body)) = Some ("PUSH-1", action).
Proof.
  split; [intros (s & Hp & Ht)|intros Hp; exists "PUSH-1"; split; [done|vm_compute; reflexivity]].
  rewrite Hp. apply TerminalByPushSDKSerial_Some in Ht as [_ <-]. done.
Qed.

Ltac by_routing := apply routed_front; vm_compute; reflexivity.
Ltac by_serving := apply served; vm_compute; reflexivity.
Ltac by_differing := unfold accepted; apply (bool_decide_eq_false_1 _); vm_compute; reflexivity.

Lemma front_configured : front ∈ Terminals cfg.
Proof. by left. Qed.
Lemma back_configured : back ∈ Terminals cfg.
Proof. by right; left. Qed.

Lemma run_pair {E S A} (m : M E S A) (s : S) : m s = ((m s).1, (m s).2).
Proof. by destruct (m s). Qed.


Lemma sessions_durable_witness :
  exists s, w_heap w3 !! 0%nat = Some s /\ s_Terminal s ∈ Terminals cfg /\ PushSDKSerial (s_Terminal s) = "PUSH-1" /\
    (replies_arrive (env up) -> s_Authenticated s = true ->
     checkpoint_at w3 (s_Terminal s) = Some (checkpointed (PersistentState s))).
Proof.
  apply (sessions_durable (env up) cfg cfg_valid clock_runs w3 "PUSH-1" 0%nat reachable_w3).
  vm_compute. reflexivity.
Defined.

(** The process is started again on the database of [w3]. *)
Definition restarted : World := (RestoreSessions (env up) cfg (NewService (w_db w3) 100 100 100)).2.

Lemma restart_resumes_witness :
  exists s', session_at restarted front = Some s' /\ s_Terminal s' = front /\ s_Salt s' = s_Salt (session w3) /\
    s_NextChallenge s' = s_NextChallenge (session w3) /\ s_PayloadMode s' = s_PayloadMode (session w3) /\
    s_Iterations s' = s_Iterations (session w3) /\ s_Authenticated s' = true /\ s_Online s' = false.
Proof.
  apply (restart_resumes (env up) cfg cfg_valid clock_runs w3 front (session w3) 100 100 100).
  - exact replies_up.
  - exact reachable_w3.
  - exact front_configured.
  - vm_compute. reflexivity.
  - vm_compute. reflexivity.
  - rewrite run_pair. by f_equal.
Defined.

Lemma request_needs_proof_witness :
  exists s, session_at w4 front = Some s /\ s_Authenticated s = true /\
    req_MyCustomAuth logout_request = expectedCustomAuth front (s_Salt s) (s_NextChallenge s).
Proof.
  apply (request_needs_proof (env up) cfg cfg_valid clock_runs logout_request w4 (response logout_request w4) w5
           front "Logout").
  - exact reachable_w4.
  - by_routing.
  - done.
  - by_serving.
  - by_differing.
Defined.

(** A CommandRequest with a made-up proof. *)
Definition forged_request : Request := request "PUSH-1" "CommandRequest" "forged" [].

Lemma unproven_changes_nothing_witness :
  ~ accepted (response forged_request w3) /\
  session_at (serve forged_request w3).2 front = session_at w3 front /\
  checkpoint_at (serve forged_request w3).2 front = checkpoint_at w3 front.
Proof.
  pose proof (unproven_changes_nothing (env up) cfg cfg_valid clock_runs forged_request w3
    (Ok (response forged_request w3)) (serve forged_request w3).2 front "CommandRequest") as [Hr Hs].
  - exact reachable_w3.
  - by_routing.
  - done.
  - done.
  - assert (session_at w3 front = Some (session w3)) as Hw3 by (vm_compute; reflexivity).
    intros s Hs. rewrite Hw3 in Hs. apply (inj Some) in Hs. rewrite <- Hs. right. by_differing.
  - by_serving.
  - split; [by apply Hr|exact Hs].
Defined.


Lemma login_needs_credentials_witness :
  exists s s', session_at w1 front = Some s /\ s_Authenticated s = false /\
    login_credentials front login_request s (req_Body login_request) /\
    session_at w2 front = Some s' /\ s_Authenticated s' = true /\ s_Online s' = true /\
    s_NextChallenge s' = resp_MyCustomChallenge (response login_request w1) /\ s_Salt s' = s_Salt s.
Proof.
  apply (login_needs_credentials (env up) cfg cfg_valid clock_runs).
  - exact reachable_w1.
  - by_routing.
  - by_serving.
  - by_differing.
Defined.

Lemma logout_revokes_witness : session_at w5 front = None /\ checkpoint_at w5 front = None.
Proof.
  apply (logout_revokes (env up) cfg cfg_valid clock_runs logout_request w4 (response logout_request w4)).
  - exact reachable_w4.
  - by_routing.
  - by_serving.
  - by_differing.
Defined.

Lemma serve_total_witness :
  exists resp w', ServeHTTP (env up) cfg event_request w3 = (Ok resp, w') /\ inv cfg (replies_arrive (env up)) w'.
Proof.
  apply (serve_total (env up) cfg cfg_valid clock_runs event_request w3 reachable_w3 rand_productive).
Defined.

Lemma terminals_isolated_witness :
  session_at w3 back = session_at w2 back /\ checkpoint_at w3 back = checkpoint_at w2 back.
Proof.
  apply (terminals_isolated (env up) cfg cfg_valid clock_runs command_request w2
           (Ok (response command_request w2)) w3 front "CommandRequest").
  - exact reachable_w2.
  - by_routing.
  - exact back_configured.
  - by_differing.
  - by_serving.
Defined.

Lemma published_is_committed_witness :
  length (w_published w4) = 3%nat /\ Forall (.∈ committed (w_db w4)) (w_published w4).
Proof.
  split; [vm_compute; reflexivity|].
  exact (published_is_committed (env up) cfg cfg_valid clock_runs w4 reachable_w4).
Defined.

(** No request holds the lock of a terminal. *)
Definition idle : string -> bool := fun _ => false.

Lemma maintenance_keeps_sessions_witness :
  checkpoint_at (maintenance_tick (env up) cfg idle w3).2 front = checkpoint_at w3 front /\
  exists b, session_at (maintenance_tick (env up) cfg idle w3).2 front = Some (set_online (session w3) b) /\
    (b = true -> s_Online (session w3) = true).
Proof.
  apply (maintenance_keeps_sessions (env up) cfg cfg_valid clock_runs idle w3
           (maintenance_tick (env up) cfg idle w3).1).
  - exact reachable_w3.
  - vm_compute. reflexivity.
  - vm_compute. reflexivity.
  - vm_compute. reflexivity.
  - apply run_pair.
Defined.

Lemma gauge_covers_online_witness : size (online w3) = 1%nat /\ Z.of_nat (size (online w3)) <= SessionsActive w3.
Proof.
  split; [vm_compute; reflexivity|].
  exact (gauge_covers_online (env up) cfg cfg_valid clock_runs w3 reachable_w3).
Defined.

Lemma acknowledged_events_archived_witness :
  exists s plain params parsed, session_at w3 front = Some s /\
    payloadForSession event_request front s "Event" (req_Body event_request) true = Ok (plain, params) /\
    ParseEventBatch (SerialNumber front) plain = Ok parsed /\
    forall e, e ∈ parsed ->
      let key := event_key (pe_Record e) in
      ((forall v, (key, v) ∉ archived (w_db w3)) ->
         forall v, (key, v) ∈ archived (w_db w4) <-> v = (nde_DataFormat (pe_Record e), nde_PayloadBase64 (pe_Record e))) /\
      ((exists v, (key, v) ∈ archived (w_db w3)) ->
         forall v, (key, v) ∈ archived (w_db w4) <-> (key, v) ∈ archived (w_db w3)).
Proof.
  apply (acknowledged_events_archived (env up) cfg event_request w3 (response event_request w3) w4 front).
  - by_routing.
  - by_serving.
  - by_differing.
Defined.

(** The terminal authenticates anew while it has a session. *)
Definition authInfo_again : result error protocolResponse * World := authInfo (env up) front [] w3.

Lemma authInfo_starts_session_witness :
  match authInfo_again.1 with
  | Ok resp => exists s mode, session_at authInfo_again.2 front = Some s /\ fresh_session cfg front s mode /\
      checkpoint_at authInfo_again.2 front = Some (checkpointed (PersistentState s)) /\
      pr_Body resp = authInfoResponse (s_LoginChallenge s) (s_Salt s) (s_Iterations s) (IsEncrypted mode)
                       (if IsEncrypted mode then [SecurityVersion front] else [])
  | Err _ => session_at authInfo_again.2 front = session_at w3 front \/
      exists s mode, session_at authInfo_again.2 front = Some s /\ fresh_session cfg front s mode
  end.
Proof.
  apply (authInfo_starts_session (env up) cfg cfg_valid clock_runs front [] w3).
  - exact reachable_w3.
  - exact front_configured.
  - unfold authInfo_again. apply run_pair.
Defined.

(** ** The store *)
Lemma session_row_current_witness :
  db_sessions (w_db w3) !! "SN-1" = Some (row_of_session (PersistentState (session w3))).
Proof.
  apply (session_row_current (env up) cfg w3 "PUSH-1" 0%nat (session w3)).
  - exact cfg_valid.
  - exact clock_runs.
  - exact replies_up.
  - exact reachable_w3.
  - vm_compute. reflexivity.
  - vm_compute. reflexivity.
  - vm_compute. reflexivity.
Defined.

(** A call that commits. *)
Lemma committed_call {A} (m : Tx store_error TxCtx DB A) n d a :
  value m n d = Some a -> m (ctx n) d = Ok (a, after m n d).
Proof. unfold value, after. destruct (m (ctx n) d) as [[a' d']|e]; [by intros [= ->]|done]. Qed.

Ltac by_committing m n d := exact (committed_call m n d _ ltac:(vm_compute; reflexivity)).

Lemma batch_archived_witness :
  let view d := events_view (db_device_events d) in
  view route_db ⊆ view outbox_db /\
  (forall x, x ∈ view outbox_db -> x ∈ view route_db \/
     exists e, e ∈ [face_event] /\ x = (event_key e, event_content e) /\ (forall v, (event_key e, v) ∉ view route_db)) /\
  (forall e, e ∈ [face_event] -> exists v, (event_key e, v) ∈ view outbox_db).
Proof.
  apply (batch_archived [face_event] (ctx 41) route_db
           (default [] (value (Archive.InsertDeviceEventBatch [face_event]) 41 route_db))).
  by_committing (Archive.InsertDeviceEventBatch [face_event]) 41%nat route_db.
Defined.

(** The command of [queued_db], with its claim and its completion. *)
Definition command_uuid : string := uuid_at 21 queued_db.
Definition no_command : CommandRow :=
  mkCommandRow "" None "" "" "" "" [] CmdExpired 0 0 None None None None None.
Definition command_row (d : DB) : CommandRow := default no_command (db_commands d !! command_uuid).
Definition value_or {A} (a : A) (m : Tx store_error TxCtx DB A) (n : nat) (d : DB) : A := default a (value m n d).

Lemma command_ops_run : rtc command_op queued_db completed_db.
Proof.
  apply (rtc_l _ _ claimed_db).
  - apply (op_claim "SN-1" 5 (ctx 21) queued_db (value_or ([], []) claim 21 queued_db) claimed_db). by_committing claim 21%nat queued_db.
  - apply rtc_once.
    apply (op_complete "SN-1" results (ctx 22) claimed_db (value_or ([], false) (complete results) 22 claimed_db) completed_db).
    by_committing (complete results) 22%nat claimed_db.
Qed.

Lemma command_lifecycle_witness :
  exists r', db_commands completed_db !! command_uuid = Some r' /\ rtc command_step (command_row queued_db) r' /\
    CommandProofs.command_request r' = CommandProofs.command_request (command_row queued_db) /\
    (command_open (command_row queued_db) = false -> r' = command_row queued_db).
Proof.
  apply (command_lifecycle queued_db completed_db command_uuid (command_row queued_db)).
  - exact command_ops_run.
  - vm_compute. reflexivity.
Defined.

Lemma claim_hands_out_oldest_witness :
  let ds := (value_or ([], []) claim 21 queued_db).1 in
  length ds = 1%nat /\
  exists rows, ds = delivery_of <$> rows /\ NoDup (rows.*1) /\ zlen rows <= 5 <= 20 /\
    StronglySorted (fun a b => command_leb a b = true) rows /\
    (forall uuid r, (uuid, r) ∈ rows -> db_commands queued_db !! uuid = Some r /\
       Commands.claimable (cx_now (ctx 21)) "SN-1" r = true /\
       db_commands claimed_db !! uuid = Some (command_sent (cx_now (ctx 21)) r)) /\
    (forall uuid r, db_commands queued_db !! uuid = Some r -> Commands.claimable (cx_now (ctx 21)) "SN-1" r = true ->
       (uuid, r) ∉ rows -> zlen rows = 5 /\ forall x, x ∈ rows -> command_leb x (uuid, r) = true) /\
    (forall uuid, uuid ∉ rows.*1 -> db_commands claimed_db !! uuid =
       match db_commands queued_db !! uuid with
       | Some r =>
           if bool_decide (cr_terminal_serial_number r = "SN-1" /\ (cr_status r = CmdQueued \/ cr_status r = CmdSent) /\
                           cr_expires_at r <= cx_now (ctx 21))
           then Some (command_expired (cx_now (ctx 21)) r) else Some r
       | None => None
       end).
Proof.
  split; [vm_compute; reflexivity|].
  apply (claim_hands_out_oldest "SN-1" 5 (ctx 21) queued_db _ (value_or ([], []) claim 21 queued_db).2 claimed_db).
  by_committing claim 21%nat queued_db.
Defined.

(** A second command is queued and claimed after the first. *)
Definition requeued_db : DB := after (QueueISAPICommand input) 25 claimed_db.
Definition first_delivery (n : nat) (d : DB) : ISAPICommandDelivery :=
  default (Build_ISAPICommandDelivery "" "" "" "" []) (head (value_or ([], []) claim n d).1).

Lemma delivered_at_most_once_witness :
  icd_UUID (first_delivery 21 queued_db) <> icd_UUID (first_delivery 26 requeued_db).
Proof.
  apply (delivered_at_most_once "SN-1" 5 (ctx 21) queued_db (value_or ([], []) claim 21 queued_db).1
    (value_or ([], []) claim 21 queued_db).2 claimed_db requeued_db "SN-1" 5 (ctx 26)
    (value_or ([], []) claim 26 requeued_db).1 (value_or ([], []) claim 26 requeued_db).2
    (after claim 26 requeued_db)).
  - by_committing claim 21%nat queued_db.
  - apply rtc_once. eapply (op_queue input (ctx 25) claimed_db _ requeued_db). by_committing (QueueISAPICommand input) 25%nat claimed_db.
  - by_committing claim 26%nat requeued_db.
  - vm_compute. left.
  - vm_compute. left.
Defined.

Lemma results_idempotent_witness :
  exists pending', Commands.CompleteISAPICommands "SN-1" results (ctx 23) completed_db = Ok (([], pending'), completed_db).
Proof.
  apply (results_idempotent "SN-1" results (ctx 22) claimed_db
    (value_or ([], false) (complete results) 22 claimed_db).1
    (value_or ([], false) (complete results) 22 claimed_db).2 completed_db (ctx 23)).
  - by_committing (complete results) 22%nat claimed_db.
  - assert (Hall : map_Forall (fun _ r => overdue (cx_now (ctx 23)) (Some "SN-1") r = false)
                     (db_commands completed_db)) by (apply (bool_decide_unpack _); vm_compute; exact I).
    exact Hall.
Defined.

(** Another answer for the completed command. *)
Definition other_answer : ISAPICommandResult := answer command_uuid (bytes_of "{ }").

Lemma conflicting_result_refused_witness :
  exists err, Commands.CompleteISAPICommands "SN-1" [other_answer] (ctx 23) completed_db = Err err.
Proof.
  apply (conflicting_result_refused "SN-1" [other_answer] other_answer (ctx 23) completed_db (command_row completed_db)).
  - vm_compute. reflexivity.
  - vm_compute. reflexivity.
  - right. apply (bool_decide_eq_false_1 _). vm_compute. reflexivity.
  - left.
Defined.

Definition no_admin_command : ISAPICommand := scanISAPICommand ("", no_command).
Definition queued_value : ISAPICommand * activity.Event :=
  value_or (no_admin_command, activity.event "" "" "" ∅) (QueueISAPICommand input) 20 online_db.

Lemma queued_command_witness :
  tr_connection_status <$> db_terminals online_db !! "SN-1" = Some "online" /\
  commandUUID (ic_UUID queued_value.1) = true /\ db_commands online_db !! ic_UUID queued_value.1 = None /\
  db_commands queued_db = <[ic_UUID queued_value.1 := queued_row input (cx_now (ctx 20))]> (db_commands online_db) /\
  cx_clock (ctx 20) 0 < nc_ExpiresAt input /\ queued_value.2 ∈ db_activities queued_db.
Proof.
  apply (queued_command input (ctx 20) online_db queued_value.1 queued_value.2 queued_db).
  by_committing (QueueISAPICommand input) 20%nat online_db.
Defined.

Lemma uuid_well_formed_witness : commandUUID (uuid_text (replicate 16 "0"%char)) = true.
Proof. apply (uuid_well_formed (replicate 16 "0"%char)). reflexivity. Defined.

Definition from_result {E A} (a : A) (r : result E A) : A := match r with Ok x => x | Err _ => a end.

(** The first page of the retained-event run arrives. *)
Definition page_state : TxState := mkTxState page_db 0 0.
Definition page_step : list activity.Event * TxState :=
  from_result ([], page_state) (completeAccessEventSyncCommand "SN-1" page_result start (ctx 34) page_state).
Definition page_command : accessEventSyncCommand :=
  default (Build_accessEventSyncCommand "" "" None "" "" SyncFailed PhaseTime None None None None 0 0 0)
    (sync_command page_db page_uuid).

Lemma sync_page_accounted_witness : page_outcome (tx_db page_step.2) page_command 0.
Proof.
  apply (sync_page_accounted "SN-1" page_result start (ctx 34) page_state page_step.1 page_step.2).
  - vm_compute. reflexivity.
  - split_and!; [vm_compute; reflexivity..|eexists; vm_compute; reflexivity|vm_compute; reflexivity].
Defined.

Lemma stale_lease_refused_witness :
  FinishEventDelivery first_lease DlvDelivered 200 "" start (ctx 104) leased_again_db <> Ok (tt, leased_again_db).
Proof.
  apply (stale_lease_refused (ctx 42) outbox_db first_lease leased_db leased_db (ctx 103) second_lease
           leased_again_db leased_again_db).
  - vm_compute. reflexivity.
  - apply rtc_refl.
  - vm_compute. reflexivity.
  - apply rtc_refl.
  - vm_compute. reflexivity.
Defined.

Lemma lease_holder_settles_witness :
  exists d'' r, FinishEventDelivery first_lease DlvDelivered 200 "" start (ctx 43) leased_db = Ok (tt, d'') /\
    db_deliveries d'' !! ev_ID first_lease = Some r /\ qr_status (dr_queue r) = DlvDelivered /\
    qr_lease_until (dr_queue r) = None /\ dr_request_body r = ev_Body first_lease /\
    (forall id, id <> ev_ID first_lease -> db_deliveries d'' !! id = db_deliveries outbox_db !! id).
Proof.
  apply (lease_holder_settles (ctx 42) outbox_db first_lease leased_db).
  vm_compute. reflexivity.
Defined.

Lemma backfill_terminates_witness :
  is_Some (BackfillAccessEventProjections 10 0 (fun _ => Some (ctx 50)) (fun _ => false) outbox_db).
Proof.
  apply (backfill_terminates 10 0 (fun _ => Some (ctx 50)) (fun _ => false) outbox_db).
  apply (bool_decide_unpack _). vm_compute. exact I.
Defined.

Lemma outbox_exact_witness :
  (forall k row, db_deliveries route_db !! k = Some row -> db_deliveries outbox_db !! k = Some row) /\
  (forall id, db_device_events route_db !! id = None ->
     (is_Some (delivery_candidate outbox_db id) <->
      exists k row, db_deliveries route_db !! k = None /\ db_deliveries outbox_db !! k = Some row /\
        dr_device_event_id row = Some id)) /\
  (forall k row, db_deliveries route_db !! k = None -> db_deliveries outbox_db !! k = Some row ->
     outbox_queued (ctx 41) outbox_db k row).
Proof.
  apply (outbox_exact (ctx 41) [face_event]
           (value_or [] (Archive.InsertDeviceEventBatch [face_event]) 41 route_db) route_db outbox_db).
  by_committing (Archive.InsertDeviceEventBatch [face_event]) 41%nat route_db.
Defined.

(** ** Cryptography, messages and configuration *)
Lemma payload_roundtrip_witness :
  let params := {| ep_SecurityVersion := 3; ep_IV := replicate 16 "7"%char; ep_Random := "r" |} in
  exists body, encrypt front "salt" 4096 params (bytes_of "hello") = Ok body /\
    decrypt front "salt" 4096 params body = Ok (bytes_of "hello").
Proof. apply (payload_roundtrip front "salt" 4096). reflexivity. Defined.

Lemma random_token_arrives_witness :
  match (randomAlphaNumeric 64 rand 0 64).1 with
  | RDone s => alphaNumeric64 s = true
  | RFail => exists j, rand j = None
  | RFuel => False
  end.
Proof. exact (random_token_arrives rand 0 rand_productive). Defined.

Lemma alphabet_uniform_witness :
  length (List.filter (fun b => bool_decide (alphabet_char b = Some "A"%char)) all_bytes) = 4%nat.
Proof. apply (alphabet_uniform "A"%char). apply (bool_decide_unpack _). vm_compute. exact I. Defined.

Definition parsed_events : list ParsedEvent :=
  match ParseEventBatch "SN-1" event_body with Ok parsed => parsed | Err _ => [] end.

Lemma event_batch_sound_witness :
  length parsed_events = 1%nat /\
  (length parsed_events <= 20)%nat /\ NoDup (pe_UUID <$> parsed_events) /\ Forall (event_ok "SN-1") parsed_events.
Proof.
  split; [vm_compute; reflexivity|]. apply (event_batch_sound "SN-1" event_body). vm_compute. reflexivity.
Defined.

Definition result_body : bytes :=
  json_Marshal (OObject [("commandNum", OInt 1); ("commandList", OArray [OObject
    [("UUID", OString "30313233-3435-4637-b839-303132333435"); ("dataFormat", OString "jsonData");
     ("data", OString "e30=")]])]).
Definition parsed_results : list ISAPICommandResult :=
  match ParseCommandResultBatch result_body with Ok parsed => parsed | Err _ => [] end.

Lemma result_batch_sound_witness :
  length parsed_results = 1%nat /\
  (length parsed_results <= 20)%nat /\ NoDup (icr_UUID <$> parsed_results) /\ Forall result_ok parsed_results.
Proof.
  split; [vm_compute; reflexivity|]. apply (result_batch_sound result_body). vm_compute. reflexivity.
Defined.

Lemma validated_config_witness : valid_config cfg.
Proof. apply (validated_config cfg). vm_compute. reflexivity. Defined.
