(* ===== verification/AdminWitnesses.v ===== *)
(** The theorems about the gateway, its administration, backfills, migrations and start
    applied to the concrete runs of [Scenario] and [AdminScenario]. *)

From Stdlib Require Import ZArith Lia Ascii String.
From stdpp Require Import base gmap strings list option relations sorting.
From S2P Require Import Prelude GoText GoTime GoJSON GoHTTP GoConv GoNet GoCrypto AccessControl Config Crypto StoreTypes.
From S2P Require Import Hub Wire Database Migrations StoreCore Deliveries Attachments Backfills Archive CommandQueue Queries Admin.
From S2P Require Import AdminProofs BackfillProofs World StoreInstance APIInput AdminAPI Session Service Gateway.
From S2P Require Import ServiceInv ServiceProofs ServiceSpec GatewayProofs APISpec Protocol Scenario AdminScenario Witnesses.
Import Scenario AdminScenario.

Local Open Scope string_scope.
Local Open Scope Z_scope.

(** The constraints of the administration tables, decided on a concrete database. *)
Definition admin_tables_ok (users : gmap Z AdminUserRow) (sessions : gmap Z AdminSessionRow) : bool :=
  bool_decide (map_Forall (fun i u => map_Forall (fun j v => au_username u = au_username v -> i = j) users) users)
  && bool_decide (map_Forall (fun i s => map_Forall (fun j t => as_token_hash s = as_token_hash t -> i = j) sessions) sessions)
  && bool_decide (map_Forall (fun _ s => is_Some (users !! as_admin_user_id s)) sessions).

Lemma admin_wf_decided d : admin_tables_ok (db_admin_users d) (db_admin_sessions d) = true -> admin_wf d.
Proof.
  unfold admin_tables_ok. rewrite !andb_true_iff, !bool_decide_eq_true. intros [[H1 H2] H3]. split.
  - intros i u j v Hu Hv. by apply (H1 i u Hu j v Hv).
  - intros i s j t Hs Ht. by apply (H2 i s Hs j t Ht).
  - exact H3.
Qed.

Ltac by_deciding := apply (bool_decide_unpack _); vm_compute; exact I.
Ltac by_constraints := apply admin_wf_decided; vm_compute; reflexivity.

(** The start on an empty database succeeds. *)
Definition unstarted : World := NewService empty_DB 0 0 0.
Lemma empty_checkpoints s c : checkpoints empty_DB !! s = Some c -> checkpoint_wf s c.
Proof. assert (checkpoints empty_DB = ∅) as -> by (vm_compute; reflexivity). by rewrite lookup_empty. Qed.

Lemma started_ok : Gateway.start (env up) cfg (NewService empty_DB 0 0 0) = (Ok nets, v0).
Proof.
  change (started = (Ok nets, v0)). unfold v0, nets.
  assert (match started.1 with Ok _ => true | Err _ => false end = true) by (vm_compute; reflexivity).
  by destruct started as [[]].
Qed.

(** ** The gateway *)

(** An administrator signs in, then a terminal authenticates through the same mux. *)
Definition terminal_hello : APIRequest :=
  mkAPIRequest authInfo_request "" 0 [] "" "" "gateway.example" true "10.1.2.3:5000" None.
Definition v2 : World := (answer_of terminal_hello v1).2.

Lemma gateway_answers request w : gateway_step (env up) cfg handshake w (answer_of request w).2.
Proof. apply (g_request (env up) cfg handshake nets request w (answer_of request w).1). apply run_pair. Qed.

Lemma gateway_refines_protocol_witness : is_Some (session_at v2 front) /\ reachable (env up) cfg v2.
Proof.
  split; [eexists; vm_compute; reflexivity|].
  apply (gateway_refines_protocol (env up) cfg handshake v2).
  exists unstarted. split.
  - exists empty_DB, 0%nat, 0%nat, 0%nat. split; [done|exact empty_checkpoints].
  - apply (rtc_l _ _ v0); [exact (g_start _ _ _ unstarted 0 0 0 nets v0 started_ok)|].
    apply (rtc_l _ _ v1); [apply gateway_answers|]. apply rtc_once, gateway_answers.
Defined.

Lemma started_gateway_witness :
  inv cfg True v0 /\ offline v0 /\
  (exists id u, db_admin_users (w_db v0) = {[id := u]} /\ au_username u = AdminUsername cfg /\
     bcrypt_CompareHashAndPassword (au_password_hash u) (bytes_of (AdminPassword cfg)) = true /\
     forall i s, db_admin_sessions (w_db v0) !! i = Some s -> as_admin_user_id s = id) /\
  (forall t, t ∈ Terminals cfg -> exists row, db_terminals (w_db v0) !! SerialNumber t = Some row /\
     tr_connection_status row = "offline" /\ tr_pushsdk_serial row = PushSDKSerial t /\
     tr_credential_fingerprint row = CredentialFingerprint t) /\
  Forall2 (fun cidr p => Netip.ParsePrefix cidr = Some p) (MetricsCIDRs cfg) nets.
Proof.
  apply (started_gateway (env up) cfg empty_DB 0 0 0 nets v0).
  - exact cfg_valid.
  - exact clock_runs.
  - by_constraints.
  - exact empty_checkpoints.
  - exact started_ok.
Defined.

Lemma no_session_no_access_witness :
  let r := mux (env up) cfg handshake nets stranger_post v1 in
  w_db r.2 = w_db v1 /\ w_published r.2 = w_published v1 /\ exists a, r.1 = Ok a /\ refusal a.
Proof.
  apply (no_session_no_access (env up) cfg handshake nets stranger_post v1).
  - left. vm_compute. reflexivity.
  - vm_compute. reflexivity.
  - apply run_pair.
Defined.

Definition signed_answer : Answer := match signed.1 with Ok a => a | Err _ => ANotFound end.

Lemma login_opens_session_witness :
  exists input id u tok,
    decodeJSON (decode_struct true loginInput_fields) (mkLoginInput "" "") sign_in_request = Ok input /\
    db_admin_users (w_db v0) !! id = Some u /\ au_username u = li_Username input /\
    bcrypt_CompareHashAndPassword (au_password_hash u) (bytes_of (li_Password input)) = true /\
    signed_answer = AJSON 200 (Some (mkSetCookie sessionCookie tok (whole_seconds (SessionTTL cfg)) (CookieSecure cfg)))
                      (VStatus "authenticated") /\
    forall later c, api_Cookies later = [sessionCookie +:+ "=" +:+ tok] ->
      signed_in c (w_db signed.2) later =
      if bool_decide (cx_now c < expiry (env up) cfg v0) then Some {| ai_ID := id; ai_Username := li_Username input |}
      else None.
Proof.
  destruct (login_opens_session (env up) cfg sign_in_request no_value v0 signed_answer signed.2)
    as [(status & message & Ha & _)|Hok].
  - by_constraints.
  - assert (signed.1 = Ok signed_answer) as <- by (vm_compute; reflexivity). apply run_pair.
  - exfalso. revert Ha. vm_compute. discriminate.
  - exact Hok.
Defined.



(** ** Administrators *)

(** A session that is purged after it has been signed out. *)
Lemma signed_out_token_refused_witness :
  SessionValid token_hash (ctx 63) (purged_db closed_db) = Ok (false, purged_db closed_db) /\
  AdminIdentityForSession token_hash (ctx 63) (purged_db closed_db) = Ok (None, purged_db closed_db).
Proof.
  apply (signed_out_token_refused token_hash logout_event (ctx 61) session_db (value_or logout_event delete_session 61 session_db)
           closed_db (purged_db closed_db) (ctx 63)).
  - by_constraints.
  - by_committing delete_session 61%nat session_db.
  - apply rtc_once. exists OpPurge, (ctx 62). split; [done|]. apply step_purge.
    by_committing PurgeExpiredSessions 62%nat closed_db.
Defined.

Definition root_row : AdminUserRow := default (Build_AdminUserRow "" "") (db_admin_users db0 !! 1).

(** A purge runs while the session lives. *)
Lemma session_lifetime_witness :
  cx_now (ctx 63) < to_micros (Scenario.start + 3600 * second) /\
  let valid := bool_decide (cx_now (ctx 63) < to_micros (Scenario.start + 3600 * second)) in
  SessionValid token_hash (ctx 63) (purged_db session_db) = Ok (valid, purged_db session_db) /\
  AdminIdentityForSession token_hash (ctx 63) (purged_db session_db) =
    Ok (if valid then Some {| ai_ID := 1; ai_Username := au_username root_row |} else None, purged_db session_db).
Proof.
  split; [by_deciding|].
  apply (session_lifetime 1 root_row token_hash (Scenario.start + 3600 * second) login_event (ctx 60) db0
           (value_or login_event create_session 60 db0) session_db (purged_db session_db) (ctx 63)).
  - by_constraints.
  - vm_compute. reflexivity.
  - apply (committed_call create_session 60 db0). vm_compute. reflexivity.
  - apply rtc_once. exists OpPurge, (ctx 62).
    split; [change (cx_now (ctx 62) <= cx_now (ctx 63)); by_deciding|]. apply step_purge.
    by_committing PurgeExpiredSessions 62%nat session_db.
Defined.

(** ** Backfills *)
Definition batch : Z * Z := value_or (0, 0) queue_backfill 73 late_route_db.

Lemma backfill_queues_preview_witness :
  batch.2 = 2 /\
  exists p, PreviewEventBackfill "SN-1" day_start day_end (ctx 73) late_route_db = Ok (p, late_route_db) /\
    bp_Token p = preview_token /\ batch.2 = zlen (bp_candidates p) /\ 0 < batch.2 /\
    candidates_queued (ctx 73) "SN-1" batch.1 (bp_Route p) late_route_db (bp_candidates p) backfilled_db /\
    db_backfills backfilled_db !! batch.1 = Some {| bf_terminal_serial_number := "SN-1";
      bf_starts_at := to_micros (t_ns day_start); bf_ends_at := to_micros (t_ns day_end);
      bf_preview_sha256 := preview_token; bf_queued_count := batch.2; bf_created_by := 1 |} /\
    (forall token' actor' c' x, QueueEventBackfill "SN-1" day_start day_end token' actor' c' backfilled_db <> Ok x).
Proof.
  split; [vm_compute; reflexivity|].
  apply (backfill_queues_preview "SN-1" day_start day_end preview_token 1 (ctx 73) late_route_db batch.1 batch.2
           backfilled_db).
  apply (committed_call queue_backfill 73 late_route_db). vm_compute. reflexivity.
Defined.

Lemma attachment_backfill_exact_witness :
  exists p, PreviewAttachmentBackfill "SN-1" (ev_ID first_lease) (ctx 75) delivered_db = Ok (p, delivered_db) /\
    ap_Token p = pictures_token /\ 1 = zlen (ap_IDs p) /\ 0 < 1 <= 5000 /\
    (forall id, id ∈ ap_IDs p <-> exists r, db_deliveries delivered_db !! id = Some r /\
       lacks_attachment delivered_db "SN-1" (ap_ThroughDeliveryID p) id r = true) /\
    attachments_queued (ctx 75) delivered_db (ap_IDs p) pictures_db /\
    (forall token' actor' c' x,
       QueueAttachmentBackfill "SN-1" (ev_ID first_lease) token' actor' c' pictures_db <> Ok x).
Proof.
  apply (attachment_backfill_exact "SN-1" (ev_ID first_lease) pictures_token 1 (ctx 75) delivered_db 1 pictures_db).
  apply (committed_call queue_pictures 75 delivered_db). vm_compute. reflexivity.
Defined.

(** ** The archive, the hub, migrations and the configuration *)
Lemma archive_pages_partition_witness :
  length (matching_events archive_db archive_query) = 3%nat /\
  exists (pages : nat -> DeviceEventPage) (total : Z),
    (forall k, QueryDeviceEvents (page_at archive_query k) (ctx k) archive_db = Ok (pages k, archive_db) /\
       page_Total (pages k) = total) /\
    forall n : nat, total <= Z.of_nat n * dq_Limit archive_query ->
      let all := concat ((fun k => page_Events (pages k)) <$> seq 0 n) in
      zlen all = total /\ NoDup all /\ (forall e, e ∈ all <-> requested archive_db archive_query e) /\
      StronglySorted newer all.
Proof.
  split; [vm_compute; reflexivity|].
  apply (archive_pages_partition archive_query archive_db ctx).
  - reflexivity.
  - done.
  - apply untied_decided. vm_compute. reflexivity.
Defined.

Definition login_payload : bytes := default [] (Hub.payload zone login_event).
Definition logout_payload : bytes := default [] (Hub.payload zone logout_event).
Definition hub_ops : list Hub.op := [Hub.Published login_payload; Hub.Received 0 login_payload; Hub.Published logout_payload].

Lemma keeping_up_is_lossless_witness :
  (Hub.taken 0 hub_ops ++ Hub.buffered 0 hub3)%list = (Hub.buffered 0 hub0 ++ Hub.published hub_ops)%list.
Proof.
  apply (Hub.keeping_up_is_lossless zone hub0 hub_ops hub3 0).
  - apply Hub.wf_subscribe, Hub.wf_New.
  - apply (Hub.up_cons _ _ _ _ hub1);
      [by_deciding..| |].
    { by apply (Hub.step_publish _ login_event); vm_compute. }
    apply (Hub.up_cons _ _ _ _ hub2);
      [by_deciding..| |].
    { apply Hub.step_receive. vm_compute. reflexivity. }
    apply (Hub.up_cons _ _ _ _ hub3);
      [by_deciding..| |].
    { by apply (Hub.step_publish _ logout_event); vm_compute. }
    apply Hub.up_nil.
Defined.

(** The run that fails at its seventh call, in the transaction of the second script. *)
Definition migrated : result string unit * State := Migrate no_fault directory (old_database, 0%nat).
Definition interrupted : result string unit * State := Migrate (fails_at 6) directory (old_database, 0%nat).

Lemma interrupted_migration_resumes_witness :
  interrupted.1 = Err "apply migration 011_pictures.sql: %w" /\
  Migrations.outcome (Migrate no_fault directory (interrupted.2.1, 0%nat)) = (Ok tt, migrated.2.1).
Proof.
  split; [vm_compute; reflexivity|].
  apply (interrupted_migration_resumes (fails_at 6) directory old_database 0 0 0 interrupted.1 interrupted.2.1
           interrupted.2.2 migrated.2.1 migrated.2.2).
  - vm_compute. reflexivity.
  - vm_compute. reflexivity.
Defined.

Lemma loaded_config_witness :
  valid_config loaded /\
  (forall t, t ∈ Terminals loaded -> LookupEnv process (PasswordEnvironmentVariable t) = Some (Password t)).
Proof. apply (loaded_config process loaded). vm_compute. reflexivity. Defined.
