(* ===== verification/RunWitnesses.v ===== *)
(** The theorems about the start of the process, the messages on the wire, the delivery
    worker and the monitor applied to concrete runs. *)

From Stdlib Require Import ZArith Lia Ascii String.
From stdpp Require Import base gmap strings list option relations sorting.
From S2P Require Import Prelude GoText GoTime GoJSON JSONProofs GoHTTP GoURL GoNet GoCrypto AccessControl Config Crypto.
From S2P Require Import StoreTypes Hub Database Migrations StoreCore Deliveries Worker Attachments Queries DeliveryProofs MessageProofs.
From S2P Require Import WorkerProofs World StoreInstance AdminAPI Monitor Gateway ServiceInv ServiceProofs ServiceSpec.
From S2P Require Import GatewayProofs ProcessStart Scenario AdminScenario Witnesses AdminWitnesses.
Import Scenario AdminScenario.

Local Open Scope string_scope.
Local Open Scope Z_scope.

(** ** The process *)

(** The environment of [AdminScenario] on a database with an older schema. *)
Definition machine : Machine := {|
  mc_process := process;
  mc_directory := fun _ => directory;
  mc_connects := fun _ => true;
  mc_answers := fun _ => true;
  mc_fault := no_fault;
  mc_env := env up;
  mc_rows := fun _ => empty_DB
|}.
Definition booted : result error Listening * Database_ := boot machine old_database.
Definition listening : Listening :=
  match booted.1 with Ok l => l | Err _ => {| ls_config := cfg; ls_nets := []; ls_world := unstarted |} end.

Lemma booted_ok : boot machine old_database = (Ok listening, booted.2).
Proof.
  change (booted = (Ok listening, booted.2)). unfold listening.
  assert (match booted.1 with Ok _ => true | Err _ => false end = true) by (vm_compute; reflexivity).
  by destruct booted as [[]].
Qed.

Lemma listening_gateway_ready_witness :
  main machine old_database (Signalled None) = 0 /\ valid_config (ls_config listening) /\
  registered old_database ⊆ registered booted.2 /\ inv (ls_config listening) True (ls_world listening) /\ offline (ls_world listening).
Proof.
  split; [vm_compute; reflexivity|].
  destruct (listening_gateway_ready machine old_database listening booted.2) as (H1 & _ & H2 & _ & H3 & H4 & _).
  - exact booted_ok.
  - exact clock_runs.
  - by_constraints.
  - exact empty_checkpoints.
  - by split_and!.
Defined.

(** ** Messages *)

(** 14 November 2023 in a zone two hours ahead, to the nanosecond; a name that is not ASCII,
    with a byte that is not UTF-8. *)
Definition attended : EventMessage :=
  mkEventMessage 2 "pushsdk" "E-1" "SN-1" "P-1" 5 75 (Some "active") (Some (mkTime (Scenario.start + 123456789) 7200))
    (Some "1001") (Some ("J" +:+ string_of [byte_of 195; byte_of 188; byte_of 255])) None.

Lemma message_roundtrip_witness :
  is_Some (marshal_message attended) /\
  unmarshal_EventMessage (default [] (marshal_message attended)) = Some (cleaned attended).
Proof.
  split; [eexists; vm_compute; reflexivity|].
  apply (message_roundtrip attended); [vm_compute; reflexivity|]. vm_compute. reflexivity.
Defined.

(** ** The delivery worker *)

(** A receiver that stores what it can decode: events, or pictures. *)
Definition storing (picture : bool) : HTTPClient := {|
  http_NewRequest_ok := fun _ => true;
  client_Do := fun _ request =>
    match unmarshal_EventMessage (og_body request) with
    | Some m => Some {| ir_code := 200; ir_body := receipt_text picture m; ir_broken := false |}
    | None => None
    end
|}.
Definition worker_env : WorkerEnv :=
  {| we_ctx := fun n => ctx (42 + n); we_fault := up; we_lost := up; we_now := fun n => cx_now (ctx (42 + n)); we_cancelled := up |}.
Definition idle_worker : WorkerState := mkWorkerState event_queue outbox_db 0 0 0 0.

Definition queued_id : Z := ev_ID first_lease.
Definition queued_row : DeliveryRow :=
  default (mkDeliveryRow None None None "" "" "" [] (new_queue_row 0)) (db_deliveries outbox_db !! queued_id).
Lemma queued_rows : db_deliveries outbox_db = {[queued_id := queued_row]}.
Proof. vm_compute. reflexivity. Qed.
Definition queued_message : EventMessage := default zero_EventMessage (unmarshal_EventMessage (dr_request_body queued_row)).

Lemma queued_acknowledged : acknowledgeable (dr_request_body queued_row) queued_message.
Proof.
  split; [|split; [|split]]; [vm_compute; reflexivity|right; vm_compute; reflexivity|vm_compute; reflexivity|by_deciding].
Qed.

Lemma queued_ready : event_ready outbox_db.
Proof.
  intros id r Hr _. rewrite queued_rows in Hr. apply lookup_singleton_Some in Hr as [_ Hr]. rewrite <- Hr.
  exists queued_message. exact queued_acknowledged.
Qed.

Lemma due_deliveries_delivered_witness :
  exists r', db_deliveries (ws_queue (Run (H0 := storing false) keys worker_env 1 idle_worker)) !! queued_id = Some r' /\
    with_queue r' (dr_queue queued_row) = queued_row /\ qr_status (dr_queue r') = DlvDelivered.
Proof.
  destruct (due_deliveries_delivered (H0 := storing false) keys worker_env (cx_now (ctx 42)) 1 idle_worker queued_id queued_row)
    as (r' & E1 & E2 & E3).
  - intros n request m E. cbv beta iota delta [client_Do storing]. rewrite E. reflexivity.
  - done.
  - done.
  - done.
  - intros n. cbn. unfold second. lia.
  - exact queued_ready.
  - by_deciding.
  - vm_compute. reflexivity.
  - vm_compute. reflexivity.
  - exists r'. split; [exact E1|]. split; [exact E2|]. rewrite E3. vm_compute. reflexivity.
Defined.

(** A worker without the signing key of the delivery. *)
Example keyless_delivery_fails :
  (qr_status ∘ dr_queue) <$> (db_deliveries (ws_queue (Run (H0 := storing false) ∅ worker_env 1 idle_worker)) !! queued_id) = Some DlvFailed.
Proof. vm_compute. reflexivity. Qed.
(** The event is delivered; its picture is due, and has no message yet. *)
Definition event_done_db : DB := after (FinishEventDelivery first_lease DlvDelivered 200 "" (cx_now (ctx 43))) 43 leased_db.
Definition picture_env : WorkerEnv (H := attachment_queue) :=
  Build_WorkerEnv attachment_queue (fun n => ctx (44 + n)) up up (fun n => cx_now (ctx (44 + n))) up.
Definition picture_worker : WorkerState (H := attachment_queue) := mkWorkerState attachment_queue event_done_db 0 0 0 0.
Definition picture_id : Z := default 0 (head (elements (dom (db_attachments event_done_db)))).
Definition picture_row : AttachmentRow :=
  default (mkAttachmentRow 0 None None None (new_queue_row 0)) (db_attachments event_done_db !! picture_id).
Lemma picture_rows : db_attachments event_done_db = {[picture_id := picture_row]}.
Proof. vm_compute. reflexivity. Qed.
Definition parent_row : DeliveryRow := default queued_row (parent_delivered event_done_db picture_row).
Lemma picture_parent : parent_delivered event_done_db picture_row = Some parent_row.
Proof. vm_compute. reflexivity. Qed.

Definition parent_endpoint : NetURL.URL :=
  default (NetURL.mkURL [] [] None [] [] [] false false [] [] []) (NetURL.Parse (dr_endpoint_url parent_row)).

Lemma pictures_ready : picture_ready event_done_db.
Proof.
  intros id a parent Ha _ Hp. rewrite picture_rows in Ha. apply lookup_singleton_Some in Ha as [_ <-].
  rewrite picture_parent in Hp. apply (inj Some) in Hp as <-.
  split; [by_deciding|].
  replace (ar_request_body picture_row) with (None : option bytes) by (vm_compute; reflexivity).
  exists queued_message. split; [vm_compute; reflexivity|]. split; [by_deciding|].
  by_deciding.
Qed.

Lemma due_pictures_delivered_witness :
  exists a', db_attachments (ws_queue (Run (H0 := storing true) keys picture_env 1 picture_worker)) !! picture_id = Some a' /\
    qr_status (ar_queue a') = DlvDelivered /\
    exists m, picture_message event_done_db parent_row = Some m /\
      ar_request_body a' = Some (json_Marshal (attachment_message_json m)).
Proof.
  destruct (due_pictures_delivered (H1 := storing true) keys picture_env (cx_now (ctx 44)) 1 picture_worker picture_id picture_row
              parent_row parent_endpoint) as (a' & body & H1 & _ & H2 & H3 & H4).
  - intros n request m E. cbv beta iota delta [client_Do storing]. rewrite E. reflexivity.
  - done.
  - done.
  - done.
  - intros n. cbn. unfold second. lia.
  - exact pictures_ready.
  - by_deciding.
  - vm_compute. reflexivity.
  - vm_compute. reflexivity.
  - exact picture_parent.
  - vm_compute. reflexivity.
  - exists a'. split; [exact H1|]. split; [rewrite H2; vm_compute; reflexivity|].
    replace (ar_request_body picture_row) with (None : option bytes) in H4 by (vm_compute; reflexivity).
    destruct H4 as (m & Hm & Hb). exists m. split; [exact Hm|]. rewrite <- Hb. exact H3.
Defined.

(** ** The monitor *)

(** One activity is recorded; a browser subscribes, loads the history, and the activity is
    published only then: it is shown from the history and from the hub. *)
Definition recorded_db : DB := after (RecordGatewayActivity login_event) 5 empty_DB.
Definition recorded : activity.Event := default login_event (head (db_activities recorded_db)).
Definition recorded_payload : bytes := default [] (Hub.payload zone recorded).
Definition browser0 : Monitor.t := Monitor.accepted recorded_db Hub.NewHub.
Definition browser1 : Monitor.t := Monitor.subscribe browser0.
Definition browser2 : Monitor.t := Monitor.load 0 (Some (ctx 6)) browser1.
Definition browser3 : Monitor.t := Monitor.with_hub browser2 (publish recorded (Monitor.m_hub browser2)).
Definition browser4 : Monitor.t := Monitor.replay zone 0 [recorded] true browser3.
Definition browser5 : Monitor.t := Monitor.replay zone 0 [] true browser4.
Definition browser6 : Monitor.t := default browser5 (Monitor.stream 0 (Monitor.Message true) browser5).
Definition browsing : list Monitor.label :=
  [Monitor.Joined; Monitor.Internal; Monitor.Published recorded recorded_payload; Monitor.Internal; Monitor.Internal; Monitor.Internal].

Lemma browsed : Monitor.run zone browser0 browsing browser6.
Proof.
  apply (Monitor.run_snoc _ _ [_; _; _; _; _] browser5); [|done|].
  2: { apply (Monitor.s_stream _ _ 0 (Monitor.Message true)); vm_compute; reflexivity. }
  apply (Monitor.run_snoc _ _ [_; _; _; _] browser4); [|done|].
  2: { apply (Monitor.s_replay _ _ 0 [] true); vm_compute; reflexivity. }
  apply (Monitor.run_snoc _ _ [_; _; _] browser3); [|done|].
  2: { apply (Monitor.s_replay _ _ 0 [recorded] true); vm_compute; reflexivity. }
  apply (Monitor.run_snoc _ _ [_; _] browser2).
  2: { intros i [= <-]. by_deciding. }
  2: { apply Monitor.s_publish; [vm_compute; constructor|vm_compute; reflexivity..]. }
  apply (Monitor.run_snoc _ _ [_] browser1); [|done|apply (Monitor.s_load _ _ 0 (Some (ctx 6))); vm_compute; reflexivity].
  apply (Monitor.run_snoc _ _ [] browser0); [apply Monitor.run_nil|done|by apply Monitor.s_subscribe].
Qed.

Lemma monitor_no_gap_witness :
  length (Monitor.shown browser6) = 2%nat /\
  exists history live, Monitor.shown browser6 = (Monitor.lines zone (reverse history) ++ live)%list /\
    (live ++ Hub.buffered 0 (Monitor.m_hub browser6))%list = Monitor.since browsing.
Proof.
  split; [vm_compute; reflexivity|].
  destruct (Monitor.monitor_no_gap zone recorded_db Hub.NewHub browsing browser6 0) as (history & live & H1 & H2 & _).
  - exact Hub.wf_New.
  - exact browsed.
  - vm_compute. reflexivity.
  - exact (ex_intro _ history (ex_intro _ live (conj H1 H2))).
Defined.
