(* ===== verification/SystemWitnesses.v ===== *)
(** The theorems about the database of the whole gateway and about the workers that share a
    queue, applied to concrete runs. *)

From Stdlib Require Import ZArith Lia Ascii String.
From stdpp Require Import base gmap strings list option relations.
From S2P Require Import Prelude GoText GoTime GoJSON GoHTTP GoCrypto AccessControl Config Crypto StoreTypes Wire Database.
From S2P Require Import StoreCore Deliveries Worker Attachments Archive Schema SchemaProofs WorkerSystem World StoreInstance.
From S2P Require Import AdminAPI Gateway GatewayProofs GatewayHistory Scenario AdminScenario Witnesses AdminWitnesses.
Import Scenario AdminScenario.

Local Open Scope string_scope.
Local Open Scope Z_scope.

(** ** The database *)

(** A start on an empty database, an administrator who signs in, and a terminal that
    authenticates. *)
Lemma gateway_run : rtc (gateway_step (env up) cfg handshake) unstarted v2.
Proof.
  apply (rtc_l _ _ v0); [exact (g_start _ _ _ unstarted 0 0 0 nets v0 started_ok)|].
  apply (rtc_l _ _ v1); [apply gateway_answers|]. apply rtc_once, gateway_answers.
Qed.

Lemma database_admitted_witness :
  (bool_decide (db_admin_sessions (w_db v2) <> ∅) && bool_decide (db_sessions (w_db v2) <> ∅)
   && bool_decide (db_activities (w_db v2) <> [])) = true /\
  (exists h, w_db v2 = replay h empty_DB) /\ store_inv (w_db v2).
Proof.
  split; [vm_compute; reflexivity|].
  exact (proj2 (database_admitted (env up) cfg handshake) unstarted v2 eq_refl gateway_run).
Defined.

(** ** The workers *)

(** A worker claims an event; its lease runs out and another worker claims it again; both
    send it, the second one settles it, and the first one is refused. *)
Definition unix : Z := 1700000042.
Definition job1 : Job := mkJob false first_lease None.
Definition job2 : Job := mkJob false second_lease None.
Definition sent1 : Job := mkJob false first_lease (Some (send keys first_lease unix 0)).
Definition sent2 : Job := mkJob false second_lease (Some (DlvDelivered, 200, "")).
Definition exchanges : list Exchange := [mkExchange false first_lease unix; mkExchange false second_lease unix].
Definition settled_db : DB := after (settle false second_lease DlvDelivered 200 "" start) 104 leased_again_db.

Definition sys0 : System := mkSystem outbox_db ∅ [].
Definition sys1 : System := mkSystem leased_db (<[0%nat := job1]> ∅) [].
Definition sys2 : System := mkSystem leased_again_db (<[1%nat := job2]> (<[0%nat := job1]> ∅)) [].
Definition sys3 : System := mkSystem leased_again_db (<[0%nat := sent1]> (sm_jobs sys2)) (take 1 exchanges).
Definition sys4 : System := mkSystem leased_again_db (<[1%nat := sent2]> (sm_jobs sys3)) exchanges.
Definition sys5 : System := mkSystem settled_db (delete 1%nat (sm_jobs sys4)) exchanges.
Definition sys6 : System := mkSystem settled_db (delete 0%nat (sm_jobs sys5)) exchanges.

Lemma second_send : send keys second_lease unix 1 = (DlvDelivered, 200, "").
Proof. vm_compute. reflexivity. Qed.

Lemma workers_run : rtc (system_step keys) sys0 sys6.
Proof.
  apply (rtc_l _ _ sys1); [apply (sys_claim keys 0 false (ctx 42)); [reflexivity|vm_compute; reflexivity]|].
  apply (rtc_l _ _ sys2); [apply (sys_claim keys 1 false (ctx 103)); [reflexivity|vm_compute; reflexivity]|].
  apply (rtc_l _ _ sys3); [apply (sys_send keys 0 false first_lease unix); reflexivity|].
  apply (rtc_l _ _ sys4).
  { unfold sys4, sent2. rewrite <- second_send. apply (sys_send keys 1 false second_lease unix). reflexivity. }
  apply (rtc_l _ _ sys5).
  { apply (sys_settle keys 1 false second_lease DlvDelivered 200 "" start (ctx 104)); [reflexivity|vm_compute; reflexivity]. }
  apply rtc_once, (sys_lose keys 0).
Qed.

Definition settled_queue : QueueRow := default (new_queue_row 0) (queue_row false (ev_ID second_lease) settled_db).

Lemma delivered_was_acknowledged_witness :
  queue_row false (ev_ID second_lease) settled_db = Some settled_queue /\ qr_attempts settled_queue = 2 /\
  exists n x, exchanges !! n = Some x /\ x_ticket x = (false, ev_ID second_lease, 2) /\ acknowledged keys n x.
Proof.
  assert (Hq : queue_row false (ev_ID second_lease) settled_db = Some settled_queue) by (vm_compute; reflexivity).
  split; [exact Hq|]. split; [vm_compute; reflexivity|].
  destruct (proj1 (delivered_was_acknowledged keys outbox_db sys6 workers_run) false (ev_ID second_lease) settled_queue Hq)
    as [Hold|(n & x & Hn & Hx & _ & Hack)].
  - vm_compute. reflexivity.
  - vm_compute in Hold. discriminate Hold.
  - exists n, x. split; [exact Hn|]. split; [|exact Hack]. rewrite Hx. vm_compute. reflexivity.
Defined.
