(* ===== verification/Findings.v ===== *)
(** Behaviours of the code that its documentation does not promise, each shown on
    a concrete run: a gauge that keeps counting a replaced session, a logout whose
    checkpoint survives, a re-sent event whose new payload is not kept, a batch
    rejected for the size of a projected number, search bounds that change their zone
    between pages, an administrator that cannot be renamed, a filter that is
    answered with an internal error, an instant without text that empties a page of
    the archive or rejects a batch, two events that tie in the archive and share its
    pages badly, and a challenge that memory and checkpoint disagree on after a lost
    reply. *)

From Stdlib Require Import ZArith Lia Ascii String.
From stdpp Require Import base gmap strings list option relations.
From S2P Require Import Prelude GoText GoTime GoJSON GoHTTP GoCrypto AccessControl Config Crypto StoreTypes.
From S2P Require Import Wire Database StoreCore Deliveries Worker Archive CommandQueue SyncRuns Commands World.
From S2P Require Import Queries Admin StoreInstance APIInput AdminAPI APIBody Session Service Gateway ServiceInv ServiceSpec.
From S2P Require Import Protocol Scenario AdminScenario.
Import Scenario AdminScenario.

Local Open Scope string_scope.
Local Open Scope Z_scope.

(** The database fails the calls [first .. last] of the process. *)
Definition failing (first last : nat) : Env :=
  env (fun n => (first <=? n)%nat && (n <=? last)%nat).

(** AuthInfo of an online terminal: the new checkpoint is written, then the state
    transition and the restoration of the old checkpoint fail. *)
Definition half_replaced : World :=
  let n := w_calls w3 in (authInfo (failing (n + 1) (n + 2)) front [] w3).2.

Example gauge_counts_replaced_session :
  SessionsActive w3 = 1 /\ size (online w3) = 1%nat /\
  SessionsActive half_replaced = 1 /\ size (online half_replaced) = 0%nat.
Proof. vm_compute. done. Qed.

(** Logout whose checkpoint cannot be deleted: the terminal is offline and its session
    is no longer authenticated, but a restart finds the checkpoint and the very same
    proof is accepted again. *)
Definition half_logged_out : World :=
  let n := w_calls w4 in (ServeHTTP (failing (n + 1) (n + 1)) cfg logout_request w4).2.
Definition revived : World := (RestoreSessions (env up) cfg (NewService (w_db half_logged_out) 200 200 200)).2.

Example failed_logout_survives_restart :
  s_Authenticated <$> session_at half_logged_out front = Some false /\
  s_Authenticated <$> session_at revived front = Some true /\
  accepted (response (request "PUSH-1" "CommandRequest" (req_MyCustomAuth logout_request) []) revived).
Proof.
  split; [vm_compute; reflexivity|]. split; [vm_compute; reflexivity|].
  unfold accepted. apply (bool_decide_eq_false_1 _). vm_compute. reflexivity.
Qed.

(** The same event UUID with another payload: acknowledged, not retained. *)
Definition other_payload : NewDeviceEvent :=
  {| nde_TerminalSerialNumber := "SN-1"; nde_VendorEventID := "event-2"; nde_DataFormat := "jsonData";
     nde_PayloadBase64 := "e30=" |}.
Definition resent_db : DB := after (Archive.InsertDeviceEventBatch [other_payload]) 60 outbox_db.

Example changed_payload_not_retained :
  option_map (List.map dep_Inserted) (value (Archive.InsertDeviceEventBatch [other_payload]) 60 outbox_db) = Some [false] /\
  map_to_list (db_device_events resent_db) = map_to_list (db_device_events outbox_db).
Proof. split; vm_compute; reflexivity. Qed.

(** A documented event whose subEventType does not fit the INTEGER column. *)
Definition wide_event (subtype : Z) : NewDeviceEvent :=
  {| nde_TerminalSerialNumber := "SN-1"; nde_VendorEventID := "event-3"; nde_DataFormat := "jsonData";
     nde_PayloadBase64 := b64_EncodeToString (json_Marshal (OObject
       [("eventType", OString "AccessControllerEvent");
        ("AccessControllerEvent", OObject [("majorEventType", OInt 5); ("subEventType", OInt subtype)])])) |}.

Example wide_number_rejects_batch :
  is_Some (value (Archive.InsertDeviceEventBatch [wide_event 2147483647]) 61 online_db) /\
  value (Archive.InsertDeviceEventBatch [other_payload; wide_event 2147483648]) 61 online_db = None.
Proof. split; [eexists|]; vm_compute; reflexivity. Qed.

(** The terminal reports its clock in +05:00; the second page is searched in the zone
    of the gateway process. *)
Definition second_page_db : DB := after (complete [page_result]) 34 page_db.
Definition search_bounds (d : DB) (uuid : string) : option (list string) :=
  r ← db_commands d !! uuid;
  match parse_document (cr_request_data r) with
  | Some (JObject [(_, (_, JObject members))]) =>
      Some (omap (fun m => if bool_decide (m.1 = "startTime" \/ m.1 = "endTime") then decode_string "" m.2.2 else None)
              members)
  | _ => None
  end.

Example pages_change_zone :
  search_bounds page_db page_uuid = Some ["2000-01-01T00:00:00+05:00"; "2023-11-14T22:13:20+05:00"] /\
  search_bounds second_page_db (uuid_at 35 second_page_db) =
    Some ["2000-01-01T00:00:00Z"; "2023-11-14T17:13:20Z"].
Proof. split; vm_compute; reflexivity. Qed.

(** ADMIN_USERNAME is changed once the old administrator has saved a route: the route
    still refers to the old row, so the start fails. *)
Definition renamed : string := "operator".

Example route_pins_administrator :
  is_Some (value (ReconcileConfiguredAdministrator renamed (AdminPassword cfg)) 62 online_db) /\
  value (ReconcileConfiguredAdministrator renamed (AdminPassword cfg)) 62 route_db = None.
Proof. split; [eexists|]; vm_compute; reflexivity. Qed.

(** A subtype that the API accepts and the INTEGER parameter of the query does not hold. *)
Definition wide_filter (subtype : string) : APIRequest :=
  mkAPIRequest {| req_Path := "/api/v1/admin/events"; req_Method := "GET";
                  req_RawQuery := "category=event&subtype=" +:+ subtype; req_ContentType := ""; req_MyCustomAuth := "";
                  req_Body := []; req_Broken := false |}
    "" 0 cookie "" "https" "gateway.example" false "10.1.2.3:5000" None.
Definition status_of (request : APIRequest) : option Z :=
  match (AdminAPI.deviceEvents (env up) request no_value v1).1 with Ok a => answer_status a | Err _ => None end.

Example wide_subtype_internal_error :
  status_of (wide_filter "75") = Some 200 /\ status_of (wide_filter "-1") = Some 400 /\
  status_of (wide_filter "2147483648") = Some 500.
Proof. split_and!; vm_compute; reflexivity. Qed.

(** A terminal whose clock reads the last second of 9999, five hours behind UTC: the instant is
    in the year 10000 for the process, and [time.Time.MarshalJSON] refuses it. *)
Definition late_event (state : string) : NewDeviceEvent :=
  {| nde_TerminalSerialNumber := "SN-1"; nde_VendorEventID := "event-late"; nde_DataFormat := "jsonData";
     nde_PayloadBase64 := b64_EncodeToString (json_Marshal (OObject
       [("eventType", OString "AccessControllerEvent"); ("eventState", OString state);
        ("dateTime", OString "9999-12-31T23:59:59-05:00");
        ("AccessControllerEvent", OObject [("majorEventType", OInt 5); ("subEventType", OInt 75)])])) |}.
Definition late_db : DB := after (Archive.InsertDeviceEventBatch [late_event "inactive"]) 60 route_db.
Definition archive_page (d : DB) : option DeviceEventPage := value (QueryDeviceEvents archive_query) 61 d.

(** The archive takes the event, and the page that lists it is answered with no body. *)
Example unprintable_time_empties_page :
  option_map (fun p => length (page_Events p)) (archive_page late_db) = Some 1%nat /\
  option_map (fun p => body zone (VDeviceEvents p)) (archive_page late_db) = Some [].
Proof. split; vm_compute; reflexivity. Qed.

(** The same event, active on a terminal with a route: its batch is refused, every time. *)
Example unprintable_time_rejects_batch :
  Archive.InsertDeviceEventBatch [face_event; late_event "active"] (ctx 60) route_db = Err (ErrText "json.Marshal").
Proof. vm_compute. reflexivity. Qed.

(** A live and a retained event with the first number of their tables, stored at one instant:
    they tie in the order of the archive.  The second and the third page of one row show both
    when one plan reads them, and the live event twice when two plans do. *)
Definition tied_db : DB :=
  after (complete [page_result]) 34 (after (Archive.InsertDeviceEventBatch [face_event]) 34 page_db).
Definition one_by_one (k : nat) : DeviceEventQuery :=
  page_at {| dq_Limit := 1; dq_Offset := 0; dq_MajorEventType := None; dq_SubEventType := None;
             dq_Terminal := "SN-1"; dq_Source := "" |} k.
Definition listed_rows (k plan : nat) : option (list (string * Z)) :=
  (fun p => (fun e => (dev_Source e, dev_ID e)) <$> page_Events p) <$> value (QueryDeviceEvents (one_by_one k)) plan tied_db.

Example tied_events_repeat :
  untied_b tied_db = false /\
  listed_rows 1 0 = Some [("pushsdk", 1)] /\ listed_rows 2 0 = Some [("isapi", 1)] /\
  listed_rows 2 2 = Some [("pushsdk", 1)].
Proof. split_and!; vm_compute; reflexivity. Qed.

(** A command poll, its second call the checkpoint, which commits while the reply of the commit is lost: the service
    goes back to the old challenge in memory, and the checkpoint has the new one. *)
Definition losing (call : nat) : Env :=
  {| env_now := env_now (env up); env_rand := env_rand (env up); env_fault := up;
     env_lost := fun n => (n =? call)%nat; env_ctx := env_ctx (env up) |}.
Definition unheard : World := (ServeHTTP (losing (w_calls w2 + 1)) cfg command_request w2).2.
Definition memory_challenge (w : World) : option string := s_NextChallenge <$> session_at w front.
Definition stored_challenge (w : World) : option string := ps_NextChallenge <$> checkpoint_at w front.

Example lost_reply_splits_challenge :
  memory_challenge w2 = stored_challenge w2 /\ is_Some (stored_challenge w2) /\
  memory_challenge unheard = memory_challenge w2 /\
  stored_challenge unheard <> memory_challenge unheard.
Proof. split_and!; [vm_compute; reflexivity|by eexists; vm_compute|vm_compute; reflexivity|]. vm_compute. discriminate. Qed.
